(** * The chain-state cache of zen: coins.cpp and undo.h

    A shallow embedding of [CCoins], [CCoinsViewCache], [CCoinsModifier]
    (src/coins.cpp) and of [CBlockUndo] (src/undo.h), and the properties of
    the specification proved over it.

    Conventions of the embedding.
    - A C++ member function that mutates the cache becomes a function of the
      state monad [M] over [CCoinsViewCache]; [const] member functions that
      fill the [mutable] cache maps are in [M] as well.  A failed [assert]
      (and an exception such as [std::out_of_range]) is the result [None].
    - A [bool] result with a filled out-parameter is an [option].
    - [int] and [int64_t] are [Z]; arithmetic on them is wrapped to 32 and 64
      bits in two's complement ([int32], [int64]).
    - [uint256] and the other opaque digests are [N], the null digest is [0].
    - [boost::unordered_map] and [std::map] are [gmap], [std::set] is [gset].
    - [cachedCoinsUsage], the memory-accounting counter, is left out: it is
      computed by memusage.h from vector capacities and is no part of the
      state the specification describes. *)

From Stdlib Require Import ZArith Lia List Bool.
From Stdlib.Strings Require Byte.
From stdpp Require Import base option list numbers gmap fin_maps.

Local Open Scope Z_scope.

(** ** Machine integers *)

Definition wrap_signed (w x : Z) : Z := (x + 2 ^ (w - 1)) mod 2 ^ w - 2 ^ (w - 1).
Definition int32 (x : Z) : Z := wrap_signed 32 x.
Definition int64 (x : Z) : Z := wrap_signed 64 x.
Definition uint32 (x : Z) : Z := x mod 2 ^ 32.
Definition size_t_of (x : Z) : Z := x mod 2 ^ 64.

Definition in_int64 (x : Z) : Prop := - 2 ^ 63 <= x < 2 ^ 63.
Definition in_int32 (x : Z) : Prop := - 2 ^ 31 <= x < 2 ^ 31.

Abbreviation uint256 := N (only parsing).
Abbreviation CAmount := Z (only parsing).
Abbreviation CScript := (list Byte.byte) (only parsing).
Abbreviation ScFieldElement := N (only parsing).

Definition uint256_IsNull (h : uint256) : bool := N.eqb h 0%N.

(** ** CTxOut *)

(** Modelled from the spec: [CTxOut] is declared in primitives/transaction.h,
    which is not among the sources.  An output is a value and a script, and
    null is the canonical empty output; the canonical null output is taken
    with value [-1] and the empty script, and [IsNull] tests the value. *)
Record CTxOut := mkTxOut { nValue : CAmount; scriptPubKey : CScript }.

Definition CTxOut_null : CTxOut := mkTxOut (-1) [].
Definition CTxOut_SetNull (o : CTxOut) : CTxOut := CTxOut_null.
Definition CTxOut_IsNull (o : CTxOut) : bool := nValue o =? -1.

(** ** CCoins *)

Record CCoins := mkCoins {
  fCoinBase : bool;
  vout : list CTxOut;
  nHeight : Z;
  nVersion : Z;
  nFirstBwtPos : Z;
  nBwtMaturityHeight : Z
}.

Definition set_vout (v : list CTxOut) (c : CCoins) : CCoins :=
  mkCoins (fCoinBase c) v (nHeight c) (nVersion c) (nFirstBwtPos c) (nBwtMaturityHeight c).

(** [while (vout.size() > 0 && vout.back().IsNull()) vout.pop_back();]
    The loop pops one element per turn, so [length v] turns are enough. *)
Fixpoint Cleanup_loop (n : nat) (v : list CTxOut) : list CTxOut :=
  match n with
  | O => v
  | S n' =>
      match last v with
      | Some o => if CTxOut_IsNull o then Cleanup_loop n' (removelast v) else v
      | None => v
      end
  end.

(** [CCoins::Cleanup]; the swap with an empty vector only releases capacity. *)
Definition Cleanup (c : CCoins) : CCoins :=
  set_vout (Cleanup_loop (length (vout c)) (vout c)) c.

(** [CCoins::IsPruned] *)
Definition IsPruned (c : CCoins) : bool := forallb CTxOut_IsNull (vout c).

(** [CCoins::IsAvailable] *)
Definition IsAvailable (nPos : Z) (c : CCoins) : bool :=
  (nPos <? Z.of_nat (length (vout c))) &&
  match vout c !! Z.to_nat nPos with
  | Some o => negb (CTxOut_IsNull o)
  | None => false
  end.

(** [CCoins::Spend]; [nPos] is a [uint32_t]. *)
Definition Spend (nPos : Z) (c : CCoins) : bool * CCoins :=
  match vout c !! Z.to_nat nPos with
  | Some o =>
      if (nPos >=? Z.of_nat (length (vout c))) || CTxOut_IsNull o then (false, c)
      else (true, Cleanup (set_vout (<[Z.to_nat nPos := CTxOut_SetNull o]> (vout c)) c))
  | None => (false, c)
  end.

(** ** Sidechain records (sc/sidechain.h is not among the sources: the
       fields are those coins.cpp reads and writes) *)

Abbreviation ZCIncrementalMerkleTree := (list N) (only parsing).

(** Modelled from the spec: [CSidechain::State] is declared in sc/sidechain.h,
    not among the sources; the states are those the spec lists and coins.cpp
    names. *)
Inductive State := NOT_APPLICABLE | UNCONFIRMED | ALIVE | CEASED.

(** Modelled from the spec: the creation parameters of a sidechain
    (sc/sidechain.h, not among the sources), with the fields coins.cpp
    copies from the creation output. *)
Record ScCreationParameters := mkCreationData {
  withdrawalEpochLength : Z;
  customData : list Byte.byte;
  constant : list Byte.byte;
  wCertVk : list Byte.byte;
  wMbtrVk : option (list Byte.byte)
}.

(** Modelled from the spec: the sidechain record of sc/sidechain.h, not among
    the sources, with the fields that [UpdateSidechain], [RestoreSidechain]
    and [HandleSidechainEvents] read and write. *)
Record CSidechain := mkSidechain {
  creationBlockHash : uint256;
  creationBlockHeight : Z;
  creationTxHash : uint256;
  lastTopQualityCertReferencedEpoch : Z;
  lastTopQualityCertHash : uint256;
  lastTopQualityCertQuality : Z;
  lastTopQualityCertBwtAmount : CAmount;
  lastTopQualityCertDataHash : ScFieldElement;
  pastEpochTopQualityCertDataHash : ScFieldElement;
  balance : CAmount;
  creationData : ScCreationParameters;
  mImmatureAmounts : gmap Z CAmount;
  currentState : State
}.

Definition set_balance (b : CAmount) (s : CSidechain) : CSidechain :=
  mkSidechain (creationBlockHash s) (creationBlockHeight s) (creationTxHash s)
    (lastTopQualityCertReferencedEpoch s) (lastTopQualityCertHash s)
    (lastTopQualityCertQuality s) (lastTopQualityCertBwtAmount s)
    (lastTopQualityCertDataHash s) (pastEpochTopQualityCertDataHash s) b
    (creationData s) (mImmatureAmounts s) (currentState s).

Definition set_pastEpochTopQualityCertDataHash (h : ScFieldElement) (s : CSidechain) : CSidechain :=
  mkSidechain (creationBlockHash s) (creationBlockHeight s) (creationTxHash s)
    (lastTopQualityCertReferencedEpoch s) (lastTopQualityCertHash s)
    (lastTopQualityCertQuality s) (lastTopQualityCertBwtAmount s)
    (lastTopQualityCertDataHash s) h (balance s)
    (creationData s) (mImmatureAmounts s) (currentState s).

Definition set_lastTopQualityCertDataHash (h : ScFieldElement) (s : CSidechain) : CSidechain :=
  mkSidechain (creationBlockHash s) (creationBlockHeight s) (creationTxHash s)
    (lastTopQualityCertReferencedEpoch s) (lastTopQualityCertHash s)
    (lastTopQualityCertQuality s) (lastTopQualityCertBwtAmount s)
    h (pastEpochTopQualityCertDataHash s) (balance s)
    (creationData s) (mImmatureAmounts s) (currentState s).

(** The five assignments to the [lastTopQualityCert...] fields. *)
Definition set_lastTopQualityCert (hash : uint256) (epoch quality : Z) (bwt : CAmount)
    (data : ScFieldElement) (s : CSidechain) : CSidechain :=
  mkSidechain (creationBlockHash s) (creationBlockHeight s) (creationTxHash s)
    epoch hash quality bwt data (pastEpochTopQualityCertDataHash s) (balance s)
    (creationData s) (mImmatureAmounts s) (currentState s).

Definition set_mImmatureAmounts (m : gmap Z CAmount) (s : CSidechain) : CSidechain :=
  mkSidechain (creationBlockHash s) (creationBlockHeight s) (creationTxHash s)
    (lastTopQualityCertReferencedEpoch s) (lastTopQualityCertHash s)
    (lastTopQualityCertQuality s) (lastTopQualityCertBwtAmount s)
    (lastTopQualityCertDataHash s) (pastEpochTopQualityCertDataHash s) (balance s)
    (creationData s) m (currentState s).

Definition set_currentState (st : State) (s : CSidechain) : CSidechain :=
  mkSidechain (creationBlockHash s) (creationBlockHeight s) (creationTxHash s)
    (lastTopQualityCertReferencedEpoch s) (lastTopQualityCertHash s)
    (lastTopQualityCertQuality s) (lastTopQualityCertBwtAmount s)
    (lastTopQualityCertDataHash s) (pastEpochTopQualityCertDataHash s) (balance s)
    (creationData s) (mImmatureAmounts s) st.

(** Modelled from the spec: the events of one height (sc/sidechain.h, not
    among the sources), the ids maturing and the ids ceasing there, each a
    [std::set]. *)
Record CSidechainEvents := mkEvents {
  maturingScs : gset N;
  ceasingScs : gset N
}.

Definition CSidechainEvents_default : CSidechainEvents := mkEvents ∅ ∅.

(** Modelled from the spec: [CSidechainEvents::IsNull] is defined in
    sc/sidechain.h, not among the sources; an entry is null when both sets are
    empty. *)
Definition CSidechainEvents_IsNull (e : CSidechainEvents) : bool :=
  bool_decide (maturingScs e = ∅) && bool_decide (ceasingScs e = ∅).

(** The certificate as its getters present it ([GetHash], [GetScId],
    [GetValueOfBackwardTransfers], [GetDataHash], [GetVout], [IsCoinBase]). *)
Record CScCertificate := mkCert {
  cert_GetHash : uint256;
  cert_GetScId : uint256;
  epochNumber : Z;
  quality : Z;
  cert_GetValueOfBackwardTransfers : CAmount;
  cert_GetDataHash : ScFieldElement;
  cert_GetVout : list CTxOut;
  cert_nVersion : Z;
  cert_nFirstBwtPos : Z;
  cert_IsCoinBase : bool
}.

Record CTransaction := mkTx {
  tx_IsCoinBase : bool;
  tx_GetVout : list CTxOut;
  tx_nVersion : Z
}.

(** ** What the sources use and do not define *)

(** Constants and member functions of headers that are not among the
    sources.  Every definition below that needs one takes the instance as a
    parameter, and the theorems hold for every instance. *)
Class Externals := {
  (** [CScCertificate::EPOCH_NULL], [CScCertificate::QUALITY_NULL] *)
  EPOCH_NULL : Z;
  QUALITY_NULL : Z;
  (** [BWT_POS_UNSET] of coins.h *)
  BWT_POS_UNSET : Z;
  (** the sections of [CSidechainUndoData::AvailableSections] that coins.cpp
      names and the undo.h of the sources does not *)
  CROSS_EPOCH_CERT_DATA : Z;
  ANY_EPOCH_CERT_DATA : Z;
  CEASED_CERT_DATA : Z;
  (** [CScript::IsUnspendable] *)
  IsUnspendable : CScript -> bool;
  (** [CSidechain::CSidechain()], [CSidechain::StartHeightForEpoch],
      [CSidechain::SafeguardMargin] *)
  CSidechain_default : CSidechain;
  StartHeightForEpoch : CSidechain -> Z -> Z;
  SafeguardMargin : CSidechain -> Z;
  (** [ZCIncrementalMerkleTree::root] *)
  tree_root : ZCIncrementalMerkleTree -> uint256
}.

(** [CCoins::CCoins()] and [CCoins::Clear] *)
Definition CCoins_default `{Externals} : CCoins := mkCoins false [] 0 0 BWT_POS_UNSET 0.
Definition Clear `{Externals} (c : CCoins) : CCoins := CCoins_default.

(** [CCoins::ClearUnspendable] *)
Definition ClearUnspendable `{Externals} (c : CCoins) : CCoins :=
  Cleanup (set_vout
    (map (fun txout => if IsUnspendable (scriptPubKey txout) then CTxOut_SetNull txout else txout)
       (vout c)) c).

(** [CCoins::From(const CTransaction&, int)] *)
Definition From_tx `{Externals} (tx : CTransaction) (nHeightIn : Z) : CCoins :=
  ClearUnspendable (mkCoins (tx_IsCoinBase tx) (tx_GetVout tx) nHeightIn (tx_nVersion tx) BWT_POS_UNSET 0).

(** The loop [for (bwtPos = nFirstBwtPos; bwtPos < vout.size(); ++bwtPos)
    Spend(bwtPos)] of [From(const CScCertificate&, ...)]; [bwtPos] is an
    [unsigned int]. *)
Fixpoint From_cert_loop (n : nat) (bwtPos : Z) (c : CCoins) : CCoins :=
  match n with
  | O => c
  | S n' =>
      if bwtPos <? Z.of_nat (length (vout c))
      then From_cert_loop n' (uint32 (bwtPos + 1)) (snd (Spend bwtPos c))
      else c
  end.

(** [CCoins::From(const CScCertificate&, int, int, bool)] *)
Definition From_cert `{Externals} (cert : CScCertificate) (nHeightIn bwtMaturityHeight : Z)
    (isBlockTopQualityCert : bool) : CCoins :=
  let c := mkCoins (cert_IsCoinBase cert) (cert_GetVout cert) nHeightIn (cert_nVersion cert)
             (cert_nFirstBwtPos cert) bwtMaturityHeight in
  let c := if negb isBlockTopQualityCert
           then From_cert_loop (length (vout c)) (uint32 (nFirstBwtPos c)) c
           else c in
  ClearUnspendable c.

(** ** Undo records (undo.h) *)

Record CTxInUndo := mkTxInUndo {
  undo_txout : CTxOut;
  undo_fCoinBase : bool;
  undo_nHeight : Z;
  undo_nVersion : Z;
  undo_nFirstBwtPos : Z;
  undo_nBwtMaturityHeight : Z
}.

(** [CTxInUndo(const CTxOut&)], the other arguments at their defaults *)
Definition CTxInUndo_of `{Externals} (o : CTxOut) : CTxInUndo :=
  mkTxInUndo o false 0 0 BWT_POS_UNSET 0.

Record CTxUndo := mkTxUndo { vprevout : list CTxInUndo }.

(** [CSidechainUndoData::AvailableSections::MATURED_AMOUNTS] *)
Definition MATURED_AMOUNTS : Z := 2.

(** [CSidechainUndoData] with the fields coins.cpp reads and writes (the
    undo.h of the sources declares an earlier layout of the same struct). *)
Record CSidechainUndoData := mkScUndo {
  contentBitMask : Z;
  undo_pastEpochTopQualityCertDataHash : ScFieldElement;
  prevTopCommittedCertReferencedEpoch : Z;
  prevTopCommittedCertHash : uint256;
  prevTopCommittedCertQuality : Z;
  prevTopCommittedCertBwtAmount : CAmount;
  undo_lastTopQualityCertDataHash : ScFieldElement;
  appliedMaturedAmount : CAmount;
  ceasedBwts : list CTxInUndo
}.

(** [CSidechainUndoData::CSidechainUndoData()] *)
Definition CSidechainUndoData_default `{Externals} : CSidechainUndoData :=
  mkScUndo 0 0%N EPOCH_NULL 0%N QUALITY_NULL 0 0%N 0 [].

Definition set_contentBitMask (m : Z) (u : CSidechainUndoData) : CSidechainUndoData :=
  mkScUndo m (undo_pastEpochTopQualityCertDataHash u) (prevTopCommittedCertReferencedEpoch u)
    (prevTopCommittedCertHash u) (prevTopCommittedCertQuality u) (prevTopCommittedCertBwtAmount u)
    (undo_lastTopQualityCertDataHash u) (appliedMaturedAmount u) (ceasedBwts u).

Definition set_undo_pastEpochTopQualityCertDataHash (h : ScFieldElement) (u : CSidechainUndoData) :
    CSidechainUndoData :=
  mkScUndo (contentBitMask u) h (prevTopCommittedCertReferencedEpoch u)
    (prevTopCommittedCertHash u) (prevTopCommittedCertQuality u) (prevTopCommittedCertBwtAmount u)
    (undo_lastTopQualityCertDataHash u) (appliedMaturedAmount u) (ceasedBwts u).

(** The five assignments that save the previous top certificate. *)
Definition set_prevTopCommittedCert (hash : uint256) (epoch q : Z) (bwt : CAmount)
    (data : ScFieldElement) (u : CSidechainUndoData) : CSidechainUndoData :=
  mkScUndo (contentBitMask u) (undo_pastEpochTopQualityCertDataHash u) epoch hash q bwt data
    (appliedMaturedAmount u) (ceasedBwts u).

Definition set_appliedMaturedAmount (a : CAmount) (u : CSidechainUndoData) : CSidechainUndoData :=
  mkScUndo (contentBitMask u) (undo_pastEpochTopQualityCertDataHash u)
    (prevTopCommittedCertReferencedEpoch u) (prevTopCommittedCertHash u)
    (prevTopCommittedCertQuality u) (prevTopCommittedCertBwtAmount u)
    (undo_lastTopQualityCertDataHash u) a (ceasedBwts u).

Definition set_ceasedBwts (l : list CTxInUndo) (u : CSidechainUndoData) : CSidechainUndoData :=
  mkScUndo (contentBitMask u) (undo_pastEpochTopQualityCertDataHash u)
    (prevTopCommittedCertReferencedEpoch u) (prevTopCommittedCertHash u)
    (prevTopCommittedCertQuality u) (prevTopCommittedCertBwtAmount u)
    (undo_lastTopQualityCertDataHash u) (appliedMaturedAmount u) l.

Record CBlockUndo := mkBlockUndo {
  includesSidechainAttributes : bool;
  vtxundo : list CTxUndo;
  old_tree_root : uint256;
  scUndoDatabyScId : gmap N CSidechainUndoData
}.

(** [blockUndo.scUndoDatabyScId[scId]]: [operator[]] of [std::map] inserts a
    default-constructed value when the key is absent. *)
Definition scUndo_at `{Externals} (scId : uint256) (u : CBlockUndo) : CSidechainUndoData :=
  default CSidechainUndoData_default (scUndoDatabyScId u !! scId).

Definition scUndo_store (scId : uint256) (d : CSidechainUndoData) (u : CBlockUndo) : CBlockUndo :=
  mkBlockUndo (includesSidechainAttributes u) (vtxundo u) (old_tree_root u)
    (<[scId := d]> (scUndoDatabyScId u)).

(** ** Cache entries (coins.h is not among the sources) *)

(** Modelled from the spec: [CCoinsCacheEntry::Flags] and
    [CAnchorsCacheEntry::Flags] of coins.h, not among the sources; DIRTY and
    FRESH are independent bits of the flags byte. *)
Module CCoinsCacheEntry.
Definition DIRTY : Z := 1.
Definition FRESH : Z := 2.
End CCoinsCacheEntry.

Module CAnchorsCacheEntry.
Definition DIRTY : Z := 1.
End CAnchorsCacheEntry.

(** [CSidechainsCacheEntry::Flags] and [CSidechainEventsCacheEntry::Flags],
    an [enum class] *)
Inductive Flags := DEFAULT | FRESH | DIRTY | ERASED.

Global Instance Flags_eq_dec : EqDecision Flags.
Proof. solve_decision. Defined.

Record CCoinsCacheEntry := mkCoinsEntry { coins : CCoins; flags : Z }.
Record CAnchorsCacheEntry := mkAnchorsEntry {
  entered : bool; tree : ZCIncrementalMerkleTree; anchor_flags : Z }.
Record CNullifiersCacheEntry := mkNullifiersEntry { nf_entered : bool; nf_flags : Z }.
Record CSidechainsCacheEntry := mkScEntry { sidechain : CSidechain; flag : Flags }.
Record CSidechainEventsCacheEntry := mkEvEntry { scEvents : CSidechainEvents; ev_flag : Flags }.

(** [flags & BIT] as a condition *)
Definition has_flag (f bit : Z) : bool := negb (Z.land f bit =? 0).

(** ** Views *)

(** The base view as the cache reads it: each getter of [CCoinsView] with its
    out-parameter as an [option]. *)
Record CCoinsView := mkView {
  base_GetCoins : uint256 -> option CCoins;
  base_GetSidechain : uint256 -> option CSidechain;
  base_GetSidechainEvents : Z -> option CSidechainEvents;
  base_GetAnchorAt : uint256 -> option ZCIncrementalMerkleTree;
  base_GetNullifier : uint256 -> bool;
  base_GetScIds : gset N;
  base_GetBestBlock : uint256;
  base_GetBestAnchor : uint256
}.

Record CCoinsViewCache := mkCache {
  base : CCoinsView;
  hasModifier : bool;
  hashBlock : uint256;
  cacheCoins : gmap N CCoinsCacheEntry;
  hashAnchor : uint256;
  cacheAnchors : gmap N CAnchorsCacheEntry;
  cacheNullifiers : gmap N CNullifiersCacheEntry;
  cacheSidechains : gmap N CSidechainsCacheEntry;
  cacheSidechainEvents : gmap Z CSidechainEventsCacheEntry
}.

Definition set_hasModifier (b : bool) (c : CCoinsViewCache) : CCoinsViewCache :=
  mkCache (base c) b (hashBlock c) (cacheCoins c) (hashAnchor c) (cacheAnchors c)
    (cacheNullifiers c) (cacheSidechains c) (cacheSidechainEvents c).
Definition set_cacheCoins (m : gmap N CCoinsCacheEntry) (c : CCoinsViewCache) : CCoinsViewCache :=
  mkCache (base c) (hasModifier c) (hashBlock c) m (hashAnchor c) (cacheAnchors c)
    (cacheNullifiers c) (cacheSidechains c) (cacheSidechainEvents c).
Definition set_hashAnchor (h : uint256) (c : CCoinsViewCache) : CCoinsViewCache :=
  mkCache (base c) (hasModifier c) (hashBlock c) (cacheCoins c) h (cacheAnchors c)
    (cacheNullifiers c) (cacheSidechains c) (cacheSidechainEvents c).
Definition set_cacheAnchors (m : gmap N CAnchorsCacheEntry) (c : CCoinsViewCache) : CCoinsViewCache :=
  mkCache (base c) (hasModifier c) (hashBlock c) (cacheCoins c) (hashAnchor c) m
    (cacheNullifiers c) (cacheSidechains c) (cacheSidechainEvents c).
Definition set_cacheSidechains (m : gmap N CSidechainsCacheEntry) (c : CCoinsViewCache) :
    CCoinsViewCache :=
  mkCache (base c) (hasModifier c) (hashBlock c) (cacheCoins c) (hashAnchor c) (cacheAnchors c)
    (cacheNullifiers c) m (cacheSidechainEvents c).
Definition set_cacheSidechainEvents (m : gmap Z CSidechainEventsCacheEntry) (c : CCoinsViewCache) :
    CCoinsViewCache :=
  mkCache (base c) (hasModifier c) (hashBlock c) (cacheCoins c) (hashAnchor c) (cacheAnchors c)
    (cacheNullifiers c) (cacheSidechains c) m.

(** ** The monad of cache operations *)

Definition M (A : Type) : Type := CCoinsViewCache -> option (A * CCoinsViewCache).

Definition ret {A} (a : A) : M A := fun c => Some (a, c).
Definition bind {A B} (m : M A) (k : A -> M B) : M B :=
  fun c => match m c with Some (a, c') => k a c' | None => None end.
Definition get : M CCoinsViewCache := fun c => Some (c, c).
Definition modify (f : CCoinsViewCache -> CCoinsViewCache) : M unit := fun c => Some (tt, f c).
(** [assert(b)] *)
Definition cpp_assert (b : bool) : M unit := fun c => if b then Some (tt, c) else None.

Notation "x <- m ;; k" := (bind m (fun x => k))
  (at level 20, m at level 99, k at level 200, only parsing).
Notation "' pat <- m ;; k" := (bind m (fun x => match x with pat => k end))
  (at level 20, pat pattern, m at level 99, k at level 200, only parsing).
Notation "m ;; k" := (bind m (fun _ => k))
  (at level 100, k at level 200, right associativity, only parsing).

(** ** CCoinsViewCache: coins *)

(** [CCoinsViewCache::FetchCoins]; the result is the slot the returned
    iterator points to, [None] for [cacheCoins.end()]. *)
Definition FetchCoins (txid : uint256) : M (option CCoinsCacheEntry) := fun c =>
  match cacheCoins c !! txid with
  | Some e => Some (Some e, c)
  | None =>
      match base_GetCoins (base c) txid with
      | None => Some (None, c)
      | Some tmp =>
          let e := mkCoinsEntry tmp (if IsPruned tmp then CCoinsCacheEntry.FRESH else 0) in
          Some (Some e, set_cacheCoins (<[txid := e]> (cacheCoins c)) c)
      end
  end.

(** [CCoinsViewCache::GetCoins] *)
Definition GetCoins (txid : uint256) : M (option CCoins) :=
  it <- FetchCoins txid ;; ret (coins <$> it).

(** [CCoinsViewCache::AccessCoins] *)
Definition AccessCoins (txid : uint256) : M (option CCoins) :=
  it <- FetchCoins txid ;; ret (coins <$> it).

(** [CCoinsViewCache::HaveCoins] *)
Definition HaveCoins (txid : uint256) : M bool :=
  it <- FetchCoins txid ;;
  ret (match it with
       | Some e => negb (bool_decide (vout (coins e) = []))
       | None => false
       end).

(** The coins that a reader finds for [txid]: those of the slot of the
    cache, and those of the base when the cache has no slot. *)
Definition coins_view (c : CCoinsViewCache) (txid : uint256) : option CCoins :=
  match cacheCoins c !! txid with
  | Some e => Some (coins e)
  | None => base_GetCoins (base c) txid
  end.

(** A [CCoinsModifier] holds the iterator [it], here the key of the slot. *)
Record CCoinsModifier := mkModifier { it : uint256 }.

(** [it->second]: the slot behind the iterator; dereferencing an iterator
    whose slot is gone has no result. *)
Definition deref_coins (txid : uint256) : M CCoinsCacheEntry := fun c =>
  match cacheCoins c !! txid with
  | Some e => Some (e, c)
  | None => None
  end.

Definition store_coins (txid : uint256) (e : CCoinsCacheEntry) : M unit :=
  modify (fun c => set_cacheCoins (<[txid := e]> (cacheCoins c)) c).

(** [CCoinsModifier::CCoinsModifier] *)
Definition CCoinsModifier_ctor (it_ : uint256) : M CCoinsModifier :=
  c <- get ;;
  cpp_assert (negb (hasModifier c)) ;;
  modify (set_hasModifier true) ;;
  ret (mkModifier it_).

(** [CCoinsViewCache::ModifyCoins] *)
Definition ModifyCoins `{Externals} (txid : uint256) : M CCoinsModifier :=
  c <- get ;;
  cpp_assert (negb (hasModifier c)) ;;
  let e :=
    match cacheCoins c !! txid with
    | Some e => e
    | None =>
        match base_GetCoins (base c) txid with
        | None => mkCoinsEntry (Clear CCoins_default) CCoinsCacheEntry.FRESH
        | Some co => mkCoinsEntry co (if IsPruned co then CCoinsCacheEntry.FRESH else 0)
        end
    end in
  store_coins txid (mkCoinsEntry (coins e) (Z.lor (flags e) CCoinsCacheEntry.DIRTY)) ;;
  CCoinsModifier_ctor txid.

(** A write through [operator->] of the modifier: [f] is applied to the
    [CCoins] of the slot. *)
Definition Modifier_apply (m : CCoinsModifier) (f : CCoins -> CCoins) : M unit :=
  e <- deref_coins (it m) ;;
  store_coins (it m) (mkCoinsEntry (f (coins e)) (flags e)).

(** [CCoinsModifier::~CCoinsModifier] *)
Definition CCoinsModifier_dtor (m : CCoinsModifier) : M unit :=
  c <- get ;;
  cpp_assert (hasModifier c) ;;
  modify (set_hasModifier false) ;;
  e <- deref_coins (it m) ;;
  store_coins (it m) (mkCoinsEntry (Cleanup (coins e)) (flags e)) ;;
  e <- deref_coins (it m) ;;
  if has_flag (flags e) CCoinsCacheEntry.FRESH && IsPruned (coins e)
  then modify (fun c => set_cacheCoins (delete (it m) (cacheCoins c)) c)
  else ret tt.

(** One turn of the coins loop of [CCoinsViewCache::BatchWrite] (lines
    518-547) for the child slot [child] at [txid]. *)
Definition BatchWrite_coin (txid : uint256) (child : CCoinsCacheEntry) : M unit :=
  if has_flag (flags child) CCoinsCacheEntry.DIRTY then
    c <- get ;;
    match cacheCoins c !! txid with
    | None =>
        if negb (IsPruned (coins child)) then
          cpp_assert (has_flag (flags child) CCoinsCacheEntry.FRESH) ;;
          store_coins txid
            (mkCoinsEntry (coins child) (Z.lor CCoinsCacheEntry.DIRTY CCoinsCacheEntry.FRESH))
        else ret tt
    | Some itUs =>
        if has_flag (flags itUs) CCoinsCacheEntry.FRESH && IsPruned (coins child)
        then modify (fun c => set_cacheCoins (delete txid (cacheCoins c)) c)
        else store_coins txid
               (mkCoinsEntry (coins child) (Z.lor (flags itUs) CCoinsCacheEntry.DIRTY))
    end
  else ret tt.

Fixpoint BatchWrite_coins_loop (l : list (uint256 * CCoinsCacheEntry)) : M unit :=
  match l with
  | [] => ret tt
  | (txid, child) :: l' => BatchWrite_coin txid child ;; BatchWrite_coins_loop l'
  end.

(** The coins part of [CCoinsViewCache::BatchWrite]: the assertion and the
    loop over [mapCoins] (lines 516-550), which drains the child map.  The
    result is the child map after the loop.  An [unordered_map] is walked in
    an order the language leaves open; here it is the order of [map_to_list],
    and since the keys of a map are distinct and a step writes the slot of
    its own key only, no property below depends on it.  The later loops of
    [BatchWrite] write the other four maps and the two hashes only;
    [WriteMutableEntry], which they call, is defined in coins.h. *)
Definition BatchWrite_mapCoins (mapCoins : gmap N CCoinsCacheEntry) :
    M (gmap N CCoinsCacheEntry) :=
  c <- get ;;
  cpp_assert (negb (hasModifier c)) ;;
  BatchWrite_coins_loop (map_to_list mapCoins) ;;
  ret ∅.

(** ** CCoinsViewCache: anchors *)

(** [CCoinsViewCache::GetBestAnchor] *)
Definition GetBestAnchor : M uint256 :=
  c <- get ;;
  (if uint256_IsNull (hashAnchor c)
   then modify (set_hashAnchor (base_GetBestAnchor (base c)))
   else ret tt) ;;
  c <- get ;;
  ret (hashAnchor c).

(** [CCoinsViewCache::GetAnchorAt] *)
Definition GetAnchorAt (rt : uint256) : M (option ZCIncrementalMerkleTree) :=
  c <- get ;;
  match cacheAnchors c !! rt with
  | Some e => if entered e then ret (Some (tree e)) else ret None
  | None =>
      match base_GetAnchorAt (base c) rt with
      | None => ret None
      | Some t =>
          modify (fun c => set_cacheAnchors (<[rt := mkAnchorsEntry true t 0]> (cacheAnchors c)) c) ;;
          ret (Some t)
      end
  end.

(** [CCoinsViewCache::PushAnchor] *)
Definition PushAnchor `{Externals} (t : ZCIncrementalMerkleTree) : M unit :=
  let newrt := tree_root t in
  currentRoot <- GetBestAnchor ;;
  if negb (N.eqb currentRoot newrt) then
    modify (fun c => set_cacheAnchors
      (<[newrt := mkAnchorsEntry true t CAnchorsCacheEntry.DIRTY]> (cacheAnchors c)) c) ;;
    modify (set_hashAnchor newrt)
  else ret tt.

(** [cacheAnchors[currentRoot]]: [operator[]] inserts a default slot when the
    key is absent. *)
Definition anchor_at (rt : uint256) (c : CCoinsViewCache) : CAnchorsCacheEntry :=
  default (mkAnchorsEntry false [] 0) (cacheAnchors c !! rt).

(** [CCoinsViewCache::PopAnchor] *)
Definition PopAnchor (newrt : uint256) : M unit :=
  currentRoot <- GetBestAnchor ;;
  if negb (N.eqb currentRoot newrt) then
    t <- GetAnchorAt currentRoot ;;
    cpp_assert (bool_decide (is_Some t)) ;;
    modify (fun c => set_cacheAnchors
      (<[currentRoot := mkAnchorsEntry false (tree (anchor_at currentRoot c))
                          (anchor_flags (anchor_at currentRoot c))]> (cacheAnchors c)) c) ;;
    modify (fun c => set_cacheAnchors
      (<[currentRoot := mkAnchorsEntry (entered (anchor_at currentRoot c))
                          (tree (anchor_at currentRoot c)) CAnchorsCacheEntry.DIRTY]>
         (cacheAnchors c)) c) ;;
    modify (set_hashAnchor newrt)
  else ret tt.

(** ** CCoinsViewCache: sidechains *)

(** [CCoinsViewCache::FetchSidechains] *)
Definition FetchSidechains (scId : uint256) : M (option CSidechainsCacheEntry) := fun c =>
  match cacheSidechains c !! scId with
  | Some e => Some (Some e, c)
  | None =>
      match base_GetSidechain (base c) scId with
      | None => Some (None, c)
      | Some tmp =>
          let e := mkScEntry tmp DEFAULT in
          Some (Some e, set_cacheSidechains (<[scId := e]> (cacheSidechains c)) c)
      end
  end.

(** [CCoinsViewCache::ModifySidechain]; the result is the slot behind the
    returned iterator. *)
Definition ModifySidechain `{Externals} (scId : uint256) : M CSidechainsCacheEntry := fun c =>
  match cacheSidechains c !! scId with
  | Some e => Some (e, c)
  | None =>
      let e := match base_GetSidechain (base c) scId with
               | Some tmp => mkScEntry tmp DEFAULT
               | None => mkScEntry CSidechain_default FRESH
               end in
      Some (e, set_cacheSidechains (<[scId := e]> (cacheSidechains c)) c)
  end.

(** A write through the iterator [scIt]. *)
Definition store_sidechain (scId : uint256) (e : CSidechainsCacheEntry) : M unit :=
  modify (fun c => set_cacheSidechains (<[scId := e]> (cacheSidechains c)) c).

(** [CCoinsViewCache::AccessSidechain] *)
Definition AccessSidechain (scId : uint256) : M (option CSidechain) :=
  it <- FetchSidechains scId ;; ret (sidechain <$> it).

(** [CCoinsViewCache::HaveSidechain] *)
Definition HaveSidechain (scId : uint256) : M bool :=
  it <- FetchSidechains scId ;;
  ret (match it with
       | Some e => negb (bool_decide (flag e = ERASED))
       | None => false
       end).

(** [CCoinsViewCache::GetSidechain] *)
Definition GetSidechain (scId : uint256) : M (option CSidechain) :=
  it <- FetchSidechains scId ;;
  ret (match it with
       | Some e => if negb (bool_decide (flag e = ERASED)) then Some (sidechain e) else None
       | None => None
       end).

(** [CCoinsViewCache::GetScIds]; the loop visits every slot of
    [cacheSidechains] once. *)
Definition GetScIds : M (gset N) :=
  c <- get ;;
  ret (map_fold
         (fun scId e (scIdsList : gset N) =>
            if bool_decide (flag e = ERASED) then scIdsList ∖ {[scId]} else {[scId]} ∪ scIdsList)
         (base_GetScIds (base c)) (cacheSidechains c)).

(** Lines 1152-1175 of [UpdateSidechain(const CScCertificate&, CBlockUndo&)],
    after the epoch handling has left [currentSc] and [scUndoData]. *)
Definition UpdateSidechain_balance `{Externals} (cert : CScCertificate) (scIt : CSidechainsCacheEntry)
    (currentSc : CSidechain) (scUndoData : CSidechainUndoData) (blockUndo : CBlockUndo) :
    M (bool * CBlockUndo) :=
  let certHash := cert_GetHash cert in
  let scId := cert_GetScId cert in
  let bwtTotalAmount := cert_GetValueOfBackwardTransfers cert in
  if balance currentSc <? bwtTotalAmount then
    store_sidechain scId (mkScEntry currentSc (flag scIt)) ;;
    ret (false, scUndo_store scId scUndoData blockUndo)
  else
    let scUndoData :=
      set_contentBitMask (Z.lor (contentBitMask scUndoData) ANY_EPOCH_CERT_DATA)
        (set_prevTopCommittedCert (lastTopQualityCertHash currentSc)
           (lastTopQualityCertReferencedEpoch currentSc) (lastTopQualityCertQuality currentSc)
           (lastTopQualityCertBwtAmount currentSc) (lastTopQualityCertDataHash currentSc)
           scUndoData) in
    let currentSc :=
      set_lastTopQualityCert certHash (epochNumber cert) (quality cert) bwtTotalAmount
        (cert_GetDataHash cert)
        (set_balance (int64 (balance currentSc - bwtTotalAmount)) currentSc) in
    store_sidechain scId (mkScEntry currentSc DIRTY) ;;
    ret (true, scUndo_store scId scUndoData blockUndo).

(** [CCoinsViewCache::UpdateSidechain(const CScCertificate&, CBlockUndo&)] *)
Definition UpdateSidechain `{Externals} (cert : CScCertificate) (blockUndo : CBlockUndo) :
    M (bool * CBlockUndo) :=
  let scId := cert_GetScId cert in
  let blockUndo := scUndo_store scId (scUndo_at scId blockUndo) blockUndo in
  cpp_assert (uint256_IsNull (prevTopCommittedCertHash (scUndo_at scId blockUndo))) ;;
  have <- HaveSidechain scId ;;
  if negb have then ret (false, blockUndo) else
  scIt <- ModifySidechain scId ;;
  let currentSc := sidechain scIt in
  let scUndoData := scUndo_at scId blockUndo in
  if epochNumber cert =? int32 (lastTopQualityCertReferencedEpoch currentSc + 1) then
    let scUndoData :=
      set_contentBitMask (Z.lor (contentBitMask scUndoData) CROSS_EPOCH_CERT_DATA)
        (set_undo_pastEpochTopQualityCertDataHash (pastEpochTopQualityCertDataHash currentSc)
           scUndoData) in
    let currentSc :=
      set_pastEpochTopQualityCertDataHash (lastTopQualityCertDataHash currentSc) currentSc in
    UpdateSidechain_balance cert scIt currentSc scUndoData blockUndo
  else if epochNumber cert =? lastTopQualityCertReferencedEpoch currentSc then
    if quality cert <=? lastTopQualityCertQuality currentSc then ret (false, blockUndo)
    else
      let currentSc :=
        set_balance (int64 (balance currentSc + lastTopQualityCertBwtAmount currentSc)) currentSc in
      UpdateSidechain_balance cert scIt currentSc scUndoData blockUndo
  else ret (false, blockUndo).

(** [CCoinsViewCache::RestoreSidechain] *)
Definition RestoreSidechain `{Externals} (certToRevert : CScCertificate)
    (sidechainUndo : CSidechainUndoData) : M bool :=
  let certHash := cert_GetHash certToRevert in
  let scId := cert_GetScId certToRevert in
  let bwtTotalAmount := cert_GetValueOfBackwardTransfers certToRevert in
  have <- HaveSidechain scId ;;
  if negb have then ret false else
  scIt <- ModifySidechain scId ;;
  let currentSc := sidechain scIt in
  cpp_assert (N.eqb certHash (lastTopQualityCertHash currentSc)) ;;
  let currentSc := set_balance (int64 (balance currentSc + bwtTotalAmount)) currentSc in
  store_sidechain scId (mkScEntry currentSc (flag scIt)) ;;
  currentSc' <-
    (if epochNumber certToRevert =? int32 (prevTopCommittedCertReferencedEpoch sidechainUndo + 1) then
       cpp_assert (has_flag (contentBitMask sidechainUndo) CROSS_EPOCH_CERT_DATA) ;;
       ret (Some (set_pastEpochTopQualityCertDataHash
                    (undo_pastEpochTopQualityCertDataHash sidechainUndo)
                    (set_lastTopQualityCertDataHash (pastEpochTopQualityCertDataHash currentSc)
                       currentSc)))
     else if epochNumber certToRevert =? prevTopCommittedCertReferencedEpoch sidechainUndo then
       cpp_assert (prevTopCommittedCertQuality sidechainUndo <? quality certToRevert) ;;
       ret (Some (set_balance
                    (int64 (balance currentSc - prevTopCommittedCertBwtAmount sidechainUndo))
                    currentSc))
     else ret None) ;;
  match currentSc' with
  | None => ret false
  | Some currentSc =>
      store_sidechain scId (mkScEntry currentSc (flag scIt)) ;;
      cpp_assert (has_flag (contentBitMask sidechainUndo) ANY_EPOCH_CERT_DATA) ;;
      let currentSc :=
        set_lastTopQualityCert (prevTopCommittedCertHash sidechainUndo)
          (prevTopCommittedCertReferencedEpoch sidechainUndo)
          (prevTopCommittedCertQuality sidechainUndo)
          (prevTopCommittedCertBwtAmount sidechainUndo)
          (undo_lastTopQualityCertDataHash sidechainUndo) currentSc in
      store_sidechain scId (mkScEntry currentSc DIRTY) ;;
      ret true
  end.

(** ** CCoinsViewCache: sidechain events *)

(** [CCoinsViewCache::FetchSidechainEvents] *)
Definition FetchSidechainEvents (height : Z) : M (option CSidechainEventsCacheEntry) := fun c =>
  match cacheSidechainEvents c !! height with
  | Some e => Some (Some e, c)
  | None =>
      match base_GetSidechainEvents (base c) height with
      | None => Some (None, c)
      | Some tmp =>
          let e := mkEvEntry tmp DEFAULT in
          Some (Some e, set_cacheSidechainEvents (<[height := e]> (cacheSidechainEvents c)) c)
      end
  end.

(** [CCoinsViewCache::ModifySidechainEvents] *)
Definition ModifySidechainEvents (height : Z) : M CSidechainEventsCacheEntry := fun c =>
  match cacheSidechainEvents c !! height with
  | Some e => Some (e, c)
  | None =>
      let e := match base_GetSidechainEvents (base c) height with
               | None => mkEvEntry CSidechainEvents_default FRESH
               | Some tmp => mkEvEntry tmp DEFAULT
               end in
      Some (e, set_cacheSidechainEvents (<[height := e]> (cacheSidechainEvents c)) c)
  end.

Definition store_events (height : Z) (e : CSidechainEventsCacheEntry) : M unit :=
  modify (fun c => set_cacheSidechainEvents (<[height := e]> (cacheSidechainEvents c)) c).

(** [CCoinsViewCache::HaveSidechainEvents] *)
Definition HaveSidechainEvents (height : Z) : M bool :=
  it <- FetchSidechainEvents height ;;
  ret (match it with
       | Some e => negb (bool_decide (ev_flag e = ERASED))
       | None => false
       end).

(** [CCoinsViewCache::GetSidechainEvents] *)
Definition GetSidechainEvents (height : Z) : M (option CSidechainEvents) :=
  it <- FetchSidechainEvents height ;;
  ret (match it with
       | Some e => if negb (bool_decide (ev_flag e = ERASED)) then Some (scEvents e) else None
       | None => None
       end).

(** The events that [ModifySidechainEvents] finds for a height: those of
    the slot of the cache, an ERASED one too, those of the base without a
    slot, and none when the base has none. *)
Definition events_at (c : CCoinsViewCache) (height : Z) : CSidechainEvents :=
  match cacheSidechainEvents c !! height with
  | Some e => scEvents e
  | None => default CSidechainEvents_default (base_GetSidechainEvents (base c) height)
  end.

(** [CCoinsViewCache::ScheduleSidechainEvent(const CScCertificate&)] *)
Definition ScheduleSidechainEvent_cert `{Externals} (cert : CScCertificate) : M bool :=
  let scId := cert_GetScId cert in
  pSidechain <- AccessSidechain scId ;;
  match pSidechain with
  | None => ret false
  | Some sc =>
      let curCeasingHeight :=
        int32 (StartHeightForEpoch sc (int32 (epochNumber cert + 1)) + SafeguardMargin sc) in
      let nextCeasingHeight :=
        int32 (curCeasingHeight + withdrawalEpochLength (creationData sc)) in
      have <- HaveSidechainEvents curCeasingHeight ;;
      go_on <-
        (if have then
           scCurCeasingEventIt <- ModifySidechainEvents curCeasingHeight ;;
           let ev := mkEvents (maturingScs (scEvents scCurCeasingEventIt))
                       (ceasingScs (scEvents scCurCeasingEventIt) ∖ {[scId]}) in
           store_events curCeasingHeight
             (mkEvEntry ev (if negb (CSidechainEvents_IsNull ev) then DIRTY else ERASED)) ;;
           ret None
         else
           have_next <- HaveSidechainEvents nextCeasingHeight ;;
           if negb have_next then ret (Some false) else ret (Some true)) ;;
      match go_on with
      | Some returned => ret returned
      | None =>
          scNextCeasingEventIt <- ModifySidechainEvents nextCeasingHeight ;;
          let ev := mkEvents (maturingScs (scEvents scNextCeasingEventIt))
                      ({[scId]} ∪ ceasingScs (scEvents scNextCeasingEventIt)) in
          store_events nextCeasingHeight
            (mkEvEntry ev (if bool_decide (ev_flag scNextCeasingEventIt = FRESH)
                           then ev_flag scNextCeasingEventIt else DIRTY)) ;;
          ret true
      end
  end.

(** ** CCoinsViewCache: ceasing and maturing *)

(** The loop of [NullifyBackwardTransfers] (lines 1195-1210) on the coins
    behind the modifier.  [pos] is an [int], compared with and used as a
    [size_t]; [vout.at] throws out of range.  [vout] never grows and [pos]
    advances, so [length vout] turns are enough. *)
Fixpoint Nullify_loop `{Externals} (n : nat) (pos : Z) (co : CCoins) (nullifiedOuts : list CTxInUndo) :
    option (CCoins * list CTxInUndo) :=
  match n with
  | O => Some (co, nullifiedOuts)
  | S n' =>
      if size_t_of pos <? Z.of_nat (length (vout co)) then
        match vout co !! Z.to_nat (size_t_of pos) with
        | None => None
        | Some o =>
            let nullifiedOuts := nullifiedOuts ++ [CTxInUndo_of o] in
            let co := snd (Spend (uint32 pos) co) in
            let nullifiedOuts :=
              if bool_decide (length (vout co) = 0%nat) then
                match last nullifiedOuts with
                | Some undo =>
                    removelast nullifiedOuts ++
                      [mkTxInUndo (undo_txout undo) (fCoinBase co) (nHeight co) (nVersion co)
                         (nFirstBwtPos co) (nBwtMaturityHeight co)]
                | None => nullifiedOuts
                end
              else nullifiedOuts in
            Nullify_loop n' (int32 (pos + 1)) co nullifiedOuts
        end
      else Some (co, nullifiedOuts)
  end.

(** [CCoinsViewCache::NullifyBackwardTransfers]; the result is
    [nullifiedOuts] after the call. *)
Definition NullifyBackwardTransfers `{Externals} (certHash : uint256)
    (nullifiedOuts : list CTxInUndo) : M (list CTxInUndo) :=
  if uint256_IsNull certHash then ret nullifiedOuts else
  have <- HaveCoins certHash ;;
  if negb have then ret nullifiedOuts else
  m <- ModifyCoins certHash ;;
  e <- deref_coins (it m) ;;
  cpp_assert (negb (nBwtMaturityHeight (coins e) =? 0)) ;;
  match Nullify_loop (length (vout (coins e))) (nFirstBwtPos (coins e)) (coins e) nullifiedOuts with
  | None => fun _ => None
  | Some (co, outs) =>
      Modifier_apply m (fun _ => co) ;;
      CCoinsModifier_dtor m ;;
      ret outs
  end.

Inductive BwtState := BWT_ON | BWT_OFF.

Record CScCertificateStatusUpdateInfo := mkStatusUpdate {
  info_scId : uint256;
  info_certHash : uint256;
  info_certEpoch : Z;
  info_certQuality : Z;
  info_bwtState : BwtState
}.

(** The body of the loop over [scEvents.maturingScs] of
    [HandleSidechainEvents] (lines 1633-1650). *)
Definition HandleSidechainEvents_maturing `{Externals} (height : Z) (maturingScId : uint256)
    (blockUndo : CBlockUndo) : M CBlockUndo :=
  have <- HaveSidechain maturingScId ;;
  cpp_assert have ;;
  scMaturingIt <- ModifySidechain maturingScId ;;
  let sc := sidechain scMaturingIt in
  match mImmatureAmounts sc !! height with
  | None => fun _ => None
  | Some amount =>
      let sc := set_balance (int64 (balance sc + amount)) sc in
      let blockUndo :=
        scUndo_store maturingScId
          (set_appliedMaturedAmount amount (scUndo_at maturingScId blockUndo)) blockUndo in
      let blockUndo :=
        scUndo_store maturingScId
          (set_contentBitMask
             (Z.lor (contentBitMask (scUndo_at maturingScId blockUndo)) MATURED_AMOUNTS)
             (scUndo_at maturingScId blockUndo)) blockUndo in
      let sc := set_mImmatureAmounts (delete height (mImmatureAmounts sc)) sc in
      store_sidechain maturingScId (mkScEntry sc DIRTY) ;;
      ret blockUndo
  end.

Fixpoint HandleSidechainEvents_maturing_loop `{Externals} (height : Z) (ids : list uint256)
    (blockUndo : CBlockUndo) : M CBlockUndo :=
  match ids with
  | [] => ret blockUndo
  | id :: ids' =>
      blockUndo <- HandleSidechainEvents_maturing height id blockUndo ;;
      HandleSidechainEvents_maturing_loop height ids' blockUndo
  end.

(** The body of the loop over [scEvents.ceasingScs] (lines 1656-1683). *)
Definition HandleSidechainEvents_ceasing `{Externals} (ceasingScId : uint256)
    (st : CBlockUndo * option (list CScCertificateStatusUpdateInfo)) :
    M (CBlockUndo * option (list CScCertificateStatusUpdateInfo)) :=
  let '(blockUndo, pCertsStateInfo) := st in
  got <- GetSidechain ceasingScId ;;
  match got with
  | None => fun _ => None
  | Some sc =>
      scIt <- ModifySidechain ceasingScId ;;
      store_sidechain ceasingScId (mkScEntry (set_currentState CEASED (sidechain scIt)) DIRTY) ;;
      let blockUndo :=
        scUndo_store ceasingScId
          (set_contentBitMask
             (Z.lor (contentBitMask (scUndo_at ceasingScId blockUndo)) CEASED_CERT_DATA)
             (scUndo_at ceasingScId blockUndo)) blockUndo in
      if lastTopQualityCertReferencedEpoch sc =? EPOCH_NULL then
        cpp_assert (uint256_IsNull (lastTopQualityCertHash sc)) ;;
        ret (blockUndo, pCertsStateInfo)
      else
        outs <- NullifyBackwardTransfers (lastTopQualityCertHash sc)
                  (ceasedBwts (scUndo_at ceasingScId blockUndo)) ;;
        let blockUndo :=
          scUndo_store ceasingScId (set_ceasedBwts outs (scUndo_at ceasingScId blockUndo))
            blockUndo in
        ret (blockUndo,
             (fun l => l ++ [mkStatusUpdate ceasingScId (lastTopQualityCertHash sc)
                               (lastTopQualityCertReferencedEpoch sc)
                               (lastTopQualityCertQuality sc) BWT_OFF]) <$> pCertsStateInfo)
  end.

Fixpoint HandleSidechainEvents_ceasing_loop `{Externals} (ids : list uint256)
    (st : CBlockUndo * option (list CScCertificateStatusUpdateInfo)) :
    M (CBlockUndo * option (list CScCertificateStatusUpdateInfo)) :=
  match ids with
  | [] => ret st
  | id :: ids' =>
      st <- HandleSidechainEvents_ceasing id st ;;
      HandleSidechainEvents_ceasing_loop ids' st
  end.

(** [CCoinsViewCache::HandleSidechainEvents]; [pCertsStateInfo] is [None]
    for a null pointer.  The two loops visit the ids of a [std::set] once
    each, in the order of [elements]. *)
Definition HandleSidechainEvents `{Externals} (height : Z) (blockUndo : CBlockUndo)
    (pCertsStateInfo : option (list CScCertificateStatusUpdateInfo)) :
    M (bool * CBlockUndo * option (list CScCertificateStatusUpdateInfo)) :=
  have <- HaveSidechainEvents height ;;
  if negb have then ret (true, blockUndo, pCertsStateInfo) else
  got <- GetSidechainEvents height ;;
  let events := default CSidechainEvents_default got in
  blockUndo <- HandleSidechainEvents_maturing_loop height (elements (maturingScs events)) blockUndo ;;
  '(blockUndo, pCertsStateInfo) <-
     HandleSidechainEvents_ceasing_loop (elements (ceasingScs events)) (blockUndo, pCertsStateInfo) ;;
  scCeasingIt <- ModifySidechainEvents height ;;
  store_events height (mkEvEntry (scEvents scCeasingIt) ERASED) ;;
  ret (true, blockUndo, pCertsStateInfo).

(** ** CBlockUndo: serialization (undo.h) *)

Abbreviation Stream := (list Byte.byte) (only parsing).

(** serialize.h is not among the sources.  A writer is the bytes it appends
    to the stream; a reader takes the stream and gives the value read and the
    rest of the stream, or nothing when it throws.  [CTxUndo] is read and
    written through [CTxInUndo], whose format rests on [VARINT] and
    [CTxOutCompressor] (compressor.h), so its reader and writer are taken
    whole. *)
Class SerializeLib := {
  WriteCompactSize : Z -> Stream;
  ReadCompactSize : Stream -> option (Z * Stream);
  Serialize_CTxUndo : CTxUndo -> Stream;
  Unserialize_CTxUndo : Stream -> option (CTxUndo * Stream);
  Serialize_uint256 : uint256 -> Stream;
  Unserialize_uint256 : Stream -> option (uint256 * Stream);
  Serialize_scUndoData : gmap N CSidechainUndoData -> Stream;
  Unserialize_scUndoData : Stream -> option (gmap N CSidechainUndoData * Stream)
}.

(** [CBlockUndo::_marker] *)
Definition _marker : Z := 0xffff.

(** Modelled from the spec: [MAX_BLOCK_SIZE] and [MIN_TX_SIZE] are defined in
    headers that are not among the sources; the values are those of the
    comment on [_marker] in undo.h, 2M and 61 bytes. *)
Definition MAX_BLOCK_SIZE : Z := 2000000.
Definition MIN_TX_SIZE : Z := 61.

(** Modelled from the spec: [::AddEntriesInVector(s, v, nType, nVersion, nSize)]
    is a helper of serialize.h, which is not among the sources.  [n] entries
    are read and appended (the comment at its call in undo.h: the size has
    been consumed already). *)
Fixpoint AddEntriesInVector `{SerializeLib} (n : nat) (s : Stream) (v : list CTxUndo) :
    option (list CTxUndo * Stream) :=
  match n with
  | O => Some (v, s)
  | S n' =>
      match Unserialize_CTxUndo s with
      | Some (x, s') => AddEntriesInVector n' s' (v ++ [x])
      | None => None
      end
  end.

(** Modelled from the spec: [::Serialize(s, vtxundo, ...)] on a vector is a
    template of serialize.h, which is not among the sources: the compact size
    of the vector, then its entries (the legacy format of the spec, a compact
    size that is the count of [CTxUndo] entries). *)
Definition Serialize_vtxundo `{SerializeLib} (v : list CTxUndo) : Stream :=
  WriteCompactSize (Z.of_nat (length v)) ++ concat (map Serialize_CTxUndo v).

(** Modelled from the spec: [::Unserialize(s, vtxundo, ...)] on a vector is a
    template of serialize.h, which is not among the sources: the vector is
    cleared, its size read, then its entries. *)
Definition Unserialize_vtxundo `{SerializeLib} (s : Stream) : option (list CTxUndo * Stream) :=
  match ReadCompactSize s with
  | Some (nSize, s') => AddEntriesInVector (Z.to_nat nSize) s' []
  | None => None
  end.

(** [CBlockUndo::Serialize] *)
Definition CBlockUndo_Serialize `{SerializeLib} (u : CBlockUndo) : Stream :=
  if includesSidechainAttributes u then
    WriteCompactSize _marker ++ Serialize_vtxundo (vtxundo u)
      ++ Serialize_uint256 (old_tree_root u) ++ Serialize_scUndoData (scUndoDatabyScId u)
  else
    Serialize_vtxundo (vtxundo u) ++ Serialize_uint256 (old_tree_root u).

(** [CBlockUndo::Unserialize] into the object [u]; [nSize] is an
    [unsigned int]. *)
Definition CBlockUndo_Unserialize `{SerializeLib} (u : CBlockUndo) (s : Stream) :
    option (CBlockUndo * Stream) :=
  match ReadCompactSize s with
  | None => None
  | Some (n, s) =>
      let nSize := uint32 n in
      if nSize =? _marker then
        match Unserialize_vtxundo s with
        | None => None
        | Some (v, s) =>
            match Unserialize_uint256 s with
            | None => None
            | Some (root, s) =>
                match Unserialize_scUndoData s with
                | None => None
                | Some (m, s) => Some (mkBlockUndo true v root m, s)
                end
            end
        end
      else
        match AddEntriesInVector (Z.to_nat nSize) s [] with
        | None => None
        | Some (v, s) =>
            match Unserialize_uint256 s with
            | None => None
            | Some (root, s) => Some (mkBlockUndo false v root (scUndoDatabyScId u), s)
            end
        end
  end.

(** The best anchor as [GetBestAnchor] returns it. *)
Definition best_anchor (c : CCoinsViewCache) : uint256 :=
  if uint256_IsNull (hashAnchor c) then base_GetBestAnchor (base c) else hashAnchor c.

(** What one turn of the coins loop of [BatchWrite] does to the slot of its
    key: [before] and [after] are the slot of the receiving cache before and
    after the turn for the child slot [child]. *)
Definition BatchWrite_coin_post (child : CCoinsCacheEntry)
    (before after : option CCoinsCacheEntry) : Prop :=
  if has_flag (flags child) CCoinsCacheEntry.DIRTY then
    match before with
    | None =>
        if IsPruned (coins child) then after = None
        else has_flag (flags child) CCoinsCacheEntry.FRESH = true /\
             after = Some (mkCoinsEntry (coins child)
                             (Z.lor CCoinsCacheEntry.DIRTY CCoinsCacheEntry.FRESH))
    | Some itUs =>
        if has_flag (flags itUs) CCoinsCacheEntry.FRESH && IsPruned (coins child)
        then after = None
        else after = Some (mkCoinsEntry (coins child)
                             (Z.lor (flags itUs) CCoinsCacheEntry.DIRTY))
    end
  else after = before.

(** The assertion of the loop holds for the child slot [child] at a key
    whose slot in the receiving cache is [before]. *)
Definition BatchWrite_coin_pre (child : CCoinsCacheEntry) (before : option CCoinsCacheEntry) :
    Prop :=
  has_flag (flags child) CCoinsCacheEntry.DIRTY = true -> before = None ->
  IsPruned (coins child) = false -> has_flag (flags child) CCoinsCacheEntry.FRESH = true.

(** The sidechain that [GetSidechain] answers for [scId]: that of the cache
    slot when there is one and it is not ERASED, the answer of the base when
    the cache has no slot. *)
Definition sidechain_view (c : CCoinsViewCache) (scId : uint256) : option CSidechain :=
  match cacheSidechains c !! scId with
  | Some e => if bool_decide (flag e = ERASED) then None else Some (sidechain e)
  | None => base_GetSidechain (base c) scId
  end.

(** The coins that the cache or its base hold for [txid], when they have
    outputs, have a backward transfer maturity height: what the assertion of
    [NullifyBackwardTransfers] asks of the coins of a certificate. *)
Definition maturity_ok (c : CCoinsViewCache) (txid : uint256) : Prop :=
  (forall e, cacheCoins c !! txid = Some e -> vout (coins e) <> [] ->
     nBwtMaturityHeight (coins e) <> 0) /\
  (forall co, base_GetCoins (base c) txid = Some co -> vout co <> [] ->
     nBwtMaturityHeight co <> 0).

(** What a cache operation leaves alone when it reads and writes sidechain
    slots only. *)
Definition same_but_sidechains (c c' : CCoinsViewCache) : Prop :=
  base c' = base c /\ hasModifier c' = hasModifier c /\ cacheCoins c' = cacheCoins c /\
  cacheSidechainEvents c' = cacheSidechainEvents c.

(** The sidechain record and the undo data of a sidechain after its amount
    of [height] has matured. *)
Definition matured (height : Z) (amount : CAmount) (sc : CSidechain) : CSidechain :=
  set_mImmatureAmounts (delete height (mImmatureAmounts sc))
    (set_balance (int64 (balance sc + amount)) sc).

Definition matured_undo (amount : CAmount) (d : CSidechainUndoData) : CSidechainUndoData :=
  set_contentBitMask (Z.lor (contentBitMask d) MATURED_AMOUNTS) (set_appliedMaturedAmount amount d).

(** What [NullifyBackwardTransfers] leaves alone: it writes slots of
    [cacheCoins] only, closes the modifier it opens, and keeps [maturity_ok]. *)
Definition same_but_coins (c c' : CCoinsViewCache) : Prop :=
  base c' = base c /\ hasModifier c' = hasModifier c /\
  cacheSidechains c' = cacheSidechains c /\
  cacheSidechainEvents c' = cacheSidechainEvents c /\
  (forall txid, maturity_ok c txid -> maturity_ok c' txid).

(** What the assertions of the ceasing loop of [HandleSidechainEvents] ask
    of a ceasing sidechain [sc]: without a certificate its certificate hash is
    null, with one the coins of the certificate pass the assertion of
    [NullifyBackwardTransfers]. *)
Definition ceasing_ok `{Externals} (c : CCoinsViewCache) (sc : CSidechain) : Prop :=
  (lastTopQualityCertReferencedEpoch sc = EPOCH_NULL -> lastTopQualityCertHash sc = 0%N) /\
  (lastTopQualityCertReferencedEpoch sc <> EPOCH_NULL ->
   maturity_ok c (lastTopQualityCertHash sc)).

(** The undo data keep the matured amount they record. *)
Definition keeps_matured `{Externals} (u u' : CBlockUndo) : Prop :=
  forall id,
    appliedMaturedAmount (scUndo_at id u') = appliedMaturedAmount (scUndo_at id u) /\
    (has_flag (contentBitMask (scUndo_at id u)) MATURED_AMOUNTS = true ->
     has_flag (contentBitMask (scUndo_at id u')) MATURED_AMOUNTS = true).

(** ** Concrete views and caches *)

(** [CCoinsView] itself (lines 195-211): every getter answers false or the
    null digest, and [GetScIds] clears the list. *)
Definition CCoinsView_null : CCoinsView :=
  mkView (fun _ => None) (fun _ => None) (fun _ => None) (fun _ => None) (fun _ => false)
    ∅ 0%N 0%N.

(** [CCoinsViewCache::CCoinsViewCache(CCoinsView *baseIn)] *)
Definition CCoinsViewCache_new (baseIn : CCoinsView) : CCoinsViewCache :=
  mkCache baseIn false 0%N ∅ 0%N ∅ ∅ ∅ ∅.

(** ** The scenarios of the specification *)

(** The parameters of the scenarios S1 to S4: epochs start at the creation
    height and are [withdrawalEpochLength] blocks long, the safeguard margin
    is half an epoch (5 blocks for epochs of 10), and a script is unspendable
    when it starts with OP_RETURN. *)
Definition scenario_Externals : Externals := {|
  EPOCH_NULL := -1;
  QUALITY_NULL := -1;
  BWT_POS_UNSET := -1;
  CROSS_EPOCH_CERT_DATA := 1;
  ANY_EPOCH_CERT_DATA := 4;
  CEASED_CERT_DATA := 8;
  IsUnspendable := fun script => match script with Byte.x6a :: _ => true | _ => false end;
  CSidechain_default :=
    mkSidechain 0 (-1) 0 (-1) 0 (-1) 0 0 0 0 (mkCreationData (-1) [] [] [] None) ∅ NOT_APPLICABLE;
  StartHeightForEpoch := fun sc e =>
    int32 (creationBlockHeight sc + e * withdrawalEpochLength (creationData sc));
  SafeguardMargin := fun sc => withdrawalEpochLength (creationData sc) / 2;
  tree_root := fun t => N.of_nat (length t)
|}.

(** The sidechain id [S] of the scenarios. *)
Definition scenario_S : uint256 := 0x5c%N.

(** S1 after the creation at height 200: 100 immature until height 204. *)
Definition sidechain_S1 : CSidechain :=
  mkSidechain 0xb10c 200 0xc4ea (-1) 0 (-1) 0 0 0 0 (mkCreationData 10 [] [] [] None)
    {[204 := 100]} ALIVE.

Definition cache_S1 : CCoinsViewCache :=
  mkCache CCoinsView_null false 0%N ∅ 0%N ∅ ∅
    {[scenario_S := mkScEntry sidechain_S1 FRESH]}
    {[204 := mkEvEntry (mkEvents {[scenario_S]} ∅) FRESH;
      215 := mkEvEntry (mkEvents ∅ {[scenario_S]}) FRESH]}.

(** S1 at height 204, the amount matured. *)
Definition sidechain_S1_204 : CSidechain :=
  mkSidechain 0xb10c 200 0xc4ea (-1) 0 (-1) 0 0 0 100 (mkCreationData 10 [] [] [] None)
    ∅ ALIVE.

Definition cache_S1_204 : CCoinsViewCache :=
  mkCache CCoinsView_null false 0%N ∅ 0%N ∅ ∅
    {[scenario_S := mkScEntry sidechain_S1_204 DIRTY]}
    {[215 := mkEvEntry (mkEvents ∅ {[scenario_S]}) FRESH]}.

(** The certificate of S2: epoch 0, quality 5, backward transfers of 30. *)
Definition cert_S2 : CScCertificate :=
  mkCert 0xce27 scenario_S 0 5 30 0xda7a [mkTxOut 30 []] (-5) 0 false.

Definition blockUndo_new : CBlockUndo := mkBlockUndo true [] 0%N ∅.

(** A cache over the empty view with one coin entry of one output, FRESH. *)
Definition cache_one_coin : CCoinsViewCache :=
  mkCache CCoinsView_null false 0%N
    {[0x7a%N := mkCoinsEntry (mkCoins false [mkTxOut 50 []] 120 1 (-1) 0) CCoinsCacheEntry.FRESH]}
    0%N ∅ ∅ ∅ ∅.

(** A base view that lists the sidechain [S] and has an event entry at 215,
    under a cache that has erased both. *)
Definition view_with_S : CCoinsView :=
  mkView (fun _ => None)
    (fun scId => if N.eqb scId scenario_S then Some sidechain_S1_204 else None)
    (fun h => if h =? 215 then Some (mkEvents ∅ {[scenario_S]}) else None)
    (fun _ => None) (fun _ => false) {[scenario_S]} 0%N 0x0a%N.

Definition cache_erased_S : CCoinsViewCache :=
  mkCache view_with_S false 0%N ∅ 0%N ∅ ∅
    {[scenario_S := mkScEntry sidechain_S1_204 ERASED]}
    {[215 := mkEvEntry (mkEvents ∅ ∅) ERASED]}.

(** The certificate of S2 with backward transfers above the balance. *)
Definition cert_S2_over : CScCertificate :=
  mkCert 0xce28 scenario_S 0 5 130 0xda7a [mkTxOut 130 []] (-5) 0 false.

(** S2: the certificate of S2 is the top certificate, the balance is 70 and
    the sidechain ceases at 225. *)
Definition sidechain_S2 : CSidechain :=
  mkSidechain 0xb10c 200 0xc4ea 0 0xce27 5 30 0xda7a 0 70 (mkCreationData 10 [] [] [] None)
    ∅ ALIVE.

Definition cache_S2 : CCoinsViewCache :=
  mkCache CCoinsView_null false 0%N ∅ 0%N ∅ ∅
    {[scenario_S := mkScEntry sidechain_S2 DIRTY]}
    {[215 := mkEvEntry (mkEvents ∅ ∅) ERASED;
      225 := mkEvEntry (mkEvents ∅ {[scenario_S]}) FRESH]}.

(** The certificate of S3: the same epoch, quality 7. *)
Definition cert_S3 : CScCertificate :=
  mkCert 0xce37 scenario_S 0 7 40 0xda7b [mkTxOut 40 []] (-5) 0 false.

(** S5: the parent holds [tx1] with two outputs; the child has spent output 0
    of [tx1] and has added [tx2]. *)
Definition cache_S5_parent : CCoinsViewCache :=
  mkCache CCoinsView_null false 0%N
    {[1%N := mkCoinsEntry (mkCoins false [mkTxOut 10 []; mkTxOut 20 []] 100 1 (-1) 0) 0]}
    0%N ∅ ∅ ∅ ∅.

Definition mapCoins_S5_child : gmap N CCoinsCacheEntry :=
  {[1%N := mkCoinsEntry (mkCoins false [CTxOut_null; mkTxOut 20 []] 100 1 (-1) 0)
             CCoinsCacheEntry.DIRTY;
    2%N := mkCoinsEntry (mkCoins false [mkTxOut 5 []] 101 1 (-1) 0)
             (Z.lor CCoinsCacheEntry.DIRTY CCoinsCacheEntry.FRESH)]}.

(** A cache whose best anchor is the root of a tree of two commitments. *)
Definition cache_anchor : CCoinsViewCache :=
  mkCache CCoinsView_null false 0%N ∅ 2%N ∅ ∅ ∅ ∅.

(** An instance of the readers and writers to run [CBlockUndo] on: compact
    sizes of one byte below 253 and of three bytes (0xfd, then 16 bits, low
    byte first) up to 0xffff, digests as one compact size, and [CTxUndo] and
    sidechain undo maps that are empty, written as their size 0. *)
Definition byte_of_Z (z : Z) : Byte.byte :=
  default Byte.x00 (Byte.of_N (Z.to_N (z mod 256))).
Definition Z_of_byte (b : Byte.byte) : Z := Z.of_N (Byte.to_N b).

Definition scenario_WriteCompactSize (n : Z) : list Byte.byte :=
  if n <? 253 then [byte_of_Z n]
  else [Byte.xfd; byte_of_Z n; byte_of_Z (n / 256)].

Definition scenario_ReadCompactSize (s : list Byte.byte) : option (Z * list Byte.byte) :=
  match s with
  | [] => None
  | b :: s' =>
      if Z_of_byte b <? 253 then Some (Z_of_byte b, s')
      else if Z_of_byte b =? 253 then
        match s' with
        | lo :: hi :: s'' => Some (Z_of_byte lo + 256 * Z_of_byte hi, s'')
        | _ => None
        end
      else None
  end.

Definition scenario_SerializeLib : SerializeLib := {|
  WriteCompactSize := scenario_WriteCompactSize;
  ReadCompactSize := scenario_ReadCompactSize;
  Serialize_CTxUndo := fun x => scenario_WriteCompactSize (Z.of_nat (length (vprevout x)));
  Unserialize_CTxUndo := fun s =>
    match scenario_ReadCompactSize s with
    | Some (0, s') => Some (mkTxUndo [], s')
    | _ => None
    end;
  Serialize_uint256 := fun h => scenario_WriteCompactSize (Z.of_N h);
  Unserialize_uint256 := fun s =>
    match scenario_ReadCompactSize s with
    | Some (n, s') => Some (Z.to_N n, s')
    | None => None
    end;
  Serialize_scUndoData := fun m => scenario_WriteCompactSize (Z.of_nat (size m));
  Unserialize_scUndoData := fun s =>
    match scenario_ReadCompactSize s with
    | Some (0, s') => Some (∅, s')
    | _ => None
    end
|}.

(** A block undo in the new format: two transactions without inputs. *)
Definition blockUndo_two_tx : CBlockUndo :=
  mkBlockUndo true [mkTxUndo []; mkTxUndo []] 0x0abc%N ∅.

(** ** CCoins: comparison, maturity, availability *)

Global Instance byte_eq_dec : EqDecision Byte.byte := Byte.byte_eq_dec.

Global Instance CTxOut_eq_dec : EqDecision CTxOut.
Proof. solve_decision. Defined.

(** [operator==(const CCoins&, const CCoins&)] (lines 106-116); the vectors
    are compared output by output, an output by its value and its script. *)
Definition CCoins_operator_eq (a b : CCoins) : bool :=
  if IsPruned a && IsPruned b then true
  else
    Bool.eqb (fCoinBase a) (fCoinBase b) &&
    (nHeight a =? nHeight b) &&
    (nVersion a =? nVersion b) &&
    bool_decide (vout a = vout b) &&
    (nFirstBwtPos a =? nFirstBwtPos b) &&
    (nBwtMaturityHeight a =? nBwtMaturityHeight b).

(** [operator!=(const CCoins&, const CCoins&)] *)
Definition CCoins_operator_ne (a b : CCoins) : bool := negb (CCoins_operator_eq a b).

(** Constants of the chain parameters and of the transaction headers, which
    are not among the sources: [COINBASE_MATURITY], [SC_CERT_VERSION], and
    the value that [getScCoinsMaturity] computes once from the parameters of
    the network ([SC_COIN_MATURITY] in the functions that use it). *)
Class ChainParams := {
  COINBASE_MATURITY : Z;
  SC_CERT_VERSION : Z;
  SC_COIN_MATURITY : Z
}.

(** [CCoins::IsCoinBase] *)
Definition IsCoinBase (c : CCoins) : bool := fCoinBase c.

(** [CCoins::IsFromCert] *)
Definition IsFromCert `{ChainParams} (c : CCoins) : bool :=
  Z.land (nVersion c) 0x7f =? Z.land SC_CERT_VERSION 0x7f.

(** [CCoins::isOutputMature]; [outPos] is an [unsigned int], so the [int]
    [nFirstBwtPos] is converted for the comparison. *)
Definition isOutputMature `{ChainParams} (outPos nSpendingHeigh : Z) (c : CCoins) : bool :=
  if negb (IsCoinBase c) && negb (IsFromCert c) then true
  else if IsCoinBase c then nSpendingHeigh >=? int32 (nHeight c + COINBASE_MATURITY)
  else if outPos >=? uint32 (nFirstBwtPos c) then nSpendingHeigh >=? nBwtMaturityHeight c
  else true.

(** The output that the coins hold unspent at position [p]: what
    [IsAvailable] tests and [vout[p]] then gives. *)
Definition unspent_at (c : CCoins) (p : nat) : option CTxOut :=
  match vout c !! p with
  | Some o => if CTxOut_IsNull o then None else Some o
  | None => None
  end.

(** The output of a transaction or certificate that [From] keeps at its
    position: neither null nor unspendable. *)
Definition kept_output `{Externals} (v : list CTxOut) (p : nat) : option CTxOut :=
  match v !! p with
  | Some o => if CTxOut_IsNull o || IsUnspendable (scriptPubKey o) then None else Some o
  | None => None
  end.

(** A certificate with a change output and two backward transfers. *)
Definition cert_two_bwts : CScCertificate :=
  mkCert 0xce51 scenario_S 0 3 50 0xda7c [mkTxOut 7 []; mkTxOut 30 []; mkTxOut 20 []] (-5) 1 false.

(** The chain parameters of the scenarios: coinbases mature after 100
    blocks, sidechain amounts after 4, and certificates carry the version
    [0xfffffffb]. *)
Definition scenario_ChainParams : ChainParams := {|
  COINBASE_MATURITY := 100;
  SC_CERT_VERSION := -5;
  SC_COIN_MATURITY := 4
|}.

(** ** CCoinsViewCache: nullifiers and the best block *)

(** Modelled from the spec: [CNullifiersCacheEntry::Flags] of coins.h, not
    among the sources; a slot is built with [entered = false] and no flag. *)
Module CNullifiersCacheEntry.
Definition DIRTY : Z := 1.
End CNullifiersCacheEntry.

Definition set_cacheNullifiers (m : gmap N CNullifiersCacheEntry) (c : CCoinsViewCache) :
    CCoinsViewCache :=
  mkCache (base c) (hasModifier c) (hashBlock c) (cacheCoins c) (hashAnchor c) (cacheAnchors c)
    m (cacheSidechains c) (cacheSidechainEvents c).
Definition set_hashBlock (h : uint256) (c : CCoinsViewCache) : CCoinsViewCache :=
  mkCache (base c) (hasModifier c) h (cacheCoins c) (hashAnchor c) (cacheAnchors c)
    (cacheNullifiers c) (cacheSidechains c) (cacheSidechainEvents c).

(** [CCoinsViewCache::GetNullifier] *)
Definition GetNullifier (nullifier : uint256) : M bool :=
  c <- get ;;
  match cacheNullifiers c !! nullifier with
  | Some e => ret (nf_entered e)
  | None =>
      let tmp := base_GetNullifier (base c) nullifier in
      modify (fun c => set_cacheNullifiers
                (<[nullifier := mkNullifiersEntry tmp 0]> (cacheNullifiers c)) c) ;;
      ret tmp
  end.

(** [CCoinsViewCache::SetNullifier]; [insert] leaves a slot that is there as
    it is. *)
Definition SetNullifier (nullifier : uint256) (spent : bool) : M unit :=
  modify (fun c =>
    let e := default (mkNullifiersEntry false 0) (cacheNullifiers c !! nullifier) in
    set_cacheNullifiers
      (<[nullifier := mkNullifiersEntry spent (Z.lor (nf_flags e) CNullifiersCacheEntry.DIRTY)]>
         (cacheNullifiers c)) c).

(** [CCoinsViewCache::GetBestBlock] *)
Definition GetBestBlock : M uint256 :=
  c <- get ;;
  (if uint256_IsNull (hashBlock c)
   then modify (set_hashBlock (base_GetBestBlock (base c)))
   else ret tt) ;;
  c <- get ;;
  ret (hashBlock c).

(** [CCoinsViewCache::SetBestBlock] *)
Definition SetBestBlock (hashBlockIn : uint256) : M unit := modify (set_hashBlock hashBlockIn).

(** A loop over the entries of a map, each visited once. *)
Fixpoint for_each {K V : Type} (body : K -> V -> M unit) (l : list (K * V)) : M unit :=
  match l with
  | [] => ret tt
  | (k, v) :: l' => body k v ;; for_each body l'
  end.

(** One turn of the anchors loop of [CCoinsViewCache::BatchWrite] (lines
    554-571). *)
Definition BatchWrite_anchor (rt : uint256) (child : CAnchorsCacheEntry) : M unit :=
  if has_flag (anchor_flags child) CAnchorsCacheEntry.DIRTY then
    c <- get ;;
    match cacheAnchors c !! rt with
    | None =>
        modify (fun c => set_cacheAnchors
          (<[rt := mkAnchorsEntry (entered child) (tree child) CAnchorsCacheEntry.DIRTY]>
             (cacheAnchors c)) c)
    | Some parent =>
        if negb (Bool.eqb (entered parent) (entered child)) then
          modify (fun c => set_cacheAnchors
            (<[rt := mkAnchorsEntry (entered child) (tree parent)
                       (Z.lor (anchor_flags parent) CAnchorsCacheEntry.DIRTY)]>
               (cacheAnchors c)) c)
        else ret tt
    end
  else ret tt.

(** The anchors loop of [CCoinsViewCache::BatchWrite] (lines 552-575), which
    drains the child map; the result is the child map after the loop. *)
Definition BatchWrite_mapAnchors (mapAnchors : gmap N CAnchorsCacheEntry) :
    M (gmap N CAnchorsCacheEntry) :=
  for_each BatchWrite_anchor (map_to_list mapAnchors) ;;
  ret ∅.

(** One turn of the nullifiers loop of [CCoinsViewCache::BatchWrite] (lines
    579-592). *)
Definition BatchWrite_nullifier (nf : uint256) (child : CNullifiersCacheEntry) : M unit :=
  if has_flag (nf_flags child) CNullifiersCacheEntry.DIRTY then
    c <- get ;;
    match cacheNullifiers c !! nf with
    | None =>
        modify (fun c => set_cacheNullifiers
          (<[nf := mkNullifiersEntry (nf_entered child) CNullifiersCacheEntry.DIRTY]>
             (cacheNullifiers c)) c)
    | Some parent =>
        if negb (Bool.eqb (nf_entered parent) (nf_entered child)) then
          modify (fun c => set_cacheNullifiers
            (<[nf := mkNullifiersEntry (nf_entered child)
                       (Z.lor (nf_flags parent) CNullifiersCacheEntry.DIRTY)]>
               (cacheNullifiers c)) c)
        else ret tt
    end
  else ret tt.

(** The nullifiers loop of [CCoinsViewCache::BatchWrite] (lines 577-595). *)
Definition BatchWrite_mapNullifiers (mapNullifiers : gmap N CNullifiersCacheEntry) :
    M (gmap N CNullifiersCacheEntry) :=
  for_each BatchWrite_nullifier (map_to_list mapNullifiers) ;;
  ret ∅.

(** What [GetNullifier] answers for a nullifier: the slot of the cache when
    there is one, the base otherwise. *)
Definition nullifier_view (c : CCoinsViewCache) (nullifier : uint256) : bool :=
  match cacheNullifiers c !! nullifier with
  | Some e => nf_entered e
  | None => base_GetNullifier (base c) nullifier
  end.

(** What [GetAnchorAt] answers for a root: the tree of the slot when it is
    entered, nothing when the slot is not entered, the base without a slot. *)
Definition anchor_view (c : CCoinsViewCache) (rt : uint256) : option ZCIncrementalMerkleTree :=
  match cacheAnchors c !! rt with
  | Some e => if entered e then Some (tree e) else None
  | None => base_GetAnchorAt (base c) rt
  end.

(** Coins that are there and not pruned agree in every field; coins that are
    pruned and coins that are not there are the same to a reader of the
    unspent outputs. *)
Definition same_coins (a b : option CCoins) : Prop :=
  match a, b with
  | Some x, Some y => CCoins_operator_eq x y = true
  | Some x, None => IsPruned x = true
  | None, Some y => IsPruned y = true
  | None, None => True
  end.

(** The meaning of FRESH that the comments of [FetchCoins], [ModifyCoins]
    and [BatchWrite] state: the base of the cache has no coins for the key,
    or pruned ones. *)
Definition fresh_ok (c : CCoinsViewCache) : Prop :=
  forall txid e, cacheCoins c !! txid = Some e ->
    has_flag (flags e) CCoinsCacheEntry.FRESH = true ->
    same_coins (base_GetCoins (base c) txid) None.

(** A child map is coherent with the cache it is written to: a slot that is
    not DIRTY mirrors the coins the cache reaches, and a DIRTY slot whose key
    the cache has no slot for was made over a cache that had no coins for the
    key (it would have been pulled in at the first [GetCoins] otherwise). *)
Definition child_coherent (mapCoins : gmap N CCoinsCacheEntry) (c : CCoinsViewCache) : Prop :=
  forall txid child, mapCoins !! txid = Some child ->
    (has_flag (flags child) CCoinsCacheEntry.DIRTY = false ->
     same_coins (Some (coins child)) (coins_view c txid)) /\
    (has_flag (flags child) CCoinsCacheEntry.DIRTY = true -> cacheCoins c !! txid = None ->
     same_coins (base_GetCoins (base c) txid) None).

(** The coins when they are there and not pruned. *)
Definition unpruned (a : option CCoins) : option CCoins :=
  match a with
  | Some x => if IsPruned x then None else Some x
  | None => None
  end.

(** The best block as [GetBestBlock] returns it. *)
Definition best_block (c : CCoinsViewCache) : uint256 :=
  if uint256_IsNull (hashBlock c) then base_GetBestBlock (base c) else hashBlock c.

(** A cache whose best anchor is in its anchors map, entered. *)
Definition cache_anchor_entered : CCoinsViewCache :=
  mkCache CCoinsView_null false 0%N ∅ 2%N
    {[2%N := mkAnchorsEntry true [5%N; 6%N] CAnchorsCacheEntry.DIRTY]} ∅ ∅ ∅.

(** ** Sidechain outputs of a transaction *)

(** Modelled from the spec: the crosschain outputs of a transaction are
    declared in primitives/transaction.h, not among the sources; each record
    has the fields and getters that coins.cpp reads. *)
Record CTxScCreationOut := mkScCreationOut {
  cr_GetScId : uint256;
  cr_nValue : CAmount;
  cr_withdrawalEpochLength : Z;
  cr_customData : list Byte.byte;
  cr_constant : list Byte.byte;
  cr_wCertVk : list Byte.byte;
  cr_wMbtrVk : option (list Byte.byte)
}.

Record CTxForwardTransferOut := mkForwardTransferOut {
  ft_scId : uint256;
  ft_nValue : CAmount
}.

Record CBwtRequestOut := mkBwtRequestOut {
  mbtr_scId : uint256;
  mbtr_GetScValue : CAmount
}.

(** The transaction as [UpdateSidechain] and [RevertTxOutputs] read it:
    [GetHash], [GetVscCcOut], [GetVftCcOut], [GetVBwtRequestOut]. *)
Record CTransactionCc := mkTxCc {
  txcc_GetHash : uint256;
  GetVscCcOut : list CTxScCreationOut;
  GetVftCcOut : list CTxForwardTransferOut;
  GetVBwtRequestOut : list CBwtRequestOut
}.

(** A loop whose body returns false to make the function return false. *)
Fixpoint all_ok {A : Type} (body : A -> M bool) (l : list A) : M bool :=
  match l with
  | [] => ret true
  | x :: l' => ok <- body x ;; if ok then all_ok body l' else ret false
  end.

(** [scIt->second]: the slot behind the iterator. *)
Definition deref_sidechain (scId : uint256) : M CSidechainsCacheEntry := fun c =>
  match cacheSidechains c !! scId with
  | Some e => Some (e, c)
  | None => None
  end.

(** The assignments of lines 712-725 to the record of a new sidechain. *)
Definition created_sidechain `{Externals} (txHash blockHash : uint256)
    (blockHeight maturityHeight : Z) (cr : CTxScCreationOut) (sc : CSidechain) : CSidechain :=
  mkSidechain blockHash blockHeight txHash EPOCH_NULL 0%N QUALITY_NULL 0
    (lastTopQualityCertDataHash sc) (pastEpochTopQualityCertDataHash sc) (balance sc)
    (mkCreationData (cr_withdrawalEpochLength cr) (cr_customData cr) (cr_constant cr)
       (cr_wCertVk cr) (cr_wMbtrVk cr))
    (<[maturityHeight := cr_nValue cr]> (mImmatureAmounts sc)) ALIVE.

(** The body of the loop over [tx.GetVscCcOut()] of
    [UpdateSidechain(const CTransaction&, const CBlock&, int)] (lines
    705-732). *)
Definition UpdateSidechain_creation `{Externals} (txHash blockHash : uint256)
    (blockHeight maturityHeight : Z) (cr : CTxScCreationOut) : M bool :=
  let scId := cr_GetScId cr in
  have <- HaveSidechain scId ;;
  if have then ret false else
  scIt <- ModifySidechain scId ;;
  store_sidechain scId
    (mkScEntry (created_sidechain txHash blockHash blockHeight maturityHeight cr (sidechain scIt))
       FRESH) ;;
  ret true.

(** [mImmatureAmounts[maturityHeight] += nValue]; [operator[]] of [std::map]
    starts an absent entry at 0. *)
Definition add_immature (maturityHeight : Z) (nValue : CAmount) (sc : CSidechain) : CSidechain :=
  set_mImmatureAmounts
    (<[maturityHeight := int64 (default 0 (mImmatureAmounts sc !! maturityHeight) + nValue)]>
       (mImmatureAmounts sc)) sc.

(** The body of the loops over [tx.GetVftCcOut()] and over
    [tx.GetVBwtRequestOut()] (lines 738-753 and 759-774), which differ in
    their messages only. *)
Definition UpdateSidechain_immature `{Externals} (maturityHeight : Z) (scId : uint256)
    (nValue : CAmount) : M bool :=
  have <- HaveSidechain scId ;;
  if negb have then ret false else
  scIt <- ModifySidechain scId ;;
  store_sidechain scId
    (mkScEntry (add_immature maturityHeight nValue (sidechain scIt))
       (if bool_decide (flag scIt = FRESH) then flag scIt else DIRTY)) ;;
  ret true.

(** [CCoinsViewCache::UpdateSidechain(const CTransaction&, const CBlock&, int)];
    of the block only its hash is read. *)
Definition UpdateSidechain_tx `{Externals} `{ChainParams} (tx : CTransactionCc)
    (blockHash : uint256) (blockHeight : Z) : M bool :=
  let maturityHeight := int32 (blockHeight + SC_COIN_MATURITY) in
  ok <- all_ok (UpdateSidechain_creation (txcc_GetHash tx) blockHash blockHeight maturityHeight)
          (GetVscCcOut tx) ;;
  if negb ok then ret false else
  ok <- all_ok (fun ft => UpdateSidechain_immature maturityHeight (ft_scId ft) (ft_nValue ft))
          (GetVftCcOut tx) ;;
  if negb ok then ret false else
  all_ok (fun mbtr => UpdateSidechain_immature maturityHeight (mbtr_scId mbtr)
                        (mbtr_GetScValue mbtr))
    (GetVBwtRequestOut tx).

(** [CCoinsViewCache::DecrementImmatureAmount]; [targetEntry] is the
    iterator of the slot of [scId]. *)
Definition DecrementImmatureAmount (scId : uint256) (nValue : CAmount) (maturityHeight : Z) :
    M bool :=
  targetEntry <- deref_sidechain scId ;;
  let iaMap := mImmatureAmounts (sidechain targetEntry) in
  match iaMap !! maturityHeight with
  | None => ret false
  | Some amount =>
      if amount <? nValue then ret false else
      let amount := int64 (amount - nValue) in
      let iaMap := <[maturityHeight := amount]> iaMap in
      let iaMap := if amount =? 0 then delete maturityHeight iaMap else iaMap in
      store_sidechain scId
        (mkScEntry (set_mImmatureAmounts iaMap (sidechain targetEntry)) DIRTY) ;;
      ret true
  end.

(** The body of the loops over [tx.GetVBwtRequestOut()] and over
    [tx.GetVftCcOut()] of [RevertTxOutputs] (lines 788-805 and 811-828). *)
Definition RevertTxOutputs_immature `{Externals} (maturityHeight : Z) (scId : uint256)
    (nValue : CAmount) : M bool :=
  have <- HaveSidechain scId ;;
  if negb have then ret false else
  scIt <- ModifySidechain scId ;;
  DecrementImmatureAmount scId nValue maturityHeight.

(** The body of the loop over [tx.GetVscCcOut()] of [RevertTxOutputs] (lines
    834-862). *)
Definition RevertTxOutputs_creation `{Externals} (maturityHeight : Z) (entry : CTxScCreationOut) :
    M bool :=
  let scId := cr_GetScId entry in
  have <- HaveSidechain scId ;;
  if negb have then ret false else
  scIt <- ModifySidechain scId ;;
  ok <- DecrementImmatureAmount scId (cr_nValue entry) maturityHeight ;;
  if negb ok then ret false else
  scIt <- deref_sidechain scId ;;
  if balance (sidechain scIt) >? 0 then ret false else
  store_sidechain scId (mkScEntry (sidechain scIt) ERASED) ;;
  ret true.

(** [CCoinsViewCache::RevertTxOutputs] *)
Definition RevertTxOutputs `{Externals} `{ChainParams} (tx : CTransactionCc) (nHeight : Z) :
    M bool :=
  let maturityHeight := int32 (nHeight + SC_COIN_MATURITY) in
  ok <- all_ok (fun entry => RevertTxOutputs_immature maturityHeight (mbtr_scId entry)
                               (mbtr_GetScValue entry))
          (GetVBwtRequestOut tx) ;;
  if negb ok then ret false else
  ok <- all_ok (fun entry => RevertTxOutputs_immature maturityHeight (ft_scId entry)
                               (ft_nValue entry))
          (GetVftCcOut tx) ;;
  if negb ok then ret false else
  all_ok (RevertTxOutputs_creation maturityHeight) (GetVscCcOut tx).

(** [CCoinsViewCache::CheckQuality] *)
Definition CheckQuality (cert : CScCertificate) : M bool :=
  got <- GetSidechain (cert_GetScId cert) ;;
  match got with
  | Some info =>
      if negb (N.eqb (lastTopQualityCertHash info) (cert_GetHash cert)) &&
         (lastTopQualityCertReferencedEpoch info =? epochNumber cert) &&
         (lastTopQualityCertQuality info >=? quality cert)
      then ret false else ret true
  | None => ret true
  end.

(** [CCoinsViewCache::GetSidechainState] *)
Definition GetSidechainState `{Externals} (scId : uint256) : M State :=
  have <- HaveSidechain scId ;;
  if negb have then ret NOT_APPLICABLE else
  got <- GetSidechain scId ;;
  match got with
  | Some sc => ret (currentState sc)
  | None => ret (currentState CSidechain_default)
  end.

(** The slot of a sidechain as [FetchSidechains] finds or makes it: the slot
    of the cache, or the record of the base in a DEFAULT slot. *)
Definition slot_of (c : CCoinsViewCache) (scId : uint256) : option CSidechainsCacheEntry :=
  match cacheSidechains c !! scId with
  | Some e => Some e
  | None => (fun sc => mkScEntry sc DEFAULT) <$> base_GetSidechain (base c) scId
  end.

(** What [HaveSidechain] answers on a slot, and the slot that
    [ModifySidechain] gives. *)
Definition slot_known (s : option CSidechainsCacheEntry) : bool :=
  match s with
  | Some e => negb (bool_decide (flag e = ERASED))
  | None => false
  end.

Definition slot_entry `{Externals} (s : option CSidechainsCacheEntry) : CSidechainsCacheEntry :=
  default (mkScEntry CSidechain_default FRESH) s.

(** The sidechain that a reader finds in a slot. *)
Definition slot_view (s : option CSidechainsCacheEntry) : option CSidechain :=
  match s with
  | Some e => if bool_decide (flag e = ERASED) then None else Some (sidechain e)
  | None => None
  end.

(** What the bodies of the loops of [UpdateSidechain] and [RevertTxOutputs]
    do to the slot of their sidechain: the result and the slot after. *)
Definition slot_create `{Externals} (txHash blockHash : uint256) (blockHeight maturityHeight : Z)
    (cr : CTxScCreationOut) (s : option CSidechainsCacheEntry) :
    bool * option CSidechainsCacheEntry :=
  if slot_known s then (false, s)
  else (true, Some (mkScEntry (created_sidechain txHash blockHash blockHeight maturityHeight cr
                                 (sidechain (slot_entry s))) FRESH)).

Definition slot_add `{Externals} (maturityHeight : Z) (nValue : CAmount)
    (s : option CSidechainsCacheEntry) : bool * option CSidechainsCacheEntry :=
  if slot_known s then
    (true, Some (mkScEntry (add_immature maturityHeight nValue (sidechain (slot_entry s)))
                   (if bool_decide (flag (slot_entry s) = FRESH) then FRESH else DIRTY)))
  else (false, s).

(** [DecrementImmatureAmount] on a record: the record after, when it returns
    true. *)
Definition decremented (maturityHeight : Z) (nValue : CAmount) (sc : CSidechain) :
    option CSidechain :=
  match mImmatureAmounts sc !! maturityHeight with
  | None => None
  | Some amount =>
      if amount <? nValue then None
      else Some (set_mImmatureAmounts
                   (if int64 (amount - nValue) =? 0
                    then delete maturityHeight
                           (<[maturityHeight := int64 (amount - nValue)]> (mImmatureAmounts sc))
                    else <[maturityHeight := int64 (amount - nValue)]> (mImmatureAmounts sc)) sc)
  end.

Definition slot_dec `{Externals} (maturityHeight : Z) (nValue : CAmount)
    (s : option CSidechainsCacheEntry) : bool * option CSidechainsCacheEntry :=
  if slot_known s then
    match decremented maturityHeight nValue (sidechain (slot_entry s)) with
    | Some sc => (true, Some (mkScEntry sc DIRTY))
    | None => (false, s)
    end
  else (false, s).

Definition slot_uncreate `{Externals} (maturityHeight : Z) (entry : CTxScCreationOut)
    (s : option CSidechainsCacheEntry) : bool * option CSidechainsCacheEntry :=
  if slot_known s then
    match decremented maturityHeight (cr_nValue entry) (sidechain (slot_entry s)) with
    | Some sc =>
        if balance sc >? 0 then (false, Some (mkScEntry sc DIRTY))
        else (true, Some (mkScEntry sc ERASED))
    | None => (false, s)
    end
  else (false, s).

(** A loop of such bodies, seen from one slot. *)
Fixpoint run_slot {A S : Type} (step : A -> S -> bool * S) (l : list A) (s : S) : bool * S :=
  match l with
  | [] => (true, s)
  | x :: l' =>
      let '(ok, s') := step x s in
      if ok then run_slot step l' s' else (false, s')
  end.

(** The turns of the three loops of [UpdateSidechain] and of
    [RevertTxOutputs] in the order they are run: a creation output, or the
    sidechain and the value of a forward transfer or a backward transfer
    request. *)
Definition cc_turn : Type := CTxScCreationOut + uint256 * CAmount.

Definition cc_key (x : cc_turn) : uint256 :=
  match x with
  | inl cr => cr_GetScId cr
  | inr (scId, _) => scId
  end.

Definition tx_update_turns (tx : CTransactionCc) : list cc_turn :=
  map inl (GetVscCcOut tx)
  ++ map (fun ft => inr (ft_scId ft, ft_nValue ft)) (GetVftCcOut tx)
  ++ map (fun mbtr => inr (mbtr_scId mbtr, mbtr_GetScValue mbtr)) (GetVBwtRequestOut tx).

Definition tx_revert_turns (tx : CTransactionCc) : list cc_turn :=
  map (fun mbtr => inr (mbtr_scId mbtr, mbtr_GetScValue mbtr)) (GetVBwtRequestOut tx)
  ++ map (fun ft => inr (ft_scId ft, ft_nValue ft)) (GetVftCcOut tx)
  ++ map inl (GetVscCcOut tx).

Definition update_turn `{Externals} (txHash blockHash : uint256) (blockHeight maturityHeight : Z)
    (x : cc_turn) : M bool :=
  match x with
  | inl cr => UpdateSidechain_creation txHash blockHash blockHeight maturityHeight cr
  | inr (scId, nValue) => UpdateSidechain_immature maturityHeight scId nValue
  end.

Definition revert_turn `{Externals} (maturityHeight : Z) (x : cc_turn) : M bool :=
  match x with
  | inl cr => RevertTxOutputs_creation maturityHeight cr
  | inr (scId, nValue) => RevertTxOutputs_immature maturityHeight scId nValue
  end.

Definition slot_update `{Externals} (txHash blockHash : uint256) (blockHeight maturityHeight : Z)
    (x : cc_turn) (s : option CSidechainsCacheEntry) : bool * option CSidechainsCacheEntry :=
  match x with
  | inl cr => slot_create txHash blockHash blockHeight maturityHeight cr s
  | inr (_, nValue) => slot_add maturityHeight nValue s
  end.

Definition slot_revert `{Externals} (maturityHeight : Z) (x : cc_turn)
    (s : option CSidechainsCacheEntry) : bool * option CSidechainsCacheEntry :=
  match x with
  | inl cr => slot_uncreate maturityHeight cr s
  | inr (_, nValue) => slot_dec maturityHeight nValue s
  end.

(** The creation outputs of a transaction for a sidechain, and the values
    that its forward transfers and backward transfer requests send to it. *)
Definition creations_of (tx : CTransactionCc) (scId : uint256) : list CTxScCreationOut :=
  filter (fun cr => cr_GetScId cr = scId) (GetVscCcOut tx).

Definition values_to (tx : CTransactionCc) (scId : uint256) : list CAmount :=
  map ft_nValue (filter (fun ft => ft_scId ft = scId) (GetVftCcOut tx))
  ++ map mbtr_GetScValue (filter (fun mbtr => mbtr_scId mbtr = scId) (GetVBwtRequestOut tx)).

Definition sum_values (l : list CAmount) : Z := foldr Z.add 0 l.

(** A sidechain record with the values [vals] added to its immature amount
    of [maturityHeight]. *)
Definition credited (maturityHeight : Z) (vals : list CAmount) (sc : CSidechain) : CSidechain :=
  match vals with
  | [] => sc
  | _ =>
      set_mImmatureAmounts
        (<[maturityHeight :=
             int64 (default 0 (mImmatureAmounts sc !! maturityHeight) + sum_values vals)]>
           (mImmatureAmounts sc)) sc
  end.

(** The same values in the order in which [RevertTxOutputs] takes them
    back. *)
Definition values_back (tx : CTransactionCc) (scId : uint256) : list CAmount :=
  map mbtr_GetScValue (filter (fun mbtr => mbtr_scId mbtr = scId) (GetVBwtRequestOut tx))
  ++ map ft_nValue (filter (fun ft => ft_scId ft = scId) (GetVftCcOut tx)).

(** The four facts that a body leaves about the slots. *)
Definition slot_step {A : Type} (key : A -> uint256)
    (step : A -> option CSidechainsCacheEntry -> bool * option CSidechainsCacheEntry)
    (body : A -> M bool) : Prop :=
  forall x c, exists c',
    body x c = Some (fst (step x (slot_of c (key x))), c') /\
    slot_of c' (key x) = snd (step x (slot_of c (key x))) /\
    (forall id, id <> key x -> slot_of c' id = slot_of c id) /\
    same_but_sidechains c c'.

(** What [CheckQuality] answers for a certificate on the record of its
    sidechain. *)
Definition quality_ok (cert : CScCertificate) (info : CSidechain) : bool :=
  negb (negb (N.eqb (lastTopQualityCertHash info) (cert_GetHash cert)) &&
        (lastTopQualityCertReferencedEpoch info =? epochNumber cert) &&
        (lastTopQualityCertQuality info >=? quality cert)).

(** A transaction that creates the sidechain 0x5d with 7 and sends it 3, and
    sends 5 and 2 to the sidechain [S]. *)
Definition scenario_tx_cc : CTransactionCc :=
  mkTxCc 0x7e%N [mkScCreationOut 0x5d%N 7 10 [] [] [] None]
    [mkForwardTransferOut scenario_S 5; mkForwardTransferOut 0x5d%N 3]
    [mkBwtRequestOut scenario_S 2].

(** ** Sidechain events of transactions *)

(** [scEvents.maturingScs.insert(scId)], [scEvents.ceasingScs.insert(scId)],
    [scEvents.maturingScs.erase(scId)] and [scEvents.ceasingScs.erase(scId)]. *)
Definition with_maturing (scId : uint256) (ev : CSidechainEvents) : CSidechainEvents :=
  mkEvents ({[scId]} ∪ maturingScs ev) (ceasingScs ev).
Definition with_ceasing (scId : uint256) (ev : CSidechainEvents) : CSidechainEvents :=
  mkEvents (maturingScs ev) ({[scId]} ∪ ceasingScs ev).
Definition without_maturing (scId : uint256) (ev : CSidechainEvents) : CSidechainEvents :=
  mkEvents (maturingScs ev ∖ {[scId]}) (ceasingScs ev).
Definition without_ceasing (scId : uint256) (ev : CSidechainEvents) : CSidechainEvents :=
  mkEvents (maturingScs ev) (ceasingScs ev ∖ {[scId]}).

(** The block that every [ScheduleSidechainEvent] and the last step of
    [CancelSidechainEvent(const CScCertificate&)] repeat: the slot that
    [ModifySidechainEvents] gives takes the change [f] of its events, and
    becomes DIRTY unless it is FRESH. *)
Definition events_insert (f : CSidechainEvents -> CSidechainEvents) (height : Z) : M unit :=
  it <- ModifySidechainEvents height ;;
  store_events height
    (mkEvEntry (f (scEvents it))
       (if bool_decide (ev_flag it = FRESH) then ev_flag it else DIRTY)).

(** The block that every [CancelSidechainEvent] repeats: the slot takes the
    change [f] of its events, and becomes ERASED when they are null after
    it and DIRTY otherwise. *)
Definition events_erase (f : CSidechainEvents -> CSidechainEvents) (height : Z) : M unit :=
  it <- ModifySidechainEvents height ;;
  store_events height
    (mkEvEntry (f (scEvents it))
       (if negb (CSidechainEvents_IsNull (f (scEvents it))) then DIRTY else ERASED)).

(** [CCoinsViewCache::ScheduleSidechainEvent(const CTxScCreationOut&, int)] *)
Definition ScheduleSidechainEvent_creation `{Externals} `{ChainParams}
    (scCreationOut : CTxScCreationOut) (creationHeight : Z) : M bool :=
  let scId := cr_GetScId scCreationOut in
  pSidechain <- AccessSidechain scId ;;
  match pSidechain with
  | None => ret false
  | Some sc =>
      let maturityHeight := int32 (creationHeight + SC_COIN_MATURITY) in
      events_insert (with_maturing scId) maturityHeight ;;
      let nextCeasingHeight := int32 (StartHeightForEpoch sc 1 + SafeguardMargin sc) in
      events_insert (with_ceasing scId) nextCeasingHeight ;;
      ret true
  end.

(** [CCoinsViewCache::ScheduleSidechainEvent(const CTxForwardTransferOut&, int)] *)
Definition ScheduleSidechainEvent_fwd `{ChainParams} (forwardOut : CTxForwardTransferOut)
    (fwdHeight : Z) : M bool :=
  have <- HaveSidechain (ft_scId forwardOut) ;;
  if negb have then ret false else
  let maturityHeight := int32 (fwdHeight + SC_COIN_MATURITY) in
  events_insert (with_maturing (ft_scId forwardOut)) maturityHeight ;;
  ret true.

(** [CCoinsViewCache::ScheduleSidechainEvent(const CBwtRequestOut&, int)] *)
Definition ScheduleSidechainEvent_mbtr `{ChainParams} (mbtrOut : CBwtRequestOut)
    (mbtrHeight : Z) : M bool :=
  have <- HaveSidechain (mbtr_scId mbtrOut) ;;
  if negb have then ret false else
  let maturityHeight := int32 (mbtrHeight + SC_COIN_MATURITY) in
  events_insert (with_maturing (mbtr_scId mbtrOut)) maturityHeight ;;
  ret true.

(** [CCoinsViewCache::CancelSidechainEvent(const CTxScCreationOut&, int)] *)
Definition CancelSidechainEvent_creation `{Externals} `{ChainParams}
    (scCreationOut : CTxScCreationOut) (creationHeight : Z) : M bool :=
  let scId := cr_GetScId scCreationOut in
  pSidechain <- AccessSidechain scId ;;
  match pSidechain with
  | None => ret false
  | Some sc =>
      let maturityHeight := int32 (creationHeight + SC_COIN_MATURITY) in
      have <- HaveSidechainEvents maturityHeight ;;
      (if have then events_erase (without_maturing scId) maturityHeight else ret tt) ;;
      let currentCeasingHeight := int32 (StartHeightForEpoch sc 1 + SafeguardMargin sc) in
      have <- HaveSidechainEvents currentCeasingHeight ;;
      if negb have then ret false else
      events_erase (without_ceasing scId) currentCeasingHeight ;;
      ret true
  end.

(** [CCoinsViewCache::CancelSidechainEvent(const CTxForwardTransferOut&, int)] *)
Definition CancelSidechainEvent_fwd `{ChainParams} (forwardOut : CTxForwardTransferOut)
    (fwdHeight : Z) : M bool :=
  let maturityHeight := int32 (fwdHeight + SC_COIN_MATURITY) in
  have <- HaveSidechainEvents maturityHeight ;;
  if negb have then ret true else
  events_erase (without_maturing (ft_scId forwardOut)) maturityHeight ;;
  ret true.

(** [CCoinsViewCache::CancelSidechainEvent(const CBwtRequestOut&, int)] *)
Definition CancelSidechainEvent_mbtr `{ChainParams} (mbtrOut : CBwtRequestOut)
    (mbtrHeight : Z) : M bool :=
  let maturityHeight := int32 (mbtrHeight + SC_COIN_MATURITY) in
  have <- HaveSidechainEvents maturityHeight ;;
  if negb have then ret true else
  events_erase (without_maturing (mbtr_scId mbtrOut)) maturityHeight ;;
  ret true.

(** [CCoinsViewCache::CancelSidechainEvent(const CScCertificate&)] *)
Definition CancelSidechainEvent_cert `{Externals} (cert : CScCertificate) : M bool :=
  let scId := cert_GetScId cert in
  pSidechain <- AccessSidechain scId ;;
  match pSidechain with
  | None => ret false
  | Some sc =>
      let currentCeasingHeight :=
        int32 (StartHeightForEpoch sc (int32 (epochNumber cert + 2)) + SafeguardMargin sc) in
      let previousCeasingHeight :=
        int32 (currentCeasingHeight - withdrawalEpochLength (creationData sc)) in
      have <- HaveSidechainEvents currentCeasingHeight ;;
      if negb have then
        have_previous <- HaveSidechainEvents previousCeasingHeight ;;
        if negb have_previous then ret false else ret true
      else
        events_erase (without_ceasing scId) currentCeasingHeight ;;
        events_insert (with_ceasing scId) previousCeasingHeight ;;
        ret true
  end.

(** The events that a reader finds for a height: those of the slot of the
    cache unless it is ERASED, those of the base without a slot. *)
Definition events_view (c : CCoinsViewCache) (height : Z) : option CSidechainEvents :=
  match cacheSidechainEvents c !! height with
  | Some e => if bool_decide (ev_flag e = ERASED) then None else Some (scEvents e)
  | None => base_GetSidechainEvents (base c) height
  end.

(** Events as a reader finds them after a slot that holds them was flagged
    by [events_erase]: none when they are null. *)
Definition nonnull (ev : CSidechainEvents) : option CSidechainEvents :=
  if CSidechainEvents_IsNull ev then None else Some ev.

(** What a cache operation leaves alone when it reads and writes event
    slots only. *)
Definition same_but_events (c c' : CCoinsViewCache) : Prop :=
  base c' = base c /\ hasModifier c' = hasModifier c /\ cacheCoins c' = cacheCoins c /\
  cacheSidechains c' = cacheSidechains c.

(** A forward transfer of 5 to the sidechain [S]. *)
Definition scenario_fwd : CTxForwardTransferOut := mkForwardTransferOut scenario_S 5.

(** A change of the events of one height, seen from every height. *)
Definition at_height (height : Z) (f : CSidechainEvents -> CSidechainEvents) (h : Z)
    (ev : CSidechainEvents) : CSidechainEvents :=
  if bool_decide (h = height) then f ev else ev.

(** Settles the tests on heights that the hypotheses decide. *)
Ltac decide_heights :=
  repeat match goal with
         | |- context [bool_decide ?P] =>
             first [ rewrite (bool_decide_eq_true_2 P) by (done || tauto)
                   | rewrite (bool_decide_eq_false_2 P) by (done || tauto) ]
         end.

(** The sidechain [S] as its creation at height 200 leaves it, before its
    events are scheduled, and its creation output. *)
Definition cache_S_created : CCoinsViewCache :=
  mkCache CCoinsView_null false 0%N ∅ 0%N ∅ ∅ {[scenario_S := mkScEntry sidechain_S1 FRESH]} ∅.

Definition scenario_creation : CTxScCreationOut :=
  mkScCreationOut scenario_S 100 10 [] [] [] None.

(** ** Restoring backward transfers *)

(** One turn of the loop of [RestoreBackwardTransfers] (lines 1222-1249)
    on the coins behind the modifier, for the undo [outsToRestore.at(idx)].
    [nFirstBwtPos + idx] is a [size_t], [IsAvailable] takes it as an
    [unsigned int]; [resize] fills with null outputs, and the vector is
    taken to have room; [vout.at] throws out of range. *)
Definition Restore_turn (idx : nat) (undo : CTxInUndo) (st : bool * CCoins) :
    option (bool * CCoins) :=
  let '(fClean, co) := st in
  let '(fClean, co) :=
    if negb (undo_nHeight undo =? 0) then
      (fClean,
       mkCoins (undo_fCoinBase undo) (vout co) (undo_nHeight undo) (undo_nVersion undo)
         (undo_nFirstBwtPos undo) (undo_nBwtMaturityHeight undo))
    else ((if IsPruned co then false else fClean), co) in
  let pos := size_t_of (nFirstBwtPos co + Z.of_nat idx) in
  let fClean := if IsAvailable (uint32 pos) co then false else fClean in
  let co :=
    if Z.of_nat (length (vout co)) <? size_t_of (nFirstBwtPos co + Z.of_nat idx + 1)
    then set_vout (resize (Z.to_nat (size_t_of (nFirstBwtPos co + Z.of_nat idx + 1)))
                     CTxOut_null (vout co)) co
    else co in
  match vout co !! Z.to_nat pos with
  | None => None
  | Some _ => Some (fClean, set_vout (<[Z.to_nat pos := undo_txout undo]> (vout co)) co)
  end.

(** [for (size_t idx = outsToRestore.size(); idx-- > 0;)]: the turns for
    [n - 1] down to 0. *)
Fixpoint Restore_loop (n : nat) (outsToRestore : list CTxInUndo) (st : bool * CCoins) :
    option (bool * CCoins) :=
  match n with
  | O => Some st
  | S idx =>
      match outsToRestore !! idx with
      | None => None
      | Some undo =>
          match Restore_turn idx undo st with
          | None => None
          | Some st' => Restore_loop idx outsToRestore st'
          end
      end
  end.

(** [CCoinsViewCache::RestoreBackwardTransfers]; the modifier is destroyed
    when the function returns. *)
Definition RestoreBackwardTransfers `{Externals} (certHash : uint256)
    (outsToRestore : list CTxInUndo) : M bool :=
  m <- ModifyCoins certHash ;;
  e <- deref_coins (it m) ;;
  match Restore_loop (length outsToRestore) outsToRestore (true, coins e) with
  | None => fun _ => None
  | Some (fClean, co) =>
      Modifier_apply m (fun _ => co) ;;
      CCoinsModifier_dtor m ;;
      ret fClean
  end.

(** The undo that [NullifyBackwardTransfers] records for an output: the
    output alone, or with the fields of the coins when it was their last. *)
Definition undo_at `{Externals} (co : CCoins) (last_one : bool) (o : CTxOut) : CTxInUndo :=
  if last_one
  then mkTxInUndo o (fCoinBase co) (nHeight co) (nVersion co) (nFirstBwtPos co)
         (nBwtMaturityHeight co)
  else CTxInUndo_of o.

(** An output when it is not null. *)
Definition unspent (o : CTxOut) : option CTxOut := if CTxOut_IsNull o then None else Some o.

(** Two coins with the same fields but for [vout]. *)
Definition same_fields (a b : CCoins) : Prop :=
  fCoinBase a = fCoinBase b /\ nHeight a = nHeight b /\ nVersion a = nVersion b /\
  nFirstBwtPos a = nFirstBwtPos b /\ nBwtMaturityHeight a = nBwtMaturityHeight b.

(** The coins of a certificate: a change output and two backward
    transfers, in a cache over the empty view. *)
Definition coins_cert_S : CCoins :=
  mkCoins false [mkTxOut 7 []; mkTxOut 30 []; mkTxOut 20 []] 210 (-5) 1 225.

Definition cache_cert_coins : CCoinsViewCache :=
  mkCache CCoinsView_null false 0%N
    {[0xce51%N := mkCoinsEntry coins_cert_S CCoinsCacheEntry.DIRTY]} 0%N ∅ ∅ ∅ ∅.

(** The coins of a certificate without a change output, FRESH in the
    cache. *)
Definition coins_cert_no_change : CCoins :=
  mkCoins false [mkTxOut 30 []; mkTxOut 20 []] 210 (-5) 0 225.

Definition cache_cert_fresh : CCoinsViewCache :=
  mkCache CCoinsView_null false 0%N
    {[0xce52%N := mkCoinsEntry coins_cert_no_change
                    (Z.lor CCoinsCacheEntry.DIRTY CCoinsCacheEntry.FRESH)]} 0%N ∅ ∅ ∅ ∅.

(** ** Reverting the events of a height *)

(** The body of the first loop of [RevertSidechainEvents] (lines
    1703-1738) for the entry [(scId, d)] of [blockUndo.scUndoDatabyScId];
    [None] when the function returns false. *)
Definition RevertSidechainEvents_maturing `{Externals} (height : Z) (scId : uint256)
    (d : CSidechainUndoData) (recreatedScEvent : CSidechainEvents) :
    M (option CSidechainEvents) :=
  if Z.land (contentBitMask d) MATURED_AMOUNTS =? 0 then ret (Some recreatedScEvent) else
  have <- HaveSidechain scId ;;
  if negb have then ret None else
  let amountToRestore := appliedMaturedAmount d in
  scIt <- ModifySidechain scId ;;
  ok <- (if amountToRestore >? 0 then
           if balance (sidechain scIt) <? amountToRestore then ret false
           else
             let sc := add_immature height amountToRestore (sidechain scIt) in
             let sc := set_balance (int64 (balance sc - amountToRestore)) sc in
             store_sidechain scId (mkScEntry sc DIRTY) ;;
             ret true
         else ret true) ;;
  if negb ok then ret None else
  ret (Some (with_maturing scId recreatedScEvent)).

Fixpoint RevertSidechainEvents_maturing_loop `{Externals} (height : Z)
    (l : list (uint256 * CSidechainUndoData)) (recreatedScEvent : CSidechainEvents) :
    M (option CSidechainEvents) :=
  match l with
  | [] => ret (Some recreatedScEvent)
  | (scId, d) :: l' =>
      r <- RevertSidechainEvents_maturing height scId d recreatedScEvent ;;
      match r with
      | None => ret None
      | Some recreatedScEvent => RevertSidechainEvents_maturing_loop height l' recreatedScEvent
      end
  end.

(** The body of the second loop (lines 1741-1766); the result is false
    when the function returns false; a null [pSidechain] is dereferenced. *)
Definition RevertSidechainEvents_ceasing `{Externals} (scId : uint256) (d : CSidechainUndoData)
    (st : CSidechainEvents * option (list CScCertificateStatusUpdateInfo)) :
    M (bool * (CSidechainEvents * option (list CScCertificateStatusUpdateInfo))) :=
  let '(recreatedScEvent, pCertsStateInfo) := st in
  if Z.land (contentBitMask d) CEASED_CERT_DATA =? 0 then ret (true, st) else
  pSidechain <- AccessSidechain scId ;;
  match pSidechain with
  | None => fun _ => None
  | Some sc =>
      r <- (if negb (lastTopQualityCertReferencedEpoch sc =? EPOCH_NULL) then
              ok <- RestoreBackwardTransfers (lastTopQualityCertHash sc) (ceasedBwts d) ;;
              if negb ok then ret None
              else ret (Some ((fun l => l ++ [mkStatusUpdate scId (lastTopQualityCertHash sc)
                                                (lastTopQualityCertReferencedEpoch sc)
                                                (lastTopQualityCertQuality sc) BWT_ON])
                              <$> pCertsStateInfo))
            else ret (Some pCertsStateInfo)) ;;
      match r with
      | None => ret (false, st)
      | Some pCertsStateInfo =>
          scIt <- ModifySidechain scId ;;
          store_sidechain scId (mkScEntry (set_currentState ALIVE (sidechain scIt)) DIRTY) ;;
          ret (true, (with_ceasing scId recreatedScEvent, pCertsStateInfo))
      end
  end.

Fixpoint RevertSidechainEvents_ceasing_loop `{Externals}
    (l : list (uint256 * CSidechainUndoData))
    (st : CSidechainEvents * option (list CScCertificateStatusUpdateInfo)) :
    M (bool * (CSidechainEvents * option (list CScCertificateStatusUpdateInfo))) :=
  match l with
  | [] => ret (true, st)
  | (scId, d) :: l' =>
      r <- RevertSidechainEvents_ceasing scId d st ;;
      if fst r then RevertSidechainEvents_ceasing_loop l' (snd r) else ret r
  end.

(** [CCoinsViewCache::RevertSidechainEvents]; the result is the returned
    bool and [*pCertsStateInfo].  The two loops visit the entries of
    [blockUndo.scUndoDatabyScId] once each, in the order of [map_to_list]. *)
Definition RevertSidechainEvents `{Externals} (blockUndo : CBlockUndo) (height : Z)
    (pCertsStateInfo : option (list CScCertificateStatusUpdateInfo)) :
    M (bool * option (list CScCertificateStatusUpdateInfo)) :=
  have <- HaveSidechainEvents height ;;
  if have then ret (false, pCertsStateInfo) else
  r <- RevertSidechainEvents_maturing_loop height (map_to_list (scUndoDatabyScId blockUndo))
         CSidechainEvents_default ;;
  match r with
  | None => ret (false, pCertsStateInfo)
  | Some recreatedScEvent =>
      r <- RevertSidechainEvents_ceasing_loop (map_to_list (scUndoDatabyScId blockUndo))
             (recreatedScEvent, pCertsStateInfo) ;;
      let '(ok, (recreatedScEvent, pCertsStateInfo)) := r in
      if negb ok then ret (false, pCertsStateInfo) else
      (if negb (CSidechainEvents_IsNull recreatedScEvent) then
         scEventIt <- ModifySidechainEvents height ;;
         store_events height (mkEvEntry recreatedScEvent FRESH)
       else ret tt) ;;
      ret (true, pCertsStateInfo)
  end.

(** The sidechain record after the first loop of [RevertSidechainEvents]
    has given an amount back to its immature amounts. *)
Definition unmatured (height : Z) (amount : CAmount) (sc : CSidechain) : CSidechain :=
  set_balance (int64 (balance (add_immature height amount sc) - amount))
    (add_immature height amount sc).

(** ** Inputs *)

(** Modelled from the spec: [CTxIn] and [CTransactionBase] are declared in
    primitives/transaction.h, not among the sources.  Of an input
    coins.cpp reads [prevout.hash] and [prevout.n], an [uint32_t]; of a
    transaction [IsCoinBase], [GetVin] and [GetJoinSplitValueIn]. *)
Record CTxIn := mkTxIn {
  prevout_hash : uint256;
  prevout_n : N
}.

Record CTransactionBase := mkTxBase {
  txb_IsCoinBase : bool;
  GetVin : list CTxIn;
  GetJoinSplitValueIn : CAmount
}.

(** [CCoinsViewCache::GetOutputFor]; [vout[n]] is read after the
    assertion. *)
Definition GetOutputFor (input : CTxIn) : M CTxOut :=
  coins <- AccessCoins (prevout_hash input) ;;
  cpp_assert (match coins with
              | Some co => IsAvailable (Z.of_N (prevout_n input)) co
              | None => false
              end) ;;
  match coins ≫= (fun co => vout co !! N.to_nat (prevout_n input)) with
  | Some o => ret o
  | None => fun _ => None
  end.

(** The loop of [GetValueIn] (lines 1910-1911). *)
Fixpoint GetValueIn_loop (vin : list CTxIn) (nResult : CAmount) : M CAmount :=
  match vin with
  | [] => ret nResult
  | input :: vin' =>
      o <- GetOutputFor input ;;
      GetValueIn_loop vin' (int64 (nResult + nValue o))
  end.

(** [CCoinsViewCache::GetValueIn] *)
Definition GetValueIn (txBase : CTransactionBase) : M CAmount :=
  if txb_IsCoinBase txBase then ret 0 else
  nResult <- GetValueIn_loop (GetVin txBase) 0 ;;
  ret (int64 (nResult + GetJoinSplitValueIn txBase)).

(** [CCoinsViewCache::HaveInputs] *)
Definition HaveInputs (txBase : CTransactionBase) : M bool :=
  if negb (txb_IsCoinBase txBase) then
    all_ok (fun input =>
              coins <- AccessCoins (prevout_hash input) ;;
              ret (match coins with
                   | Some co => IsAvailable (Z.of_N (prevout_n input)) co
                   | None => false
                   end))
      (GetVin txBase)
  else ret true.

(** The unspent output that an input refers to, in the coins that the
    cache reaches. *)
Definition output_for (c : CCoinsViewCache) (input : CTxIn) : option CTxOut :=
  coins_view c (prevout_hash input) ≫= fun co => unspent_at co (N.to_nat (prevout_n input)).

(** The value that the inputs of a transaction bring in: nothing for a
    coinbase, otherwise the values of the outputs they refer to and of the
    joinsplits, in 64 bits. *)
Definition value_in (c : CCoinsViewCache) (txBase : CTransactionBase) : CAmount :=
  if txb_IsCoinBase txBase then 0
  else int64 (sum_values (nValue <$> default [] (mapM (output_for c) (GetVin txBase)))
              + GetJoinSplitValueIn txBase).

(** ** The format of CTxInUndo (undo.h) *)

(** serialize.h and compressor.h are not among the sources: the readers and
    writers of [VARINT] on an [unsigned int] and on an [int], of
    [CTxOutCompressor] and of a plain [int], in the convention of
    [SerializeLib].  The reader of [CTxOutCompressor] fills the output it
    wraps. *)
Class CompressorLib := {
  Serialize_VARINT_uint : Z -> Stream;
  Unserialize_VARINT_uint : Stream -> option (Z * Stream);
  Serialize_VARINT_int : Z -> Stream;
  Unserialize_VARINT_int : Stream -> option (Z * Stream);
  Serialize_CTxOutCompressor : CTxOut -> Stream;
  Unserialize_CTxOutCompressor : CTxOut -> Stream -> option (CTxOut * Stream);
  Serialize_int : Z -> Stream;
  Unserialize_int : Stream -> option (Z * Stream)
}.

(** [CTxInUndo::Serialize]; [nHeight] is an [unsigned int]. *)
Definition CTxInUndo_Serialize `{ChainParams} `{CompressorLib} (u : CTxInUndo) : Stream :=
  Serialize_VARINT_uint (uint32 (undo_nHeight u * 2 + (if undo_fCoinBase u then 1 else 0)))
  ++ (if 0 <? undo_nHeight u then Serialize_VARINT_int (undo_nVersion u) else [])
  ++ Serialize_CTxOutCompressor (undo_txout u)
  ++ (if (0 <? undo_nHeight u)
         && (Z.land (undo_nVersion u) 0x7f =? Z.land SC_CERT_VERSION 0x7f)
      then Serialize_int (undo_nFirstBwtPos u) ++ Serialize_int (undo_nBwtMaturityHeight u)
      else []).

(** [CTxInUndo::Unserialize], on the object [u] that is read into: the
    fields that are not read keep their values. *)
Definition CTxInUndo_Unserialize `{ChainParams} `{CompressorLib}
    (u : CTxInUndo) (s : Stream) : option (CTxInUndo * Stream) :=
  match Unserialize_VARINT_uint s with
  | None => None
  | Some (nCode, s) =>
      let nHeight := nCode / 2 in
      let fCoinBase := negb (Z.land nCode 1 =? 0) in
      match (if 0 <? nHeight then Unserialize_VARINT_int s
             else Some (undo_nVersion u, s)) with
      | None => None
      | Some (nVersion, s) =>
          match Unserialize_CTxOutCompressor (undo_txout u) s with
          | None => None
          | Some (txout, s) =>
              if (0 <? nHeight) && (Z.land nVersion 0x7f =? Z.land SC_CERT_VERSION 0x7f)
              then
                match Unserialize_int s with
                | None => None
                | Some (nFirstBwtPos, s) =>
                    match Unserialize_int s with
                    | None => None
                    | Some (nBwtMaturityHeight, s) =>
                        Some (mkTxInUndo txout fCoinBase nHeight nVersion
                                nFirstBwtPos nBwtMaturityHeight, s)
                    end
                end
              else Some (mkTxInUndo txout fCoinBase nHeight nVersion
                           (undo_nFirstBwtPos u) (undo_nBwtMaturityHeight u), s)
          end
      end
  end.

(** A reader gives [y] back, and the rest of the stream, from what its
    writer wrote for [x]. *)
Definition reads_back {A : Type} (write : A -> Stream)
    (read : Stream -> option (A * Stream)) (x y : A) : Prop :=
  forall s, read (write x ++ s) = Some (y, s).

(** Whether the certificate fields of an undo are written. *)
Definition with_cert_fields `{ChainParams} (u : CTxInUndo) : bool :=
  (0 <? undo_nHeight u) && (Z.land (undo_nVersion u) 0x7f =? Z.land SC_CERT_VERSION 0x7f).

(** What the reader makes of [into] from what was written for [u], when
    the version is read as [nVersion']. *)
Definition read_back `{ChainParams} (u into : CTxInUndo) (nVersion' : Z) : CTxInUndo :=
  mkTxInUndo (undo_txout u) (undo_fCoinBase u) (undo_nHeight u)
    (if 0 <? undo_nHeight u then nVersion' else undo_nVersion into)
    (if with_cert_fields u then undo_nFirstBwtPos u else undo_nFirstBwtPos into)
    (if with_cert_fields u then undo_nBwtMaturityHeight u else undo_nBwtMaturityHeight into).

(** An instance to run the format on: [VARINT] on an [unsigned int] as the
    compact size of the scenarios, on an [int] as the one byte of its low
    seven bits, an output as its value and the length of its script in
    compact sizes and then the script, and an [int] as four bytes, low byte
    first. *)
Definition scenario_Serialize_out (o : CTxOut) : list Byte.byte :=
  scenario_WriteCompactSize (nValue o)
  ++ scenario_WriteCompactSize (Z.of_nat (length (scriptPubKey o)))
  ++ scriptPubKey o.

Fixpoint scenario_read_bytes (n : nat) (s : list Byte.byte) :
    option (list Byte.byte * list Byte.byte) :=
  match n with
  | O => Some ([], s)
  | S n' =>
      match s with
      | [] => None
      | b :: s' =>
          match scenario_read_bytes n' s' with
          | Some (l, r) => Some (b :: l, r)
          | None => None
          end
      end
  end.

Definition scenario_Unserialize_out (s : list Byte.byte) : option (CTxOut * list Byte.byte) :=
  match scenario_ReadCompactSize s with
  | None => None
  | Some (v, s) =>
      match scenario_ReadCompactSize s with
      | None => None
      | Some (n, s) =>
          match scenario_read_bytes (Z.to_nat n) s with
          | Some (script, s) => Some (mkTxOut v script, s)
          | None => None
          end
      end
  end.

Definition scenario_Serialize_int (v : Z) : list Byte.byte :=
  [byte_of_Z v; byte_of_Z (v / 2 ^ 8); byte_of_Z (v / 2 ^ 16); byte_of_Z (v / 2 ^ 24)].

Definition scenario_Unserialize_int (s : list Byte.byte) : option (Z * list Byte.byte) :=
  match s with
  | b0 :: b1 :: b2 :: b3 :: s =>
      Some (int32 (Z_of_byte b0 + 2 ^ 8 * Z_of_byte b1 + 2 ^ 16 * Z_of_byte b2
                   + 2 ^ 24 * Z_of_byte b3), s)
  | _ => None
  end.

Definition scenario_CompressorLib : CompressorLib := {|
  Serialize_VARINT_uint := scenario_WriteCompactSize;
  Unserialize_VARINT_uint := scenario_ReadCompactSize;
  Serialize_VARINT_int := fun v => [byte_of_Z (Z.land v 0x7f)];
  Unserialize_VARINT_int := fun s =>
    match s with
    | b :: s => Some (Z_of_byte b, s)
    | [] => None
    end;
  Serialize_CTxOutCompressor := scenario_Serialize_out;
  Unserialize_CTxOutCompressor := fun _ => scenario_Unserialize_out;
  Serialize_int := scenario_Serialize_int;
  Unserialize_int := scenario_Unserialize_int
|}.

(** The undo of the last output of a certificate's coins, entered at height
    210, and of an output of a transaction that was not the last one. *)
Definition undo_cert_last : CTxInUndo := mkTxInUndo (mkTxOut 20 []) false 210 (-5) 1 214.
Definition undo_plain : CTxInUndo := mkTxInUndo (mkTxOut 7 []) false 0 0 (-1) 0.

(** ** Proof steps *)

(** Opens the monad's operations and the stores, so that a call reads as
    the match on the cache that it is. *)
Ltac munfold :=
  unfold store_coins, store_sidechain, store_events, deref_coins,
    bind, ret, get, modify, cpp_assert in *.

(** ** Theorems *)

Lemma Cleanup_loop_app_nulls (v w : list CTxOut) (n : nat) :
  Forall (fun o => CTxOut_IsNull o = true) w -> (length w <= n)%nat ->
  (v = [] \/ exists o, last v = Some o /\ CTxOut_IsNull o = false) ->
  Cleanup_loop n (v ++ w) = v.
Proof.
  revert n. induction w as [|o w IH] using rev_ind; intros n Hw Hn Hv.
  - rewrite app_nil_r. destruct n as [|n]; [done|]. simpl.
    destruct Hv as [->|(o & Ho & Hnn)]; [done|]. by rewrite Ho, Hnn.
  - rewrite Forall_app, Forall_singleton in Hw. destruct Hw as [Hw Ho].
    rewrite length_app in Hn. simpl in Hn.
    destruct n as [|n]; [lia|]. simpl.
    rewrite app_assoc, last_snoc, Ho, removelast_last.
    apply IH; [done|lia|done].
Qed.

Lemma Cleanup_loop_split (v : list CTxOut) :
  exists v' w, v = v' ++ w /\ Forall (fun o => CTxOut_IsNull o = true) w /\
    (v' = [] \/ exists o, last v' = Some o /\ CTxOut_IsNull o = false).
Proof.
  induction v as [|o v IH] using rev_ind.
  - exists [], []. repeat split; auto.
  - destruct (CTxOut_IsNull o) eqn:Ho.
    + destruct IH as (v' & w & -> & Hw & Hv').
      exists v', (w ++ [o]). rewrite app_assoc. repeat split; [|done].
      apply Forall_app. split; [done|]. by apply Forall_singleton.
    + exists (v ++ [o]), []. rewrite app_nil_r. repeat split; [done|].
      right. exists o. by rewrite last_snoc.
Qed.

Lemma Cleanup_loop_trim (v : list CTxOut) :
  exists w, v = Cleanup_loop (length v) v ++ w /\
    Forall (fun o => CTxOut_IsNull o = true) w /\
    (Cleanup_loop (length v) v = [] \/
     exists o, last (Cleanup_loop (length v) v) = Some o /\ CTxOut_IsNull o = false).
Proof.
  destruct (Cleanup_loop_split v) as (v' & w & Hv & Hw & Hv').
  assert (Cleanup_loop (length v) v = v') as ->.
  { rewrite Hv at 2. apply Cleanup_loop_app_nulls; [done| |done]. rewrite Hv, length_app. lia. }
  by exists w.
Qed.

(** After [Cleanup] the outputs are empty or end in an output that is not
    null. *)
Lemma Cleanup_vout_last (c : CCoins) :
  vout (Cleanup c) = [] \/
  exists o, last (vout (Cleanup c)) = Some o /\ CTxOut_IsNull o = false.
Proof. destruct (Cleanup_loop_trim (vout c)) as (w & _ & _ & H). exact H. Qed.

Lemma Cleanup_pruned_iff_empty (c : CCoins) :
  IsPruned (Cleanup c) = true <-> vout (Cleanup c) = [].
Proof.
  split.
  - intros Hp. destruct (Cleanup_vout_last c) as [He|(o & Ho & Hn)]; [done|].
    unfold IsPruned in Hp. rewrite forallb_forall in Hp.
    rewrite (Hp o) in Hn; [done|].
    apply list_elem_of_In. by apply last_Some_elem_of.
  - intros He. unfold IsPruned. by rewrite He.
Qed.

Lemma Cleanup_preserves_pruned (c : CCoins) : IsPruned (Cleanup c) = IsPruned c.
Proof.
  destruct (Cleanup_loop_trim (vout c)) as (w & Hv & Hw & _).
  unfold IsPruned, Cleanup. simpl.
  transitivity (forallb CTxOut_IsNull (Cleanup_loop (length (vout c)) (vout c) ++ w));
    [|by rewrite <- Hv].
  rewrite forallb_app.
  assert (forallb CTxOut_IsNull w = true) as ->.
  { apply forallb_forall. intros x Hx. rewrite Forall_forall in Hw. apply Hw.
    by apply list_elem_of_In. }
  by rewrite andb_true_r.
Qed.

Lemma Cleanup_idempotent (c : CCoins) : Cleanup (Cleanup c) = Cleanup c.
Proof.
  assert (Cleanup_loop (length (vout (Cleanup c))) (vout (Cleanup c)) = vout (Cleanup c)) as Hfix.
  { rewrite <- (app_nil_r (vout (Cleanup c))) at 2.
    apply Cleanup_loop_app_nulls; [done|simpl; lia|apply Cleanup_vout_last]. }
  unfold Cleanup at 1. rewrite Hfix. by destruct c.
Qed.

(** ** The monad *)

Lemma bind_Some {A B} (m : M A) (k : A -> M B) (c : CCoinsViewCache) (r : B * CCoinsViewCache) :
  bind m k c = Some r <-> exists a c1, m c = Some (a, c1) /\ k a c1 = Some r.
Proof.
  unfold bind. destruct (m c) as [[a c1]|]; split.
  - intros Hk. by exists a, c1.
  - by intros (a' & c1' & [= <- <-] & Hk).
  - done.
  - by intros (a' & c1' & ? & _).
Qed.

Lemma bind_eq {A B} (m : M A) (k : A -> M B) (c c1 : CCoinsViewCache) (a : A) :
  m c = Some (a, c1) -> bind m k c = k a c1.
Proof. unfold bind. by intros ->. Qed.

(** ** Cleanup and HaveCoins *)

Lemma Spend_cleaned (nPos : Z) (c c' : CCoins) :
  Spend nPos c = (true, c') -> exists c0, c' = Cleanup c0.
Proof.
  unfold Spend. destruct (vout c !! Z.to_nat nPos) as [o|]; [|done].
  destruct (_ || _); [done|]. intros [= <-]. eauto.
Qed.

Lemma CCoinsModifier_dtor_cleaned (m : CCoinsModifier) (c c' : CCoinsViewCache)
    (e : CCoinsCacheEntry) :
  CCoinsModifier_dtor m c = Some (tt, c') -> cacheCoins c' !! it m = Some e ->
  exists c0, coins e = Cleanup c0.
Proof.
  unfold CCoinsModifier_dtor. munfold. destruct (hasModifier c); [|done]. simpl.
  destruct (cacheCoins c !! it m) as [e0|]; [|done]. simpl.
  rewrite lookup_insert_eq. simpl.
  destruct (_ && _); intros [= <-]; simpl.
  - by rewrite lookup_delete_eq.
  - rewrite lookup_insert_eq. intros [= <-]. simpl. eauto.
Qed.

(** C10.  On a coin entry on which [Cleanup] has run, [IsPruned] holds
    exactly when [vout] is empty; so, when the coins that a reader finds for
    [txid], in the slot of the cache or else in the base, are such an entry,
    [HaveCoins] returns, answers true exactly when these coins are there and
    not pruned, and changes no coins that a reader finds.  [Cleanup] has run
    on every entry built by [From], left by a successful [Spend], or left
    in the cache by the destructor of a modifier. *)
Theorem HaveCoins_iff_reachable_unpruned `{Externals} (txid : uint256) (c : CCoinsViewCache) :
  (forall co, coins_view c txid = Some co -> exists c0, co = Cleanup c0) ->
  (forall c0, IsPruned (Cleanup c0) = true <-> vout (Cleanup c0) = []) /\
  (exists b c', HaveCoins txid c = Some (b, c') /\
     (b = true <-> exists co, coins_view c txid = Some co /\ IsPruned co = false) /\
     (forall k, coins_view c' k = coins_view c k)) /\
  (forall tx h, exists c0, From_tx tx h = Cleanup c0) /\
  (forall cert h mh top, exists c0, From_cert cert h mh top = Cleanup c0) /\
  (forall nPos co co', Spend nPos co = (true, co') -> exists c0, co' = Cleanup c0) /\
  (forall m c1 c2 e, CCoinsModifier_dtor m c1 = Some (tt, c2) ->
     cacheCoins c2 !! it m = Some e -> exists c0, coins e = Cleanup c0).
Proof.
  intros Hclean. split; [exact Cleanup_pruned_iff_empty|]. split; [|split; [|split; [|split]]].
  - assert (forall co, coins_view c txid = Some co ->
              negb (bool_decide (vout co = [])) = true <-> IsPruned co = false) as Hunpruned.
    { intros co Hco. destruct (Hclean co Hco) as (c0 & ->). split.
      - intros Hb. destruct (IsPruned (Cleanup c0)) eqn:Hp; [|done].
        apply Cleanup_pruned_iff_empty in Hp. rewrite Hp in Hb. by destruct Hb.
      - intros Hp. apply negb_true_iff, bool_decide_eq_false. intros He.
        apply Cleanup_pruned_iff_empty in He. congruence. }
    unfold coins_view in Hunpruned.
    unfold HaveCoins, FetchCoins, coins_view. munfold.
    destruct (cacheCoins c !! txid) as [e|] eqn:He.
    + eexists _, c. split; [done|]. split; [|done]. split.
      * intros Hb. exists (coins e). split; [done|]. by apply Hunpruned.
      * intros (co & [= <-] & Hp). by apply Hunpruned.
    + destruct (base_GetCoins (base c) txid) as [co|] eqn:Hb.
      * eexists _, _. split; [done|]. simpl. split.
        -- split.
           ++ intros Hv. exists co. split; [done|]. by apply Hunpruned.
           ++ intros (co' & [= <-] & Hp). by apply Hunpruned.
        -- intros k. destruct (decide (k = txid)) as [->|Hne].
           ++ by rewrite lookup_insert_eq, He, Hb.
           ++ by rewrite lookup_insert_ne.
      * eexists _, c. split; [done|]. split; [|done]. split; [done|].
        by intros (co & ? & _).
  - intros tx h. unfold From_tx, ClearUnspendable. eauto.
  - intros cert h mh top. unfold From_cert, ClearUnspendable. eauto.
  - exact Spend_cleaned.
  - exact CCoinsModifier_dtor_cleaned.
Qed.

(** ** The modifier *)

Lemma has_flag_lor_DIRTY_FRESH (f : Z) :
  has_flag (Z.lor f CCoinsCacheEntry.DIRTY) CCoinsCacheEntry.FRESH
  = has_flag f CCoinsCacheEntry.FRESH.
Proof.
  unfold has_flag, CCoinsCacheEntry.DIRTY, CCoinsCacheEntry.FRESH.
  rewrite Z.land_lor_distr_l. change (Z.land 1 2) with 0. by rewrite Z.lor_0_r.
Qed.

Lemma has_flag_lor_DIRTY (f : Z) :
  has_flag (Z.lor f CCoinsCacheEntry.DIRTY) CCoinsCacheEntry.DIRTY = true.
Proof.
  unfold has_flag, CCoinsCacheEntry.DIRTY.
  rewrite Z.land_lor_distr_l. change (Z.land 1 1) with 1.
  apply negb_true_iff, Z.eqb_neq. intros Hz. apply Z.lor_eq_0_iff in Hz. lia.
Qed.

(** C7.  A slot of [cacheCoins] that carries FRESH and whose coins the
    writes through a modifier leave pruned is erased when the modifier is
    destroyed: [ModifyCoins], the writes and the destructor all return, and the
    key is absent from [cacheCoins] afterwards. *)
Theorem FRESH_pruned_slot_erased_on_drop `{Externals} (txid : uint256) (c : CCoinsViewCache)
    (e : CCoinsCacheEntry) (f : CCoins -> CCoins) :
  hasModifier c = false ->
  cacheCoins c !! txid = Some e ->
  has_flag (flags e) CCoinsCacheEntry.FRESH = true ->
  IsPruned (f (coins e)) = true ->
  exists c',
    (m <- ModifyCoins txid ;; Modifier_apply m f ;; CCoinsModifier_dtor m) c = Some (tt, c') /\
    cacheCoins c' !! txid = None /\ hasModifier c' = false.
Proof.
  intros Hm He Hf Hp.
  unfold ModifyCoins, CCoinsModifier_ctor, Modifier_apply, CCoinsModifier_dtor. munfold.
  rewrite Hm. simpl. rewrite He. simpl. rewrite Hm. simpl.
  rewrite !lookup_insert_eq. simpl. rewrite !lookup_insert_eq. simpl.
  rewrite has_flag_lor_DIRTY_FRESH, Hf, Cleanup_preserves_pruned, Hp. simpl.
  eexists. split; [done|]. simpl. by rewrite lookup_delete_eq.
Qed.

(** ** Anchors *)

Lemma set_hashAnchor_id (c : CCoinsViewCache) : set_hashAnchor (hashAnchor c) c = c.
Proof. by destruct c. Qed.

Lemma GetBestAnchor_eq (c : CCoinsViewCache) :
  GetBestAnchor c = Some (best_anchor c, set_hashAnchor (best_anchor c) c).
Proof.
  unfold GetBestAnchor, best_anchor. munfold.
  destruct (uint256_IsNull (hashAnchor c)); simpl; [done|].
  by rewrite set_hashAnchor_id.
Qed.

(** C6.  [PushAnchor] of a tree whose root is the best anchor, and
    [PopAnchor] of the best anchor, return and leave the cache as a call of
    [GetBestAnchor] leaves it: every map is unchanged, no slot of
    [cacheAnchors] is added or modified, and the best anchor is unchanged.
    The only field that can differ is [hashAnchor], filled with the best
    anchor of the base when it was null; when it is not null, the cache is
    unchanged as a whole. *)
Theorem anchor_no_op `{Externals} (t : ZCIncrementalMerkleTree) (c : CCoinsViewCache) :
  (tree_root t = best_anchor c ->
   exists c', PushAnchor t c = Some (tt, c') /\
     c' = set_hashAnchor (best_anchor c) c /\
     cacheAnchors c' = cacheAnchors c /\ best_anchor c' = best_anchor c /\
     (uint256_IsNull (hashAnchor c) = false -> c' = c)) /\
  (exists c', PopAnchor (best_anchor c) c = Some (tt, c') /\
     c' = set_hashAnchor (best_anchor c) c /\
     cacheAnchors c' = cacheAnchors c /\ best_anchor c' = best_anchor c /\
     (uint256_IsNull (hashAnchor c) = false -> c' = c)).
Proof.
  assert (best_anchor (set_hashAnchor (best_anchor c) c) = best_anchor c) as Hbest.
  { unfold best_anchor. simpl. destruct (uint256_IsNull (hashAnchor c)) eqn:Hn; simpl.
    - by destruct (uint256_IsNull (base_GetBestAnchor (base c))).
    - by rewrite Hn. }
  assert (uint256_IsNull (hashAnchor c) = false -> set_hashAnchor (best_anchor c) c = c) as Hid.
  { intros Hn. unfold best_anchor. rewrite Hn. apply set_hashAnchor_id. }
  split.
  - intros Hroot. exists (set_hashAnchor (best_anchor c) c).
    split; [|by repeat split].
    unfold PushAnchor. rewrite (bind_eq _ _ _ _ _ (GetBestAnchor_eq c)).
    rewrite Hroot, N.eqb_refl. done.
  - exists (set_hashAnchor (best_anchor c) c).
    split; [|by repeat split].
    unfold PopAnchor. rewrite (bind_eq _ _ _ _ _ (GetBestAnchor_eq c)).
    by rewrite N.eqb_refl.
Qed.

(** ** Erased entries *)

Lemma GetScIds_elem_of (c : CCoinsViewCache) (scId : uint256) :
  exists ids, GetScIds c = Some (ids, c) /\
    (scId ∈ ids <->
     match cacheSidechains c !! scId with
     | Some e => flag e <> ERASED
     | None => scId ∈ base_GetScIds (base c)
     end).
Proof.
  unfold GetScIds. munfold. eexists. split; [done|].
  generalize (base_GetScIds (base c)). intros b.
  apply (map_fold_weak_ind (fun (r : gset N) (m : gmap N CSidechainsCacheEntry) =>
    scId ∈ r <-> match m !! scId with
                 | Some e => flag e <> ERASED
                 | None => scId ∈ b
                 end)).
  - by rewrite lookup_empty.
  - intros i x m r Hi Hrec. destruct (decide (i = scId)) as [->|Hne].
    + rewrite lookup_insert_eq. clear Hrec. case_bool_decide as Hx.
      * rewrite elem_of_difference, elem_of_singleton. tauto.
      * rewrite elem_of_union, elem_of_singleton. tauto.
    + rewrite lookup_insert_ne by done. rewrite <- Hrec. clear Hrec.
      case_bool_decide as Hx; clear Hx.
      * rewrite elem_of_difference, elem_of_singleton. split; [tauto|]. intros; split; congruence.
      * rewrite elem_of_union, elem_of_singleton. split; [intros [?|?]; congruence|tauto].
Qed.

(** C9.  A sidechain whose cache slot is flagged ERASED, and an event height
    whose cache slot is flagged ERASED, are absent for the readers:
    [HaveSidechain] and [GetSidechain] answer false and fill nothing,
    [HaveSidechainEvents] and [GetSidechainEvents] answer false, and
    [GetScIds] leaves the id out, whether the base view lists it or not.  The
    readers leave the cache unchanged. *)
Theorem ERASED_slots_read_as_absent (c : CCoinsViewCache) (scId : uint256) (height : Z) :
  (forall e, cacheSidechains c !! scId = Some e -> flag e = ERASED ->
     HaveSidechain scId c = Some (false, c) /\
     GetSidechain scId c = Some (None, c) /\
     exists ids, GetScIds c = Some (ids, c) /\ scId ∉ ids) /\
  (forall e, cacheSidechainEvents c !! height = Some e -> ev_flag e = ERASED ->
     HaveSidechainEvents height c = Some (false, c) /\
     GetSidechainEvents height c = Some (None, c)).
Proof.
  split.
  - intros e He Hf. unfold HaveSidechain, GetSidechain, FetchSidechains. munfold.
    rewrite He, Hf. simpl. repeat split.
    destruct (GetScIds_elem_of c scId) as (ids & Hids & Hin).
    exists ids. split; [done|]. rewrite Hin, He. tauto.
  - intros e He Hf. unfold HaveSidechainEvents, GetSidechainEvents, FetchSidechainEvents. munfold.
    by rewrite He, Hf.
Qed.

(** ** Wrap-around *)

Lemma int64_in_range (x : Z) : in_int64 x -> int64 x = x.
Proof.
  unfold in_int64, int64, wrap_signed. intros Hx.
  change (2 ^ (64 - 1)) with (2 ^ 63). rewrite Z.mod_small; lia.
Qed.

Lemma int64_add_l (a b : Z) : int64 (int64 a + b) = int64 (a + b).
Proof.
  unfold int64, wrap_signed. f_equal.
  replace ((a + 2 ^ (64 - 1)) mod 2 ^ 64 - 2 ^ (64 - 1) + b + 2 ^ (64 - 1))
    with ((a + 2 ^ (64 - 1)) mod 2 ^ 64 + b) by lia.
  rewrite Zplus_mod_idemp_l. f_equal. lia.
Qed.

Lemma int64_sub_l (a b : Z) : int64 (int64 a - b) = int64 (a - b).
Proof. rewrite <- !Z.add_opp_r. apply int64_add_l. Qed.

Lemma int64_range (x : Z) : in_int64 (int64 x).
Proof.
  unfold in_int64, int64, wrap_signed. change (2 ^ (64 - 1)) with (2 ^ 63).
  pose proof (Z.mod_pos_bound (x + 2 ^ 63) (2 ^ 64) ltac:(lia)). lia.
Qed.

Lemma land_lor_same (a b : Z) : Z.land (Z.lor a b) b = b.
Proof.
  apply Z.bits_inj'. intros n Hn. rewrite Z.land_spec, Z.lor_spec.
  destruct (Z.testbit a n), (Z.testbit b n); done.
Qed.

Lemma has_flag_lor_same (a b : Z) : b <> 0 -> has_flag (Z.lor a b) b = true.
Proof.
  intros Hb. unfold has_flag. rewrite land_lor_same.
  by apply negb_true_iff, Z.eqb_neq.
Qed.

Lemma has_flag_lor_keep (a b bit : Z) : has_flag a bit = true -> has_flag (Z.lor a b) bit = true.
Proof.
  unfold has_flag. rewrite !negb_true_iff, !Z.eqb_neq, Z.land_lor_distr_l.
  intros Ha Hz. apply Z.lor_eq_0_iff in Hz. tauto.
Qed.

(** ** Sidechain slots *)

Lemma scUndo_at_store `{Externals} (scId : uint256) (d : CSidechainUndoData) (u : CBlockUndo) :
  scUndo_at scId (scUndo_store scId d u) = d.
Proof. unfold scUndo_at, scUndo_store. simpl. by rewrite lookup_insert_eq. Qed.

Lemma scUndo_at_store_ne `{Externals} (scId scId' : uint256) (d : CSidechainUndoData)
    (u : CBlockUndo) :
  scId <> scId' -> scUndo_at scId' (scUndo_store scId d u) = scUndo_at scId' u.
Proof. intros Hne. unfold scUndo_at, scUndo_store. simpl. by rewrite lookup_insert_ne. Qed.

Lemma scUndo_at_touch `{Externals} (scId scId' : uint256) (u : CBlockUndo) :
  scUndo_at scId' (scUndo_store scId (scUndo_at scId u) u) = scUndo_at scId' u.
Proof.
  destruct (decide (scId = scId')) as [->|Hne].
  - apply scUndo_at_store.
  - by apply scUndo_at_store_ne.
Qed.

(** ** Certificates *)

Lemma GetSidechain_slot (scId : uint256) (c c0 : CCoinsViewCache) (sc : CSidechain) :
  GetSidechain scId c = Some (Some sc, c0) ->
  exists e, cacheSidechains c0 !! scId = Some e /\ sidechain e = sc /\ flag e <> ERASED /\
    HaveSidechain scId c = Some (true, c0) /\
    (forall id, id <> scId -> cacheSidechains c0 !! id = cacheSidechains c !! id).
Proof.
  unfold GetSidechain, HaveSidechain, FetchSidechains. munfold.
  destruct (cacheSidechains c !! scId) as [e|] eqn:He.
  - case_bool_decide as Hf; simpl; [done|]. intros [= <- <-]. by exists e.
  - destruct (base_GetSidechain (base c) scId) as [tmp|]; [|done]. simpl.
    intros [= <- <-]. eexists. simpl. rewrite lookup_insert_eq. repeat split; [done|].
    intros id Hid. by rewrite lookup_insert_ne.
Qed.

Lemma ModifySidechain_present `{Externals} (scId : uint256) (c : CCoinsViewCache)
    (e : CSidechainsCacheEntry) :
  cacheSidechains c !! scId = Some e -> ModifySidechain scId c = Some (e, c).
Proof. unfold ModifySidechain. by intros ->. Qed.

Lemma HaveSidechain_present (scId : uint256) (c : CCoinsViewCache) (e : CSidechainsCacheEntry) :
  cacheSidechains c !! scId = Some e ->
  HaveSidechain scId c = Some (negb (bool_decide (flag e = ERASED)), c).
Proof. unfold HaveSidechain, FetchSidechains. munfold. by intros ->. Qed.

(** C3.  A certificate that passes the epoch handling of [UpdateSidechain]
    (the next epoch, or the same epoch with a higher quality) finds the
    balance [b'] that the epoch handling leaves.  When subtracting the total
    of its backward transfers would make the balance negative,
    [UpdateSidechain] returns false; otherwise it returns true with the
    balance [b' - bwt] (wrapped to 64 bits, and exact when it fits). *)
Theorem UpdateSidechain_subtracts_bwt `{Externals} (cert : CScCertificate)
    (blockUndo : CBlockUndo) (c c0 : CCoinsViewCache) (sc : CSidechain) (b' : Z) :
  uint256_IsNull (prevTopCommittedCertHash (scUndo_at (cert_GetScId cert) blockUndo)) = true ->
  GetSidechain (cert_GetScId cert) c = Some (Some sc, c0) ->
  (epochNumber cert = int32 (lastTopQualityCertReferencedEpoch sc + 1) /\ b' = balance sc) \/
  (epochNumber cert <> int32 (lastTopQualityCertReferencedEpoch sc + 1) /\
   epochNumber cert = lastTopQualityCertReferencedEpoch sc /\
   lastTopQualityCertQuality sc < quality cert /\
   b' = int64 (balance sc + lastTopQualityCertBwtAmount sc)) ->
  (b' - cert_GetValueOfBackwardTransfers cert < 0 ->
   exists u' c', UpdateSidechain cert blockUndo c = Some ((false, u'), c')) /\
  (0 <= b' - cert_GetValueOfBackwardTransfers cert ->
   exists u' c' e',
     UpdateSidechain cert blockUndo c = Some ((true, u'), c') /\
     cacheSidechains c' !! cert_GetScId cert = Some e' /\
     balance (sidechain e') = int64 (b' - cert_GetValueOfBackwardTransfers cert) /\
     (in_int64 (b' - cert_GetValueOfBackwardTransfers cert) ->
      balance (sidechain e') = b' - cert_GetValueOfBackwardTransfers cert)).
Proof.
  intros Hundo Hget Hepoch.
  destruct (GetSidechain_slot _ _ _ _ Hget) as (e & He & Hsc & Hfl & Hhave & _).
  unfold UpdateSidechain, UpdateSidechain_balance. munfold.
  rewrite scUndo_at_touch, Hundo, Hhave. simpl.
  rewrite (ModifySidechain_present _ _ _ He), Hsc.
  destruct Hepoch as [[Hep ->]|(Hne & Hep & Hq & ->)].
  - rewrite Hep, Z.eqb_refl. simpl. split.
    + intros Hneg. destruct (Z.ltb_spec (balance sc) (cert_GetValueOfBackwardTransfers cert)); [|lia].
      eauto.
    + intros Hpos. destruct (Z.ltb_spec (balance sc) (cert_GetValueOfBackwardTransfers cert)); [lia|].
      eexists _, _, _. split; [done|]. simpl. rewrite lookup_insert_eq.
      split; [done|]. simpl. split; [done|]. apply int64_in_range.
  - destruct (Z.eqb_spec (epochNumber cert) (int32 (lastTopQualityCertReferencedEpoch sc + 1)));
      [done|].
    rewrite Hep, Z.eqb_refl.
    destruct (Z.leb_spec (quality cert) (lastTopQualityCertQuality sc)); [lia|].
    simpl. split.
    + intros Hneg. match goal with |- context [?a <? ?b] => destruct (Z.ltb_spec a b) end; [|lia].
      eauto.
    + intros Hpos. match goal with |- context [?a <? ?b] => destruct (Z.ltb_spec a b) end; [lia|].
      eexists _, _, _. split; [done|]. simpl. rewrite lookup_insert_eq.
      split; [done|]. simpl. split; [done|]. apply int64_in_range.
Qed.

(** C1.  After a successful [UpdateSidechain(cert, blockUndo)],
    [RestoreSidechain] of the same certificate with the undo data that the
    update left for the sidechain returns true and leaves in the cache the
    sidechain record of before the update, equal in every field: the balance,
    the five fields of the last top quality certificate, and the data hash of
    the past epoch. *)
Theorem cert_undo_round_trip `{Externals} (cert : CScCertificate)
    (blockUndo blockUndo1 : CBlockUndo) (c c0 c1 : CCoinsViewCache) (sc : CSidechain) :
  CROSS_EPOCH_CERT_DATA <> 0 -> ANY_EPOCH_CERT_DATA <> 0 ->
  in_int64 (balance sc) ->
  GetSidechain (cert_GetScId cert) c = Some (Some sc, c0) ->
  UpdateSidechain cert blockUndo c = Some ((true, blockUndo1), c1) ->
  exists c2 e2,
    RestoreSidechain cert (scUndo_at (cert_GetScId cert) blockUndo1) c1 = Some (true, c2) /\
    cacheSidechains c2 !! cert_GetScId cert = Some e2 /\
    sidechain e2 = sc.
Proof.
  intros Hcross Hany Hbal Hget Hupd.
  destruct (GetSidechain_slot _ _ _ _ Hget) as (e & He & Hsc & Hfl & Hhave & _).
  unfold UpdateSidechain, UpdateSidechain_balance in Hupd. munfold.
  rewrite scUndo_at_touch in Hupd.
  destruct (uint256_IsNull _); [|done].
  rewrite Hhave in Hupd. simpl in Hupd.
  rewrite (ModifySidechain_present _ _ _ He), Hsc in Hupd.
  unfold RestoreSidechain. munfold.
  destruct (Z.eqb_spec (epochNumber cert) (int32 (lastTopQualityCertReferencedEpoch sc + 1)))
    as [Hep|Hep].
  - match type of Hupd with context [?a <? ?b] => destruct (Z.ltb_spec a b) end; [done|].
    injection Hupd as <- <-.
    rewrite scUndo_at_store.
    erewrite HaveSidechain_present by (simpl; apply lookup_insert_eq). simpl.
    erewrite ModifySidechain_present by (simpl; apply lookup_insert_eq). simpl.
    rewrite N.eqb_refl. simpl.
    rewrite Hep, Z.eqb_refl.
    rewrite (has_flag_lor_keep _ _ _ (has_flag_lor_same _ _ Hcross)). simpl.
    rewrite (has_flag_lor_same _ _ Hany). simpl.
    eexists _, _. split; [done|]. simpl. rewrite lookup_insert_eq. split; [done|]. simpl.
    unfold set_lastTopQualityCert, set_pastEpochTopQualityCertDataHash,
      set_lastTopQualityCertDataHash, set_balance. simpl.
    rewrite int64_add_l.
    replace (balance sc - cert_GetValueOfBackwardTransfers cert
             + cert_GetValueOfBackwardTransfers cert) with (balance sc) by lia.
    rewrite (int64_in_range _ Hbal). by destruct sc.
  - destruct (Z.eqb_spec (epochNumber cert) (lastTopQualityCertReferencedEpoch sc)) as [Hsame|];
      [|done].
    destruct (Z.leb_spec (quality cert) (lastTopQualityCertQuality sc)) as [|Hq]; [done|].
    match type of Hupd with context [?a <? ?b] => destruct (Z.ltb_spec a b) end; [done|].
    injection Hupd as <- <-.
    rewrite scUndo_at_store.
    erewrite HaveSidechain_present by (simpl; apply lookup_insert_eq). simpl.
    erewrite ModifySidechain_present by (simpl; apply lookup_insert_eq). simpl.
    rewrite N.eqb_refl. simpl.
    destruct (Z.eqb_spec (epochNumber cert)
      (int32 (lastTopQualityCertReferencedEpoch sc + 1))); [done|].
    rewrite Hsame, Z.eqb_refl.
    destruct (Z.ltb_spec (lastTopQualityCertQuality sc) (quality cert)); [|lia]. simpl.
    rewrite (has_flag_lor_same _ _ Hany). simpl.
    eexists _, _. split; [done|]. simpl. rewrite lookup_insert_eq. split; [done|]. simpl.
    unfold set_lastTopQualityCert, set_balance. simpl.
    rewrite int64_sub_l, <- Z.add_sub_assoc, int64_add_l.
    replace (int64 (balance sc + lastTopQualityCertBwtAmount sc)
             - cert_GetValueOfBackwardTransfers cert
             + (cert_GetValueOfBackwardTransfers cert - lastTopQualityCertBwtAmount sc))
      with (int64 (balance sc + lastTopQualityCertBwtAmount sc)
            - lastTopQualityCertBwtAmount sc) by lia.
    rewrite int64_sub_l.
    replace (balance sc + lastTopQualityCertBwtAmount sc - lastTopQualityCertBwtAmount sc)
      with (balance sc) by lia.
    rewrite (int64_in_range _ Hbal). by destruct sc.
Qed.

(** ** Scheduling *)

Lemma AccessSidechain_events (scId : uint256) (c c0 : CCoinsViewCache) (r : option CSidechain) :
  AccessSidechain scId c = Some (r, c0) ->
  cacheSidechainEvents c0 = cacheSidechainEvents c /\ base c0 = base c.
Proof.
  unfold AccessSidechain, FetchSidechains. munfold.
  destruct (cacheSidechains c !! scId); [by intros [= <- <-]|].
  destruct (base_GetSidechain (base c) scId); by intros [= <- <-].
Qed.

(** C5.  For a certificate of a sidechain [sc] that the cache reaches, with
    [cur] and [next] the current and the next ceasing heights:
    when there is an event entry [ev] at [cur],
    [ScheduleSidechainEvent(cert)] returns true, leaves at [cur] the entry
    without the sidechain id in its ceasing set, flagged ERASED when that
    entry is null and DIRTY otherwise, and leaves at [next] the events that
    were found there (those of the slot of the cache, or else of the base,
    or else none) with the id added to the ceasing set and the maturing set
    as it was, flagged FRESH when the slot was FRESH or was made for the
    call with nothing in the base, and DIRTY otherwise; the slots of the
    other heights, the sidechains and the base are as the reads left them.
    When there is no event entry at [cur] and there is one at [next], it
    returns true and the cache is as the three reads leave it, no slot
    written. *)
Theorem ScheduleSidechainEvent_cert_moves_ceasing `{Externals} (cert : CScCertificate)
    (c c0 : CCoinsViewCache) (sc : CSidechain) (cur next : Z) :
  AccessSidechain (cert_GetScId cert) c = Some (Some sc, c0) ->
  cur = int32 (StartHeightForEpoch sc (int32 (epochNumber cert + 1)) + SafeguardMargin sc) ->
  next = int32 (cur + withdrawalEpochLength (creationData sc)) ->
  (forall ev c1, GetSidechainEvents cur c0 = Some (Some ev, c1) -> next <> cur ->
     exists c',
       ScheduleSidechainEvent_cert cert c = Some (true, c') /\
       cacheSidechainEvents c' !! cur =
         Some (mkEvEntry (mkEvents (maturingScs ev) (ceasingScs ev ∖ {[cert_GetScId cert]}))
                 (if CSidechainEvents_IsNull
                       (mkEvents (maturingScs ev) (ceasingScs ev ∖ {[cert_GetScId cert]}))
                  then ERASED else DIRTY)) /\
       cacheSidechainEvents c' !! next =
         Some (mkEvEntry
                 (mkEvents (maturingScs (events_at c0 next))
                    ({[cert_GetScId cert]} ∪ ceasingScs (events_at c0 next)))
                 (match cacheSidechainEvents c0 !! next with
                  | Some e_next => if bool_decide (ev_flag e_next = FRESH) then FRESH else DIRTY
                  | None =>
                      match base_GetSidechainEvents (base c0) next with
                      | Some _ => DIRTY
                      | None => FRESH
                      end
                  end)) /\
       (forall h, h <> cur -> h <> next ->
          cacheSidechainEvents c' !! h = cacheSidechainEvents c0 !! h) /\
       cacheSidechains c' = cacheSidechains c0 /\ base c' = base c0) /\
  (forall c1 c2, HaveSidechainEvents cur c0 = Some (false, c1) ->
     HaveSidechainEvents next c1 = Some (true, c2) ->
     ScheduleSidechainEvent_cert cert c = Some (true, c2)).
Proof.
  intros Hacc -> ->. split.
  - intros ev c1 Hget Hne.
    unfold ScheduleSidechainEvent_cert. munfold. rewrite Hacc.
    set (cur := int32 (StartHeightForEpoch sc (int32 (epochNumber cert + 1)) + SafeguardMargin sc)) in *.
    set (next := int32 (cur + withdrawalEpochLength (creationData sc))) in *.
    assert (forall b : bool, (if negb b then DIRTY else ERASED) = (if b then ERASED else DIRTY))
      as Hflip by (by intros []).
    unfold GetSidechainEvents, HaveSidechainEvents, FetchSidechainEvents, ModifySidechainEvents,
      events_at in *.
    munfold.
    destruct (cacheSidechainEvents c0 !! cur) as [e|] eqn:Hcur.
    + destruct (bool_decide (ev_flag e = ERASED)) eqn:Hfl; simpl in *; [done|].
      injection Hget as <- <-. rewrite Hcur. simpl.
      rewrite (lookup_insert_ne _ cur next) by done.
      destruct (cacheSidechainEvents c0 !! next) as [en|] eqn:Hnext; simpl.
      * eexists. split; [done|]. simpl.
        rewrite (lookup_insert_ne _ next cur) by done. rewrite !lookup_insert_eq, Hflip.
        split; [done|]. split.
        { by destruct (bool_decide (ev_flag en = FRESH)) eqn:Hx;
            [apply bool_decide_eq_true in Hx; rewrite Hx|]. }
        split; [|done]. intros h Hh1 Hh2. by rewrite !lookup_insert_ne.
      * eexists. split; [done|]. simpl.
        rewrite (lookup_insert_ne _ next cur) by done.
        rewrite (lookup_insert_ne _ next cur) by done. rewrite !lookup_insert_eq, Hflip.
        split; [done|]. split.
        { by destruct (base_GetSidechainEvents (base c0) next). }
        split; [|done]. intros h Hh1 Hh2. by rewrite !lookup_insert_ne.
    + destruct (base_GetSidechainEvents (base c0) cur) as [tmp|] eqn:Hb; [|done]. simpl in *.
      injection Hget as <- <-. simpl. rewrite lookup_insert_eq. simpl.
      rewrite !(lookup_insert_ne _ cur next) by done.
      destruct (cacheSidechainEvents c0 !! next) as [en|] eqn:Hnext; simpl.
      * eexists. split; [done|]. simpl.
        rewrite (lookup_insert_ne _ next cur) by done. rewrite !lookup_insert_eq, Hflip.
        split; [done|]. split.
        { by destruct (bool_decide (ev_flag en = FRESH)) eqn:Hx;
            [apply bool_decide_eq_true in Hx; rewrite Hx|]. }
        split; [|done]. intros h Hh1 Hh2. rewrite !lookup_insert_ne by done.
        (* the slot at [cur] of [c0] is absent and [h] is another height *)
        done.
      * eexists. split; [done|]. simpl.
        rewrite (lookup_insert_ne _ next cur) by done.
        rewrite (lookup_insert_ne _ next cur) by done. rewrite !lookup_insert_eq, Hflip.
        split; [done|]. split.
        { by destruct (base_GetSidechainEvents (base c0) next). }
        split; [|done]. intros h Hh1 Hh2. by rewrite !lookup_insert_ne.
  - intros c1 c2 Hcur Hnext.
    unfold ScheduleSidechainEvent_cert. munfold. rewrite Hacc, Hcur. simpl. by rewrite Hnext.
Qed.

(** ** BatchWrite *)

Lemma BatchWrite_coin_step (txid : uint256) (child : CCoinsCacheEntry) (c : CCoinsViewCache) :
  (BatchWrite_coin_pre child (cacheCoins c !! txid) <->
   exists c', BatchWrite_coin txid child c = Some (tt, c')) /\
  (forall c', BatchWrite_coin txid child c = Some (tt, c') ->
     BatchWrite_coin_post child (cacheCoins c !! txid) (cacheCoins c' !! txid) /\
     (forall k, k <> txid -> cacheCoins c' !! k = cacheCoins c !! k) /\
     hasModifier c' = hasModifier c).
Proof.
  unfold BatchWrite_coin, BatchWrite_coin_pre, BatchWrite_coin_post. munfold.
  destruct (has_flag (flags child) CCoinsCacheEntry.DIRTY) eqn:Hd.
  - destruct (cacheCoins c !! txid) as [itUs|] eqn:Hus.
    + destruct (has_flag (flags itUs) CCoinsCacheEntry.FRESH && IsPruned (coins child)).
      * split; [split; [eauto|done]|]. intros c' [= <-]. simpl.
        rewrite lookup_delete_eq. split; [done|]. split; [|done].
        intros k Hk. by rewrite lookup_delete_ne.
      * split; [split; [eauto|done]|]. intros c' [= <-]. simpl.
        rewrite lookup_insert_eq. split; [done|]. split; [|done].
        intros k Hk. by rewrite lookup_insert_ne.
    + destruct (IsPruned (coins child)) eqn:Hp; simpl.
      * split; [split; [eauto|done]|]. intros c' [= <-]. by rewrite Hus.
      * destruct (has_flag (flags child) CCoinsCacheEntry.FRESH) eqn:Hf; simpl.
        -- split; [split; [eauto|done]|]. intros c' [= <-]. simpl.
           rewrite lookup_insert_eq. split; [done|]. split; [|done].
           intros k Hk. by rewrite lookup_insert_ne.
        -- split; [|done]. split; [intros Hpre; by specialize (Hpre eq_refl eq_refl eq_refl)|].
           by intros (c' & ?).
  - split; [split; [eauto|done]|]. by intros c' [= <-].
Qed.

Lemma BatchWrite_coins_loop_spec (l : list (uint256 * CCoinsCacheEntry)) (c : CCoinsViewCache) :
  NoDup (l.*1) ->
  ((forall txid child, (txid, child) ∈ l -> BatchWrite_coin_pre child (cacheCoins c !! txid)) <->
   exists c', BatchWrite_coins_loop l c = Some (tt, c')) /\
  (forall c', BatchWrite_coins_loop l c = Some (tt, c') ->
     (forall txid child, (txid, child) ∈ l ->
        BatchWrite_coin_post child (cacheCoins c !! txid) (cacheCoins c' !! txid)) /\
     (forall k, k ∉ l.*1 -> cacheCoins c' !! k = cacheCoins c !! k) /\
     hasModifier c' = hasModifier c).
Proof.
  revert c. induction l as [|[txid child] l IH]; intros c Hnd.
  - simpl. munfold. split; [split; [eauto|]|].
    + intros _ ? ? Hin. by apply elem_of_nil in Hin.
    + intros c' [= <-]. split; [|done]. intros ? ? Hin. by apply elem_of_nil in Hin.
  - simpl in Hnd. apply NoDup_cons in Hnd as [Hni Hnd].
    destruct (BatchWrite_coin_step txid child c) as [Hpre Hpost].
    simpl. unfold bind.
    destruct (BatchWrite_coin txid child c) as [[[] c1]|] eqn:Hstep.
    + destruct (Hpost c1 eq_refl) as (Hp1 & Hfr1 & Hm1).
      destruct (IH c1 Hnd) as [IHpre IHpost].
      assert (forall k ch, (k, ch) ∈ l -> cacheCoins c1 !! k = cacheCoins c !! k) as Hsame.
      { intros k ch Hin. apply Hfr1. intros ->. apply Hni.
        apply list_elem_of_fmap. by exists (txid, ch). }
      split; [split|].
      * intros Hall. apply (proj1 IHpre). intros k ch Hin. rewrite (Hsame k ch Hin).
        apply Hall. by apply list_elem_of_further.
      * intros Hex. pose proof (proj2 IHpre Hex) as Hall.
        intros k ch [[= -> ->]|Hin]%elem_of_cons.
        -- apply Hpre. eauto.
        -- rewrite <- (Hsame k ch Hin). by apply Hall.
      * intros c' Hloop. destruct (IHpost c' Hloop) as (Hp2 & Hfr2 & Hm2).
        split; [|split].
        -- intros k ch [[= -> ->]|Hin]%elem_of_cons.
           ++ by rewrite (Hfr2 txid Hni).
           ++ rewrite <- (Hsame k ch Hin). by apply Hp2.
        -- intros k Hk. apply not_elem_of_cons in Hk as [Hk1 Hk2].
           rewrite (Hfr2 k Hk2). by apply Hfr1.
        -- congruence.
    + split; [|done]. split; [|by intros (c' & ?)].
      intros Hall. exfalso.
      destruct (proj1 Hpre (Hall txid child (list_elem_of_here _ _))) as (c' & Hc'). done.
Qed.

(** C2, as the code has it.  [BatchWrite] returns from its coins loop exactly
    when no modifier is live and every child slot that is DIRTY, not pruned
    and absent from the receiving cache is FRESH.  When it returns, the child
    map is drained and, for every child slot flagged DIRTY: if the key is
    absent in the receiving cache and the child's coins are not pruned, the
    child slot is FRESH and the slot is installed with DIRTY|FRESH; if the key
    is absent and the child's coins are pruned, the key stays absent; if the
    key is present with FRESH and the child's coins are pruned, the slot is
    removed; if the key is present otherwise, the slot holds the child's
    coins, DIRTY is set and FRESH is as it was in the receiving cache. *)
Theorem BatchWrite_coins_cases (mapCoins : gmap N CCoinsCacheEntry) (c : CCoinsViewCache) :
  ((hasModifier c = false /\
    forall txid child, mapCoins !! txid = Some child ->
      BatchWrite_coin_pre child (cacheCoins c !! txid)) <->
   exists r c', BatchWrite_mapCoins mapCoins c = Some (r, c')) /\
  (forall r c', BatchWrite_mapCoins mapCoins c = Some (r, c') ->
     r = ∅ /\
     forall txid child, mapCoins !! txid = Some child ->
       has_flag (flags child) CCoinsCacheEntry.DIRTY = true ->
       match cacheCoins c !! txid with
       | None =>
           if IsPruned (coins child) then cacheCoins c' !! txid = None
           else has_flag (flags child) CCoinsCacheEntry.FRESH = true /\
                cacheCoins c' !! txid =
                  Some (mkCoinsEntry (coins child)
                          (Z.lor CCoinsCacheEntry.DIRTY CCoinsCacheEntry.FRESH))
       | Some itUs =>
           if has_flag (flags itUs) CCoinsCacheEntry.FRESH && IsPruned (coins child)
           then cacheCoins c' !! txid = None
           else exists e, cacheCoins c' !! txid = Some e /\ coins e = coins child /\
                  has_flag (flags e) CCoinsCacheEntry.DIRTY = true /\
                  has_flag (flags e) CCoinsCacheEntry.FRESH
                  = has_flag (flags itUs) CCoinsCacheEntry.FRESH
       end).
Proof.
  destruct (BatchWrite_coins_loop_spec (map_to_list mapCoins) c
              (NoDup_fst_map_to_list mapCoins)) as [Hpre Hpost].
  unfold BatchWrite_mapCoins. munfold. split.
  - split.
    + intros [Hm Hall]. rewrite Hm. simpl.
      destruct (proj1 Hpre) as (c' & Hc').
      { intros txid child Hin. apply Hall. by apply elem_of_map_to_list. }
      rewrite Hc'. eauto.
    + intros (r & c' & Hrun). destruct (hasModifier c); [done|]. simpl in Hrun.
      split; [done|]. intros txid child Hin.
      destruct (BatchWrite_coins_loop (map_to_list mapCoins) c) as [[[] c1]|] eqn:Hloop; [|done].
      apply (proj2 Hpre); [eauto|]. by apply elem_of_map_to_list.
  - intros r c' Hrun. destruct (hasModifier c); [done|]. simpl in Hrun.
    destruct (BatchWrite_coins_loop (map_to_list mapCoins) c) as [[[] c1]|] eqn:Hloop; [|done].
    injection Hrun as <- <-. split; [done|].
    intros txid child Hin Hd. apply elem_of_map_to_list in Hin.
    destruct (Hpost c1 eq_refl) as (Hp & _ & _). specialize (Hp txid child Hin).
    unfold BatchWrite_coin_post in Hp. rewrite Hd in Hp.
    destruct (cacheCoins c !! txid) as [itUs|]; [|done].
    destruct (_ && _); [done|].
    eexists. split; [done|]. simpl. split; [done|].
    by rewrite has_flag_lor_DIRTY, has_flag_lor_DIRTY_FRESH.
Qed.

(** C2, the case that the claim's third sentence covers and the code treats
    otherwise: a DIRTY child slot with pruned coins, at a key that is absent
    from the receiving cache, is neither case 1 nor case 2, and the receiving
    cache does not get the child's coins with DIRTY: the key stays absent. *)
Lemma BatchWrite_absent_pruned_not_written :
  let child := mkCoinsEntry (mkCoins false [] 0 0 (-1) 0) CCoinsCacheEntry.DIRTY in
  let c := CCoinsViewCache_new CCoinsView_null in
  has_flag (flags child) CCoinsCacheEntry.DIRTY = true /\
  cacheCoins c !! 7%N = None /\
  IsPruned (coins child) = true /\
  exists c', BatchWrite_mapCoins {[7%N := child]} c = Some (∅, c') /\
    ~ (exists e, cacheCoins c' !! 7%N = Some e /\ coins e = coins child /\
         has_flag (flags e) CCoinsCacheEntry.DIRTY = true).
Proof.
  simpl. split; [done|]. split; [done|]. split; [done|].
  eexists. split; [vm_compute; reflexivity|].
  intros (e & He & _). vm_compute in He. discriminate.
Qed.

(** ** CBlockUndo *)

Lemma AddEntriesInVector_Serialize `{SerializeLib} (v acc : list CTxUndo) (s : Stream) :
  (forall x s', x ∈ v -> Unserialize_CTxUndo (Serialize_CTxUndo x ++ s') = Some (x, s')) ->
  AddEntriesInVector (length v) (concat (map Serialize_CTxUndo v) ++ s) acc = Some (acc ++ v, s).
Proof.
  revert acc. induction v as [|x v IH]; intros acc Hx; simpl.
  - by rewrite app_nil_r.
  - rewrite <- app_assoc, Hx by apply list_elem_of_here.
    rewrite IH.
    + by rewrite <- app_assoc.
    + intros y s' Hy. apply Hx. by apply list_elem_of_further.
Qed.

Lemma AddEntriesInVector_length `{SerializeLib} (n : nat) (s s' : Stream) (acc v : list CTxUndo) :
  AddEntriesInVector n s acc = Some (v, s') -> length v = (length acc + n)%nat.
Proof.
  revert s acc. induction n as [|n IH]; intros s acc; simpl.
  - intros [= <- <-]. lia.
  - destruct (Unserialize_CTxUndo s) as [[x s1]|]; [|done].
    intros Hrec. apply IH in Hrec. rewrite length_app in Hrec. simpl in Hrec. lia.
Qed.

(** C8.  The marker [0xffff] is greater than the largest number of
    transactions in a block.  [CBlockUndo::Unserialize], when it returns:
    with the leading compact size equal to the marker, it has read
    [vtxundo], the tree root and the sidechain undo data, and the object
    carries the sidechain attributes; with any other compact size, it has
    read that many [CTxUndo] entries and the tree root, has read no sidechain
    undo data (the map of the object is as it was) and the object does not
    carry the sidechain attributes.  For readers that give back what the
    writers wrote, [Unserialize] of what [Serialize] wrote for an undo in the
    new format gives back the undo with its flag, and for an undo in the old
    format with a feasible number of transactions it gives back its entries
    and its root, flagged as old format. *)
Theorem CBlockUndo_marker_dispatch `{SerializeLib} (u u0 : CBlockUndo) (rest : Stream) :
  MAX_BLOCK_SIZE / MIN_TX_SIZE < _marker /\
  (forall s n s1 u' s', ReadCompactSize s = Some (n, s1) -> uint32 n = _marker ->
     CBlockUndo_Unserialize u0 s = Some (u', s') ->
     includesSidechainAttributes u' = true /\
     exists s2 s3, Unserialize_vtxundo s1 = Some (vtxundo u', s2) /\
       Unserialize_uint256 s2 = Some (old_tree_root u', s3) /\
       Unserialize_scUndoData s3 = Some (scUndoDatabyScId u', s')) /\
  (forall s n s1 u' s', ReadCompactSize s = Some (n, s1) -> uint32 n <> _marker ->
     CBlockUndo_Unserialize u0 s = Some (u', s') ->
     includesSidechainAttributes u' = false /\
     length (vtxundo u') = Z.to_nat (uint32 n) /\
     scUndoDatabyScId u' = scUndoDatabyScId u0 /\
     exists s2, AddEntriesInVector (Z.to_nat (uint32 n)) s1 [] = Some (vtxundo u', s2) /\
       Unserialize_uint256 s2 = Some (old_tree_root u', s')) /\
  ((forall s, ReadCompactSize (WriteCompactSize _marker ++ s) = Some (_marker, s)) ->
   (forall s, ReadCompactSize (WriteCompactSize (Z.of_nat (length (vtxundo u))) ++ s)
              = Some (Z.of_nat (length (vtxundo u)), s)) ->
   (forall x s, x ∈ vtxundo u ->
      Unserialize_CTxUndo (Serialize_CTxUndo x ++ s) = Some (x, s)) ->
   (forall s, Unserialize_uint256 (Serialize_uint256 (old_tree_root u) ++ s)
              = Some (old_tree_root u, s)) ->
   (forall s, Unserialize_scUndoData (Serialize_scUndoData (scUndoDatabyScId u) ++ s)
              = Some (scUndoDatabyScId u, s)) ->
   (includesSidechainAttributes u = true ->
    CBlockUndo_Unserialize u0 (CBlockUndo_Serialize u ++ rest) = Some (u, rest)) /\
   (includesSidechainAttributes u = false ->
    Z.of_nat (length (vtxundo u)) <= MAX_BLOCK_SIZE / MIN_TX_SIZE ->
    CBlockUndo_Unserialize u0 (CBlockUndo_Serialize u ++ rest)
    = Some (mkBlockUndo false (vtxundo u) (old_tree_root u) (scUndoDatabyScId u0), rest))).
Proof.
  split; [by vm_compute|]. split; [|split].
  - intros s n s1 u' s' Hread Hn. unfold CBlockUndo_Unserialize. rewrite Hread, Hn.
    change (_marker =? _marker) with true. cbv iota.
    destruct (Unserialize_vtxundo s1) as [[v s2]|] eqn:Hv; [|done].
    destruct (Unserialize_uint256 s2) as [[root s3]|] eqn:Hroot; [|done].
    destruct (Unserialize_scUndoData s3) as [[m s4]|] eqn:Hm; [|done].
    intros [= <- <-]. simpl. split; [done|]. by exists s2, s3.
  - intros s n s1 u' s' Hread Hn. unfold CBlockUndo_Unserialize. rewrite Hread.
    destruct (Z.eqb_spec (uint32 n) _marker) as [|_]; [done|].
    destruct (AddEntriesInVector _ s1 []) as [[v s2]|] eqn:Hadd; [|done].
    destruct (Unserialize_uint256 s2) as [[root s3]|] eqn:Hroot; [|done].
    intros [= <- <-]. simpl. split; [done|]. split; [|split; [done|by exists s2]].
    by apply AddEntriesInVector_length in Hadd.
  - intros Hmarker Hlen Htx Hroot Hsc. split.
    + intros Hnew. unfold CBlockUndo_Serialize, CBlockUndo_Unserialize. rewrite Hnew.
      rewrite <- !app_assoc, Hmarker.
      change (uint32 _marker =? _marker) with true. cbv iota.
      unfold Unserialize_vtxundo, Serialize_vtxundo.
      rewrite <- !app_assoc, Hlen, Nat2Z.id, AddEntriesInVector_Serialize by done.
      simpl. rewrite Hroot, Hsc. destruct u. simpl in *. by subst.
    + intros Hold Hfeasible. unfold CBlockUndo_Serialize, CBlockUndo_Unserialize. rewrite Hold.
      unfold Serialize_vtxundo. rewrite <- !app_assoc, Hlen.
      assert (MAX_BLOCK_SIZE / MIN_TX_SIZE = 32786) as Hmax by (by vm_compute).
      assert (uint32 (Z.of_nat (length (vtxundo u))) = Z.of_nat (length (vtxundo u))) as ->.
      { unfold uint32. apply Z.mod_small. lia. }
      destruct (Z.eqb_spec (Z.of_nat (length (vtxundo u))) _marker) as [Heq|_].
      { unfold _marker in Heq. lia. }
      rewrite Nat2Z.id, AddEntriesInVector_Serialize by done.
      simpl. by rewrite Hroot.
Qed.

(** ** Maturing and ceasing *)

Lemma GetSidechain_view (scId : uint256) (c : CCoinsViewCache) :
  exists c0, GetSidechain scId c = Some (sidechain_view c scId, c0) /\
    HaveSidechain scId c = Some (bool_decide (is_Some (sidechain_view c scId)), c0) /\
    same_but_sidechains c c0 /\
    (forall id, sidechain_view c0 id = sidechain_view c id) /\
    (forall sc, sidechain_view c scId = Some sc ->
       exists e, cacheSidechains c0 !! scId = Some e /\ sidechain e = sc).
Proof.
  unfold GetSidechain, HaveSidechain, FetchSidechains, sidechain_view, same_but_sidechains. munfold.
  destruct (cacheSidechains c !! scId) as [e|] eqn:He.
  - exists c. rewrite He. case_bool_decide as Hf; simpl.
    + repeat split; try done. 
    + repeat split; try done. intros sc [= <-]. by exists e.
  - destruct (base_GetSidechain (base c) scId) as [tmp|] eqn:Hb.
    + eexists. split; [done|]. simpl. repeat split; try done.
      * intros id. destruct (decide (id = scId)) as [->|Hne].
        -- rewrite lookup_insert_eq, He. done.
        -- by rewrite lookup_insert_ne.
      * intros sc [= <-]. rewrite lookup_insert_eq. by eexists.
    + exists c. rewrite ?He, ?Hb. repeat split; try done.
Qed.

Lemma same_but_sidechains_trans (c1 c2 c3 : CCoinsViewCache) :
  same_but_sidechains c1 c2 -> same_but_sidechains c2 c3 -> same_but_sidechains c1 c3.
Proof. unfold same_but_sidechains. intros (-> & -> & -> & ->) (-> & -> & -> & ->). done. Qed.

Lemma HandleSidechainEvents_maturing_step `{Externals} (height : Z) (id : uint256)
    (u : CBlockUndo) (c : CCoinsViewCache) (sc : CSidechain) (amount : CAmount) :
  sidechain_view c id = Some sc -> mImmatureAmounts sc !! height = Some amount ->
  exists u' c',
    HandleSidechainEvents_maturing height id u c = Some (u', c') /\
    same_but_sidechains c c' /\
    cacheSidechains c' !! id = Some (mkScEntry (matured height amount sc) DIRTY) /\
    (forall id', id' <> id -> sidechain_view c' id' = sidechain_view c id') /\
    scUndo_at id u' = matured_undo amount (scUndo_at id u) /\
    (forall id', id' <> id -> scUndo_at id' u' = scUndo_at id' u).
Proof.
  intros Hview Himm.
  destruct (GetSidechain_view id c) as (c0 & _ & Hhave & Hsame & Hviews & Hslot).
  destruct (Hslot sc Hview) as (e & He & Hsc).
  unfold HandleSidechainEvents_maturing. munfold.
  rewrite Hhave, Hview. simpl.
  rewrite (ModifySidechain_present _ _ _ He), Hsc, Himm.
  eexists _, _. split; [done|]. split; [|split; [|split; [|split]]].
  - unfold same_but_sidechains in *. simpl. tauto.
  - simpl. by rewrite lookup_insert_eq.
  - intros id' Hne. rewrite <- Hviews. unfold sidechain_view. simpl.
    by rewrite lookup_insert_ne.
  - by rewrite !scUndo_at_store.
  - intros id' Hne. by rewrite !scUndo_at_store_ne.
Qed.

Lemma sidechain_view_slot (c : CCoinsViewCache) (id : uint256) (sc : CSidechain) (f : Flags) :
  cacheSidechains c !! id = Some (mkScEntry sc f) -> f <> ERASED -> sidechain_view c id = Some sc.
Proof.
  intros He Hf. unfold sidechain_view. rewrite He. simpl. by rewrite bool_decide_eq_false_2.
Qed.

Lemma HandleSidechainEvents_maturing_loop_spec `{Externals} (height : Z) (ids : list uint256)
    (u : CBlockUndo) (c : CCoinsViewCache) :
  NoDup ids ->
  (forall id, id ∈ ids ->
     exists sc amount, sidechain_view c id = Some sc /\ mImmatureAmounts sc !! height = Some amount) ->
  exists u' c',
    HandleSidechainEvents_maturing_loop height ids u c = Some (u', c') /\
    same_but_sidechains c c' /\
    (forall id sc amount, id ∈ ids -> sidechain_view c id = Some sc ->
       mImmatureAmounts sc !! height = Some amount ->
       sidechain_view c' id = Some (matured height amount sc) /\
       scUndo_at id u' = matured_undo amount (scUndo_at id u)) /\
    (forall id, id ∉ ids ->
       sidechain_view c' id = sidechain_view c id /\ scUndo_at id u' = scUndo_at id u).
Proof.
  revert u c. induction ids as [|id ids IH]; intros u c Hnd Hpre.
  - exists u, c. simpl. split; [done|]. split; [done|]. split; [|done].
    intros id sc amount Hin. by apply elem_of_nil in Hin.
  - apply NoDup_cons in Hnd as [Hni Hnd].
    destruct (Hpre id (list_elem_of_here _ _)) as (sc & amount & Hview & Himm).
    destruct (HandleSidechainEvents_maturing_step height id u c sc amount Hview Himm)
      as (u1 & c1 & Hstep & Hsame1 & Hslot1 & Hviews1 & Hundo1 & Hundos1).
    destruct (IH u1 c1 Hnd) as (u2 & c2 & Hloop & Hsame2 & Hin2 & Hout2).
    { intros id' Hin'. rewrite Hviews1; [|by intros ->].
      apply Hpre. by apply list_elem_of_further. }
    exists u2, c2. simpl. unfold bind. rewrite Hstep.
    split; [done|]. split; [by eapply same_but_sidechains_trans|]. split.
    + intros id' sc' amount' [->|Hin']%elem_of_cons Hview' Himm'.
      * destruct (Hout2 id Hni) as [-> ->].
        rewrite Hview in Hview'. injection Hview' as <-.
        rewrite Himm in Himm'. injection Himm' as <-.
        split; [|done]. eapply sidechain_view_slot; done.
      * assert (id' <> id) as Hne by (by intros ->).
        destruct (Hin2 id' sc' amount' Hin') as [-> ->]; [by rewrite Hviews1|done|].
        by rewrite Hundos1.
    + intros id' [Hne Hni']%not_elem_of_cons.
      destruct (Hout2 id' Hni') as [-> ->]. by rewrite Hviews1, Hundos1.
Qed.

Lemma Spend_nBwtMaturityHeight (nPos : Z) (co : CCoins) :
  nBwtMaturityHeight (snd (Spend nPos co)) = nBwtMaturityHeight co.
Proof.
  unfold Spend. destruct (vout co !! Z.to_nat nPos); [|done]. by destruct (_ || _).
Qed.

(** The loop of [NullifyBackwardTransfers] never reads out of range, and it
    keeps the maturity height of the coins. *)
Lemma Nullify_loop_ok `{Externals} (n : nat) (pos : Z) (co : CCoins) (outs : list CTxInUndo) :
  exists co' outs', Nullify_loop n pos co outs = Some (co', outs') /\
    nBwtMaturityHeight co' = nBwtMaturityHeight co.
Proof.
  revert pos co outs. induction n as [|n IH]; intros pos co outs; simpl; [by eauto|].
  destruct (Z.ltb_spec (size_t_of pos) (Z.of_nat (length (vout co)))) as [Hlt|]; [|by eauto].
  assert (0 <= size_t_of pos) as Hpos by (unfold size_t_of; apply Z.mod_pos_bound; lia).
  destruct (lookup_lt_is_Some_2 (vout co) (Z.to_nat (size_t_of pos))) as [o Ho]; [lia|].
  rewrite Ho.
  match goal with |- context [Nullify_loop n ?p ?c ?o] => destruct (IH p c o) as (co' & outs' & Hrec & Hm) end.
  exists co', outs'. split; [done|]. by rewrite Hm, Spend_nBwtMaturityHeight.
Qed.

Lemma same_but_coins_refl (c : CCoinsViewCache) : same_but_coins c c.
Proof. unfold same_but_coins. tauto. Qed.

Lemma same_but_coins_trans (c1 c2 c3 : CCoinsViewCache) :
  same_but_coins c1 c2 -> same_but_coins c2 c3 -> same_but_coins c1 c3.
Proof.
  unfold same_but_coins.
  intros (Hb1 & Hm1 & Hs1 & He1 & H12) (Hb2 & Hm2 & Hs2 & He2 & H23).
  split; [congruence|]. split; [congruence|]. split; [congruence|]. split; [congruence|].
  intros k Hk. by apply H23, H12.
Qed.

Lemma FetchCoins_frame (txid : uint256) (c : CCoinsViewCache) :
  exists r c1, FetchCoins txid c = Some (r, c1) /\ same_but_coins c c1 /\
    match r with
    | Some e => cacheCoins c1 !! txid = Some e
    | None => True
    end.
Proof.
  unfold FetchCoins. destruct (cacheCoins c !! txid) as [e|] eqn:He.
  - exists (Some e), c. split; [done|]. split; [apply same_but_coins_refl|done].
  - destruct (base_GetCoins (base c) txid) as [tmp|] eqn:Hb.
    + eexists (Some _), _. split; [done|]. split; [|simpl; by rewrite lookup_insert_eq].
      unfold same_but_coins. simpl. do 4 (split; [done|]).
      intros k [Hc Hbase]. split; simpl; [|done].
      intros e. destruct (decide (k = txid)) as [->|Hne].
      * rewrite lookup_insert_eq. intros [= <-]. simpl. by apply Hbase.
      * rewrite lookup_insert_ne by done. apply Hc.
    + exists None, c. split; [done|]. split; [apply same_but_coins_refl|done].
Qed.

Lemma NullifyBackwardTransfers_ok `{Externals} (certHash : uint256) (outs : list CTxInUndo)
    (c : CCoinsViewCache) :
  hasModifier c = false -> maturity_ok c certHash ->
  exists outs' c', NullifyBackwardTransfers certHash outs c = Some (outs', c') /\
    same_but_coins c c'.
Proof.
  intros Hm Hok. unfold NullifyBackwardTransfers.
  destruct (uint256_IsNull certHash).
  { exists outs, c. split; [done|apply same_but_coins_refl]. }
  destruct (FetchCoins_frame certHash c) as (r & c1 & Hfetch & Hsame1 & Hr).
  unfold HaveCoins. munfold. rewrite Hfetch.
  destruct r as [e|]; [|exists outs, c1; by split].
  destruct (decide (vout (coins e) = [])) as [Hempty|Hne].
  { rewrite bool_decide_eq_true_2 by done. simpl. exists outs, c1. by split. }
  rewrite bool_decide_eq_false_2 by done. simpl.
  unfold ModifyCoins, CCoinsModifier_ctor, Modifier_apply, CCoinsModifier_dtor. munfold.
  assert (hasModifier c1 = false) as Hm1 by (destruct Hsame1 as (_ & -> & _); done).
  rewrite Hm1. simpl. rewrite Hr, Hm1. simpl. rewrite lookup_insert_eq. simpl.
  assert (nBwtMaturityHeight (coins e) <> 0) as Hmat.
  { destruct Hsame1 as (_ & _ & _ & _ & Hoks). destruct (Hoks certHash Hok) as [Hc _].
    by apply (Hc e). }
  destruct (Z.eqb_spec (nBwtMaturityHeight (coins e)) 0) as [|_]; [done|]. simpl.
  destruct (Nullify_loop_ok (length (vout (coins e))) (nFirstBwtPos (coins e)) (coins e) outs)
    as (co' & outs' & Hloop & Hmat').
  rewrite Hloop. repeat (simpl; rewrite ?lookup_insert_eq). simpl.
  destruct (_ && _); simpl; (eexists outs', _; split; [reflexivity|]);
    (eapply same_but_coins_trans; [exact Hsame1|]); unfold same_but_coins; simpl;
    (do 4 (split; [done|])); intros k [Hc Hbase]; (split; [|done]); simpl.
  - intros e'. destruct (decide (k = certHash)) as [->|Hk].
    + by rewrite lookup_delete_eq.
    + rewrite lookup_delete_ne by done. rewrite !lookup_insert_ne by done. apply Hc.
  - intros e'. destruct (decide (k = certHash)) as [->|Hk].
    + rewrite lookup_insert_eq. intros [= <-]. simpl. intros _. congruence.
    + rewrite !lookup_insert_ne by done. apply Hc.
Qed.

Lemma keeps_matured_refl `{Externals} (u : CBlockUndo) : keeps_matured u u.
Proof. by intros id. Qed.

Lemma keeps_matured_trans `{Externals} (u1 u2 u3 : CBlockUndo) :
  keeps_matured u1 u2 -> keeps_matured u2 u3 -> keeps_matured u1 u3.
Proof.
  intros H12 H23 id. destruct (H12 id) as [Ha1 Hb1], (H23 id) as [Ha2 Hb2].
  split; [congruence|auto].
Qed.

Lemma keeps_matured_store `{Externals} (u : CBlockUndo) (id : uint256) (d : CSidechainUndoData) :
  appliedMaturedAmount d = appliedMaturedAmount (scUndo_at id u) ->
  (has_flag (contentBitMask (scUndo_at id u)) MATURED_AMOUNTS = true ->
   has_flag (contentBitMask d) MATURED_AMOUNTS = true) ->
  keeps_matured u (scUndo_store id d u).
Proof.
  intros Ha Hb id'. destruct (decide (id = id')) as [<-|Hne].
  - by rewrite scUndo_at_store.
  - by rewrite scUndo_at_store_ne.
Qed.

Lemma HandleSidechainEvents_ceasing_step `{Externals} (id : uint256) (u : CBlockUndo)
    (info : option (list CScCertificateStatusUpdateInfo)) (c : CCoinsViewCache)
    (sc : CSidechain) :
  hasModifier c = false -> sidechain_view c id = Some sc -> ceasing_ok c sc ->
  exists u' info' c',
    HandleSidechainEvents_ceasing id (u, info) c = Some ((u', info'), c') /\
    base c' = base c /\ hasModifier c' = false /\
    cacheSidechainEvents c' = cacheSidechainEvents c /\
    (forall k, maturity_ok c k -> maturity_ok c' k) /\
    sidechain_view c' id = Some (set_currentState CEASED sc) /\
    (forall id', id' <> id -> sidechain_view c' id' = sidechain_view c id') /\
    keeps_matured u u'.
Proof.
  intros Hm Hview [Hnull Hcert].
  destruct (GetSidechain_view id c) as (c0 & Hget & _ & Hsame & Hviews & Hslot).
  destruct (Hslot sc Hview) as (e & He & Hsc).
  destruct Hsame as (Hb0 & Hm0 & Hc0 & He0).
  unfold HandleSidechainEvents_ceasing. munfold.
  rewrite Hget, Hview. rewrite (ModifySidechain_present _ _ _ He), Hsc.
  set (c1 := set_cacheSidechains _ c0).
  assert (sidechain_view c1 id = Some (set_currentState CEASED sc)) as Hv1.
  { unfold sidechain_view, c1. simpl. by rewrite lookup_insert_eq. }
  assert (forall id', id' <> id -> sidechain_view c1 id' = sidechain_view c id') as Hvs1.
  { intros id' Hne. rewrite <- Hviews. unfold sidechain_view, c1. simpl.
    by rewrite lookup_insert_ne. }
  assert (forall k, maturity_ok c k -> maturity_ok c1 k) as Hok1.
  { intros k. unfold maturity_ok, c1. simpl. by rewrite Hc0, Hb0. }
  set (u1 := scUndo_store id _ u).
  assert (keeps_matured u u1) as Hk1.
  { apply keeps_matured_store; [done|]. simpl. apply has_flag_lor_keep. }
  destruct (Z.eqb_spec (lastTopQualityCertReferencedEpoch sc) EPOCH_NULL) as [Hep|Hep].
  - rewrite (Hnull Hep). simpl.
    exists u1, info, c1. split; [done|]. unfold c1. simpl. by rewrite Hb0, Hm0, He0, Hm.
  - destruct (NullifyBackwardTransfers_ok (lastTopQualityCertHash sc)
                (ceasedBwts (scUndo_at id u1)) c1) as (outs & c2 & Hnul & Hsame2).
    { unfold c1. simpl. by rewrite Hm0. }
    { apply Hok1. by apply Hcert. }
    rewrite Hnul. destruct Hsame2 as (Hb2 & Hm2 & Hs2 & He2 & Hok2).
    eexists _, _, c2. split; [done|].
    split; [by rewrite Hb2; unfold c1; simpl|].
    split; [by rewrite Hm2; unfold c1; simpl; rewrite Hm0|].
    split; [by rewrite He2; unfold c1; simpl|].
    split; [by auto|].
    split; [by unfold sidechain_view in *; rewrite Hs2, Hb2|].
    split.
    + intros id' Hne. rewrite <- (Hvs1 id' Hne). unfold sidechain_view. by rewrite Hs2, Hb2.
    + eapply keeps_matured_trans; [exact Hk1|]. by apply keeps_matured_store.
Qed.

Lemma set_currentState_id (sc : CSidechain) : set_currentState (currentState sc) sc = sc.
Proof. by destruct sc. Qed.

Lemma set_currentState_twice (s1 s2 : State) (sc : CSidechain) :
  set_currentState s1 (set_currentState s2 sc) = set_currentState s1 sc.
Proof. done. Qed.

Lemma ceasing_ok_set_currentState `{Externals} (c c' : CCoinsViewCache) (s : State)
    (sc : CSidechain) :
  (forall k, maturity_ok c k -> maturity_ok c' k) ->
  ceasing_ok c sc -> ceasing_ok c' (set_currentState s sc).
Proof. intros Hok [Hn Hc]. split; simpl; auto. Qed.

Lemma HandleSidechainEvents_ceasing_loop_spec `{Externals} (ids : list uint256) (u : CBlockUndo)
    (info : option (list CScCertificateStatusUpdateInfo)) (c : CCoinsViewCache) :
  NoDup ids -> hasModifier c = false ->
  (forall id, id ∈ ids -> exists sc, sidechain_view c id = Some sc /\ ceasing_ok c sc) ->
  exists u' info' c',
    HandleSidechainEvents_ceasing_loop ids (u, info) c = Some ((u', info'), c') /\
    base c' = base c /\ hasModifier c' = false /\
    cacheSidechainEvents c' = cacheSidechainEvents c /\
    (forall id sc, sidechain_view c id = Some sc ->
       exists s, sidechain_view c' id = Some (set_currentState s sc)) /\
    keeps_matured u u'.
Proof.
  revert u info c. induction ids as [|id ids IH]; intros u info c Hnd Hm Hpre.
  - exists u, info, c. simpl. split; [done|]. do 3 (split; [done|]).
    split; [|apply keeps_matured_refl].
    intros id sc Hv. exists (currentState sc). by rewrite set_currentState_id.
  - apply NoDup_cons in Hnd as [Hni Hnd].
    destruct (Hpre id (list_elem_of_here _ _)) as (sc & Hview & Hok).
    destruct (HandleSidechainEvents_ceasing_step id u info c sc Hm Hview Hok)
      as (u1 & info1 & c1 & Hstep & Hb1 & Hm1 & He1 & Hoks1 & Hv1 & Hvs1 & Hk1).
    destruct (IH u1 info1 c1 Hnd Hm1) as (u2 & info2 & c2 & Hloop & Hb2 & Hm2 & He2 & Hv2 & Hk2).
    { intros id' Hin'. assert (id' <> id) as Hne by (by intros ->).
      destruct (Hpre id' (list_elem_of_further _ _ _ Hin')) as (sc' & Hview' & Hok').
      exists sc'. split; [by rewrite Hvs1|].
      rewrite <- (set_currentState_id sc'). by eapply ceasing_ok_set_currentState. }
    exists u2, info2, c2.
    change (HandleSidechainEvents_ceasing_loop (id :: ids) (u, info) c)
      with (bind (HandleSidechainEvents_ceasing id (u, info))
              (fun st => HandleSidechainEvents_ceasing_loop ids st) c).
    unfold bind. rewrite Hstep.
    split; [done|]. split; [congruence|]. split; [done|]. split; [congruence|].
    split; [|by eapply keeps_matured_trans].
    intros id' sc' Hview'. destruct (decide (id' = id)) as [->|Hne].
    + rewrite Hview in Hview'. injection Hview' as <-.
      destruct (Hv2 id _ Hv1) as (s & Hs). exists s. by rewrite Hs.
    + apply Hv2. by rewrite Hvs1.
Qed.

Lemma GetSidechainEvents_slot (height : Z) (c c0 : CCoinsViewCache) (ev : CSidechainEvents) :
  GetSidechainEvents height c = Some (Some ev, c0) ->
  HaveSidechainEvents height c = Some (true, c0) /\
  GetSidechainEvents height c0 = Some (Some ev, c0) /\
  (exists e, cacheSidechainEvents c0 !! height = Some e /\ scEvents e = ev) /\
  base c0 = base c /\ hasModifier c0 = hasModifier c /\ cacheCoins c0 = cacheCoins c /\
  cacheSidechains c0 = cacheSidechains c.
Proof.
  unfold GetSidechainEvents, HaveSidechainEvents, FetchSidechainEvents. munfold.
  destruct (cacheSidechainEvents c !! height) as [e|] eqn:He.
  - destruct (bool_decide (ev_flag e = ERASED)) eqn:Hf; simpl; [done|].
    intros [= <- <-]. rewrite He, Hf. simpl. repeat split; try done. by exists e.
  - destruct (base_GetSidechainEvents (base c) height) as [tmp|]; [|done]. simpl.
    intros [= <- <-]. simpl. rewrite lookup_insert_eq. simpl. repeat split; try done.
    by eexists.
Qed.

(** C4.  At a height [height] with an event entry [ev], when the assertions
    of [HandleSidechainEvents] hold (every maturing sidechain is there with
    an immature amount at [height], every ceasing sidechain is there and the
    coins of its certificate can be nullified, no modifier is live),
    [HandleSidechainEvents] returns true and, for every sidechain id in the
    maturing set: the balance of the sidechain has grown by
    [mImmatureAmounts[height]], the undo data of the sidechain record that
    amount with the MATURED_AMOUNTS bit set, and [mImmatureAmounts] has lost
    its entry at [height]; the event entry at [height] is flagged ERASED, and
    [HaveSidechainEvents] answers false for it. *)
Theorem HandleSidechainEvents_matures `{Externals} (height : Z) (blockUndo : CBlockUndo)
    (pCertsStateInfo : option (list CScCertificateStatusUpdateInfo))
    (c c0 : CCoinsViewCache) (ev : CSidechainEvents) :
  hasModifier c = false ->
  GetSidechainEvents height c = Some (Some ev, c0) ->
  (forall id, id ∈ maturingScs ev ->
     exists sc amount, sidechain_view c id = Some sc /\
       mImmatureAmounts sc !! height = Some amount) ->
  (forall id, id ∈ ceasingScs ev ->
     exists sc, sidechain_view c id = Some sc /\ ceasing_ok c sc) ->
  exists blockUndo' pCertsStateInfo' c',
    HandleSidechainEvents height blockUndo pCertsStateInfo c
    = Some ((true, blockUndo', pCertsStateInfo'), c') /\
    (forall id sc amount, id ∈ maturingScs ev -> sidechain_view c id = Some sc ->
       mImmatureAmounts sc !! height = Some amount ->
       exists sc', sidechain_view c' id = Some sc' /\
         balance sc' = int64 (balance sc + amount) /\
         mImmatureAmounts sc' = delete height (mImmatureAmounts sc) /\
         mImmatureAmounts sc' !! height = None /\
         appliedMaturedAmount (scUndo_at id blockUndo') = amount /\
         has_flag (contentBitMask (scUndo_at id blockUndo')) MATURED_AMOUNTS = true) /\
    (exists e, cacheSidechainEvents c' !! height = Some e /\ ev_flag e = ERASED) /\
    HaveSidechainEvents height c' = Some (false, c').
Proof.
  intros Hm Hget Hmat Hcease.
  destruct (GetSidechainEvents_slot _ _ _ _ Hget)
    as (Hhave & Hget0 & (e0 & He0 & Hev0) & Hb0 & Hm0 & Hc0 & Hs0).
  assert (forall id, sidechain_view c0 id = sidechain_view c id) as Hv0.
  { intros id. unfold sidechain_view. by rewrite Hs0, Hb0. }
  destruct (HandleSidechainEvents_maturing_loop_spec height (elements (maturingScs ev))
              blockUndo c0) as (u1 & c1 & Hloop1 & Hsame1 & Hin1 & Hout1).
  { apply NoDup_elements. }
  { intros id Hin. rewrite Hv0. apply Hmat. by apply elem_of_elements. }
  destruct Hsame1 as (Hb1 & Hm1 & Hc1 & He1).
  assert (forall k, maturity_ok c k -> maturity_ok c1 k) as Hok1.
  { intros k. unfold maturity_ok. by rewrite Hc1, Hb1, Hc0, Hb0. }
  destruct (HandleSidechainEvents_ceasing_loop_spec (elements (ceasingScs ev)) u1
              pCertsStateInfo c1) as (u2 & info2 & c2 & Hloop2 & Hb2 & Hm2 & He2 & Hv2 & Hk2).
  { apply NoDup_elements. }
  { congruence. }
  { intros id Hin. apply elem_of_elements in Hin.
    destruct (Hcease id Hin) as (sc & Hview & [Hnull Hcert]).
    destruct (decide (id ∈ elements (maturingScs ev))) as [Hinm|Hnin].
    - destruct (Hmat id (proj1 (elem_of_elements _ _) Hinm)) as (sc' & amount & Hview' & Himm).
      rewrite Hview in Hview'. injection Hview' as <-.
      destruct (Hin1 id sc amount Hinm) as [Hv1 _]; [by rewrite Hv0|done|].
      exists (matured height amount sc). split; [done|]. split; simpl; auto.
    - destruct (Hout1 id Hnin) as [Hv1 _]. exists sc. split; [by rewrite Hv1, Hv0|].
      split; auto. }
  unfold HandleSidechainEvents. munfold.
  rewrite Hhave. simpl. rewrite Hget0. simpl. rewrite Hloop1, Hloop2.
  unfold ModifySidechainEvents. rewrite He2, He1, He0.
  eexists _, _, _. split; [done|]. split; [|split].
  - intros id sc amount Hin Hview Himm. apply elem_of_elements in Hin.
    destruct (Hin1 id sc amount Hin) as [Hv1 Hu1]; [by rewrite Hv0|done|].
    destruct (Hv2 id _ Hv1) as (s & Hs). destruct (Hk2 id) as [Ha Hbit].
    exists (set_currentState s (matured height amount sc)).
    split; [exact Hs|]. split; [done|]. split; [done|]. split; [simpl; apply lookup_delete_eq|].
    rewrite Ha, Hu1. split; [done|]. apply Hbit. rewrite Hu1. simpl.
    by apply has_flag_lor_same.
  - simpl. rewrite lookup_insert_eq. by eexists.
  - unfold HaveSidechainEvents, FetchSidechainEvents. munfold. simpl.
    by rewrite lookup_insert_eq.
Qed.

(** ** The loops have fuel enough *)

Lemma Cleanup_loop_fuel (v : list CTxOut) (k : nat) :
  Cleanup_loop (length v + k) v = Cleanup_loop (length v) v.
Proof.
  destruct (Cleanup_loop_split v) as (v' & w & -> & Hw & Hv').
  rewrite !(Cleanup_loop_app_nulls v' w); try done; rewrite ?length_app; lia.
Qed.

Lemma Cleanup_length (c : CCoins) : (length (vout (Cleanup c)) <= length (vout c))%nat.
Proof.
  destruct (Cleanup_loop_trim (vout c)) as (w & Hv & _).
  unfold Cleanup. simpl. pose proof (f_equal length Hv) as Hl.
  rewrite length_app in Hl. lia.
Qed.

Lemma Spend_length (nPos : Z) (c : CCoins) :
  (length (vout (snd (Spend nPos c))) <= length (vout c))%nat.
Proof.
  unfold Spend. destruct (vout c !! Z.to_nat nPos) as [o|]; [|done].
  destruct (_ || _); [done|]. cbn [snd].
  etransitivity; [apply Cleanup_length|]. simpl. by rewrite length_insert.
Qed.

Lemma size_t_of_negative (pos : Z) : - 2 ^ 31 <= pos < 0 -> size_t_of pos = pos + 2 ^ 64.
Proof.
  intros Hp. unfold size_t_of. rewrite <- (Z_mod_plus_full pos 1 (2 ^ 64)).
  apply Z.mod_small. lia.
Qed.

(** One more turn of fuel changes nothing once the fuel covers the outputs
    from [pos] on: the loop has left by its condition. *)
Lemma Nullify_loop_fuel_S `{Externals} (n : nat) (pos : Z) (co : CCoins)
    (outs : list CTxInUndo) :
  Z.of_nat (length (vout co)) < 2 ^ 31 -> - 2 ^ 31 <= pos < 2 ^ 31 ->
  (pos < 0 \/ Z.of_nat (length (vout co)) - pos <= Z.of_nat n) ->
  Nullify_loop (S n) pos co outs = Nullify_loop n pos co outs.
Proof.
  revert pos co outs. induction n as [|n IH]; intros pos co outs Hlen Hlo Hfuel.
  - simpl. destruct (Z.ltb_spec (size_t_of pos) (Z.of_nat (length (vout co)))) as [Hlt|]; [|done].
    exfalso. destruct (Z_lt_le_dec pos 0) as [Hneg|Hpos].
    + rewrite size_t_of_negative in Hlt; lia.
    + unfold size_t_of in Hlt. rewrite Z.mod_small in Hlt; lia.
  - cbn [Nullify_loop].
    destruct (Z.ltb_spec (size_t_of pos) (Z.of_nat (length (vout co)))) as [Hlt|]; [|done].
    assert (0 <= pos) as Hpos.
    { destruct (Z_lt_le_dec pos 0) as [Hneg|]; [|done].
      rewrite size_t_of_negative in Hlt; lia. }
    assert (size_t_of pos = pos) as Hp by (unfold size_t_of; apply Z.mod_small; lia).
    rewrite Hp in *.
    destruct (vout co !! Z.to_nat pos) as [o|]; [|done].
    pose proof (Spend_length (uint32 pos) co) as Hsp.
    assert (int32 (pos + 1) = pos + 1) as Hnext.
    { unfold int32, wrap_signed. change (2 ^ (32 - 1)) with (2 ^ 31).
      rewrite Z.mod_small; lia. }
    rewrite Hnext. apply IH; lia.
Qed.

(** So the fuel [length vout] that [NullifyBackwardTransfers] gives is
    enough: any larger fuel gives the same result. *)
Lemma Nullify_loop_fuel `{Externals} (k : nat) (co : CCoins) (outs : list CTxInUndo) :
  Z.of_nat (length (vout co)) < 2 ^ 31 -> - 2 ^ 31 <= nFirstBwtPos co < 2 ^ 31 ->
  Nullify_loop (length (vout co) + k) (nFirstBwtPos co) co outs
  = Nullify_loop (length (vout co)) (nFirstBwtPos co) co outs.
Proof.
  intros Hlen Hlo. induction k as [|k IH]; [by rewrite Nat.add_0_r|].
  rewrite Nat.add_succ_r, Nullify_loop_fuel_S; [done|done|done|]. lia.
Qed.

Lemma From_cert_loop_fuel_S (n : nat) (bwtPos : Z) (c : CCoins) :
  Z.of_nat (length (vout c)) < 2 ^ 32 -> 0 <= bwtPos ->
  Z.of_nat (length (vout c)) - bwtPos <= Z.of_nat n ->
  From_cert_loop (S n) bwtPos c = From_cert_loop n bwtPos c.
Proof.
  revert bwtPos c. induction n as [|n IH]; intros bwtPos c Hlen Hpos Hfuel.
  - simpl. destruct (Z.ltb_spec bwtPos (Z.of_nat (length (vout c)))); [lia|done].
  - cbn [From_cert_loop].
    destruct (Z.ltb_spec bwtPos (Z.of_nat (length (vout c)))) as [Hlt|]; [|done].
    pose proof (Spend_length bwtPos c) as Hsp.
    assert (uint32 (bwtPos + 1) = bwtPos + 1) as ->
      by (unfold uint32; apply Z.mod_small; lia).
    apply IH; lia.
Qed.

Lemma From_cert_loop_fuel (k : nat) (bwtPos : Z) (c : CCoins) :
  Z.of_nat (length (vout c)) < 2 ^ 32 -> 0 <= bwtPos ->
  From_cert_loop (length (vout c) + k) bwtPos c = From_cert_loop (length (vout c)) bwtPos c.
Proof.
  intros Hlen Hpos. induction k as [|k IH]; [by rewrite Nat.add_0_r|].
  rewrite Nat.add_succ_r, From_cert_loop_fuel_S; [done|done|done|]. lia.
Qed.

(** ** Spending and availability *)

Lemma IsAvailable_unspent_at (p : nat) (c : CCoins) :
  IsAvailable (Z.of_nat p) c = bool_decide (is_Some (unspent_at c p)).
Proof.
  unfold IsAvailable, unspent_at. rewrite Nat2Z.id.
  destruct (vout c !! p) as [o|] eqn:Hp.
  - apply lookup_lt_Some in Hp.
    destruct (Z.ltb_spec (Z.of_nat p) (Z.of_nat (length (vout c)))); [|lia].
    simpl. by destruct (CTxOut_IsNull o).
  - by rewrite andb_false_r.
Qed.

Lemma unspent_at_app_nulls (c : CCoins) (v w : list CTxOut) (p : nat) :
  Forall (fun o => CTxOut_IsNull o = true) w ->
  unspent_at (set_vout (v ++ w) c) p = unspent_at (set_vout v c) p.
Proof.
  intros Hw. unfold unspent_at. simpl.
  destruct (decide (p < length v)%nat) as [Hlt|Hge].
  - by rewrite lookup_app_l.
  - rewrite lookup_app_r by lia. rewrite (lookup_ge_None_2 v) by lia.
    destruct (w !! (p - length v)%nat) as [o|] eqn:Ho; [|done].
    rewrite Forall_lookup in Hw. by rewrite (Hw _ _ Ho).
Qed.

Lemma unspent_at_Cleanup (c : CCoins) (p : nat) : unspent_at (Cleanup c) p = unspent_at c p.
Proof.
  destruct (Cleanup_loop_trim (vout c)) as (w & Hv & Hw & _).
  transitivity (unspent_at (set_vout (Cleanup_loop (length (vout c)) (vout c) ++ w) c) p).
  - by rewrite unspent_at_app_nulls.
  - rewrite <- Hv. by destruct c.
Qed.

Lemma Spend_fst (q : nat) (c : CCoins) :
  fst (Spend (Z.of_nat q) c) = IsAvailable (Z.of_nat q) c.
Proof.
  unfold Spend, IsAvailable. rewrite Nat2Z.id.
  destruct (vout c !! q) as [o|] eqn:Hq; [|by rewrite andb_false_r].
  apply lookup_lt_Some in Hq.
  destruct (Z.geb_spec (Z.of_nat q) (Z.of_nat (length (vout c)))); [lia|].
  destruct (Z.ltb_spec (Z.of_nat q) (Z.of_nat (length (vout c)))); [|lia].
  simpl. by destruct (CTxOut_IsNull o).
Qed.

Lemma Spend_unavailable (q : nat) (c : CCoins) :
  IsAvailable (Z.of_nat q) c = false -> Spend (Z.of_nat q) c = (false, c).
Proof.
  intros Hq. pose proof (Spend_fst q c) as Hf. rewrite Hq in Hf.
  unfold Spend in *. rewrite Nat2Z.id in *.
  destruct (vout c !! q) as [o|]; [|done].
  by destruct (_ || _).
Qed.

Lemma unspent_at_Spend (q p : nat) (c : CCoins) :
  unspent_at (snd (Spend (Z.of_nat q) c)) p = if decide (p = q) then None else unspent_at c p.
Proof.
  destruct (IsAvailable (Z.of_nat q) c) eqn:Hq.
  - pose proof (Spend_fst q c) as Hf. rewrite Hq in Hf.
    unfold Spend in *. rewrite Nat2Z.id in *.
    destruct (vout c !! q) as [o|] eqn:Hlook; [|done].
    destruct (_ || _); [done|]. cbn [snd].
    rewrite unspent_at_Cleanup. unfold unspent_at. simpl.
    destruct (decide (p = q)) as [->|Hne].
    + rewrite list_lookup_insert_eq; [done|]. by apply lookup_lt_Some in Hlook.
    + by rewrite list_lookup_insert_ne.
  - rewrite Spend_unavailable by done. simpl.
    destruct (decide (p = q)) as [->|]; [|done].
    rewrite IsAvailable_unspent_at in Hq. apply bool_decide_eq_false in Hq.
    destruct (unspent_at c q) eqn:Hu; [|done]. destruct Hq. by eexists.
Qed.

Lemma Spend_fields (nPos : Z) (c : CCoins) :
  fCoinBase (snd (Spend nPos c)) = fCoinBase c /\ nHeight (snd (Spend nPos c)) = nHeight c /\
  nVersion (snd (Spend nPos c)) = nVersion c /\
  nFirstBwtPos (snd (Spend nPos c)) = nFirstBwtPos c /\
  nBwtMaturityHeight (snd (Spend nPos c)) = nBwtMaturityHeight c.
Proof.
  unfold Spend. destruct (vout c !! Z.to_nat nPos); [|done]. by destruct (_ || _).
Qed.

(** X1.  [Spend(nPos)] returns true exactly when [IsAvailable(nPos)]; when
    it returns false the coins are unchanged; when it returns true the output
    at [nPos] is no longer available, every other position holds the unspent
    output it held, and the other fields are unchanged.  So a second [Spend]
    of the same position returns false. *)
Theorem Spend_spends_available (nPos : nat) (c : CCoins) :
  fst (Spend (Z.of_nat nPos) c) = IsAvailable (Z.of_nat nPos) c /\
  (IsAvailable (Z.of_nat nPos) c = false -> snd (Spend (Z.of_nat nPos) c) = c) /\
  IsAvailable (Z.of_nat nPos) (snd (Spend (Z.of_nat nPos) c)) = false /\
  (forall p : nat, p <> nPos ->
     unspent_at (snd (Spend (Z.of_nat nPos) c)) p = unspent_at c p /\
     IsAvailable (Z.of_nat p) (snd (Spend (Z.of_nat nPos) c)) = IsAvailable (Z.of_nat p) c) /\
  fst (Spend (Z.of_nat nPos) (snd (Spend (Z.of_nat nPos) c))) = false /\
  fCoinBase (snd (Spend (Z.of_nat nPos) c)) = fCoinBase c /\
  nHeight (snd (Spend (Z.of_nat nPos) c)) = nHeight c /\
  nVersion (snd (Spend (Z.of_nat nPos) c)) = nVersion c /\
  nFirstBwtPos (snd (Spend (Z.of_nat nPos) c)) = nFirstBwtPos c /\
  nBwtMaturityHeight (snd (Spend (Z.of_nat nPos) c)) = nBwtMaturityHeight c.
Proof.
  assert (IsAvailable (Z.of_nat nPos) (snd (Spend (Z.of_nat nPos) c)) = false) as Hgone.
  { rewrite IsAvailable_unspent_at, unspent_at_Spend.
    destruct (decide (nPos = nPos)); [|done]. apply bool_decide_eq_false. by intros [? ?]. }
  split; [apply Spend_fst|]. split; [intros Hq; by rewrite Spend_unavailable|].
  split; [done|]. split.
  - intros p Hp. rewrite !IsAvailable_unspent_at, unspent_at_Spend.
    by destruct (decide (p = nPos)).
  - split; [by rewrite Spend_fst|]. apply Spend_fields.
Qed.

Lemma IsPruned_unspent_at (c : CCoins) :
  IsPruned c = true <-> forall p, unspent_at c p = None.
Proof.
  unfold IsPruned, unspent_at. rewrite forallb_forall. split.
  - intros Hall p. destruct (vout c !! p) as [o|] eqn:Ho; [|done].
    rewrite Hall; [done|]. apply list_elem_of_In. by eapply list_elem_of_lookup_2.
  - intros Hall o Ho. apply list_elem_of_In, list_elem_of_lookup_1 in Ho as [p Hp].
    specialize (Hall p). rewrite Hp in Hall. by destruct (CTxOut_IsNull o).
Qed.

(** ** Comparison of coins *)

Lemma CCoins_operator_eq_spec (a b : CCoins) :
  CCoins_operator_eq a b = true <-> (IsPruned a = true /\ IsPruned b = true) \/ a = b.
Proof.
  unfold CCoins_operator_eq. destruct (IsPruned a && IsPruned b) eqn:Hp.
  - apply andb_true_iff in Hp. tauto.
  - rewrite !andb_true_iff, !Z.eqb_eq, Bool.eqb_true_iff, bool_decide_eq_true.
    split.
    + intros (((((? & ?) & ?) & ?) & ?) & ?). right. destruct a, b; simpl in *. congruence.
    + intros [[Ha Hb]| ->]; [rewrite Ha, Hb in Hp; done|]. tauto.
Qed.

(** X2.  [operator==] on coins is an equivalence relation that puts all
    pruned coins in one class, whatever their other fields: two coins
    compare equal exactly when both are pruned or all their fields are
    equal.  [operator!=] is its negation. *)
Theorem CCoins_operator_eq_equivalence :
  (forall a, CCoins_operator_eq a a = true) /\
  (forall a b, CCoins_operator_eq a b = CCoins_operator_eq b a) /\
  (forall a b c, CCoins_operator_eq a b = true -> CCoins_operator_eq b c = true ->
     CCoins_operator_eq a c = true) /\
  (forall a b, IsPruned a = true -> IsPruned b = true -> CCoins_operator_eq a b = true) /\
  (forall a b, CCoins_operator_eq a b = true -> IsPruned a = IsPruned b) /\
  (forall a b, CCoins_operator_eq a b = true -> IsPruned a = false -> a = b) /\
  (forall a b, CCoins_operator_ne a b = true <-> CCoins_operator_eq a b = false).
Proof.
  repeat split.
  - intros a. apply CCoins_operator_eq_spec. by right.
  - intros a b. apply eq_true_iff_eq. rewrite !CCoins_operator_eq_spec.
    split; (intros [[? ?]| ->]; [by left|by right]).
  - intros a b c. rewrite !CCoins_operator_eq_spec.
    intros [[Ha Hb]| ->] [[Hb' Hc]| ->]; auto.
  - intros a b Ha Hb. apply CCoins_operator_eq_spec. by left.
  - intros a b. rewrite CCoins_operator_eq_spec. intros [[-> ->]| ->]; done.
  - intros a b. rewrite CCoins_operator_eq_spec. intros [[Ha _]| ->] Hn; [congruence|done].
  - unfold CCoins_operator_ne. by intros ->%negb_true_iff.
  - unfold CCoins_operator_ne. by intros ->.
Qed.

(** ** Maturity of an output *)

(** X3.  [isOutputMature]: an output of coins that are neither a coinbase
    nor from a certificate is mature at every height; an output of a
    coinbase is mature from [nHeight + COINBASE_MATURITY] on, whatever its
    version; for a certificate, the outputs before [nFirstBwtPos] are mature
    at every height and the backward transfers from [nBwtMaturityHeight] on.
    An output that is mature at a height is mature at every later height. *)
Theorem isOutputMature_cases `{ChainParams} (outPos h : Z) (c : CCoins) :
  (IsCoinBase c = false -> IsFromCert c = false -> isOutputMature outPos h c = true) /\
  (IsCoinBase c = true ->
   isOutputMature outPos h c = (int32 (nHeight c + COINBASE_MATURITY) <=? h)) /\
  (IsCoinBase c = false -> IsFromCert c = true -> outPos < uint32 (nFirstBwtPos c) ->
   isOutputMature outPos h c = true) /\
  (IsCoinBase c = false -> IsFromCert c = true -> uint32 (nFirstBwtPos c) <= outPos ->
   isOutputMature outPos h c = (nBwtMaturityHeight c <=? h)) /\
  (forall h', h <= h' -> isOutputMature outPos h c = true ->
     isOutputMature outPos h' c = true).
Proof.
  unfold isOutputMature. repeat split.
  - by intros -> ->.
  - intros ->. simpl. by rewrite Z.geb_leb.
  - intros -> -> Hlt. simpl. destruct (Z.geb_spec outPos (uint32 (nFirstBwtPos c))); [lia|done].
  - intros -> -> Hle. simpl. destruct (Z.geb_spec outPos (uint32 (nFirstBwtPos c))); [|lia].
    by rewrite Z.geb_leb.
  - intros h' Hh. destruct (negb (IsCoinBase c) && negb (IsFromCert c)); [done|].
    destruct (IsCoinBase c).
    + rewrite !Z.geb_leb. intros Hm%Z.leb_le. apply Z.leb_le. lia.
    + destruct (outPos >=? uint32 (nFirstBwtPos c)); [|done].
      rewrite !Z.geb_leb. intros Hm%Z.leb_le. apply Z.leb_le. lia.
Qed.

(** ** Coins of a transaction and of a certificate *)

Lemma unspent_at_ClearUnspendable `{Externals} (c : CCoins) (p : nat) :
  unspent_at (ClearUnspendable c) p =
  match unspent_at c p with
  | Some o => if IsUnspendable (scriptPubKey o) then None else Some o
  | None => None
  end.
Proof.
  unfold ClearUnspendable. rewrite unspent_at_Cleanup. unfold unspent_at. simpl.
  rewrite list_lookup_fmap. destruct (vout c !! p) as [o|]; [|done]. simpl.
  destruct (IsUnspendable (scriptPubKey o)) eqn:Hu; simpl;
    destruct (CTxOut_IsNull o); simpl; rewrite ?Hu; done.
Qed.

Lemma kept_output_unspent_at `{Externals} (c : CCoins) (p : nat) :
  kept_output (vout c) p =
  match unspent_at c p with
  | Some o => if IsUnspendable (scriptPubKey o) then None else Some o
  | None => None
  end.
Proof.
  unfold kept_output, unspent_at. destruct (vout c !! p) as [o|]; [|done].
  by destruct (CTxOut_IsNull o).
Qed.

(** X4.  [CCoins::From(tx, nHeightIn)] keeps, each at its position, exactly
    the outputs of the transaction that are neither null nor unspendable, and
    takes the other fields from the transaction and the height; no backward
    transfer position is set.  The coins are pruned exactly when the
    transaction has no such output. *)
Theorem From_tx_keeps_spendable `{Externals} (tx : CTransaction) (nHeightIn : Z) :
  (forall p, unspent_at (From_tx tx nHeightIn) p = kept_output (tx_GetVout tx) p) /\
  (forall p : nat, IsAvailable (Z.of_nat p) (From_tx tx nHeightIn)
     = bool_decide (is_Some (kept_output (tx_GetVout tx) p))) /\
  (IsPruned (From_tx tx nHeightIn) = true <-> forall p, kept_output (tx_GetVout tx) p = None) /\
  fCoinBase (From_tx tx nHeightIn) = tx_IsCoinBase tx /\
  nHeight (From_tx tx nHeightIn) = nHeightIn /\
  nVersion (From_tx tx nHeightIn) = tx_nVersion tx /\
  nFirstBwtPos (From_tx tx nHeightIn) = BWT_POS_UNSET /\
  nBwtMaturityHeight (From_tx tx nHeightIn) = 0.
Proof.
  assert (forall p, unspent_at (From_tx tx nHeightIn) p = kept_output (tx_GetVout tx) p) as Hu.
  { intros p. unfold From_tx. rewrite unspent_at_ClearUnspendable.
    by rewrite <- kept_output_unspent_at. }
  split; [done|]. split; [intros p; by rewrite IsAvailable_unspent_at, Hu|].
  split; [|done]. rewrite IsPruned_unspent_at. split; intros Hall p.
  - by rewrite <- Hu.
  - by rewrite Hu.
Qed.

Lemma From_cert_loop_fields (n : nat) (bwtPos : Z) (c : CCoins) :
  fCoinBase (From_cert_loop n bwtPos c) = fCoinBase c /\
  nHeight (From_cert_loop n bwtPos c) = nHeight c /\
  nVersion (From_cert_loop n bwtPos c) = nVersion c /\
  nFirstBwtPos (From_cert_loop n bwtPos c) = nFirstBwtPos c /\
  nBwtMaturityHeight (From_cert_loop n bwtPos c) = nBwtMaturityHeight c.
Proof.
  revert bwtPos c. induction n as [|n IH]; intros bwtPos c; [done|]. simpl.
  destruct (bwtPos <? Z.of_nat (length (vout c))); [|done].
  destruct (IH (uint32 (bwtPos + 1)) (snd (Spend bwtPos c))) as (-> & -> & -> & -> & ->).
  apply Spend_fields.
Qed.

Lemma unspent_at_From_cert_loop (n bwtPos : nat) (c : CCoins) (p : nat) :
  Z.of_nat (length (vout c)) < 2 ^ 32 ->
  (length (vout c) - bwtPos <= n)%nat ->
  unspent_at (From_cert_loop n (Z.of_nat bwtPos) c) p
  = if decide (p < bwtPos)%nat then unspent_at c p else None.
Proof.
  revert bwtPos c. induction n as [|n IH]; intros bwtPos c Hlen Hfuel.
  - simpl. destruct (decide (p < bwtPos)%nat); [done|].
    unfold unspent_at. by rewrite lookup_ge_None_2 by lia.
  - simpl. destruct (Z.ltb_spec (Z.of_nat bwtPos) (Z.of_nat (length (vout c)))) as [Hlt|Hge].
    + replace (uint32 (Z.of_nat bwtPos + 1)) with (Z.of_nat (S bwtPos))
        by (unfold uint32; rewrite Z.mod_small; lia).
      pose proof (Spend_length (Z.of_nat bwtPos) c) as Hsp.
      rewrite IH by lia. rewrite unspent_at_Spend.
      destruct (decide (p < S bwtPos)%nat), (decide (p = bwtPos)), (decide (p < bwtPos)%nat);
        try done; lia.
    + destruct (decide (p < bwtPos)%nat); [done|].
      unfold unspent_at. by rewrite lookup_ge_None_2 by lia.
Qed.

(** X5.  [CCoins::From(cert, nHeightIn, bwtMaturityHeight, isBlockTopQualityCert)]:
    for the top quality certificate of the block the coins keep every output
    of the certificate that is neither null nor unspendable; for a
    certificate of lower quality they keep those before [nFirstBwtPos] only,
    no backward transfer being left unspent.  The other fields are those of
    the certificate and of the call. *)
Theorem From_cert_drops_low_quality_bwts `{Externals} (cert : CScCertificate)
    (nHeightIn bwtMaturityHeight : Z) (isBlockTopQualityCert : bool) :
  Z.of_nat (length (cert_GetVout cert)) < 2 ^ 32 ->
  (forall p : nat,
     unspent_at (From_cert cert nHeightIn bwtMaturityHeight isBlockTopQualityCert) p
     = if isBlockTopQualityCert || (Z.of_nat p <? uint32 (cert_nFirstBwtPos cert))
       then kept_output (cert_GetVout cert) p else None) /\
  fCoinBase (From_cert cert nHeightIn bwtMaturityHeight isBlockTopQualityCert)
  = cert_IsCoinBase cert /\
  nHeight (From_cert cert nHeightIn bwtMaturityHeight isBlockTopQualityCert) = nHeightIn /\
  nVersion (From_cert cert nHeightIn bwtMaturityHeight isBlockTopQualityCert)
  = cert_nVersion cert /\
  nFirstBwtPos (From_cert cert nHeightIn bwtMaturityHeight isBlockTopQualityCert)
  = cert_nFirstBwtPos cert /\
  nBwtMaturityHeight (From_cert cert nHeightIn bwtMaturityHeight isBlockTopQualityCert)
  = bwtMaturityHeight.
Proof.
  intros Hlen. unfold From_cert. split.
  - intros p. rewrite unspent_at_ClearUnspendable.
    destruct isBlockTopQualityCert; simpl.
    + by rewrite <- kept_output_unspent_at.
    + assert (0 <= uint32 (cert_nFirstBwtPos cert)) as Hnn
        by (unfold uint32; apply Z.mod_pos_bound; lia).
      rewrite <- (Z2Nat.id (uint32 (cert_nFirstBwtPos cert))) at 1 by done.
      rewrite unspent_at_From_cert_loop by (simpl; lia).
      destruct (Z.ltb_spec (Z.of_nat p) (uint32 (cert_nFirstBwtPos cert))) as [Hlt|Hge].
      * destruct (decide (p < Z.to_nat (uint32 (cert_nFirstBwtPos cert)))%nat); [|lia].
        by rewrite <- kept_output_unspent_at.
      * destruct (decide (p < Z.to_nat (uint32 (cert_nFirstBwtPos cert)))%nat); [lia|done].
  - destruct isBlockTopQualityCert; simpl; [done|].
    apply (From_cert_loop_fields (length (cert_GetVout cert))
             (uint32 (cert_nFirstBwtPos cert))
             (mkCoins (cert_IsCoinBase cert) (cert_GetVout cert) nHeightIn (cert_nVersion cert)
                (cert_nFirstBwtPos cert) bwtMaturityHeight)).
Qed.

(** ** Nullifiers *)

(** X6.  [SetNullifier(nullifier, spent)] followed by
    [GetNullifier(nullifier)] gives [spent], whatever the cache and its base
    held before; the slot is flagged DIRTY, and neither the slot nor the
    answer for any other nullifier changes, nor any other field of the
    cache. *)
Theorem SetNullifier_GetNullifier (nullifier : uint256) (spent : bool) (c : CCoinsViewCache) :
  exists c1, SetNullifier nullifier spent c = Some (tt, c1) /\
    GetNullifier nullifier c1 = Some (spent, c1) /\
    (exists e, cacheNullifiers c1 !! nullifier = Some e /\ nf_entered e = spent /\
       has_flag (nf_flags e) CNullifiersCacheEntry.DIRTY = true) /\
    (forall n', n' <> nullifier ->
       cacheNullifiers c1 !! n' = cacheNullifiers c !! n' /\
       nullifier_view c1 n' = nullifier_view c n') /\
    set_cacheNullifiers (cacheNullifiers c) c1 = c.
Proof.
  unfold SetNullifier, GetNullifier. munfold. eexists. split; [done|]. simpl.
  rewrite lookup_insert_eq. split; [done|]. split.
  - eexists. split; [done|]. split; [done|]. simpl.
    apply has_flag_lor_same. done.
  - split; [|by destruct c].
    intros n' Hn. unfold nullifier_view. simpl. by rewrite lookup_insert_ne.
Qed.

(** X7.  [GetNullifier] answers from the slot of the cache when there is
    one and from the base otherwise; an answer of the base, a negative one
    too, is kept in a slot without flags, so that the same call on the cache
    it leaves gives the same answer and changes nothing.  No answer for any
    nullifier changes by the call. *)
Theorem GetNullifier_reads_through (nullifier : uint256) (c : CCoinsViewCache) :
  exists c1, GetNullifier nullifier c = Some (nullifier_view c nullifier, c1) /\
    GetNullifier nullifier c1 = Some (nullifier_view c nullifier, c1) /\
    (forall n', nullifier_view c1 n' = nullifier_view c n') /\
    (forall n', n' <> nullifier -> cacheNullifiers c1 !! n' = cacheNullifiers c !! n') /\
    (is_Some (cacheNullifiers c !! nullifier) -> c1 = c) /\
    (cacheNullifiers c !! nullifier = None ->
     cacheNullifiers c1 !! nullifier
     = Some (mkNullifiersEntry (base_GetNullifier (base c) nullifier) 0)) /\
    set_cacheNullifiers (cacheNullifiers c) c1 = c.
Proof.
  unfold GetNullifier, nullifier_view. munfold.
  destruct (cacheNullifiers c !! nullifier) as [e|] eqn:He.
  - exists c. rewrite He. repeat split; try done. by destruct c.
  - eexists. split; [done|]. simpl. rewrite lookup_insert_eq. simpl.
    split; [done|]. split; [|split; [|split; [|split]]].
    + intros n'. destruct (decide (n' = nullifier)) as [->|Hn].
      * by rewrite lookup_insert_eq, He.
      * by rewrite lookup_insert_ne.
    + intros n' Hn. by rewrite lookup_insert_ne.
    + by intros [? ?].
    + done.
    + by destruct c.
Qed.

(** ** The best block *)

Lemma set_hashBlock_id (c : CCoinsViewCache) : set_hashBlock (hashBlock c) c = c.
Proof. by destruct c. Qed.

Lemma GetBestBlock_eq (c : CCoinsViewCache) :
  GetBestBlock c = Some (best_block c, set_hashBlock (best_block c) c).
Proof.
  unfold GetBestBlock, best_block. munfold.
  destruct (uint256_IsNull (hashBlock c)); simpl; [done|]. by rewrite set_hashBlock_id.
Qed.

(** X8.  After [SetBestBlock(h)], [GetBestBlock] gives [h] when [h] is not
    the null hash, and the best block of the base when it is; the answer is
    kept in [hashBlock], the same call on the cache it leaves gives it again,
    and nothing else of the cache changes. *)
Theorem SetBestBlock_GetBestBlock (hashBlockIn : uint256) (c : CCoinsViewCache) :
  exists c1 c2 h,
    SetBestBlock hashBlockIn c = Some (tt, c1) /\
    GetBestBlock c1 = Some (h, c2) /\
    h = (if uint256_IsNull hashBlockIn then base_GetBestBlock (base c) else hashBlockIn) /\
    hashBlock c2 = h /\ GetBestBlock c2 = Some (h, c2) /\
    set_hashBlock (hashBlock c) c2 = c.
Proof.
  exists (set_hashBlock hashBlockIn c).
  exists (set_hashBlock (best_block (set_hashBlock hashBlockIn c)) (set_hashBlock hashBlockIn c)).
  exists (best_block (set_hashBlock hashBlockIn c)).
  split; [done|]. split; [apply GetBestBlock_eq|]. split; [done|]. split; [done|].
  split; [|by destruct c].
  rewrite GetBestBlock_eq. unfold best_block. simpl.
  by destruct (uint256_IsNull hashBlockIn) eqn:Hn,
            (uint256_IsNull (base_GetBestBlock (base c))) eqn:Hb; simpl; rewrite ?Hn.
Qed.

(** ** Anchors *)

Lemma set_cacheAnchors_id (c : CCoinsViewCache) : set_cacheAnchors (cacheAnchors c) c = c.
Proof. by destruct c. Qed.

Lemma GetAnchorAt_eq (rt : uint256) (c : CCoinsViewCache) :
  GetAnchorAt rt c =
  Some (anchor_view c rt,
        match cacheAnchors c !! rt, base_GetAnchorAt (base c) rt with
        | None, Some t => set_cacheAnchors (<[rt := mkAnchorsEntry true t 0]> (cacheAnchors c)) c
        | _, _ => c
        end).
Proof.
  unfold GetAnchorAt, anchor_view. munfold.
  destruct (cacheAnchors c !! rt) as [e|]; [by destruct (entered e)|].
  by destruct (base_GetAnchorAt (base c) rt).
Qed.

(** X9.  [GetAnchorAt] answers with the tree of the slot of the cache when
    the slot is entered, with nothing when the slot is there and not entered
    (whatever the base holds for the root), and with the answer of the base
    when the cache has no slot; a tree of the base is kept in an entered slot
    without flags, a miss of the base leaves no slot.  No answer for any root
    changes by the call, and the same call on the cache it leaves changes
    nothing. *)
Theorem GetAnchorAt_reads_through (rt : uint256) (c : CCoinsViewCache) :
  exists c1, GetAnchorAt rt c = Some (anchor_view c rt, c1) /\
    GetAnchorAt rt c1 = Some (anchor_view c rt, c1) /\
    (forall rt', anchor_view c1 rt' = anchor_view c rt') /\
    (forall e, cacheAnchors c !! rt = Some e -> entered e = false ->
       anchor_view c rt = None /\ c1 = c) /\
    (cacheAnchors c !! rt = None -> base_GetAnchorAt (base c) rt = None -> c1 = c) /\
    (forall t, cacheAnchors c !! rt = None -> base_GetAnchorAt (base c) rt = Some t ->
       cacheAnchors c1 !! rt = Some (mkAnchorsEntry true t 0)) /\
    (forall rt', rt' <> rt -> cacheAnchors c1 !! rt' = cacheAnchors c !! rt') /\
    set_cacheAnchors (cacheAnchors c) c1 = c.
Proof.
  eexists. split; [apply GetAnchorAt_eq|]. rewrite GetAnchorAt_eq. unfold anchor_view.
  destruct (cacheAnchors c !! rt) as [e|] eqn:He.
  - rewrite He. split; [done|]. split; [done|]. split; [by intros e' [= <-] ->|].
    split; [done|]. split; [done|]. split; [done|]. apply set_cacheAnchors_id.
  - destruct (base_GetAnchorAt (base c) rt) as [t|] eqn:Hb; simpl.
    + rewrite lookup_insert_eq. simpl. split; [done|]. split; [|split; [done|]].
      * intros rt'. destruct (decide (rt' = rt)) as [->|Hn].
        -- by rewrite lookup_insert_eq, He, Hb.
        -- by rewrite lookup_insert_ne.
      * split; [done|]. split; [by intros t' _ [= <-]|].
        split; [intros rt' Hn; by rewrite lookup_insert_ne|]. by destruct c.
    + rewrite He, Hb. split; [done|]. split; [done|]. split; [done|].
      split; [done|]. split; [done|]. split; [done|]. apply set_cacheAnchors_id.
Qed.

Lemma PopAnchor_other (newrt : uint256) (c : CCoinsViewCache) (t : ZCIncrementalMerkleTree) :
  newrt <> best_anchor c -> anchor_view c (best_anchor c) = Some t ->
  PopAnchor newrt c =
  Some (tt, set_hashAnchor newrt
              (set_cacheAnchors
                 (<[best_anchor c := mkAnchorsEntry false t CAnchorsCacheEntry.DIRTY]>
                    (cacheAnchors c)) c)).
Proof.
  intros Hne Hview. unfold PopAnchor.
  rewrite (bind_eq _ _ _ _ _ (GetBestAnchor_eq c)).
  destruct (N.eqb_spec (best_anchor c) newrt) as [|_]; [congruence|]. simpl.
  rewrite (bind_eq _ _ _ _ _ (GetAnchorAt_eq _ _)).
  assert (anchor_view (set_hashAnchor (best_anchor c) c) (best_anchor c) = Some t) as ->
    by done.
  munfold. simpl. unfold anchor_at, anchor_view in *. simpl.
  destruct (cacheAnchors c !! best_anchor c) as [e|] eqn:He.
  - destruct (entered e) eqn:Hent; [|done]. injection Hview as <-. simpl.
    rewrite !lookup_insert_eq. simpl. rewrite He. simpl.
    by rewrite insert_insert_eq.
  - rewrite Hview. simpl. rewrite !lookup_insert_eq. simpl.
    by rewrite !insert_insert_eq.
Qed.

Lemma PopAnchor_no_tree (newrt : uint256) (c : CCoinsViewCache) :
  newrt <> best_anchor c -> anchor_view c (best_anchor c) = None -> PopAnchor newrt c = None.
Proof.
  intros Hne Hview. unfold PopAnchor.
  rewrite (bind_eq _ _ _ _ _ (GetBestAnchor_eq c)).
  destruct (N.eqb_spec (best_anchor c) newrt) as [|_]; [congruence|]. simpl.
  rewrite (bind_eq _ _ _ _ _ (GetAnchorAt_eq _ _)).
  assert (anchor_view (set_hashAnchor (best_anchor c) c) (best_anchor c) = None) as ->
    by done.
  by munfold.
Qed.

(** X10.  [PopAnchor(newrt)] for a root other than the best anchor needs
    the tree of the best anchor: when neither the cache nor its base gives
    it, the assertion fails; otherwise the slot of the best anchor is left
    not entered and DIRTY with its tree, so that [GetAnchorAt] no longer
    gives it, [hashAnchor] is [newrt], and no other slot changes. *)
Theorem PopAnchor_removes_current (newrt : uint256) (c : CCoinsViewCache) :
  newrt <> best_anchor c ->
  (anchor_view c (best_anchor c) = None -> PopAnchor newrt c = None) /\
  (forall t, anchor_view c (best_anchor c) = Some t ->
     exists c', PopAnchor newrt c = Some (tt, c') /\
       cacheAnchors c' !! best_anchor c
       = Some (mkAnchorsEntry false t CAnchorsCacheEntry.DIRTY) /\
       anchor_view c' (best_anchor c) = None /\
       hashAnchor c' = newrt /\
       (forall rt, rt <> best_anchor c -> cacheAnchors c' !! rt = cacheAnchors c !! rt)).
Proof.
  intros Hne. split; [by apply PopAnchor_no_tree|].
  intros t Hview. eexists. split; [by apply PopAnchor_other|]. simpl.
  unfold anchor_view. simpl. rewrite lookup_insert_eq. repeat split; try done.
  intros rt Hrt. by rewrite lookup_insert_ne.
Qed.

Lemma PushAnchor_other `{Externals} (t : ZCIncrementalMerkleTree) (c : CCoinsViewCache) :
  tree_root t <> best_anchor c ->
  PushAnchor t c =
  Some (tt, set_hashAnchor (tree_root t)
              (set_cacheAnchors
                 (<[tree_root t := mkAnchorsEntry true t CAnchorsCacheEntry.DIRTY]>
                    (cacheAnchors c)) c)).
Proof.
  intros Hne. unfold PushAnchor.
  rewrite (bind_eq _ _ _ _ _ (GetBestAnchor_eq c)).
  destruct (N.eqb_spec (best_anchor c) (tree_root t)) as [|_]; [congruence|]. simpl.
  by munfold.
Qed.

(** X11.  [PushAnchor] of a tree whose root is not the best anchor makes
    the root the best anchor and [GetAnchorAt] give the tree for it;
    [PopAnchor] of the former best anchor then succeeds, makes it the best
    anchor again and leaves the pushed root without a tree for
    [GetAnchorAt]; the slots and answers for the other roots are as before
    the two calls. *)
Theorem PushAnchor_PopAnchor `{Externals} (t : ZCIncrementalMerkleTree) (c : CCoinsViewCache) :
  tree_root t <> best_anchor c -> uint256_IsNull (tree_root t) = false ->
  exists c1 c2,
    PushAnchor t c = Some (tt, c1) /\
    best_anchor c1 = tree_root t /\ anchor_view c1 (tree_root t) = Some t /\
    PopAnchor (best_anchor c) c1 = Some (tt, c2) /\
    best_anchor c2 = best_anchor c /\ anchor_view c2 (tree_root t) = None /\
    (forall rt, rt <> tree_root t ->
       cacheAnchors c2 !! rt = cacheAnchors c !! rt /\ anchor_view c2 rt = anchor_view c rt).
Proof.
  intros Hne Hnn.
  set (c1 := set_hashAnchor (tree_root t)
               (set_cacheAnchors
                  (<[tree_root t := mkAnchorsEntry true t CAnchorsCacheEntry.DIRTY]>
                     (cacheAnchors c)) c)).
  assert (best_anchor c1 = tree_root t) as Hb1.
  { unfold best_anchor, c1. simpl. by rewrite Hnn. }
  assert (anchor_view c1 (tree_root t) = Some t) as Hv1.
  { unfold anchor_view, c1. simpl. by rewrite lookup_insert_eq. }
  exists c1. eexists. split; [by apply PushAnchor_other|].
  split; [done|]. split; [done|]. split.
  - apply PopAnchor_other; rewrite Hb1; [congruence|done].
  - rewrite Hb1. unfold anchor_view, c1. simpl.
    rewrite insert_insert_eq, lookup_insert_eq. simpl. split; [|split; [done|]].
    + unfold best_anchor. simpl. destruct (uint256_IsNull (hashAnchor c)) eqn:Hh; simpl.
      * by destruct (uint256_IsNull (base_GetBestAnchor (base c))).
      * by rewrite Hh.
    + intros rt Hrt. by rewrite lookup_insert_ne.
Qed.

(** ** Writing a child's maps: anchors and nullifiers *)

(** A loop whose body writes the slot of its own key only, run over keys
    that are distinct: each slot is as its turn left it. *)
Lemma for_each_keyed {V S : Type} (slot : CCoinsViewCache -> N -> S)
    (frame : CCoinsViewCache -> CCoinsViewCache -> Prop)
    (body : N -> V -> M unit) (post : V -> S -> S -> Prop) :
  (forall c, frame c c) ->
  (forall c1 c2 c3, frame c1 c2 -> frame c2 c3 -> frame c1 c3) ->
  (forall k v c, exists c', body k v c = Some (tt, c') /\ post v (slot c k) (slot c' k) /\
     (forall k', k' <> k -> slot c' k' = slot c k') /\ frame c c') ->
  forall (l : list (N * V)) (c : CCoinsViewCache), NoDup (l.*1) ->
    exists c', for_each body l c = Some (tt, c') /\
      (forall k v, (k, v) ∈ l -> post v (slot c k) (slot c' k)) /\
      (forall k, k ∉ l.*1 -> slot c' k = slot c k) /\ frame c c'.
Proof.
  intros Hrefl Htrans Hbody l. induction l as [|[k v] l IH]; intros c Hnd.
  - exists c. split; [done|]. split; [|by split].
    intros ? ? Hin. by apply elem_of_nil in Hin.
  - simpl in Hnd. apply NoDup_cons in Hnd as [Hni Hnd].
    destruct (Hbody k v c) as (c1 & Hstep & Hp1 & Hfr1 & Hf1).
    destruct (IH c1 Hnd) as (c' & Hloop & Hp2 & Hfr2 & Hf2).
    exists c'. simpl. rewrite (bind_eq _ _ _ _ _ Hstep). split; [done|].
    split; [|split; [|by eapply Htrans]].
    + intros k' v' [[= -> ->]|Hin]%elem_of_cons.
      * by rewrite (Hfr2 k Hni).
      * rewrite <- (Hfr1 k'); [by apply Hp2|].
        intros ->. apply Hni. apply list_elem_of_fmap. by exists (k, v').
    + intros k' Hk'. apply not_elem_of_cons in Hk' as [Hk1 Hk2].
      rewrite (Hfr2 k' Hk2). by apply Hfr1.
Qed.

Lemma BatchWrite_anchor_step (rt : uint256) (child : CAnchorsCacheEntry) (c : CCoinsViewCache) :
  exists c', BatchWrite_anchor rt child c = Some (tt, c') /\
    cacheAnchors c' !! rt =
      (if has_flag (anchor_flags child) CAnchorsCacheEntry.DIRTY then
         match cacheAnchors c !! rt with
         | None => Some (mkAnchorsEntry (entered child) (tree child) CAnchorsCacheEntry.DIRTY)
         | Some parent =>
             if Bool.eqb (entered parent) (entered child) then Some parent
             else Some (mkAnchorsEntry (entered child) (tree parent)
                          (Z.lor (anchor_flags parent) CAnchorsCacheEntry.DIRTY))
         end
       else cacheAnchors c !! rt) /\
    (forall rt', rt' <> rt -> cacheAnchors c' !! rt' = cacheAnchors c !! rt') /\
    set_cacheAnchors (cacheAnchors c) c' = c.
Proof.
  unfold BatchWrite_anchor. munfold.
  destruct (has_flag (anchor_flags child) CAnchorsCacheEntry.DIRTY).
  - destruct (cacheAnchors c !! rt) as [parent|] eqn:Hp.
    + destruct (Bool.eqb (entered parent) (entered child)); simpl.
      * exists c. rewrite Hp. repeat split; try done. apply set_cacheAnchors_id.
      * eexists. split; [done|]. simpl. rewrite lookup_insert_eq. split; [done|].
        split; [|by destruct c]. intros rt' Hn. by rewrite lookup_insert_ne.
    + eexists. split; [done|]. simpl. rewrite lookup_insert_eq. split; [done|].
      split; [|by destruct c]. intros rt' Hn. by rewrite lookup_insert_ne.
  - exists c. repeat split; try done. apply set_cacheAnchors_id.
Qed.

(** X12.  The anchors loop of [BatchWrite] always returns and drains the
    child map.  A child slot that is not DIRTY is ignored.  For a DIRTY child
    slot, a root that the receiving cache has no slot for gets the child's
    tree and [entered], flagged DIRTY; a root that it has a slot for keeps
    its tree and its slot as a whole when [entered] agrees, and takes the
    child's [entered] with DIRTY set when it differs.  So afterwards
    [entered] is the child's for every DIRTY child slot.  The slots of other
    roots and the other fields of the cache are unchanged. *)
Theorem BatchWrite_anchors_cases (mapAnchors : gmap N CAnchorsCacheEntry)
    (c : CCoinsViewCache) :
  exists c', BatchWrite_mapAnchors mapAnchors c = Some (∅, c') /\
    (forall rt child, mapAnchors !! rt = Some child ->
       if has_flag (anchor_flags child) CAnchorsCacheEntry.DIRTY then
         (exists e, cacheAnchors c' !! rt = Some e /\ entered e = entered child) /\
         match cacheAnchors c !! rt with
         | None =>
             cacheAnchors c' !! rt
             = Some (mkAnchorsEntry (entered child) (tree child) CAnchorsCacheEntry.DIRTY)
         | Some parent =>
             if Bool.eqb (entered parent) (entered child)
             then cacheAnchors c' !! rt = Some parent
             else cacheAnchors c' !! rt
                  = Some (mkAnchorsEntry (entered child) (tree parent)
                            (Z.lor (anchor_flags parent) CAnchorsCacheEntry.DIRTY))
         end
       else cacheAnchors c' !! rt = cacheAnchors c !! rt) /\
    (forall rt, mapAnchors !! rt = None -> cacheAnchors c' !! rt = cacheAnchors c !! rt) /\
    set_cacheAnchors (cacheAnchors c) c' = c.
Proof.
  destruct (for_each_keyed (fun c rt => cacheAnchors c !! rt)
              (fun c c' => set_cacheAnchors (cacheAnchors c) c' = c)
              BatchWrite_anchor
              (fun child before after =>
                 after =
                 if has_flag (anchor_flags child) CAnchorsCacheEntry.DIRTY then
                   match before with
                   | None =>
                       Some (mkAnchorsEntry (entered child) (tree child)
                               CAnchorsCacheEntry.DIRTY)
                   | Some parent =>
                       if Bool.eqb (entered parent) (entered child) then Some parent
                       else Some (mkAnchorsEntry (entered child) (tree parent)
                                    (Z.lor (anchor_flags parent) CAnchorsCacheEntry.DIRTY))
                   end
                 else before))
    with (l := map_to_list mapAnchors) (c := c) as (c' & Hloop & Hpost & Hframe & Hrest).
  - apply set_cacheAnchors_id.
  - intros c1 c2 c3 H12 H23. destruct c1, c2, c3. unfold set_cacheAnchors, set_cacheNullifiers in *.
    simpl in *. congruence.
  - intros k v c0. destruct (BatchWrite_anchor_step k v c0) as (c1 & ? & ? & ? & ?). eauto.
  - apply NoDup_fst_map_to_list.
  - exists c'. unfold BatchWrite_mapAnchors. rewrite (bind_eq _ _ _ _ _ Hloop).
    split; [done|]. split; [|split; [|done]].
    + intros rt child Hin. apply elem_of_map_to_list in Hin.
      specialize (Hpost rt child Hin). simpl in Hpost. rewrite Hpost.
      destruct (has_flag (anchor_flags child) CAnchorsCacheEntry.DIRTY); [|done].
      destruct (cacheAnchors c !! rt) as [parent|]; [|by eauto].
      destruct (Bool.eqb (entered parent) (entered child)) eqn:Heq; [|by eauto].
      apply Bool.eqb_prop in Heq. eauto.
    + intros rt Hnone. apply Hframe. intros [[k v] [Hk Hin]]%list_elem_of_fmap.
      simpl in Hk. subst k. apply elem_of_map_to_list in Hin. congruence.
Qed.

Lemma set_cacheNullifiers_id (c : CCoinsViewCache) :
  set_cacheNullifiers (cacheNullifiers c) c = c.
Proof. by destruct c. Qed.

Lemma BatchWrite_nullifier_step (nf : uint256) (child : CNullifiersCacheEntry)
    (c : CCoinsViewCache) :
  exists c', BatchWrite_nullifier nf child c = Some (tt, c') /\
    cacheNullifiers c' !! nf =
      (if has_flag (nf_flags child) CNullifiersCacheEntry.DIRTY then
         match cacheNullifiers c !! nf with
         | None => Some (mkNullifiersEntry (nf_entered child) CNullifiersCacheEntry.DIRTY)
         | Some parent =>
             if Bool.eqb (nf_entered parent) (nf_entered child) then Some parent
             else Some (mkNullifiersEntry (nf_entered child)
                          (Z.lor (nf_flags parent) CNullifiersCacheEntry.DIRTY))
         end
       else cacheNullifiers c !! nf) /\
    (forall nf', nf' <> nf -> cacheNullifiers c' !! nf' = cacheNullifiers c !! nf') /\
    set_cacheNullifiers (cacheNullifiers c) c' = c.
Proof.
  unfold BatchWrite_nullifier. munfold.
  destruct (has_flag (nf_flags child) CNullifiersCacheEntry.DIRTY).
  - destruct (cacheNullifiers c !! nf) as [parent|] eqn:Hp.
    + destruct (Bool.eqb (nf_entered parent) (nf_entered child)); simpl.
      * exists c. rewrite Hp. repeat split; try done. apply set_cacheNullifiers_id.
      * eexists. split; [done|]. simpl. rewrite lookup_insert_eq. split; [done|].
        split; [|by destruct c]. intros rt' Hn. by rewrite lookup_insert_ne.
    + eexists. split; [done|]. simpl. rewrite lookup_insert_eq. split; [done|].
      split; [|by destruct c]. intros rt' Hn. by rewrite lookup_insert_ne.
  - exists c. repeat split; try done. apply set_cacheNullifiers_id.
Qed.

(** X13.  The nullifiers loop of [BatchWrite] always returns and drains the
    child map.  After it [GetNullifier] of the receiving cache answers, for a
    nullifier with a DIRTY child slot, what the child slot says, and for
    every other nullifier what it answered before: a child slot that is not
    DIRTY is ignored.  A slot that is written (a new one, or one whose
    [entered] differed) is flagged DIRTY; a slot that agrees is left as it
    is.  The other fields of the cache are unchanged. *)
Theorem BatchWrite_nullifiers_cases (mapNullifiers : gmap N CNullifiersCacheEntry)
    (c : CCoinsViewCache) :
  exists c', BatchWrite_mapNullifiers mapNullifiers c = Some (∅, c') /\
    (forall nf,
       nullifier_view c' nf =
       match mapNullifiers !! nf with
       | Some child =>
           if has_flag (nf_flags child) CNullifiersCacheEntry.DIRTY
           then nf_entered child else nullifier_view c nf
       | None => nullifier_view c nf
       end) /\
    (forall nf child, mapNullifiers !! nf = Some child ->
       has_flag (nf_flags child) CNullifiersCacheEntry.DIRTY = true ->
       match cacheNullifiers c !! nf with
       | Some parent =>
           Bool.eqb (nf_entered parent) (nf_entered child) = true ->
           cacheNullifiers c' !! nf = Some parent
       | None => True
       end /\
       (cacheNullifiers c' !! nf <> cacheNullifiers c !! nf ->
        exists e, cacheNullifiers c' !! nf = Some e /\
          has_flag (nf_flags e) CNullifiersCacheEntry.DIRTY = true)) /\
    (forall nf, (forall child, mapNullifiers !! nf = Some child ->
                   has_flag (nf_flags child) CNullifiersCacheEntry.DIRTY = false) ->
       cacheNullifiers c' !! nf = cacheNullifiers c !! nf) /\
    set_cacheNullifiers (cacheNullifiers c) c' = c.
Proof.
  destruct (for_each_keyed (fun c nf => cacheNullifiers c !! nf)
              (fun c c' => set_cacheNullifiers (cacheNullifiers c) c' = c)
              BatchWrite_nullifier
              (fun child before after =>
                 after =
                 if has_flag (nf_flags child) CNullifiersCacheEntry.DIRTY then
                   match before with
                   | None =>
                       Some (mkNullifiersEntry (nf_entered child) CNullifiersCacheEntry.DIRTY)
                   | Some parent =>
                       if Bool.eqb (nf_entered parent) (nf_entered child) then Some parent
                       else Some (mkNullifiersEntry (nf_entered child)
                                    (Z.lor (nf_flags parent) CNullifiersCacheEntry.DIRTY))
                   end
                 else before))
    with (l := map_to_list mapNullifiers) (c := c) as (c' & Hloop & Hpost & Hframe & Hrest).
  - apply set_cacheNullifiers_id.
  - intros c1 c2 c3 H12 H23. destruct c1, c2, c3. unfold set_cacheAnchors, set_cacheNullifiers in *.
    simpl in *. congruence.
  - intros k v c0. destruct (BatchWrite_nullifier_step k v c0) as (c1 & ? & ? & ? & ?). eauto.
  - apply NoDup_fst_map_to_list.
  - assert (base c' = base c) as Hbase by (rewrite <- Hrest; by destruct c').
    assert (forall nf, mapNullifiers !! nf = None ->
              cacheNullifiers c' !! nf = cacheNullifiers c !! nf) as Hnone.
    { intros nf Hnone. apply Hframe. intros [[k v] [Hk Hin]]%list_elem_of_fmap.
      simpl in Hk. subst k. apply elem_of_map_to_list in Hin. congruence. }
    exists c'. unfold BatchWrite_mapNullifiers. rewrite (bind_eq _ _ _ _ _ Hloop).
    split; [done|]. split; [|split; [|split; [|done]]].
    + intros nf. unfold nullifier_view. rewrite Hbase.
      destruct (mapNullifiers !! nf) as [child|] eqn:Hin; [|by rewrite Hnone].
      apply elem_of_map_to_list in Hin. rewrite (Hpost nf child Hin).
      destruct (has_flag (nf_flags child) CNullifiersCacheEntry.DIRTY); [|done].
      destruct (cacheNullifiers c !! nf) as [parent|]; [|done].
      destruct (Bool.eqb (nf_entered parent) (nf_entered child)) eqn:Heq; [|done].
      by apply Bool.eqb_prop in Heq.
    + intros nf child Hin Hd. apply elem_of_map_to_list in Hin.
      rewrite (Hpost nf child Hin), Hd.
      destruct (cacheNullifiers c !! nf) as [parent|].
      * destruct (Bool.eqb (nf_entered parent) (nf_entered child)); [by split|].
        split; [done|]. intros _. eexists. split; [done|]. simpl.
        by apply has_flag_lor_same.
      * split; [done|]. intros _. by eexists.
    + intros nf Hnd. destruct (mapNullifiers !! nf) as [child|] eqn:Hin; [|by apply Hnone].
      specialize (Hnd child eq_refl). apply elem_of_map_to_list in Hin.
      by rewrite (Hpost nf child Hin), Hnd.
Qed.

(** ** Writing a child's coins: the view of the receiving cache *)

Lemma same_coins_unpruned (a b : option CCoins) :
  same_coins a b <-> unpruned a = unpruned b.
Proof.
  unfold same_coins, unpruned. destruct a as [x|], b as [y|]; try done.
  - rewrite CCoins_operator_eq_spec.
    destruct (IsPruned x) eqn:Hx, (IsPruned y) eqn:Hy; split; try done; try tauto.
    + intros [[? ?]| ->]; congruence.
    + intros [[? ?]| ->]; congruence.
    + intros [[? ?]| ->]; [congruence|done].
    + intros [= ->]. by right.
  - by destruct (IsPruned x).
  - by destruct (IsPruned y).
Qed.

Lemma BatchWrite_coins_loop_frame (l : list (uint256 * CCoinsCacheEntry))
    (c c' : CCoinsViewCache) :
  BatchWrite_coins_loop l c = Some (tt, c') -> set_cacheCoins (cacheCoins c) c' = c.
Proof.
  revert c. induction l as [|[txid child] l IH]; intros c.
  - simpl. munfold. intros [= <-]. by destruct c.
  - simpl. intros ([] & c1 & Hstep & Hloop)%bind_Some. apply IH in Hloop.
    assert (set_cacheCoins (cacheCoins c) c1 = c) as Hc1.
    { revert Hstep. unfold BatchWrite_coin. munfold.
      destruct (has_flag (flags child) CCoinsCacheEntry.DIRTY); [|intros [= <-]; by destruct c].
      destruct (cacheCoins c !! txid) as [itUs|].
      - destruct (_ && _); intros [= <-]; by destruct c.
      - destruct (negb (IsPruned (coins child))); [|intros [= <-]; by destruct c].
        destruct (has_flag (flags child) CCoinsCacheEntry.FRESH); [|done].
        intros [= <-]. by destruct c. }
    destruct c, c1, c'. unfold set_cacheCoins in *. simpl in *. congruence.
Qed.

(** X14.  Writing the coins of a child to the cache it was made over
    carries the child's view over.  When no modifier is live, FRESH means in
    the receiving cache what the comments of the code say (the base has no
    coins for the key, or pruned ones), the child map is coherent with the
    receiving cache, and the assertion of the loop holds, [BatchWrite] returns
    from its coins loop, and afterwards the receiving cache reaches for every
    key the coins that the child held for it, and for a key without a child
    slot the coins it reached before; coins that are pruned and coins that
    are not there count as the same, coins that are not pruned agree in every
    field.  FRESH keeps its meaning in the receiving cache. *)
Theorem BatchWrite_coins_view (mapCoins : gmap N CCoinsCacheEntry) (c : CCoinsViewCache) :
  hasModifier c = false -> fresh_ok c -> child_coherent mapCoins c ->
  (forall txid child, mapCoins !! txid = Some child ->
     BatchWrite_coin_pre child (cacheCoins c !! txid)) ->
  exists c', BatchWrite_mapCoins mapCoins c = Some (∅, c') /\
    (forall txid,
       same_coins (coins_view c' txid)
         (match mapCoins !! txid with
          | Some child => Some (coins child)
          | None => coins_view c txid
          end)) /\
    fresh_ok c' /\ base c' = base c.
Proof.
  intros Hmod Hfresh Hcoh Hpre.
  destruct (BatchWrite_coins_loop_spec (map_to_list mapCoins) c
              (NoDup_fst_map_to_list mapCoins)) as [Hrun Hpost].
  destruct (proj1 Hrun) as (c' & Hloop).
  { intros txid child Hin. apply Hpre. by apply elem_of_map_to_list. }
  destruct (Hpost c' Hloop) as (Hp & Hother & _).
  pose proof (BatchWrite_coins_loop_frame _ _ _ Hloop) as Hframe.
  assert (base c' = base c) as Hbase by (rewrite <- Hframe; by destruct c').
  assert (forall txid, mapCoins !! txid = None -> cacheCoins c' !! txid = cacheCoins c !! txid)
    as Hnone.
  { intros txid Hnone. apply Hother. intros [[k v] [Hk Hin]]%list_elem_of_fmap.
    simpl in Hk. subst k. apply elem_of_map_to_list in Hin. congruence. }
  exists c'. split; [|split; [|split; [|done]]].
  - unfold BatchWrite_mapCoins. munfold. rewrite Hmod. simpl. by rewrite Hloop.
  - intros txid. unfold coins_view. rewrite Hbase.
    destruct (mapCoins !! txid) as [child|] eqn:Hin.
    + destruct (Hcoh txid child Hin) as [Hclean Hdirty].
      apply elem_of_map_to_list in Hin. specialize (Hp txid child Hin).
      unfold BatchWrite_coin_post in Hp.
      destruct (has_flag (flags child) CCoinsCacheEntry.DIRTY) eqn:Hd.
      * destruct (cacheCoins c !! txid) as [itUs|] eqn:Hus.
        -- destruct (has_flag (flags itUs) CCoinsCacheEntry.FRESH) eqn:Hf; simpl in Hp.
           ++ destruct (IsPruned (coins child)) eqn:Hpr; rewrite Hp; simpl.
              ** pose proof (Hfresh txid itUs Hus Hf) as Hb.
                 apply same_coins_unpruned. apply same_coins_unpruned in Hb.
                 rewrite Hb. simpl. by rewrite Hpr.
              ** apply CCoins_operator_eq_spec. by right.
           ++ rewrite Hp. simpl. apply CCoins_operator_eq_spec. by right.
        -- destruct (IsPruned (coins child)) eqn:Hpr.
           ++ rewrite Hp. specialize (Hdirty eq_refl eq_refl).
              apply same_coins_unpruned. apply same_coins_unpruned in Hdirty.
              rewrite Hdirty. simpl. by rewrite Hpr.
           ++ destruct Hp as [_ ->]. simpl. apply CCoins_operator_eq_spec. by right.
      * rewrite Hp. specialize (Hclean eq_refl). unfold coins_view in Hclean.
        apply same_coins_unpruned. apply same_coins_unpruned in Hclean. done.
    + rewrite (Hnone txid Hin). apply same_coins_unpruned. done.
  - intros txid e He Hf. rewrite Hbase.
    destruct (mapCoins !! txid) as [child|] eqn:Hin.
    + destruct (Hcoh txid child Hin) as [Hclean Hdirty].
      apply elem_of_map_to_list in Hin. specialize (Hp txid child Hin).
      unfold BatchWrite_coin_post in Hp.
      destruct (has_flag (flags child) CCoinsCacheEntry.DIRTY) eqn:Hd.
      * destruct (cacheCoins c !! txid) as [itUs|] eqn:Hus.
        -- destruct (has_flag (flags itUs) CCoinsCacheEntry.FRESH && IsPruned (coins child));
             [congruence|].
           rewrite Hp in He. injection He as <-. simpl in Hf.
           rewrite has_flag_lor_DIRTY_FRESH in Hf. by apply (Hfresh txid itUs).
        -- by apply Hdirty.
      * rewrite Hp in He. by apply (Hfresh txid e).
    + rewrite (Hnone txid Hin) in He. by apply (Hfresh txid e).
Qed.

(** ** Reading and modifying coins: the view *)

Lemma FetchCoins_eq (txid : uint256) (c : CCoinsViewCache) :
  FetchCoins txid c =
  Some (match cacheCoins c !! txid with
        | Some e => Some e
        | None =>
            (fun tmp => mkCoinsEntry tmp (if IsPruned tmp then CCoinsCacheEntry.FRESH else 0))
              <$> base_GetCoins (base c) txid
        end,
        match cacheCoins c !! txid, base_GetCoins (base c) txid with
        | None, Some tmp =>
            set_cacheCoins
              (<[txid := mkCoinsEntry tmp (if IsPruned tmp then CCoinsCacheEntry.FRESH else 0)]>
                 (cacheCoins c)) c
        | _, _ => c
        end).
Proof.
  unfold FetchCoins. destruct (cacheCoins c !! txid); [done|].
  by destruct (base_GetCoins (base c) txid).
Qed.

Lemma has_flag_0 (bit : Z) : has_flag 0 bit = false.
Proof. unfold has_flag. by rewrite Z.land_0_l. Qed.

Lemma has_flag_FRESH_DIRTY :
  has_flag CCoinsCacheEntry.FRESH CCoinsCacheEntry.DIRTY = false.
Proof. reflexivity. Qed.

(** X15.  [AccessCoins] and [GetCoins] answer with the coins of the slot of
    the cache when there is one and with the answer of the base otherwise.
    Coins of the base are kept in a slot that is not DIRTY, and FRESH exactly
    when they are pruned; a miss of the base leaves no slot.  The call
    changes the coins reached for no key, keeps the meaning of FRESH, and
    the same call on the cache it leaves gives the same answer and changes
    nothing. *)
Theorem AccessCoins_reads_through (txid : uint256) (c : CCoinsViewCache) :
  exists c1, AccessCoins txid c = Some (coins_view c txid, c1) /\
    GetCoins txid c = Some (coins_view c txid, c1) /\
    AccessCoins txid c1 = Some (coins_view c txid, c1) /\
    (forall k, coins_view c1 k = coins_view c k) /\
    (forall k, k <> txid -> cacheCoins c1 !! k = cacheCoins c !! k) /\
    (forall co, cacheCoins c !! txid = None -> base_GetCoins (base c) txid = Some co ->
       exists e, cacheCoins c1 !! txid = Some e /\ coins e = co /\
         has_flag (flags e) CCoinsCacheEntry.DIRTY = false /\
         has_flag (flags e) CCoinsCacheEntry.FRESH = IsPruned co) /\
    (coins_view c txid = None -> c1 = c) /\
    (fresh_ok c -> fresh_ok c1) /\
    set_cacheCoins (cacheCoins c) c1 = c.
Proof.
  unfold AccessCoins, GetCoins. rewrite !(bind_eq _ _ _ _ _ (FetchCoins_eq txid c)).
  unfold coins_view. munfold. destruct (cacheCoins c !! txid) as [e|] eqn:He.
  - exists c. split; [done|]. split; [done|].
    rewrite FetchCoins_eq, He.
    split; [done|]. split; [done|]. split; [done|]. split; [done|]. split; [done|].
    split; [done|]. by destruct c.
  - destruct (base_GetCoins (base c) txid) as [co|] eqn:Hb; simpl.
    + eexists. split; [done|]. split; [done|].
      rewrite FetchCoins_eq. simpl.
      rewrite lookup_insert_eq. simpl. split; [done|]. split; [|split; [|split]].
      * intros k. destruct (decide (k = txid)) as [->|Hk].
        -- by rewrite lookup_insert_eq, He, Hb.
        -- by rewrite lookup_insert_ne.
      * intros k Hk. by rewrite lookup_insert_ne.
      * intros co' _ [= <-]. eexists. split; [done|]. split; [done|]. simpl.
        destruct (IsPruned co); [by rewrite has_flag_FRESH_DIRTY|by rewrite !has_flag_0].
      * split; [done|]. split; [|by destruct c].
        intros Hfresh k e He' Hf. simpl in *.
        destruct (decide (k = txid)) as [->|Hk].
        -- rewrite lookup_insert_eq in He'. injection He' as <-. simpl in Hf.
           rewrite Hb. simpl. destruct (IsPruned co); [done|]. by rewrite has_flag_0 in Hf.
        -- rewrite lookup_insert_ne in He' by done. by apply (Hfresh k e).
    + exists c. split; [done|]. split; [done|].
      rewrite FetchCoins_eq, He, Hb.
      split; [done|]. split; [done|]. split; [done|]. split; [done|]. split; [done|].
      split; [done|]. by destruct c.
Qed.

(** X16.  A write through a modifier is a write to the view.  When no
    modifier is live and FRESH has its meaning, [ModifyCoins(txid)], a write
    [f] through the modifier and the destructor return, and afterwards the
    cache reaches for [txid] the cleaned-up result of [f] on the coins it
    reached before (on empty coins when it reached none); a slot that the
    destructor erased, being FRESH and pruned, counts as the pruned coins it
    held.  The coins reached for the other keys are unchanged, FRESH keeps
    its meaning, and no modifier is left live. *)
Theorem Modifier_write_view `{Externals} (txid : uint256) (f : CCoins -> CCoins)
    (c : CCoinsViewCache) :
  hasModifier c = false -> fresh_ok c ->
  exists c',
    (m <- ModifyCoins txid ;; Modifier_apply m f ;; CCoinsModifier_dtor m) c = Some (tt, c') /\
    same_coins (coins_view c' txid)
      (Some (Cleanup (f (default CCoins_default (coins_view c txid))))) /\
    (forall k, k <> txid ->
       cacheCoins c' !! k = cacheCoins c !! k /\ coins_view c' k = coins_view c k) /\
    fresh_ok c' /\ hasModifier c' = false /\ base c' = base c.
Proof.
  intros Hmod Hfresh.
  set (e0 := match cacheCoins c !! txid with
             | Some e => e
             | None =>
                 match base_GetCoins (base c) txid with
                 | None => mkCoinsEntry (Clear CCoins_default) CCoinsCacheEntry.FRESH
                 | Some co => mkCoinsEntry co (if IsPruned co then CCoinsCacheEntry.FRESH else 0)
                 end
             end).
  assert (coins e0 = default CCoins_default (coins_view c txid)) as Hco.
  { unfold e0, coins_view. destruct (cacheCoins c !! txid); [done|].
    by destruct (base_GetCoins (base c) txid). }
  assert (has_flag (flags e0) CCoinsCacheEntry.FRESH = true ->
          same_coins (base_GetCoins (base c) txid) None) as Hfr.
  { unfold e0. destruct (cacheCoins c !! txid) as [e|] eqn:He; [by apply Hfresh|].
    destruct (base_GetCoins (base c) txid) as [co|]; [|done]. simpl.
    destruct (IsPruned co); [done|]. by rewrite has_flag_0. }
  unfold ModifyCoins, Modifier_apply, CCoinsModifier_dtor, CCoinsModifier_ctor. munfold.
  rewrite Hmod. simpl. fold e0. rewrite Hmod. simpl. rewrite !lookup_insert_eq. simpl.
  rewrite !lookup_insert_eq. simpl. rewrite has_flag_lor_DIRTY_FRESH, Cleanup_preserves_pruned.
  rewrite Hco.
  destruct (has_flag (flags e0) CCoinsCacheEntry.FRESH
            && IsPruned (f (default CCoins_default (coins_view c txid)))) eqn:Hcase; simpl.
  - apply andb_true_iff in Hcase as [Hf Hp].
    eexists. split; [done|]. unfold coins_view at 1. simpl. rewrite lookup_delete_eq.
    split; [|split; [|split; [|done]]].
    + apply same_coins_unpruned. specialize (Hfr Hf). apply same_coins_unpruned in Hfr.
      rewrite Hfr. simpl. by rewrite Cleanup_preserves_pruned, Hp.
    + intros k Hk. unfold coins_view. simpl.
      by rewrite lookup_delete_ne, !lookup_insert_ne by done.
    + intros k e He Hf'. simpl in *. destruct (decide (k = txid)) as [->|Hk].
      * by rewrite lookup_delete_eq in He.
      * rewrite lookup_delete_ne, !lookup_insert_ne in He by done. by apply (Hfresh k e).
  - eexists. split; [done|]. unfold coins_view at 1. simpl. rewrite lookup_insert_eq. simpl.
    split; [|split; [|split; [|done]]].
    + apply CCoins_operator_eq_spec. by right.
    + intros k Hk. unfold coins_view. simpl. by rewrite !lookup_insert_ne by done.
    + intros k e He Hf'. simpl in *. destruct (decide (k = txid)) as [->|Hk].
      * rewrite lookup_insert_eq in He. injection He as <-. simpl in Hf'.
        rewrite has_flag_lor_DIRTY_FRESH in Hf'. by apply Hfr.
      * rewrite !lookup_insert_ne in He by done. by apply (Hfresh k e).
Qed.

(** ** Sidechain slots under the loops of a transaction *)

Lemma sidechain_view_slot_of (c : CCoinsViewCache) (scId : uint256) :
  sidechain_view c scId = slot_view (slot_of c scId).
Proof.
  unfold sidechain_view, slot_view, slot_of.
  destruct (cacheSidechains c !! scId) as [e|]; [done|].
  by destruct (base_GetSidechain (base c) scId).
Qed.

Lemma same_but_sidechains_refl (c : CCoinsViewCache) : same_but_sidechains c c.
Proof. by repeat split. Qed.

Lemma HaveSidechain_slot (scId : uint256) (c : CCoinsViewCache) :
  exists c1, HaveSidechain scId c = Some (slot_known (slot_of c scId), c1) /\
    cacheSidechains c1 !! scId = slot_of c scId /\
    (forall id, slot_of c1 id = slot_of c id) /\
    same_but_sidechains c c1.
Proof.
  unfold HaveSidechain, FetchSidechains, slot_of, slot_known. munfold.
  destruct (cacheSidechains c !! scId) as [e|] eqn:He.
  - exists c. split; [done|]. split; [done|]. split; [done|]. apply same_but_sidechains_refl.
  - destruct (base_GetSidechain (base c) scId) as [sc|] eqn:Hb; simpl.
    + eexists. split; [done|]. simpl. rewrite lookup_insert_eq. split; [done|].
      split; [|by repeat split].
      intros id. destruct (decide (id = scId)) as [->|Hn].
      * by rewrite lookup_insert_eq, He, Hb.
      * by rewrite lookup_insert_ne.
    + exists c. split; [done|]. split; [done|]. split; [done|].
      apply same_but_sidechains_refl.
Qed.

Lemma ModifySidechain_slot `{Externals} (scId : uint256) (c : CCoinsViewCache) :
  exists c1, ModifySidechain scId c = Some (slot_entry (slot_of c scId), c1) /\
    cacheSidechains c1 !! scId = Some (slot_entry (slot_of c scId)) /\
    (forall id, id <> scId -> slot_of c1 id = slot_of c id) /\
    same_but_sidechains c c1.
Proof.
  unfold ModifySidechain, slot_of, slot_entry.
  destruct (cacheSidechains c !! scId) as [e|] eqn:He.
  - exists c. split; [done|]. split; [done|]. split; [done|]. apply same_but_sidechains_refl.
  - destruct (base_GetSidechain (base c) scId) as [sc|]; simpl.
    + eexists. split; [reflexivity|]. simpl. rewrite lookup_insert_eq.
      split; [done|]. split; [|by repeat split].
      intros id Hn. by rewrite lookup_insert_ne.
    + eexists. split; [reflexivity|]. simpl. rewrite lookup_insert_eq.
      split; [done|]. split; [|by repeat split].
      intros id Hn. by rewrite lookup_insert_ne.
Qed.

Lemma store_sidechain_slot (scId : uint256) (e : CSidechainsCacheEntry) (c : CCoinsViewCache) :
  exists c1, store_sidechain scId e c = Some (tt, c1) /\
    slot_of c1 scId = Some e /\ cacheSidechains c1 !! scId = Some e /\
    (forall id, id <> scId -> slot_of c1 id = slot_of c id) /\
    same_but_sidechains c c1.
Proof.
  unfold store_sidechain, slot_of. munfold. eexists. split; [done|]. simpl.
  rewrite lookup_insert_eq. split; [done|]. split; [done|]. split; [|by repeat split].
  intros id Hn. by rewrite lookup_insert_ne.
Qed.

Lemma slot_of_present (c : CCoinsViewCache) (scId : uint256) (e : CSidechainsCacheEntry) :
  cacheSidechains c !! scId = Some e -> slot_of c scId = Some e.
Proof. unfold slot_of. by intros ->. Qed.

Lemma UpdateSidechain_creation_slot `{Externals} (txHash blockHash : uint256)
    (blockHeight maturityHeight : Z) :
  slot_step cr_GetScId (slot_create txHash blockHash blockHeight maturityHeight)
    (UpdateSidechain_creation txHash blockHash blockHeight maturityHeight).
Proof.
  intros cr c. unfold UpdateSidechain_creation, slot_create.
  destruct (HaveSidechain_slot (cr_GetScId cr) c) as (c1 & Hhave & Hs1 & Hall1 & Hf1).
  rewrite (bind_eq _ _ _ _ _ Hhave).
  destruct (slot_known (slot_of c (cr_GetScId cr))) eqn:Hk.
  - exists c1. split; [done|]. split; [apply Hall1|]. split; [intros; apply Hall1|done].
  - destruct (ModifySidechain_slot (cr_GetScId cr) c1) as (c2 & Hmod & Hs2 & Hoth2 & Hf2).
    rewrite (bind_eq _ _ _ _ _ Hmod).
    destruct (store_sidechain_slot (cr_GetScId cr)
                (mkScEntry (created_sidechain txHash blockHash blockHeight maturityHeight cr
                              (sidechain (slot_entry (slot_of c1 (cr_GetScId cr))))) FRESH) c2)
      as (c3 & Hst & Hs3 & _ & Hoth3 & Hf3).
    rewrite (bind_eq _ _ _ _ _ Hst). exists c3. split; [done|]. simpl.
    rewrite Hs3, Hall1. split; [done|]. split.
    + intros id Hn. by rewrite Hoth3, Hoth2, Hall1.
    + eapply same_but_sidechains_trans; [|done].
      eapply same_but_sidechains_trans; done.
Qed.

Lemma UpdateSidechain_immature_slot `{Externals} (maturityHeight : Z) :
  slot_step fst (fun x => slot_add maturityHeight (snd x))
    (fun x : uint256 * CAmount => UpdateSidechain_immature maturityHeight (fst x) (snd x)).
Proof.
  intros [scId nValue] c. simpl. unfold UpdateSidechain_immature, slot_add.
  destruct (HaveSidechain_slot scId c) as (c1 & Hhave & Hs1 & Hall1 & Hf1).
  rewrite (bind_eq _ _ _ _ _ Hhave).
  destruct (slot_known (slot_of c scId)) eqn:Hk; simpl.
  - destruct (ModifySidechain_slot scId c1) as (c2 & Hmod & Hs2 & Hoth2 & Hf2).
    rewrite (bind_eq _ _ _ _ _ Hmod).
    destruct (store_sidechain_slot scId
                (mkScEntry (add_immature maturityHeight nValue
                              (sidechain (slot_entry (slot_of c1 scId))))
                   (if bool_decide (flag (slot_entry (slot_of c1 scId)) = FRESH)
                    then flag (slot_entry (slot_of c1 scId)) else DIRTY)) c2)
      as (c3 & Hst & Hs3 & _ & Hoth3 & Hf3).
    rewrite (bind_eq _ _ _ _ _ Hst). exists c3. split; [done|].
    rewrite Hs3, Hall1. split.
    + simpl. destruct (bool_decide (flag (slot_entry (slot_of c scId)) = FRESH)) eqn:Hfl;
        [|done]. apply bool_decide_eq_true in Hfl. by rewrite Hfl.
    + split.
      * intros id Hn. by rewrite Hoth3, Hoth2, Hall1.
      * eapply same_but_sidechains_trans; [|done].
        eapply same_but_sidechains_trans; done.
  - exists c1. split; [done|]. split; [apply Hall1|]. split; [intros; apply Hall1|done].
Qed.

Lemma DecrementImmatureAmount_slot (scId : uint256) (nValue : CAmount) (maturityHeight : Z)
    (c : CCoinsViewCache) (e : CSidechainsCacheEntry) :
  cacheSidechains c !! scId = Some e ->
  exists c1,
    DecrementImmatureAmount scId nValue maturityHeight c
    = Some (bool_decide (is_Some (decremented maturityHeight nValue (sidechain e))), c1) /\
    cacheSidechains c1 !! scId
    = Some (match decremented maturityHeight nValue (sidechain e) with
            | Some sc => mkScEntry sc DIRTY
            | None => e
            end) /\
    (forall id, id <> scId -> slot_of c1 id = slot_of c id) /\
    same_but_sidechains c c1.
Proof.
  intros He. unfold DecrementImmatureAmount, decremented, deref_sidechain. munfold.
  rewrite He. destruct (mImmatureAmounts (sidechain e) !! maturityHeight) as [amount|].
  - destruct (amount <? nValue).
    + exists c. split; [done|]. split; [done|]. split; [done|].
      apply same_but_sidechains_refl.
    + eexists. split; [done|]. simpl. rewrite lookup_insert_eq. split; [done|].
      split; [|by repeat split]. intros id Hn. unfold slot_of. simpl.
      by rewrite lookup_insert_ne.
  - exists c. split; [done|]. split; [done|]. split; [done|]. apply same_but_sidechains_refl.
Qed.

Lemma RevertTxOutputs_immature_slot `{Externals} (maturityHeight : Z) :
  slot_step fst (fun x => slot_dec maturityHeight (snd x))
    (fun x : uint256 * CAmount => RevertTxOutputs_immature maturityHeight (fst x) (snd x)).
Proof.
  intros [scId nValue] c. simpl. unfold RevertTxOutputs_immature, slot_dec.
  destruct (HaveSidechain_slot scId c) as (c1 & Hhave & Hs1 & Hall1 & Hf1).
  rewrite (bind_eq _ _ _ _ _ Hhave).
  destruct (slot_known (slot_of c scId)) eqn:Hk; simpl.
  - destruct (ModifySidechain_slot scId c1) as (c2 & Hmod & Hs2 & Hoth2 & Hf2).
    rewrite (bind_eq _ _ _ _ _ Hmod).
    destruct (DecrementImmatureAmount_slot scId nValue maturityHeight c2 _ Hs2)
      as (c3 & Hdec & Hs3 & Hoth3 & Hf3).
    rewrite Hdec, Hall1 in *. exists c3.
    destruct (decremented maturityHeight nValue (sidechain (slot_entry (slot_of c scId))))
      as [sc|] eqn:Hd; simpl.
    + split; [done|]. split; [by apply slot_of_present|]. split.
      * intros id Hn. by rewrite Hoth3, Hoth2, Hall1.
      * eapply same_but_sidechains_trans; [|done].
        eapply same_but_sidechains_trans; done.
    + split; [done|]. split.
      * rewrite (slot_of_present _ _ _ Hs3). unfold slot_entry.
        destruct (slot_of c scId); [done|]. done.
      * split.
        -- intros id Hn. by rewrite Hoth3, Hoth2, Hall1.
        -- eapply same_but_sidechains_trans; [|done].
           eapply same_but_sidechains_trans; done.
  - exists c1. split; [done|]. split; [apply Hall1|]. split; [intros; apply Hall1|done].
Qed.

Lemma RevertTxOutputs_creation_slot `{Externals} (maturityHeight : Z) :
  slot_step cr_GetScId (slot_uncreate maturityHeight) (RevertTxOutputs_creation maturityHeight).
Proof.
  intros cr c. unfold RevertTxOutputs_creation, slot_uncreate.
  set (scId := cr_GetScId cr).
  destruct (HaveSidechain_slot scId c) as (c1 & Hhave & Hs1 & Hall1 & Hf1).
  rewrite (bind_eq _ _ _ _ _ Hhave).
  destruct (slot_known (slot_of c scId)) eqn:Hk; simpl.
  - destruct (ModifySidechain_slot scId c1) as (c2 & Hmod & Hs2 & Hoth2 & Hf2).
    rewrite (bind_eq _ _ _ _ _ Hmod).
    destruct (DecrementImmatureAmount_slot scId (cr_nValue cr) maturityHeight c2 _ Hs2)
      as (c3 & Hdec & Hs3 & Hoth3 & Hf3).
    rewrite (bind_eq _ _ _ _ _ Hdec). rewrite Hall1 in *.
    assert (same_but_sidechains c c3) as Hf03.
    { eapply same_but_sidechains_trans; [|done]. eapply same_but_sidechains_trans; done. }
    destruct (decremented maturityHeight (cr_nValue cr)
                (sidechain (slot_entry (slot_of c scId)))) as [sc|] eqn:Hd; simpl.
    + unfold deref_sidechain. munfold. rewrite Hs3. simpl.
      destruct (balance sc >? 0).
      * exists c3. split; [done|]. split; [by apply slot_of_present|]. split; [|done].
        intros id Hn. by rewrite Hoth3, Hoth2, Hall1.
      * eexists. split; [done|]. unfold slot_of. simpl. rewrite lookup_insert_eq.
        split; [done|]. split.
        -- intros id Hn. rewrite lookup_insert_ne by done.
           specialize (Hoth3 id Hn). unfold slot_of in Hoth3.
           destruct Hf3 as (Hb3 & _). rewrite Hoth3. fold (slot_of c2 id).
           by rewrite Hoth2, Hall1.
        -- destruct Hf03 as (? & ? & ? & ?). by repeat split.
    + exists c3. split; [done|]. split.
      * rewrite (slot_of_present _ _ _ Hs3). unfold slot_entry.
        by destruct (slot_of c scId).
      * split; [|done]. intros id Hn. by rewrite Hoth3, Hoth2, Hall1.
  - exists c1. split; [done|]. split; [apply Hall1|]. split; [intros; apply Hall1|done].
Qed.

Lemma all_ok_app {A : Type} (body : A -> M bool) (l1 l2 : list A) (c : CCoinsViewCache) :
  all_ok body (l1 ++ l2) c =
  (ok <- all_ok body l1 ;; if negb ok then ret false else all_ok body l2) c.
Proof.
  revert c. induction l1 as [|x l1 IH]; intros c; [done|]. simpl. unfold bind, ret in *.
  destruct (body x c) as [[[] c1]|]; [apply IH|done|done].
Qed.

Lemma all_ok_map {A B : Type} (f : A -> B) (body : B -> M bool) (body' : A -> M bool)
    (l : list A) (c : CCoinsViewCache) :
  (forall x, body (f x) = body' x) ->
  all_ok body (map f l) c = all_ok body' l c.
Proof.
  intros Hbody. revert c. induction l as [|x l IH]; intros c; [done|]. simpl.
  rewrite Hbody. unfold bind.
  destruct (body' x c) as [[[] c1]|]; [apply IH|done|done].
Qed.

Lemma run_slot_app {A S : Type} (step : A -> S -> bool * S) (l1 l2 : list A) (s : S) :
  run_slot step (l1 ++ l2) s =
  if fst (run_slot step l1 s) then run_slot step l2 (snd (run_slot step l1 s))
  else run_slot step l1 s.
Proof.
  revert s. induction l1 as [|x l1 IH]; intros s; [done|]. simpl.
  destruct (step x s) as [[] s']; [apply IH|done].
Qed.

(** A loop of bodies that each act on the slot of their own sidechain is,
    for every sidechain, the loop of its own turns on its slot. *)
Lemma all_ok_slots {A : Type} (key : A -> uint256)
    (step : A -> option CSidechainsCacheEntry -> bool * option CSidechainsCacheEntry)
    (body : A -> M bool) :
  slot_step key step body ->
  forall (l : list A) (c : CCoinsViewCache),
    exists b c', all_ok body l c = Some (b, c') /\ same_but_sidechains c c' /\
      (b = true <->
       forall id, fst (run_slot step (filter (fun x => key x = id) l) (slot_of c id)) = true) /\
      (b = true ->
       forall id, slot_of c' id
                  = snd (run_slot step (filter (fun x => key x = id) l) (slot_of c id))).
Proof.
  intros Hstep l. induction l as [|x l IH]; intros c.
  - exists true, c. split; [done|]. split; [apply same_but_sidechains_refl|]. by split.
  - destruct (Hstep x c) as (c1 & Hbody & Hs1 & Hoth1 & Hf1).
    simpl. rewrite (bind_eq _ _ _ _ _ Hbody).
    destruct (step x (slot_of c (key x))) as [ok s1] eqn:Hst. simpl in *.
    destruct ok.
    + destruct (IH c1) as (b & c' & Hrun & Hf & Hiff & Hslots).
      exists b, c'. split; [done|]. split; [by eapply same_but_sidechains_trans|].
      assert (forall id,
                run_slot step (filter (fun x0 => key x0 = id) (x :: l)) (slot_of c id)
                = run_slot step (filter (fun x0 => key x0 = id) l) (slot_of c1 id)) as Hsame.
      { intros id. rewrite filter_cons. destruct (decide (key x = id)) as [<-|Hn].
        - simpl. by rewrite Hst, Hs1.
        - by rewrite Hoth1. }
      split.
      * rewrite Hiff. split; intros Hall id; [rewrite Hsame|rewrite <- Hsame]; apply Hall.
      * intros Hb id. rewrite Hsame. by apply Hslots.
    + exists false, c1. split; [done|]. split; [done|]. split; [|done].
      split; [done|]. intros Hall. specialize (Hall (key x)).
      rewrite filter_cons in Hall. destruct (decide (key x = key x)); [|done].
      simpl in Hall. by rewrite Hst in Hall.
Qed.

Lemma update_turn_slot `{Externals} (txHash blockHash : uint256) (blockHeight maturityHeight : Z) :
  slot_step cc_key (slot_update txHash blockHash blockHeight maturityHeight)
    (update_turn txHash blockHash blockHeight maturityHeight).
Proof.
  intros [cr|[scId nValue]] c.
  - apply UpdateSidechain_creation_slot.
  - apply (UpdateSidechain_immature_slot maturityHeight (scId, nValue)).
Qed.

Lemma revert_turn_slot `{Externals} (maturityHeight : Z) :
  slot_step cc_key (slot_revert maturityHeight) (revert_turn maturityHeight).
Proof.
  intros [cr|[scId nValue]] c.
  - apply RevertTxOutputs_creation_slot.
  - apply (RevertTxOutputs_immature_slot maturityHeight (scId, nValue)).
Qed.

Lemma UpdateSidechain_tx_turns `{Externals} `{ChainParams} (tx : CTransactionCc)
    (blockHash : uint256) (blockHeight : Z) (c : CCoinsViewCache) :
  UpdateSidechain_tx tx blockHash blockHeight c
  = all_ok (update_turn (txcc_GetHash tx) blockHash blockHeight
              (int32 (blockHeight + SC_COIN_MATURITY))) (tx_update_turns tx) c.
Proof.
  unfold UpdateSidechain_tx, tx_update_turns.
  rewrite all_ok_app. unfold bind, ret.
  rewrite (all_ok_map (B:=cc_turn) inl _ (UpdateSidechain_creation (txcc_GetHash tx) blockHash blockHeight
                               (int32 (blockHeight + SC_COIN_MATURITY)))) by done.
  destruct (all_ok _ (GetVscCcOut tx) c) as [[[] c1]|]; simpl; [|done|done].
  rewrite all_ok_app. unfold bind, ret.
  rewrite (all_ok_map (B:=cc_turn) _ _ (fun ft => UpdateSidechain_immature
                                       (int32 (blockHeight + SC_COIN_MATURITY))
                                       (ft_scId ft) (ft_nValue ft))) by done.
  destruct (all_ok _ (GetVftCcOut tx) c1) as [[[] c2]|]; simpl; [|done|done].
  by rewrite (all_ok_map (B:=cc_turn) _ _ (fun mbtr => UpdateSidechain_immature
                                            (int32 (blockHeight + SC_COIN_MATURITY))
                                            (mbtr_scId mbtr) (mbtr_GetScValue mbtr))).
Qed.

Lemma RevertTxOutputs_turns `{Externals} `{ChainParams} (tx : CTransactionCc)
    (nHeight : Z) (c : CCoinsViewCache) :
  RevertTxOutputs tx nHeight c
  = all_ok (revert_turn (int32 (nHeight + SC_COIN_MATURITY))) (tx_revert_turns tx) c.
Proof.
  unfold RevertTxOutputs, tx_revert_turns.
  rewrite all_ok_app. unfold bind, ret.
  rewrite (all_ok_map (B:=cc_turn) _ _ (fun entry => RevertTxOutputs_immature
                                          (int32 (nHeight + SC_COIN_MATURITY))
                                          (mbtr_scId entry) (mbtr_GetScValue entry))) by done.
  destruct (all_ok _ (GetVBwtRequestOut tx) c) as [[[] c1]|]; simpl; [|done|done].
  rewrite all_ok_app. unfold bind, ret.
  rewrite (all_ok_map (B:=cc_turn) _ _ (fun entry => RevertTxOutputs_immature
                                          (int32 (nHeight + SC_COIN_MATURITY))
                                          (ft_scId entry) (ft_nValue entry))) by done.
  destruct (all_ok _ (GetVftCcOut tx) c1) as [[[] c2]|]; simpl; [|done|done].
  by rewrite (all_ok_map (B:=cc_turn) inl _ (RevertTxOutputs_creation (int32 (nHeight + SC_COIN_MATURITY)))).
Qed.

(** ** The turns of one sidechain *)

Lemma filter_map_turns {A : Type} (key : A -> uint256) (val : A -> CAmount) (l : list A)
    (id : uint256) :
  filter (fun x => cc_key x = id) (map (fun a => inr (key a, val a) : cc_turn) l)
  = map (fun v => inr (id, v)) (map val (filter (fun a => key a = id) l)).
Proof.
  induction l as [|a l IH]; [done|]. simpl. rewrite !filter_cons. simpl.
  destruct (decide (key a = id)) as [<-|Hn]; simpl; by rewrite IH.
Qed.

Lemma filter_map_creations (l : list CTxScCreationOut) (id : uint256) :
  filter (fun x => cc_key x = id) (map (inl : CTxScCreationOut -> cc_turn) l)
  = map inl (filter (fun cr => cr_GetScId cr = id) l).
Proof.
  induction l as [|a l IH]; [done|]. simpl. rewrite !filter_cons. simpl.
  destruct (decide (cr_GetScId a = id)); simpl; by rewrite IH.
Qed.

Lemma filter_update_turns (tx : CTransactionCc) (id : uint256) :
  filter (fun x => cc_key x = id) (tx_update_turns tx)
  = map inl (creations_of tx id) ++ map (fun v => inr (id, v)) (values_to tx id).
Proof.
  unfold tx_update_turns, creations_of, values_to.
  rewrite !filter_app, filter_map_creations, !filter_map_turns. by rewrite map_app.
Qed.

Lemma filter_revert_turns (tx : CTransactionCc) (id : uint256) :
  filter (fun x => cc_key x = id) (tx_revert_turns tx)
  = map (fun v => inr (id, v)) (values_back tx id) ++ map inl (creations_of tx id).
Proof.
  unfold tx_revert_turns, creations_of, values_back.
  rewrite !filter_app, filter_map_creations, !filter_map_turns.
  by rewrite map_app, app_assoc.
Qed.

Lemma sum_values_app (l1 l2 : list CAmount) :
  sum_values (l1 ++ l2) = sum_values l1 + sum_values l2.
Proof. induction l1 as [|v l1 IH]; simpl; [done|]. rewrite IH. lia. Qed.

Lemma sum_values_back (tx : CTransactionCc) (id : uint256) :
  sum_values (values_back tx id) = sum_values (values_to tx id).
Proof. unfold values_back, values_to. rewrite !sum_values_app. lia. Qed.

Lemma values_back_nil (tx : CTransactionCc) (id : uint256) :
  values_back tx id = [] <-> values_to tx id = [].
Proof.
  unfold values_back, values_to. split; intros [H1 H2]%app_eq_nil; by rewrite H1, H2.
Qed.

Lemma credited_cons (maturityHeight : Z) (v : CAmount) (vals : list CAmount) (sc : CSidechain) :
  credited maturityHeight (v :: vals) sc
  = credited maturityHeight vals (add_immature maturityHeight v sc).
Proof.
  unfold credited, add_immature. destruct vals as [|v' vals].
  - simpl. by rewrite Z.add_0_r.
  - destruct sc. unfold set_mImmatureAmounts. simpl. f_equal.
    rewrite lookup_insert_eq. simpl. rewrite insert_insert_eq, int64_add_l.
    f_equal. f_equal. lia.
Qed.

Lemma run_slot_adds `{Externals} (txHash blockHash : uint256) (blockHeight maturityHeight : Z)
    (id : uint256) (vals : list CAmount) (e : CSidechainsCacheEntry) :
  flag e <> ERASED -> vals <> [] ->
  run_slot (slot_update txHash blockHash blockHeight maturityHeight)
    (map (fun v => inr (id, v)) vals) (Some e)
  = (true, Some (mkScEntry (credited maturityHeight vals (sidechain e))
                   (if bool_decide (flag e = FRESH) then FRESH else DIRTY))).
Proof.
  revert e. induction vals as [|v vals IH]; intros e He Hne; [done|].
  rewrite credited_cons.
  remember (credited maturityHeight vals (add_immature maturityHeight v (sidechain e))) as sc'.
  simpl. unfold slot_add. simpl. rewrite bool_decide_eq_false_2 by done. simpl.
  destruct vals as [|v' vals]; [by subst|].
  rewrite IH; [|by destruct (bool_decide _)|done]. subst sc'.
  remember (credited _ _ _) as sc'. simpl. do 3 f_equal.
  by destruct (bool_decide (flag e = FRESH)).
Qed.

Lemma run_slot_adds_unknown `{Externals} (txHash blockHash : uint256)
    (blockHeight maturityHeight : Z) (id : uint256) (vals : list CAmount)
    (s : option CSidechainsCacheEntry) :
  slot_known s = false -> vals <> [] ->
  run_slot (slot_update txHash blockHash blockHeight maturityHeight)
    (map (fun v => inr (id, v)) vals) s = (false, s).
Proof.
  intros Hk Hne. destruct vals as [|v vals]; [done|]. simpl. unfold slot_add. by rewrite Hk.
Qed.

Lemma slot_known_view (s : option CSidechainsCacheEntry) :
  slot_known s = bool_decide (is_Some (slot_view s)).
Proof.
  unfold slot_known, slot_view. destruct s as [e|]; [|done].
  by destruct (bool_decide (flag e = ERASED)).
Qed.

(** The turns of one sidechain in [UpdateSidechain]: without a creation the
    sidechain must be known when a value is sent to it, and is credited; with
    one creation it must be unknown, and is created and credited; a second
    creation fails. *)
Lemma run_slot_update `{Externals} (txHash blockHash : uint256) (blockHeight maturityHeight : Z)
    (id : uint256) (crs : list CTxScCreationOut) (vals : list CAmount)
    (s : option CSidechainsCacheEntry) :
  let r := run_slot (slot_update txHash blockHash blockHeight maturityHeight)
             (map inl crs ++ map (fun v => inr (id, v)) vals) s in
  match crs with
  | [] =>
      match vals with
      | [] => r = (true, s)
      | _ =>
          if slot_known s
          then exists fl, fl <> ERASED /\
                 r = (true, Some (mkScEntry (credited maturityHeight vals
                                               (sidechain (slot_entry s))) fl))
          else fst r = false
      end
  | [cr] =>
      if slot_known s then fst r = false
      else r = (true, Some (mkScEntry
                              (credited maturityHeight vals
                                 (created_sidechain txHash blockHash blockHeight maturityHeight
                                    cr (sidechain (slot_entry s)))) FRESH))
  | _ => fst r = false
  end.
Proof.
  simpl. destruct crs as [|cr [|cr' crs]].
  - simpl. destruct vals as [|v vals]; [done|].
    destruct (slot_known s) eqn:Hk.
    + destruct s as [e|]; [|done]. simpl in Hk.
      apply negb_true_iff, bool_decide_eq_false in Hk.
      rewrite run_slot_adds by done. eexists. split; [|done].
      by destruct (bool_decide _).
    + by rewrite run_slot_adds_unknown.
  - simpl. unfold slot_create. destruct (slot_known s) eqn:Hk; [done|].
    destruct vals as [|v vals]; [done|].
    by rewrite run_slot_adds.
  - simpl. unfold slot_create at 1. destruct (slot_known s) eqn:Hk; [done|].
    unfold slot_create. simpl. done.
Qed.

Lemma slot_view_entry `{Externals} (s : option CSidechainsCacheEntry) (sc : CSidechain) :
  slot_view s = Some sc -> sidechain (slot_entry s) = sc.
Proof.
  unfold slot_view, slot_entry. destruct s as [e|]; [|done]. simpl.
  destruct (bool_decide (flag e = ERASED)); [done|]. by intros [= <-].
Qed.

Lemma slot_view_stored_entry (e : CSidechainsCacheEntry) :
  flag e <> ERASED -> slot_view (Some e) = Some (sidechain e).
Proof. intros Hfl. unfold slot_view. by rewrite bool_decide_eq_false_2. Qed.

Lemma slot_view_stored (sc : CSidechain) (fl : Flags) :
  fl <> ERASED -> slot_view (Some (mkScEntry sc fl)) = Some sc.
Proof. intros Hfl. unfold slot_view. simpl. by rewrite bool_decide_eq_false_2. Qed.

Lemma run_slot_update_ok `{Externals} (txHash blockHash : uint256)
    (blockHeight maturityHeight : Z) (id : uint256) (crs : list CTxScCreationOut)
    (vals : list CAmount) (s : option CSidechainsCacheEntry) :
  fst (run_slot (slot_update txHash blockHash blockHeight maturityHeight)
         (map inl crs ++ map (fun v => inr (id, v)) vals) s) = true <->
  match crs with
  | [] => vals = [] \/ is_Some (slot_view s)
  | [_] => slot_view s = None
  | _ => False
  end.
Proof.
  pose proof (run_slot_update txHash blockHash blockHeight maturityHeight id crs vals s) as Hr.
  cbv zeta in Hr. rewrite slot_known_view in Hr.
  destruct crs as [|cr [|cr' crs]].
  - destruct vals as [|v vals]; [rewrite Hr; simpl; tauto|].
    destruct (slot_view s) as [sc|] eqn:Hv.
    + rewrite bool_decide_eq_true_2 in Hr by eauto.
      destruct Hr as (fl & _ & ->). split; [eauto|done].
    + rewrite bool_decide_eq_false_2 in Hr by (by intros [? ?]).
      rewrite Hr. split; [done|]. intros [?|[? ?]]; done.
  - destruct (slot_view s) as [sc|] eqn:Hv.
    + rewrite bool_decide_eq_true_2 in Hr by eauto. by rewrite Hr.
    + rewrite bool_decide_eq_false_2 in Hr by (by intros [? ?]). by rewrite Hr.
  - by rewrite Hr.
Qed.

Lemma run_slot_update_view `{Externals} (txHash blockHash : uint256)
    (blockHeight maturityHeight : Z) (id : uint256) (crs : list CTxScCreationOut)
    (vals : list CAmount) (s : option CSidechainsCacheEntry) :
  fst (run_slot (slot_update txHash blockHash blockHeight maturityHeight)
         (map inl crs ++ map (fun v => inr (id, v)) vals) s) = true ->
  slot_view (snd (run_slot (slot_update txHash blockHash blockHeight maturityHeight)
                    (map inl crs ++ map (fun v => inr (id, v)) vals) s))
  = match crs with
    | [] => credited maturityHeight vals <$> slot_view s
    | cr :: _ =>
        Some (credited maturityHeight vals
                (created_sidechain txHash blockHash blockHeight maturityHeight cr
                   (sidechain (slot_entry s))))
    end.
Proof.
  pose proof (run_slot_update txHash blockHash blockHeight maturityHeight id crs vals s) as Hr.
  cbv zeta in Hr. rewrite slot_known_view in Hr. intros Hok.
  destruct crs as [|cr [|cr' crs]].
  - destruct vals as [|v vals].
    + rewrite Hr. simpl. by destruct (slot_view s).
    + destruct (slot_view s) as [sc|] eqn:Hv.
      * rewrite bool_decide_eq_true_2 in Hr by eauto.
        destruct Hr as (fl & Hfl & Hr). rewrite Hr. cbn [snd].
        rewrite slot_view_stored by done.
        cbn [fmap option_fmap option_map]. by rewrite (slot_view_entry s sc).
      * rewrite bool_decide_eq_false_2 in Hr by (by intros [? ?]). congruence.
  - destruct (slot_view s) as [sc|] eqn:Hv.
    + rewrite bool_decide_eq_true_2 in Hr by eauto. congruence.
    + rewrite bool_decide_eq_false_2 in Hr by (by intros [? ?]).
      rewrite Hr. cbn [snd]. by rewrite slot_view_stored.
  - congruence.
Qed.

(** ** UpdateSidechain of a transaction *)

(** X17.  [UpdateSidechain(tx, block, blockHeight)] always returns.  It
    returns true exactly when every sidechain that the transaction creates
    is created once and is unknown to the cache, and every sidechain that a
    forward transfer or a backward transfer request of the transaction names
    is known to the cache or created by the transaction.  Then a sidechain
    without an output in the transaction is as it was; a known sidechain has
    the sum of the values sent to it added to its immature amount of height
    [blockHeight + SC_COIN_MATURITY] and is otherwise unchanged; a created
    sidechain has the record of its creation output, with its value and the
    values sent to it as the immature amount of that height.  Only sidechain
    slots are written. *)
Theorem UpdateSidechain_tx_credits `{Externals} `{ChainParams} (tx : CTransactionCc)
    (blockHash : uint256) (blockHeight : Z) (c : CCoinsViewCache) :
  exists b c',
    UpdateSidechain_tx tx blockHash blockHeight c = Some (b, c') /\
    same_but_sidechains c c' /\
    (b = true <->
     forall id,
       match creations_of tx id with
       | [] => values_to tx id = [] \/ is_Some (sidechain_view c id)
       | [_] => sidechain_view c id = None
       | _ => False
       end) /\
    (b = true ->
     forall id,
       sidechain_view c' id =
       match creations_of tx id with
       | [] =>
           credited (int32 (blockHeight + SC_COIN_MATURITY)) (values_to tx id)
             <$> sidechain_view c id
       | cr :: _ =>
           Some (credited (int32 (blockHeight + SC_COIN_MATURITY)) (values_to tx id)
                   (created_sidechain (txcc_GetHash tx) blockHash blockHeight
                      (int32 (blockHeight + SC_COIN_MATURITY)) cr
                      (default CSidechain_default (sidechain <$> cacheSidechains c !! id))))
       end).
Proof.
  destruct (all_ok_slots cc_key _ _
              (update_turn_slot (txcc_GetHash tx) blockHash blockHeight
                 (int32 (blockHeight + SC_COIN_MATURITY))) (tx_update_turns tx) c)
    as (b & c' & Hrun & Hframe & Hiff & Hslots).
  exists b, c'. rewrite UpdateSidechain_tx_turns. split; [done|]. split; [done|]. split.
  - rewrite Hiff. split; intros Hall id; specialize (Hall id).
    + rewrite filter_update_turns, run_slot_update_ok in Hall.
      by rewrite sidechain_view_slot_of.
    + rewrite filter_update_turns, run_slot_update_ok.
      by rewrite sidechain_view_slot_of in Hall.
  - intros Hb id. pose proof (proj1 Hiff Hb id) as Hok.
    rewrite (sidechain_view_slot_of c'), (Hslots Hb id).
    rewrite filter_update_turns in *. rewrite run_slot_update_view by done.
    rewrite sidechain_view_slot_of.
    destruct (creations_of tx id) as [|cr crs] eqn:Hcr; [done|].
    apply run_slot_update_ok in Hok. destruct crs; [|done].
    do 3 f_equal. unfold slot_entry, slot_of, slot_view in *.
    destruct (cacheSidechains c !! id) as [e|]; [done|].
    destruct (base_GetSidechain (base c) id); [|done]. simpl in Hok. done.
Qed.

(** ** RevertTxOutputs *)

Lemma sum_values_pos (vals : list CAmount) :
  Forall (fun v => 0 < v) vals -> vals <> [] -> 0 < sum_values vals.
Proof.
  induction 1 as [|v vals Hv Hvals IH]; [done|]. intros _. simpl.
  destruct vals as [|v' vals]; [simpl; lia|]. specialize (IH ltac:(done)). lia.
Qed.

Lemma sum_values_nonneg (vals : list CAmount) :
  Forall (fun v => 0 < v) vals -> 0 <= sum_values vals.
Proof. induction 1 as [|v vals Hv Hvals IH]; simpl; lia. Qed.

Lemma decremented_some (maturityHeight : Z) (nValue amount : CAmount) (sc : CSidechain) :
  mImmatureAmounts sc !! maturityHeight = Some amount -> nValue <= amount ->
  in_int64 (amount - nValue) ->
  decremented maturityHeight nValue sc
  = Some (set_mImmatureAmounts
            (if amount - nValue =? 0 then delete maturityHeight (mImmatureAmounts sc)
             else <[maturityHeight := amount - nValue]> (mImmatureAmounts sc)) sc).
Proof.
  intros Ha Hle Hr. unfold decremented. rewrite Ha.
  destruct (Z.ltb_spec amount nValue); [lia|]. rewrite int64_in_range by done.
  destruct (amount - nValue =? 0); [|done]. by rewrite delete_insert_eq.
Qed.

Lemma set_mImmatureAmounts_twice (m1 m2 : gmap Z CAmount) (sc : CSidechain) :
  set_mImmatureAmounts m1 (set_mImmatureAmounts m2 sc) = set_mImmatureAmounts m1 sc.
Proof. done. Qed.

Lemma set_mImmatureAmounts_id (sc : CSidechain) :
  set_mImmatureAmounts (mImmatureAmounts sc) sc = sc.
Proof. by destruct sc. Qed.

Lemma set_mImmatureAmounts_same (m : gmap Z CAmount) (sc : CSidechain) :
  m = mImmatureAmounts sc -> set_mImmatureAmounts m sc = sc.
Proof. intros ->. apply set_mImmatureAmounts_id. Qed.

Lemma run_slot_decs `{Externals} (maturityHeight : Z) (id : uint256) (vals : list CAmount)
    (e : CSidechainsCacheEntry) (r : Z) :
  flag e <> ERASED -> vals <> [] -> Forall (fun v => 0 < v) vals -> 0 <= r ->
  mImmatureAmounts (sidechain e) !! maturityHeight = Some (r + sum_values vals) ->
  r + sum_values vals < 2 ^ 63 ->
  run_slot (slot_revert maturityHeight) (map (fun v => inr (id, v)) vals) (Some e)
  = (true, Some (mkScEntry
                   (set_mImmatureAmounts
                      (if r =? 0 then delete maturityHeight (mImmatureAmounts (sidechain e))
                       else <[maturityHeight := r]> (mImmatureAmounts (sidechain e)))
                      (sidechain e)) DIRTY)).
Proof.
  revert e. induction vals as [|v vals IH]; intros e He Hne Hpos Hr Ha Hlt; [done|].
  apply Forall_cons in Hpos as [Hv Hpos]. pose proof (sum_values_nonneg vals Hpos) as Hs.
  cbn [map run_slot slot_revert]. unfold slot_dec. cbn [slot_known slot_entry default].
  rewrite bool_decide_eq_false_2 by done. cbn [negb].
  simpl sum_values in Ha, Hlt.
  rewrite (decremented_some maturityHeight v (r + (v + sum_values vals))) by
    (try done; unfold in_int64; lia).
  replace (r + (v + sum_values vals) - v) with (r + sum_values vals) by lia.
  destruct vals as [|v' vals].
  - simpl. by rewrite Z.add_0_r.
  - pose proof (sum_values_pos (v' :: vals) Hpos ltac:(done)) as Hsp.
    destruct (Z.eqb_spec (r + sum_values (v' :: vals)) 0) as [|_]; [lia|].
    rewrite IH; try done.
    + cbn [sidechain]. rewrite set_mImmatureAmounts_twice. cbn [mImmatureAmounts set_mImmatureAmounts].
      do 4 f_equal. destruct (r =? 0).
      * by rewrite delete_insert_eq.
      * by rewrite insert_insert_eq.
    + simpl. by rewrite lookup_insert_eq.
    + lia.
Qed.

(** The turns of one sidechain in [UpdateSidechain] and then in
    [RevertTxOutputs], for positive values that do not overflow: the
    reader finds in the slot what it found before the two. *)
Lemma run_slot_update_revert `{Externals} (txHash blockHash : uint256)
    (blockHeight maturityHeight : Z) (id : uint256) (crs : list CTxScCreationOut)
    (vals vals' : list CAmount) (s : option CSidechainsCacheEntry) :
  fst (run_slot (slot_update txHash blockHash blockHeight maturityHeight)
         (map inl crs ++ map (fun v => inr (id, v)) vals) s) = true ->
  Forall (fun v => 0 < v) vals -> Forall (fun v => 0 < v) vals' ->
  sum_values vals' = sum_values vals -> (vals' = [] <-> vals = []) ->
  Forall (fun cr => 0 < cr_nValue cr /\ cr_nValue cr + sum_values vals < 2 ^ 63) crs ->
  (forall sc, slot_view s = Some sc ->
     default 0 (mImmatureAmounts sc !! maturityHeight) + sum_values vals < 2 ^ 63 /\
     forall a, mImmatureAmounts sc !! maturityHeight = Some a -> 0 < a) ->
  (crs <> [] -> balance (sidechain (slot_entry s)) <= 0) ->
  exists s2,
    run_slot (slot_revert maturityHeight)
      (map (fun v => inr (id, v)) vals' ++ map inl crs)
      (snd (run_slot (slot_update txHash blockHash blockHeight maturityHeight)
              (map inl crs ++ map (fun v => inr (id, v)) vals) s))
    = (true, s2) /\
    slot_view s2 = slot_view s.
Proof.
  intros Hok Hpos Hpos' Hsum Hnil Hcrs Hview Hbal.
  pose proof (run_slot_update txHash blockHash blockHeight maturityHeight id crs vals s) as Hr.
  cbv zeta in Hr. rewrite slot_known_view in Hr.
  pose proof (proj1 (run_slot_update_ok _ _ _ _ _ _ _ _) Hok) as Hcase.
  destruct crs as [|cr [|cr' crs]]; [| |done].
  - destruct vals as [|v vals].
    + rewrite (proj2 Hnil eq_refl), Hr. by exists s.
    + destruct Hcase as [|[sc Hsc]]; [done|]. rewrite Hsc in Hr.
      rewrite bool_decide_eq_true_2 in Hr by eauto.
      destruct Hr as (fl & Hfl & ->). cbn [snd]. rewrite app_nil_r.
      destruct (Hview sc Hsc) as [Hlt Hent].
      rewrite (slot_view_entry s sc Hsc).
      set (a0 := default 0 (mImmatureAmounts sc !! maturityHeight)) in *.
      assert (0 <= a0) as Ha0.
      { unfold a0. destruct (mImmatureAmounts sc !! maturityHeight) as [a|] eqn:Ha; simpl;
          [specialize (Hent a eq_refl)|]; lia. }
      pose proof (sum_values_pos (v :: vals) Hpos ltac:(done)) as Hsp.
      assert (vals' <> []) as Hne' by (intros Hn; by apply Hnil in Hn).
      rewrite (run_slot_decs maturityHeight id vals' _ a0); try done.
      * eexists. split; [done|]. rewrite slot_view_stored by done. rewrite Hsc. f_equal.
        unfold credited. cbn [sidechain mImmatureAmounts set_mImmatureAmounts].
        rewrite set_mImmatureAmounts_twice.
        apply set_mImmatureAmounts_same.
        unfold a0. destruct (mImmatureAmounts sc !! maturityHeight) as [a|] eqn:Ha; simpl.
        -- specialize (Hent a eq_refl). destruct (Z.eqb_spec a 0); [lia|].
           by rewrite insert_insert_eq, insert_id.
        -- by rewrite delete_insert_id.
      * unfold credited. cbn [sidechain mImmatureAmounts set_mImmatureAmounts].
        rewrite lookup_insert_eq, Hsum. f_equal. apply int64_in_range.
        unfold in_int64. fold a0. lia.
      * rewrite Hsum. fold a0. lia.
  - apply Forall_singleton in Hcrs as [Hcrpos Hcrlt].
    rename Hcase into Hnone. rewrite Hnone in Hr.
    rewrite bool_decide_eq_false_2 in Hr by (by intros [? ?]). rewrite Hr. cbn [snd].
    specialize (Hbal ltac:(done)).
    set (u := sidechain (slot_entry s)) in *.
    set (cre := created_sidechain txHash blockHash blockHeight maturityHeight cr u).
    assert (exists s1,
              run_slot (slot_revert maturityHeight) (map (fun v => inr (id, v)) vals')
                (Some (mkScEntry (credited maturityHeight vals cre) FRESH))
              = (true, Some (mkScEntry cre s1)) /\ s1 <> ERASED) as (fl & Hdecs & Hfl).
    { destruct vals as [|v vals].
      - rewrite (proj2 Hnil eq_refl). by exists FRESH.
      - assert (vals' <> []) as Hne' by (intros Hn; by apply Hnil in Hn).
        pose proof (sum_values_pos (v :: vals) Hpos ltac:(done)) as Hsp.
        exists DIRTY. split; [|done].
        rewrite (run_slot_decs maturityHeight id vals' _ (cr_nValue cr)); try done; try lia.
        + do 3 f_equal. unfold credited.
          cbn [sidechain mImmatureAmounts set_mImmatureAmounts].
          rewrite set_mImmatureAmounts_twice.
          destruct (Z.eqb_spec (cr_nValue cr) 0); [lia|].
          rewrite insert_insert_eq.
          apply set_mImmatureAmounts_same.
          unfold cre, created_sidechain. simpl. by rewrite insert_insert_eq.
        + unfold credited. cbn [sidechain mImmatureAmounts set_mImmatureAmounts].
          rewrite lookup_insert_eq. unfold cre, created_sidechain. simpl.
          rewrite lookup_insert_eq. simpl. rewrite Hsum. f_equal. apply int64_in_range.
          unfold in_int64. lia. }
    rewrite run_slot_app, Hdecs. cbn [fst snd map run_slot slot_revert].
    unfold slot_uncreate. cbn [slot_known slot_entry default sidechain flag].
    rewrite bool_decide_eq_false_2 by done. cbn [negb].
    rewrite (decremented_some maturityHeight (cr_nValue cr) (cr_nValue cr)).
    + rewrite Z.sub_diag. cbn [Z.eqb]. unfold Datatypes.id.
      cbn [balance set_mImmatureAmounts sidechain].
      replace (balance cre) with (balance u) by done.
      destruct (Z.gtb_spec (balance u) 0) as [|_]; [lia|].
      eexists. split; [done|]. by rewrite Hnone.
    + unfold cre, created_sidechain. simpl. by rewrite lookup_insert_eq.
    + lia.
    + unfold in_int64. lia.
Qed.

Lemma Forall_values_of {A : Type} (key : A -> uint256) (val : A -> CAmount) (l : list A)
    (id : uint256) :
  Forall (fun a => 0 < val a) l ->
  Forall (fun v => 0 < v) (map val (filter (fun a => key a = id) l)).
Proof.
  induction 1 as [|a l Ha Hl IH]; [done|]. rewrite filter_cons.
  destruct (decide (key a = id)); [|done]. simpl. by constructor.
Qed.

Lemma Forall_creations_of (P : CTxScCreationOut -> Prop) (tx : CTransactionCc) (id : uint256) :
  Forall P (GetVscCcOut tx) -> Forall P (creations_of tx id).
Proof.
  unfold creations_of. induction 1 as [|a l Ha Hl IH]; [done|]. rewrite filter_cons.
  destruct (decide (cr_GetScId a = id)); [|done]. by constructor.
Qed.

Lemma creations_of_key (tx : CTransactionCc) (id : uint256) :
  Forall (fun cr => cr_GetScId cr = id) (creations_of tx id).
Proof.
  unfold creations_of. induction (GetVscCcOut tx) as [|a l IH]; [done|]. rewrite filter_cons.
  destruct (decide (cr_GetScId a = id)); [|done]. by constructor.
Qed.

(** X18.  When [UpdateSidechain] has returned true for a transaction at
    a height, [RevertTxOutputs] for the same transaction and height returns
    true and every sidechain reads as before the update: the values are
    taken off the immature amount, an amount that reaches zero is erased,
    and a created sidechain is unknown again.  This holds for positive
    values whose sums stay below 2^63, when no immature amount of the height
    was stored as zero or less, and when the record that a creation starts
    from has no positive balance. *)
Theorem RevertTxOutputs_undoes_UpdateSidechain `{Externals} `{ChainParams}
    (tx : CTransactionCc) (blockHash : uint256) (blockHeight : Z) (c c' : CCoinsViewCache) :
  UpdateSidechain_tx tx blockHash blockHeight c = Some (true, c') ->
  Forall (fun cr => 0 < cr_nValue cr /\
                    cr_nValue cr + sum_values (values_to tx (cr_GetScId cr)) < 2 ^ 63 /\
                    balance (default CSidechain_default
                               (sidechain <$> cacheSidechains c !! cr_GetScId cr)) <= 0)
    (GetVscCcOut tx) ->
  Forall (fun ft => 0 < ft_nValue ft) (GetVftCcOut tx) ->
  Forall (fun mbtr => 0 < mbtr_GetScValue mbtr) (GetVBwtRequestOut tx) ->
  (forall id sc, sidechain_view c id = Some sc ->
     default 0 (mImmatureAmounts sc !! int32 (blockHeight + SC_COIN_MATURITY))
     + sum_values (values_to tx id) < 2 ^ 63 /\
     forall a, mImmatureAmounts sc !! int32 (blockHeight + SC_COIN_MATURITY) = Some a ->
               0 < a) ->
  exists c'',
    RevertTxOutputs tx blockHeight c' = Some (true, c'') /\
    same_but_sidechains c' c'' /\
    forall id, sidechain_view c'' id = sidechain_view c id.
Proof.
  intros Hupd Hcr Hft Hmbtr Hview.
  set (mh := int32 (blockHeight + SC_COIN_MATURITY)) in *.
  destruct (all_ok_slots cc_key _ _
              (update_turn_slot (txcc_GetHash tx) blockHash blockHeight mh)
              (tx_update_turns tx) c)
    as (b & c1 & Hrun & _ & Hiff & Hslots).
  rewrite UpdateSidechain_tx_turns in Hupd. fold mh in Hupd. rewrite Hrun in Hupd.
  injection Hupd as -> ->. specialize (Hslots eq_refl).
  pose proof (proj1 Hiff eq_refl) as Hok. clear Hiff Hrun.
  destruct (all_ok_slots cc_key _ _ (revert_turn_slot mh) (tx_revert_turns tx) c')
    as (b2 & c'' & Hrun2 & Hframe2 & Hiff2 & Hslots2).
  assert (forall id, exists s2,
            run_slot (slot_revert mh) (filter (fun x => cc_key x = id) (tx_revert_turns tx))
              (slot_of c' id) = (true, s2) /\
            slot_view s2 = slot_view (slot_of c id)) as Hback.
  { intros id. specialize (Hok id). rewrite filter_revert_turns, Hslots.
    rewrite filter_update_turns in *.
    apply run_slot_update_revert; [done|..].
    - unfold values_to. apply Forall_app. split; by apply Forall_values_of.
    - unfold values_back. apply Forall_app. split; by apply Forall_values_of.
    - apply sum_values_back.
    - apply values_back_nil.
    - pose proof (Forall_creations_of _ tx id Hcr) as H1.
      pose proof (creations_of_key tx id) as H2.
      apply Forall_forall. intros cr Hin.
      pose proof (proj1 (Forall_forall _ _) H1 cr Hin) as (Hp & Hs & _).
      pose proof (proj1 (Forall_forall _ _) H2 cr Hin) as Hk. simpl in Hk.
      rewrite Hk in Hs. done.
    - intros sc Hsc. apply Hview. by rewrite sidechain_view_slot_of.
    - intros Hne. apply (proj1 (run_slot_update_ok _ _ _ _ _ _ _ _)) in Hok.
      destruct (creations_of tx id) as [|cr [|cr' crs]] eqn:Hcrs; [done| |done].
      pose proof (Forall_creations_of _ tx id Hcr) as H1. rewrite Hcrs in H1.
      apply Forall_singleton in H1 as (_ & _ & Hbal).
      pose proof (creations_of_key tx id) as H2. rewrite Hcrs in H2.
      pose proof (Forall_inv H2) as Hk. simpl in Hk. rewrite Hk in Hbal.
      unfold slot_entry, slot_of, slot_view in *.
      destruct (cacheSidechains c !! id) as [e|]; [done|].
      destruct (base_GetSidechain (base c) id); [|done]. simpl in Hok. done. }
  assert (b2 = true) as ->.
  { apply Hiff2. intros id. destruct (Hback id) as (s2 & -> & _). done. }
  exists c''. rewrite RevertTxOutputs_turns. fold mh. split; [done|]. split; [done|].
  intros id. rewrite (sidechain_view_slot_of c''), (Hslots2 eq_refl id).
  destruct (Hback id) as (s2 & -> & Hv). cbn [snd]. by rewrite Hv, sidechain_view_slot_of.
Qed.

(** ** DecrementImmatureAmount, CheckQuality, GetSidechainState *)

(** X19.  On the slot of a
    sidechain, [DecrementImmatureAmount] returns false and changes nothing
    when the sidechain has no immature amount at the height or has less than
    the value; otherwise it returns true, marks the slot DIRTY and changes
    the immature amounts only: the amount at the height is lowered by the
    value and erased when nothing is left, so that the height never holds a
    zero amount afterwards. *)
Theorem DecrementImmatureAmount_cases (scId : uint256) (nValue : CAmount) (maturityHeight : Z)
    (c : CCoinsViewCache) (e : CSidechainsCacheEntry) :
  cacheSidechains c !! scId = Some e ->
  exists b c',
    DecrementImmatureAmount scId nValue maturityHeight c = Some (b, c') /\
    (b = true <->
     exists amount, mImmatureAmounts (sidechain e) !! maturityHeight = Some amount /\
                    nValue <= amount) /\
    (b = false -> c' = c) /\
    (b = true ->
     exists e',
       cacheSidechains c' !! scId = Some e' /\ flag e' = DIRTY /\
       mImmatureAmounts (sidechain e') !! maturityHeight <> Some 0 /\
       (forall amount,
          mImmatureAmounts (sidechain e) !! maturityHeight = Some amount ->
          in_int64 (amount - nValue) ->
          mImmatureAmounts (sidechain e') !! maturityHeight
          = if amount - nValue =? 0 then None else Some (amount - nValue)) /\
       (forall h, h <> maturityHeight ->
          mImmatureAmounts (sidechain e') !! h = mImmatureAmounts (sidechain e) !! h) /\
       set_mImmatureAmounts (mImmatureAmounts (sidechain e)) (sidechain e') = sidechain e).
Proof.
  intros He. unfold DecrementImmatureAmount, deref_sidechain. munfold. rewrite He.
  destruct (mImmatureAmounts (sidechain e) !! maturityHeight) as [amount|] eqn:Ha.
  - destruct (Z.ltb_spec amount nValue) as [Hlt|Hge].
    + exists false, c. split; [done|]. split; [|done]. split; [done|].
      intros (a & [= <-] & Hle). lia.
    + eexists true, _. split; [done|]. split; [split; [intros _; by exists amount|done]|].
      split; [done|]. intros _.
      eexists. simpl. rewrite lookup_insert_eq. split; [done|]. simpl. split; [done|].
      split; [|split; [|split]].
      * destruct (Z.eqb_spec (int64 (amount - nValue)) 0) as [Hz|Hz].
        -- by rewrite lookup_delete_eq.
        -- rewrite lookup_insert_eq. by intros [= ?].
      * intros a [= <-] Hr. rewrite (int64_in_range _ Hr).
        destruct (amount - nValue =? 0).
        -- by rewrite lookup_delete_eq.
        -- by rewrite lookup_insert_eq.
      * intros h Hh. destruct (int64 (amount - nValue) =? 0).
        -- by rewrite lookup_delete_ne, lookup_insert_ne.
        -- by rewrite lookup_insert_ne.
      * by destruct (sidechain e).
  - exists false, c. split; [done|]. split; [|done]. split; [done|]. by intros (a & [= ] & _).
Qed.

Lemma CheckQuality_view (cert : CScCertificate) (c : CCoinsViewCache) :
  exists c1,
    CheckQuality cert c
    = Some (default true (quality_ok cert <$> sidechain_view c (cert_GetScId cert)), c1) /\
    same_but_sidechains c c1 /\
    forall id, sidechain_view c1 id = sidechain_view c id.
Proof.
  destruct (GetSidechain_view (cert_GetScId cert) c) as (c0 & Hget & _ & Hf & Hv & _).
  exists c0. unfold CheckQuality. rewrite (bind_eq _ _ _ _ _ Hget). split; [|done].
  destruct (sidechain_view c (cert_GetScId cert)) as [info|]; [|done]. simpl.
  unfold quality_ok. by destruct (_ && _ && _).
Qed.

Lemma int32_succ_ne (x : Z) : int32 (x + 1) <> x.
Proof.
  unfold int32, wrap_signed. intros Heq.
  pose proof (Z.mod_pos_bound (x + 1 + 2 ^ (32 - 1)) (2 ^ 32) ltac:(lia)) as Hb.
  assert ((x + 1 + 2 ^ (32 - 1)) mod 2 ^ 32 = x + 2 ^ (32 - 1)) as Hm by lia.
  pose proof (Z.div_mod (x + 1 + 2 ^ (32 - 1)) (2 ^ 32) ltac:(lia)) as Hd.
  rewrite Hm in Hd. lia.
Qed.

(** What a certificate that [UpdateSidechain] accepts has found and what it
    leaves. *)
Lemma UpdateSidechain_accepted `{Externals} (cert : CScCertificate) (blockUndo u' : CBlockUndo)
    (c c' : CCoinsViewCache) :
  UpdateSidechain cert blockUndo c = Some ((true, u'), c') ->
  exists sc sc',
    sidechain_view c (cert_GetScId cert) = Some sc /\
    (epochNumber cert = int32 (lastTopQualityCertReferencedEpoch sc + 1) \/
     epochNumber cert = lastTopQualityCertReferencedEpoch sc /\
     lastTopQualityCertQuality sc < quality cert) /\
    sidechain_view c' (cert_GetScId cert) = Some sc' /\
    lastTopQualityCertHash sc' = cert_GetHash cert /\
    lastTopQualityCertReferencedEpoch sc' = epochNumber cert /\
    lastTopQualityCertQuality sc' = quality cert /\
    forall id, id <> cert_GetScId cert -> sidechain_view c' id = sidechain_view c id.
Proof.
  unfold UpdateSidechain. intros Hrun.
  apply bind_Some in Hrun as ([] & c0 & Hassert & Hrun).
  unfold cpp_assert in Hassert. destruct (uint256_IsNull _); [|done].
  injection Hassert as <-.
  destruct (HaveSidechain_slot (cert_GetScId cert) c) as (c1 & Hhave & Hs1 & Hall1 & _).
  rewrite (bind_eq _ _ _ _ _ Hhave) in Hrun.
  destruct (slot_known (slot_of c (cert_GetScId cert))) eqn:Hknown; [|done]. simpl in Hrun.
  destruct (slot_of c (cert_GetScId cert)) as [e|] eqn:Hslot; [|done].
  rewrite (bind_eq _ _ _ _ _ (ModifySidechain_present _ _ _ Hs1)) in Hrun.
  assert (flag e <> ERASED) as Hfl.
  { unfold slot_known in Hknown. by case_bool_decide. }
  assert (sidechain_view c (cert_GetScId cert) = Some (sidechain e)) as Hview.
  { rewrite sidechain_view_slot_of, Hslot. by apply slot_view_stored_entry. }
  assert (forall cur d u0,
            UpdateSidechain_balance cert e cur d u0 c1 = Some (true, u', c') ->
            exists sc', sidechain_view c' (cert_GetScId cert) = Some sc' /\
              lastTopQualityCertHash sc' = cert_GetHash cert /\
              lastTopQualityCertReferencedEpoch sc' = epochNumber cert /\
              lastTopQualityCertQuality sc' = quality cert /\
              forall id, id <> cert_GetScId cert -> sidechain_view c' id = sidechain_view c id)
    as Hbal.
  { intros cur d u0. unfold UpdateSidechain_balance. munfold.
    destruct (balance cur <? _); [done|]. intros [= _ <-].
    eexists. unfold sidechain_view at 1. simpl. rewrite lookup_insert_eq. simpl.
    split; [done|]. split; [done|]. split; [done|]. split; [done|].
    intros id Hn. rewrite !sidechain_view_slot_of, <- Hall1. unfold slot_of. simpl.
    by rewrite lookup_insert_ne. }
  exists (sidechain e).
  destruct (Z.eqb_spec (epochNumber cert)
              (int32 (lastTopQualityCertReferencedEpoch (sidechain e) + 1))) as [Hnext|_].
  - destruct (Hbal _ _ _ Hrun) as (sc' & ?). exists sc'. split; [done|]. split; [by left|done].
  - destruct (Z.eqb_spec (epochNumber cert) (lastTopQualityCertReferencedEpoch (sidechain e)))
      as [Hsame|_]; [|done].
    destruct (Z.leb_spec (quality cert) (lastTopQualityCertQuality (sidechain e))) as [|Hq];
      [done|].
    destruct (Hbal _ _ _ Hrun) as (sc' & ?). exists sc'. split; [done|]. split; [by right|done].
Qed.

(** X20.  A certificate that [UpdateSidechain] accepts is one for
    which [CheckQuality] answered true on the cache before; and on the cache
    after, [CheckQuality] answers false for exactly the certificates of the
    same sidechain that have another hash, the same epoch and a quality that
    is not higher, while certificates of other sidechains are answered as
    before. *)
Theorem CheckQuality_around_UpdateSidechain `{Externals} (cert : CScCertificate)
    (blockUndo u' : CBlockUndo) (c c' : CCoinsViewCache) :
  UpdateSidechain cert blockUndo c = Some ((true, u'), c') ->
  (exists c1, CheckQuality cert c = Some (true, c1)) /\
  forall other : CScCertificate,
    exists b c2,
      CheckQuality other c' = Some (b, c2) /\
      (cert_GetScId other = cert_GetScId cert ->
       (b = false <->
        cert_GetHash other <> cert_GetHash cert /\
        epochNumber other = epochNumber cert /\
        quality other <= quality cert)) /\
      (cert_GetScId other <> cert_GetScId cert ->
       exists c1, CheckQuality other c = Some (b, c1)).
Proof.
  intros Hrun.
  destruct (UpdateSidechain_accepted _ _ _ _ _ Hrun)
    as (sc & sc' & Hsc & Hepoch & Hsc' & Hhash & Hep & Hq & Hother).
  split.
  - destruct (CheckQuality_view cert c) as (c1 & -> & _). exists c1. rewrite Hsc. simpl.
    do 2 f_equal. unfold quality_ok.
    destruct Hepoch as [Hnext|[Hsame Hlt]].
    + destruct (Z.eqb_spec (lastTopQualityCertReferencedEpoch sc) (epochNumber cert)) as [He|_].
      * rewrite <- He in Hnext. symmetry in Hnext. by apply int32_succ_ne in Hnext.
      * by rewrite andb_false_r.
    + destruct (Z.geb_spec (lastTopQualityCertQuality sc) (quality cert)); [lia|].
      by rewrite andb_false_r.
  - intros other.
    destruct (CheckQuality_view other c') as (c2 & Hafter & _).
    destruct (CheckQuality_view other c) as (c1 & Hbefore & _).
    eexists _, c2. split; [exact Hafter|]. split.
    + intros Hid. rewrite Hid, Hsc'. simpl. unfold quality_ok. rewrite Hhash, Hep, Hq.
      destruct (N.eqb_spec (cert_GetHash cert) (cert_GetHash other)) as [Hh|Hh];
        destruct (Z.eqb_spec (epochNumber cert) (epochNumber other)) as [He|He];
        destruct (Z.geb_spec (quality cert) (quality other)) as [Hg|Hg]; simpl;
        split; try done; try (intros (? & ? & ?); congruence || lia);
        intros _; repeat split; congruence || lia.
    + intros Hid. exists c1. by rewrite Hbefore, Hother.
Qed.

(** X21.  [GetSidechainState]
    answers the state of the record that a reader finds for the sidechain,
    in the cache before the base, and NOT_APPLICABLE when there is none or
    when the slot of the cache is ERASED; it changes no record that a reader
    finds. *)
Theorem GetSidechainState_reads_through `{Externals} (scId : uint256) (c : CCoinsViewCache) :
  exists c',
    GetSidechainState scId c
    = Some (default NOT_APPLICABLE (currentState <$> sidechain_view c scId), c') /\
    same_but_sidechains c c' /\
    forall id, sidechain_view c' id = sidechain_view c id.
Proof.
  destruct (GetSidechain_view scId c) as (c0 & Hget & Hhave & Hf0 & Hv0 & _).
  destruct (GetSidechain_view scId c0) as (c1 & Hget1 & _ & Hf1 & Hv1 & _).
  unfold GetSidechainState. rewrite (bind_eq _ _ _ _ _ Hhave).
  destruct (sidechain_view c scId) as [sc|] eqn:Hsc.
  - rewrite bool_decide_eq_true_2 by eauto. simpl.
    exists c1. rewrite (bind_eq _ _ _ _ _ Hget1), Hv0, Hsc.
    split; [done|]. split; [by eapply same_but_sidechains_trans|].
    intros id. by rewrite Hv1, Hv0.
  - rewrite bool_decide_eq_false_2 by (by intros [? ?]). simpl. by exists c0.
Qed.

(** ** Scheduling and cancelling the events of a transaction *)

Lemma with_without_maturing (scId : uint256) (ev : CSidechainEvents) :
  without_maturing scId (with_maturing scId ev) = without_maturing scId ev.
Proof. unfold without_maturing, with_maturing. simpl. f_equal. set_solver. Qed.

Lemma with_without_ceasing (scId : uint256) (ev : CSidechainEvents) :
  without_ceasing scId (with_ceasing scId ev) = without_ceasing scId ev.
Proof. unfold without_ceasing, with_ceasing. simpl. f_equal. set_solver. Qed.

Lemma without_maturing_id (scId : uint256) (ev : CSidechainEvents) :
  scId ∉ maturingScs ev -> without_maturing scId ev = ev.
Proof. intros Hn. destruct ev. unfold without_maturing. simpl in *. f_equal. set_solver. Qed.

Lemma without_ceasing_id (scId : uint256) (ev : CSidechainEvents) :
  scId ∉ ceasingScs ev -> without_ceasing scId ev = ev.
Proof. intros Hn. destruct ev. unfold without_ceasing. simpl in *. f_equal. set_solver. Qed.

Lemma without_with_ceasing (scId : uint256) (ev : CSidechainEvents) :
  with_ceasing scId (without_ceasing scId ev) = with_ceasing scId ev.
Proof.
  unfold without_ceasing, with_ceasing. simpl. f_equal. apply set_eq. intros x.
  destruct (decide (x = scId)); set_solver.
Qed.

Lemma with_ceasing_id (scId : uint256) (ev : CSidechainEvents) :
  scId ∈ ceasingScs ev -> with_ceasing scId ev = ev.
Proof. intros Hn. destruct ev. unfold with_ceasing. simpl in *. f_equal. set_solver. Qed.

Lemma without_maturing_ceasing (a b : uint256) (ev : CSidechainEvents) :
  without_ceasing a (without_maturing b ev) = without_maturing b (without_ceasing a ev).
Proof. done. Qed.

Lemma events_view_at (c : CCoinsViewCache) (height : Z) (ev : CSidechainEvents) :
  events_view c height = Some ev -> events_at c height = ev.
Proof.
  unfold events_view, events_at. destruct (cacheSidechainEvents c !! height) as [e|].
  - case_bool_decide; [done|]. by intros [= <-].
  - by intros ->.
Qed.

Lemma same_but_sidechains_events (c c' : CCoinsViewCache) (height : Z) :
  same_but_sidechains c c' ->
  events_view c' height = events_view c height /\ events_at c' height = events_at c height.
Proof. intros (Hb & _ & _ & He). unfold events_view, events_at. by rewrite Hb, He. Qed.

Lemma same_but_events_sidechains (c c' : CCoinsViewCache) (scId : uint256) :
  same_but_events c c' ->
  sidechain_view c' scId = sidechain_view c scId /\ slot_of c' scId = slot_of c scId.
Proof. intros (Hb & _ & _ & Hs). unfold sidechain_view, slot_of. by rewrite Hb, Hs. Qed.

Lemma same_but_events_refl (c : CCoinsViewCache) : same_but_events c c.
Proof. by repeat split. Qed.

Lemma same_but_events_trans (c1 c2 c3 : CCoinsViewCache) :
  same_but_events c1 c2 -> same_but_events c2 c3 -> same_but_events c1 c3.
Proof. unfold same_but_events. intros (-> & -> & -> & ->) (-> & -> & -> & ->). done. Qed.

Lemma HaveSidechainEvents_view (height : Z) (c : CCoinsViewCache) :
  exists c',
    HaveSidechainEvents height c = Some (bool_decide (is_Some (events_view c height)), c') /\
    same_but_events c c' /\
    forall h, events_view c' h = events_view c h /\ events_at c' h = events_at c h.
Proof.
  unfold HaveSidechainEvents, FetchSidechainEvents, events_view, events_at. munfold.
  destruct (cacheSidechainEvents c !! height) as [e|] eqn:He.
  - exists c. split; [by case_bool_decide|]. split; [apply same_but_events_refl|done].
  - destruct (base_GetSidechainEvents (base c) height) as [tmp|] eqn:Hb.
    + eexists. split; [done|]. split; [by repeat split|]. intros h. simpl.
      destruct (decide (h = height)) as [->|Hn].
      * by rewrite lookup_insert_eq, He, Hb.
      * by rewrite lookup_insert_ne.
    + exists c. split; [done|]. split; [apply same_but_events_refl|done].
Qed.

Lemma events_insert_view (f : CSidechainEvents -> CSidechainEvents) (height : Z)
    (c : CCoinsViewCache) :
  exists c',
    events_insert f height c = Some (tt, c') /\
    same_but_events c c' /\
    events_view c' height = Some (f (events_at c height)) /\
    events_at c' height = f (events_at c height) /\
    forall h, h <> height ->
      events_view c' h = events_view c h /\ events_at c' h = events_at c h.
Proof.
  unfold events_insert, ModifySidechainEvents, events_view, events_at. munfold.
  destruct (cacheSidechainEvents c !! height) as [e|] eqn:He.
  - eexists. split; [done|]. split; [by repeat split|]. simpl. rewrite lookup_insert_eq. simpl.
    split; [|split; [done|]].
    + destruct (bool_decide (ev_flag e = FRESH)) eqn:Hf; [|done].
      apply bool_decide_eq_true in Hf. by rewrite Hf.
    + intros h Hn. by rewrite lookup_insert_ne.
  - eexists. split; [done|]. split; [by repeat split|]. simpl. rewrite lookup_insert_eq. simpl.
    split; [|split].
    + by destruct (base_GetSidechainEvents (base c) height).
    + by destruct (base_GetSidechainEvents (base c) height).
    + intros h Hn. by rewrite !lookup_insert_ne.
Qed.

Lemma events_erase_view (f : CSidechainEvents -> CSidechainEvents) (height : Z)
    (c : CCoinsViewCache) :
  exists c',
    events_erase f height c = Some (tt, c') /\
    same_but_events c c' /\
    events_view c' height = nonnull (f (events_at c height)) /\
    events_at c' height = f (events_at c height) /\
    forall h, h <> height ->
      events_view c' h = events_view c h /\ events_at c' h = events_at c h.
Proof.
  unfold events_erase, ModifySidechainEvents, events_view, events_at, nonnull. munfold.
  destruct (cacheSidechainEvents c !! height) as [e|] eqn:He.
  - eexists. split; [done|]. split; [by repeat split|]. simpl. rewrite lookup_insert_eq. simpl.
    split; [|split; [done|]].
    + by destruct (CSidechainEvents_IsNull _).
    + intros h Hn. by rewrite lookup_insert_ne.
  - eexists. split; [done|]. split; [by repeat split|]. simpl. rewrite lookup_insert_eq. simpl.
    split; [|split].
    + destruct (base_GetSidechainEvents (base c) height); simpl;
        by destruct (CSidechainEvents_IsNull _).
    + by destruct (base_GetSidechainEvents (base c) height).
    + intros h Hn. by rewrite !lookup_insert_ne.
Qed.

Lemma HaveSidechain_view (scId : uint256) (c : CCoinsViewCache) :
  exists c',
    HaveSidechain scId c = Some (bool_decide (is_Some (sidechain_view c scId)), c') /\
    same_but_sidechains c c' /\
    forall id, sidechain_view c' id = sidechain_view c id.
Proof.
  destruct (GetSidechain_view scId c) as (c0 & _ & Hhave & Hf & Hv & _). by exists c0.
Qed.

Lemma AccessSidechain_slot (scId : uint256) (c : CCoinsViewCache) :
  exists c',
    AccessSidechain scId c = Some (sidechain <$> slot_of c scId, c') /\
    same_but_sidechains c c' /\
    forall id, slot_of c' id = slot_of c id.
Proof.
  unfold AccessSidechain, FetchSidechains, slot_of. munfold.
  destruct (cacheSidechains c !! scId) as [e|] eqn:He.
  - exists c. split; [done|]. split; [apply same_but_sidechains_refl|done].
  - destruct (base_GetSidechain (base c) scId) as [sc|] eqn:Hb.
    + eexists. split; [done|]. split; [by repeat split|]. intros id. simpl.
      destruct (decide (id = scId)) as [->|Hn].
      * by rewrite lookup_insert_eq, He, Hb.
      * by rewrite lookup_insert_ne.
    + exists c. split; [done|]. split; [apply same_but_sidechains_refl|done].
Qed.

Lemma without_maturing_twice (scId : uint256) (ev : CSidechainEvents) :
  without_maturing scId (without_maturing scId ev) = without_maturing scId ev.
Proof. unfold without_maturing. simpl. f_equal. set_solver. Qed.

Lemma ScheduleSidechainEvent_mbtr_fwd `{ChainParams} (scId : uint256) (nValue scFee : CAmount)
    (height : Z) :
  ScheduleSidechainEvent_mbtr (mkBwtRequestOut scId scFee) height
  = ScheduleSidechainEvent_fwd (mkForwardTransferOut scId nValue) height.
Proof. done. Qed.

Lemma CancelSidechainEvent_mbtr_fwd `{ChainParams} (scId : uint256) (nValue scFee : CAmount)
    (height : Z) :
  CancelSidechainEvent_mbtr (mkBwtRequestOut scId scFee) height
  = CancelSidechainEvent_fwd (mkForwardTransferOut scId nValue) height.
Proof. done. Qed.

Lemma ScheduleSidechainEvent_fwd_view `{ChainParams} (forwardOut : CTxForwardTransferOut)
    (height : Z) (c : CCoinsViewCache) :
  exists c',
    ScheduleSidechainEvent_fwd forwardOut height c
    = Some (bool_decide (is_Some (sidechain_view c (ft_scId forwardOut))), c') /\
    (forall id, sidechain_view c' id = sidechain_view c id) /\
    (forall h,
       events_view c' h =
       if bool_decide (is_Some (sidechain_view c (ft_scId forwardOut))) &&
          bool_decide (h = int32 (height + SC_COIN_MATURITY))
       then Some (with_maturing (ft_scId forwardOut)
                    (events_at c (int32 (height + SC_COIN_MATURITY))))
       else events_view c h) /\
    (forall h,
       events_at c' h =
       if bool_decide (is_Some (sidechain_view c (ft_scId forwardOut))) &&
          bool_decide (h = int32 (height + SC_COIN_MATURITY))
       then with_maturing (ft_scId forwardOut) (events_at c (int32 (height + SC_COIN_MATURITY)))
       else events_at c h).
Proof.
  destruct (HaveSidechain_view (ft_scId forwardOut) c) as (c1 & Hhave & Hf1 & Hv1).
  unfold ScheduleSidechainEvent_fwd. rewrite (bind_eq _ _ _ _ _ Hhave).
  destruct (bool_decide (is_Some (sidechain_view c (ft_scId forwardOut)))); simpl.
  - destruct (events_insert_view (with_maturing (ft_scId forwardOut))
                (int32 (height + SC_COIN_MATURITY)) c1)
      as (c2 & Hins & Hf2 & Hview & Hat & Hoth).
    rewrite (bind_eq _ _ _ _ _ Hins). exists c2. split; [done|]. split.
    + intros id. by rewrite (proj1 (same_but_events_sidechains _ _ id Hf2)).
    + split; intros h; case_bool_decide as Hh.
      * subst h. rewrite Hview. by rewrite (proj2 (same_but_sidechains_events _ _ _ Hf1)).
      * rewrite (proj1 (Hoth h Hh)). apply (same_but_sidechains_events _ _ _ Hf1).
      * subst h. rewrite Hat. by rewrite (proj2 (same_but_sidechains_events _ _ _ Hf1)).
      * rewrite (proj2 (Hoth h Hh)). apply (same_but_sidechains_events _ _ _ Hf1).
  - exists c1. split; [done|]. split; [done|].
    split; intros h; apply (same_but_sidechains_events _ _ _ Hf1).
Qed.

Lemma CancelSidechainEvent_fwd_view `{ChainParams} (forwardOut : CTxForwardTransferOut)
    (height : Z) (c : CCoinsViewCache) :
  exists c',
    CancelSidechainEvent_fwd forwardOut height c = Some (true, c') /\
    same_but_events c c' /\
    forall h,
      events_view c' h =
      if bool_decide (h = int32 (height + SC_COIN_MATURITY))
      then events_view c h ≫= fun ev => nonnull (without_maturing (ft_scId forwardOut) ev)
      else events_view c h.
Proof.
  unfold CancelSidechainEvent_fwd. generalize (int32 (height + SC_COIN_MATURITY)).
  intros mh. cbv zeta.
  destruct (HaveSidechainEvents_view mh c) as (c1 & Hhave & Hf1 & Hv1).
  rewrite (bind_eq _ _ _ _ _ Hhave). clear Hhave.
  destruct (events_view c mh) as [ev|] eqn:Hev.
  - rewrite bool_decide_eq_true_2 by eauto. simpl.
    destruct (events_erase_view (without_maturing (ft_scId forwardOut)) mh c1)
      as (c2 & Hdel & Hf2 & Hview & Hat & Hoth).
    rewrite (bind_eq _ _ _ _ _ Hdel). exists c2. split; [done|].
    split; [by eapply same_but_events_trans|].
    intros h. case_bool_decide as Hh.
    + subst h. rewrite Hview, (proj2 (Hv1 mh)), Hev. simpl.
      by rewrite (events_view_at _ _ _ Hev).
    + rewrite (proj1 (Hoth h Hh)). apply Hv1.
  - rewrite bool_decide_eq_false_2 by (by intros [? ?]). simpl.
    exists c1. split; [done|]. split; [done|].
    intros h. rewrite (proj1 (Hv1 h)). case_bool_decide as Hh; [|done]. subst h.
    by rewrite Hev.
Qed.

(** X22.  [ScheduleSidechainEvent] for a forward transfer and for a
    backward transfer request do the same: they return false and change
    nothing that a reader finds when the sidechain is unknown; otherwise they
    return true and a reader finds, at the height plus SC_COIN_MATURITY,
    the events that the slot held (those of an ERASED slot too) with the
    sidechain among the maturing ones.  The events of the other heights and
    all sidechains read as before. *)
Theorem ScheduleSidechainEvent_fwd_adds `{ChainParams} (scId : uint256) (nValue scFee : CAmount)
    (height : Z) (c : CCoinsViewCache) :
  exists b c',
    ScheduleSidechainEvent_fwd (mkForwardTransferOut scId nValue) height c = Some (b, c') /\
    ScheduleSidechainEvent_mbtr (mkBwtRequestOut scId scFee) height c = Some (b, c') /\
    b = bool_decide (is_Some (sidechain_view c scId)) /\
    (forall id, sidechain_view c' id = sidechain_view c id) /\
    (forall h,
       events_view c' h =
       if b && bool_decide (h = int32 (height + SC_COIN_MATURITY))
       then Some (with_maturing scId (events_at c (int32 (height + SC_COIN_MATURITY))))
       else events_view c h).
Proof.
  destruct (ScheduleSidechainEvent_fwd_view (mkForwardTransferOut scId nValue) height c)
    as (c' & Hrun & Hsc & Hev & _).
  exists (bool_decide (is_Some (sidechain_view c scId))), c'.
  rewrite (ScheduleSidechainEvent_mbtr_fwd scId nValue scFee). by repeat split.
Qed.

(** X23.  [CancelSidechainEvent] for a forward transfer and for a backward
    transfer request do the same and always return true, whether the
    sidechain is known or not: when a reader finds events at the height plus
    SC_COIN_MATURITY, the sidechain is taken out of the maturing ones, and
    the reader finds no events there afterwards when none are left; when a
    reader finds no events there, nothing changes.  The events of the other
    heights are as before, and a second cancel changes nothing a reader
    finds. *)
Theorem CancelSidechainEvent_fwd_removes `{ChainParams} (scId : uint256)
    (nValue scFee : CAmount) (height : Z) (c : CCoinsViewCache) :
  exists c' c'',
    CancelSidechainEvent_fwd (mkForwardTransferOut scId nValue) height c = Some (true, c') /\
    CancelSidechainEvent_mbtr (mkBwtRequestOut scId scFee) height c = Some (true, c') /\
    same_but_events c c' /\
    (forall h,
       events_view c' h =
       if bool_decide (h = int32 (height + SC_COIN_MATURITY))
       then events_view c h ≫= fun ev => nonnull (without_maturing scId ev)
       else events_view c h) /\
    CancelSidechainEvent_fwd (mkForwardTransferOut scId nValue) height c' = Some (true, c'') /\
    (forall h, events_view c'' h = events_view c' h).
Proof.
  destruct (CancelSidechainEvent_fwd_view (mkForwardTransferOut scId nValue) height c)
    as (c' & Hrun & Hf & Hev).
  destruct (CancelSidechainEvent_fwd_view (mkForwardTransferOut scId nValue) height c')
    as (c'' & Hrun' & Hf' & Hev').
  exists c', c''. rewrite (CancelSidechainEvent_mbtr_fwd scId nValue scFee).
  split; [done|]. split; [done|]. split; [done|]. split; [done|]. split; [done|].
  intros h. rewrite Hev'. case_bool_decide as Hh; [|done]. subst h.
  rewrite Hev, bool_decide_eq_true_2 by done. simpl.
  destruct (events_view c _) as [ev|]; [|done]. simpl. unfold nonnull.
  destruct (CSidechainEvents_IsNull (without_maturing scId ev)) eqn:Hnull; [done|]. simpl.
  by rewrite without_maturing_twice, Hnull.
Qed.

(** X24.  A forward transfer that is scheduled and then cancelled: for a
    known sidechain both calls return true, and afterwards a reader finds at
    the maturity height the events that the slot held without the sidechain
    among the maturing ones, and none when nothing is left; so the events
    read as before the two calls when the sidechain was not yet maturing at
    that height and the reader found there what the slot held.  A sidechain
    that was maturing there before, for another transfer, is no longer. *)
Theorem Schedule_Cancel_fwd `{ChainParams} (forwardOut : CTxForwardTransferOut) (height : Z)
    (c : CCoinsViewCache) :
  is_Some (sidechain_view c (ft_scId forwardOut)) ->
  exists c1 c2,
    ScheduleSidechainEvent_fwd forwardOut height c = Some (true, c1) /\
    CancelSidechainEvent_fwd forwardOut height c1 = Some (true, c2) /\
    (forall id, sidechain_view c2 id = sidechain_view c id) /\
    (forall h,
       events_view c2 h =
       if bool_decide (h = int32 (height + SC_COIN_MATURITY))
       then nonnull (without_maturing (ft_scId forwardOut) (events_at c h))
       else events_view c h) /\
    (ft_scId forwardOut ∉ maturingScs (events_at c (int32 (height + SC_COIN_MATURITY))) ->
     events_view c (int32 (height + SC_COIN_MATURITY))
     = nonnull (events_at c (int32 (height + SC_COIN_MATURITY))) ->
     forall h, events_view c2 h = events_view c h).
Proof.
  intros Hknown.
  destruct (ScheduleSidechainEvent_fwd_view forwardOut height c) as (c1 & Hrun1 & Hsc1 & Hev1 & _).
  destruct (CancelSidechainEvent_fwd_view forwardOut height c1) as (c2 & Hrun2 & Hf2 & Hev2).
  rewrite bool_decide_eq_true_2 in Hrun1, Hev1 by done.
  exists c1, c2. split; [done|]. split; [done|].
  assert (forall h,
            events_view c2 h =
            if bool_decide (h = int32 (height + SC_COIN_MATURITY))
            then nonnull (without_maturing (ft_scId forwardOut) (events_at c h))
            else events_view c h) as Hev.
  { intros h. rewrite Hev2, Hev1. simpl. case_bool_decide as Hh; [|done]. subst h. simpl.
    by rewrite with_without_maturing. }
  split; [|split; [done|]].
  - intros id. by rewrite (proj1 (same_but_events_sidechains _ _ id Hf2)).
  - intros Hnot Hclean h. rewrite Hev. case_bool_decide as Hh; [|done]. subst h.
    by rewrite without_maturing_id.
Qed.

(** ** The events of a creation *)

Lemma nonnull_with_ceasing (scId : uint256) (ev : CSidechainEvents) :
  scId ∈ ceasingScs ev -> nonnull ev = Some ev.
Proof.
  intros Hin. unfold nonnull, CSidechainEvents_IsNull.
  rewrite (bool_decide_eq_false_2 (ceasingScs ev = ∅)) by set_solver.
  by rewrite andb_false_r.
Qed.

Lemma with_without_both (scId : uint256) (ev : CSidechainEvents) :
  without_ceasing scId (without_maturing scId (with_ceasing scId (with_maturing scId ev)))
  = without_ceasing scId (without_maturing scId ev).
Proof.
  unfold without_ceasing, without_maturing, with_ceasing, with_maturing. simpl.
  f_equal; set_solver.
Qed.

Lemma schedule_creation_events (scId : uint256) (mh ch : Z) (c : CCoinsViewCache) :
  exists c1,
    (events_insert (with_maturing scId) mh ;;
     events_insert (with_ceasing scId) ch ;;
     ret true) c = Some (true, c1) /\
    same_but_events c c1 /\
    forall h,
      events_at c1 h
      = at_height ch (with_ceasing scId) h (at_height mh (with_maturing scId) h (events_at c h)) /\
      events_view c1 h
      = if bool_decide (h = mh \/ h = ch) then Some (events_at c1 h) else events_view c h.
Proof.
  destruct (events_insert_view (with_maturing scId) mh c) as (c0 & Hrun0 & Hf0 & Hv0 & Ha0 & Ho0).
  destruct (events_insert_view (with_ceasing scId) ch c0) as (c1 & Hrun1 & Hf1 & Hv1 & Ha1 & Ho1).
  exists c1. unfold bind at 1. rewrite Hrun0. unfold bind at 1. rewrite Hrun1.
  split; [done|]. split; [by eapply same_but_events_trans|].
  intros h. unfold at_height.
  destruct (decide (h = ch)) as [Hch|Hch]; destruct (decide (h = mh)) as [Hmh|Hmh];
    decide_heights.
  - subst h. subst mh. by rewrite Hv1, Ha1, Ha0.
  - subst h. by rewrite Hv1, Ha1, (proj2 (Ho0 _ Hmh)).
  - subst h. by rewrite (proj1 (Ho1 _ Hch)), (proj2 (Ho1 _ Hch)), Hv0, Ha0.
  - by rewrite (proj1 (Ho1 _ Hch)), (proj2 (Ho1 _ Hch)), (proj1 (Ho0 _ Hmh)), (proj2 (Ho0 _ Hmh)).
Qed.

Lemma cancel_creation_events (scId : uint256) (mh ch : Z) (c : CCoinsViewCache) :
  is_Some (events_view c mh) -> is_Some (events_view c ch) ->
  scId ∈ ceasingScs (events_at c ch) ->
  exists c2,
    (have <- HaveSidechainEvents mh ;;
     (if have then events_erase (without_maturing scId) mh else ret tt) ;;
     have <- HaveSidechainEvents ch ;;
     if negb have then ret false else
     events_erase (without_ceasing scId) ch ;;
     ret true) c = Some (true, c2) /\
    same_but_events c c2 /\
    forall h,
      events_view c2 h
      = if bool_decide (h = mh \/ h = ch)
        then nonnull (at_height ch (without_ceasing scId) h
                        (at_height mh (without_maturing scId) h (events_at c h)))
        else events_view c h.
Proof.
  intros Hmh Hch Hin.
  destruct (HaveSidechainEvents_view mh c) as (c0 & Hrun0 & Hf0 & Hv0).
  destruct (events_erase_view (without_maturing scId) mh c0)
    as (c1 & Hrun1 & Hf1 & Hv1 & Ha1 & Ho1).
  destruct (HaveSidechainEvents_view ch c1) as (c3 & Hrun3 & Hf3 & Hv3).
  destruct (events_erase_view (without_ceasing scId) ch c3)
    as (c4 & Hrun4 & Hf4 & Hv4 & Ha4 & Ho4).
  rewrite (bind_eq _ _ _ _ _ Hrun0), bool_decide_eq_true_2 by done.
  unfold bind at 1. rewrite Hrun1. rewrite (bind_eq _ _ _ _ _ Hrun3).
  assert (events_at c1 ch = at_height mh (without_maturing scId) ch (events_at c ch)) as Hat1.
  { unfold at_height. destruct (decide (ch = mh)) as [Heq|Hne]; decide_heights.
    - rewrite Heq, Ha1. by rewrite (proj2 (Hv0 mh)).
    - by rewrite (proj2 (Ho1 _ Hne)), (proj2 (Hv0 ch)). }
  assert (is_Some (events_view c1 ch)) as Hlive.
  { destruct (decide (ch = mh)) as [Heq|Hne].
    - rewrite Heq, Hv1, (proj2 (Hv0 mh)), <- Heq. rewrite nonnull_with_ceasing with (scId := scId);
        [by eexists|done].
    - by rewrite (proj1 (Ho1 _ Hne)), (proj1 (Hv0 ch)). }
  rewrite bool_decide_eq_true_2 by done. simpl.
  unfold bind at 1. rewrite Hrun4. exists c4. split; [done|].
  split; [eauto using same_but_events_trans|].
  intros h.
  destruct (decide (h = ch)) as [Hhc|Hhc]; destruct (decide (h = mh)) as [Hhm|Hhm];
    unfold at_height in *; decide_heights.
  - subst h. subst mh. revert Hat1. decide_heights. intros Hat1.
    by rewrite Hv4, (proj2 (Hv3 ch)), Hat1.
  - subst h. revert Hat1. decide_heights. intros Hat1.
    by rewrite Hv4, (proj2 (Hv3 ch)), Hat1.
  - subst h. rewrite (proj1 (Ho4 _ Hhc)), (proj1 (Hv3 mh)), Hv1. by rewrite (proj2 (Hv0 mh)).
  - by rewrite (proj1 (Ho4 _ Hhc)), (proj1 (Hv3 h)), (proj1 (Ho1 _ Hhm)), (proj1 (Hv0 h)).
Qed.

(** X25.  The events of a creation, scheduled and then cancelled.  When
    the cache or its base holds a record for the sidechain,
    [ScheduleSidechainEvent] for its creation output returns true and a
    reader then finds the sidechain among the maturing ones at the height
    plus SC_COIN_MATURITY and among the ceasing ones at the start of epoch 1
    plus the safeguard margin; [CancelSidechainEvent] for the same output
    then returns true and takes the sidechain out of both, a height where
    nothing is left reading as without events.  So the events read as before
    the two calls when the sidechain had no event at the two heights and the
    reader found there what the slots held.  No sidechain record changes. *)
Theorem Schedule_Cancel_creation `{Externals} `{ChainParams} (scCreationOut : CTxScCreationOut)
    (creationHeight : Z) (c : CCoinsViewCache) (e : CSidechainsCacheEntry) (mh ch : Z) :
  slot_of c (cr_GetScId scCreationOut) = Some e ->
  mh = int32 (creationHeight + SC_COIN_MATURITY) ->
  ch = int32 (StartHeightForEpoch (sidechain e) 1 + SafeguardMargin (sidechain e)) ->
  exists c1 c2,
    ScheduleSidechainEvent_creation scCreationOut creationHeight c = Some (true, c1) /\
    (exists ev, events_view c1 mh = Some ev /\ cr_GetScId scCreationOut ∈ maturingScs ev) /\
    (exists ev, events_view c1 ch = Some ev /\ cr_GetScId scCreationOut ∈ ceasingScs ev) /\
    (forall h, h <> mh -> h <> ch -> events_view c1 h = events_view c h) /\
    CancelSidechainEvent_creation scCreationOut creationHeight c1 = Some (true, c2) /\
    (forall h,
       events_view c2 h
       = if bool_decide (h = mh \/ h = ch)
         then nonnull (at_height ch (without_ceasing (cr_GetScId scCreationOut)) h
                         (at_height mh (without_maturing (cr_GetScId scCreationOut)) h
                            (events_at c h)))
         else events_view c h) /\
    (forall id, sidechain_view c2 id = sidechain_view c id) /\
    (cr_GetScId scCreationOut ∉ maturingScs (events_at c mh) ->
     cr_GetScId scCreationOut ∉ ceasingScs (events_at c ch) ->
     events_view c mh = nonnull (events_at c mh) ->
     events_view c ch = nonnull (events_at c ch) ->
     forall h, events_view c2 h = events_view c h).
Proof.
  intros Hslot -> ->.
  set (scId := cr_GetScId scCreationOut) in *.
  set (mh := int32 (creationHeight + SC_COIN_MATURITY)).
  set (ch := int32 (StartHeightForEpoch (sidechain e) 1 + SafeguardMargin (sidechain e))).
  destruct (AccessSidechain_slot scId c) as (c0 & Hacc0 & Hf0 & Hs0).
  destruct (schedule_creation_events scId mh ch c0) as (c1 & Hrun1 & Hf1 & Hv1).
  destruct (AccessSidechain_slot scId c1) as (c1' & Hacc1 & Hf1' & Hs1').
  assert (slot_of c1 scId = Some e) as Hslot1.
  { by rewrite (proj2 (same_but_events_sidechains _ _ scId Hf1)), Hs0. }
  assert (forall h, events_at c1 h
                    = at_height ch (with_ceasing scId) h
                        (at_height mh (with_maturing scId) h (events_at c h))) as Hat1.
  { intros h. rewrite (proj1 (Hv1 h)). by rewrite (proj2 (same_but_sidechains_events _ _ h Hf0)). }
  assert (forall h, events_view c1 h
                    = if bool_decide (h = mh \/ h = ch) then Some (events_at c1 h)
                      else events_view c h) as Hview1.
  { intros h. rewrite (proj2 (Hv1 h)).
    by rewrite (proj1 (same_but_sidechains_events _ _ h Hf0)). }
  assert (scId ∈ maturingScs (events_at c1 mh)) as Hmat.
  { rewrite Hat1. unfold at_height. decide_heights.
    case_bool_decide; unfold with_ceasing, with_maturing; simpl; set_solver. }
  assert (scId ∈ ceasingScs (events_at c1 ch)) as Hceas.
  { rewrite Hat1. unfold at_height. decide_heights.
    unfold with_ceasing; simpl; set_solver. }
  destruct (cancel_creation_events scId mh ch c1') as (c2 & Hrun2 & Hf2 & Hv2).
  { rewrite (proj1 (same_but_sidechains_events _ _ mh Hf1')), Hview1. by decide_heights. }
  { rewrite (proj1 (same_but_sidechains_events _ _ ch Hf1')), Hview1. by decide_heights. }
  { by rewrite (proj2 (same_but_sidechains_events _ _ ch Hf1')). }
  assert (forall h,
            events_view c2 h
            = if bool_decide (h = mh \/ h = ch)
              then nonnull (at_height ch (without_ceasing scId) h
                              (at_height mh (without_maturing scId) h (events_at c h)))
              else events_view c h) as Hview2.
  { intros h. rewrite Hv2, (proj2 (same_but_sidechains_events _ _ h Hf1')),
      (proj1 (same_but_sidechains_events _ _ h Hf1')), Hat1, Hview1.
    destruct (decide (h = ch)) as [Hhc|Hhc]; destruct (decide (h = mh)) as [Hhm|Hhm];
      unfold at_height; decide_heights; try done.
    - by rewrite with_without_both.
    - by rewrite with_without_ceasing.
    - by rewrite with_without_maturing. }
  exists c1, c2.
  unfold ScheduleSidechainEvent_creation, CancelSidechainEvent_creation. fold scId.
  rewrite (bind_eq _ _ _ _ _ Hacc0), Hslot. simpl. fold mh ch.
  split; [exact Hrun1|].
  split.
  { exists (events_at c1 mh). rewrite Hview1. by decide_heights. }
  split.
  { exists (events_at c1 ch). rewrite Hview1. by decide_heights. }
  split.
  { intros h Hhm Hhc. rewrite Hview1. by decide_heights. }
  rewrite (bind_eq _ _ _ _ _ Hacc1), Hslot1. simpl. fold mh ch.
  split; [exact Hrun2|]. split; [exact Hview2|]. split.
  - intros id. rewrite (proj1 (same_but_events_sidechains _ _ id Hf2)).
    rewrite !sidechain_view_slot_of, Hs1'.
    by rewrite (proj2 (same_but_events_sidechains _ _ id Hf1)), Hs0.
  - intros Hnm Hnc Hcm Hcc h. rewrite Hview2.
    destruct (decide (h = ch)) as [Hhc|Hhc]; destruct (decide (h = mh)) as [Hhm|Hhm];
      unfold at_height; decide_heights; try done.
    + subst h. rewrite Hhm in *. by rewrite without_maturing_id, without_ceasing_id.
    + subst h. by rewrite without_ceasing_id.
    + subst h. by rewrite without_maturing_id.
Qed.

(** ** The ceasing height of a certificate *)

Lemma int32_idem (x : Z) : int32 (int32 x) = int32 x.
Proof.
  unfold int32, wrap_signed.
  replace (((x + 2 ^ (32 - 1)) mod 2 ^ 32 - 2 ^ (32 - 1) + 2 ^ (32 - 1)))
    with ((x + 2 ^ (32 - 1)) mod 2 ^ 32) by lia.
  by rewrite Z.mod_mod by lia.
Qed.

Lemma int32_sub_l (a b : Z) : int32 (int32 a - b) = int32 (a - b).
Proof.
  unfold int32, wrap_signed. f_equal.
  replace ((a + 2 ^ (32 - 1)) mod 2 ^ 32 - 2 ^ (32 - 1) - b + 2 ^ (32 - 1))
    with ((a + 2 ^ (32 - 1)) mod 2 ^ 32 - b) by lia.
  rewrite Zminus_mod_idemp_l. f_equal. lia.
Qed.

(** [ScheduleSidechainEvent(const CScCertificate&)] in the blocks that the
    other event functions are written with. *)
Lemma ScheduleSidechainEvent_cert_blocks `{Externals} (cert : CScCertificate)
    (c : CCoinsViewCache) :
  ScheduleSidechainEvent_cert cert c
  = (pSidechain <- AccessSidechain (cert_GetScId cert) ;;
     match pSidechain with
     | None => ret false
     | Some sc =>
         let curCeasingHeight :=
           int32 (StartHeightForEpoch sc (int32 (epochNumber cert + 1)) + SafeguardMargin sc) in
         let nextCeasingHeight :=
           int32 (curCeasingHeight + withdrawalEpochLength (creationData sc)) in
         have <- HaveSidechainEvents curCeasingHeight ;;
         if have then
           events_erase (without_ceasing (cert_GetScId cert)) curCeasingHeight ;;
           events_insert (with_ceasing (cert_GetScId cert)) nextCeasingHeight ;;
           ret true
         else
           have_next <- HaveSidechainEvents nextCeasingHeight ;;
           if negb have_next then ret false else ret true
     end) c.
Proof.
  unfold ScheduleSidechainEvent_cert, events_erase, events_insert. munfold.
  destruct (AccessSidechain (cert_GetScId cert) c) as [[[sc|] c0]|]; [|done..].
  destruct (HaveSidechainEvents _ c0) as [[[] c1]|]; [| |done].
  - destruct (ModifySidechainEvents _ c1) as [[it1 c2]|]; [|done]. simpl.
    by destruct (ModifySidechainEvents _ _) as [[it2 c3]|].
  - destruct (HaveSidechainEvents _ c1) as [[[] c2]|]; done.
Qed.

(** X26.  The ceasing height of a certificate, moved and moved back.  For
    a sidechain with a record, whose epochs start one withdrawal epoch
    length after each other, and with events at the ceasing height [cur] of
    the epoch of the certificate: [ScheduleSidechainEvent(cert)] returns
    true and moves the sidechain from the ceasing ones at [cur] to those at
    [next], one epoch later; [CancelSidechainEvent(cert)] then returns true,
    takes it out at [next], where a reader finds no events when nothing is
    left, and puts it back at [cur].  The events read as before the two
    calls when the sidechain was ceasing at [cur], was not at [next], and
    the reader found at [next] what the slot held.  No other height and no
    sidechain record changes. *)
Theorem Schedule_Cancel_cert `{Externals} (cert : CScCertificate) (c : CCoinsViewCache)
    (e : CSidechainsCacheEntry) (ev : CSidechainEvents) (cur next : Z) :
  slot_of c (cert_GetScId cert) = Some e ->
  cur = int32 (StartHeightForEpoch (sidechain e) (int32 (epochNumber cert + 1))
               + SafeguardMargin (sidechain e)) ->
  next = int32 (cur + withdrawalEpochLength (creationData (sidechain e))) ->
  int32 (StartHeightForEpoch (sidechain e) (int32 (epochNumber cert + 2))
         + SafeguardMargin (sidechain e)) = next ->
  next <> cur ->
  events_view c cur = Some ev ->
  exists c1 c2,
    ScheduleSidechainEvent_cert cert c = Some (true, c1) /\
    events_view c1 cur = nonnull (without_ceasing (cert_GetScId cert) ev) /\
    events_view c1 next = Some (with_ceasing (cert_GetScId cert) (events_at c next)) /\
    CancelSidechainEvent_cert cert c1 = Some (true, c2) /\
    events_view c2 cur = Some (with_ceasing (cert_GetScId cert) ev) /\
    events_view c2 next = nonnull (without_ceasing (cert_GetScId cert) (events_at c next)) /\
    (forall h, h <> cur -> h <> next -> events_view c2 h = events_view c h) /\
    (forall id, sidechain_view c2 id = sidechain_view c id) /\
    (cert_GetScId cert ∈ ceasingScs ev ->
     cert_GetScId cert ∉ ceasingScs (events_at c next) ->
     events_view c next = nonnull (events_at c next) ->
     forall h, events_view c2 h = events_view c h).
Proof.
  intros Hslot Hcur Hnext Hlinear Hne Hev.
  set (scId := cert_GetScId cert) in *.
  pose proof (events_view_at _ _ _ Hev) as Hat.
  (* schedule *)
  destruct (AccessSidechain_slot scId c) as (c0 & Hacc0 & Hf0 & Hs0).
  destruct (HaveSidechainEvents_view cur c0) as (c0' & Hhave0 & Hf0' & Hv0').
  destruct (events_erase_view (without_ceasing scId) cur c0')
    as (c0'' & Hdel0 & Hf0'' & Hvd0 & Had0 & Hod0).
  destruct (events_insert_view (with_ceasing scId) next c0'')
    as (c1 & Hins0 & Hf1 & Hvi0 & Hai0 & Hoi0).
  assert (forall h, events_view c0' h = events_view c h /\ events_at c0' h = events_at c h)
    as Hsame0.
  { intros h. destruct (Hv0' h) as [-> ->]. apply (same_but_sidechains_events _ _ _ Hf0). }
  assert (events_view c1 cur = nonnull (without_ceasing scId ev)) as Hc1cur.
  { rewrite (proj1 (Hoi0 cur ltac:(done))), Hvd0, (proj2 (Hsame0 cur)). by rewrite Hat. }
  assert (events_at c1 cur = without_ceasing scId ev) as Ha1cur.
  { rewrite (proj2 (Hoi0 cur ltac:(done))), Had0, (proj2 (Hsame0 cur)). by rewrite Hat. }
  assert (events_at c1 next = with_ceasing scId (events_at c next)) as Ha1next.
  { by rewrite Hai0, (proj2 (Hod0 next Hne)), (proj2 (Hsame0 next)). }
  assert (events_view c1 next = Some (with_ceasing scId (events_at c next))) as Hc1next.
  { by rewrite Hvi0, (proj2 (Hod0 next Hne)), (proj2 (Hsame0 next)). }
  assert (forall h, h <> cur -> h <> next ->
            events_view c1 h = events_view c h /\ events_at c1 h = events_at c h) as Hc1oth.
  { intros h H1 H2. destruct (Hoi0 h H2) as [-> ->]. destruct (Hod0 h H1) as [-> ->].
    apply Hsame0. }
  assert (forall id, slot_of c1 id = slot_of c id) as Hslots1.
  { intros id. rewrite (proj2 (same_but_events_sidechains _ _ id Hf1)),
      (proj2 (same_but_events_sidechains _ _ id Hf0'')),
      (proj2 (same_but_events_sidechains _ _ id Hf0')). apply Hs0. }
  (* cancel *)
  destruct (AccessSidechain_slot scId c1) as (c3 & Hacc3 & Hf3 & Hs3).
  destruct (HaveSidechainEvents_view next c3) as (c3' & Hhave3 & Hf3' & Hv3').
  destruct (events_erase_view (without_ceasing scId) next c3')
    as (c3'' & Hdel3 & Hf3'' & Hvd3 & Had3 & Hod3).
  destruct (events_insert_view (with_ceasing scId) cur c3'')
    as (c2 & Hins3 & Hf2 & Hvi3 & Hai3 & Hoi3).
  assert (forall h, events_view c3' h = events_view c1 h /\ events_at c3' h = events_at c1 h)
    as Hsame3.
  { intros h. destruct (Hv3' h) as [-> ->]. apply (same_but_sidechains_events _ _ _ Hf3). }
  assert (events_view c2 cur = Some (with_ceasing scId ev)) as Hc2cur.
  { rewrite Hvi3, (proj2 (Hod3 cur ltac:(done))), (proj2 (Hsame3 cur)), Ha1cur.
    by rewrite without_with_ceasing. }
  assert (events_view c2 next = nonnull (without_ceasing scId (events_at c next))) as Hc2next.
  { rewrite (proj1 (Hoi3 next Hne)), Hvd3, (proj2 (Hsame3 next)), Ha1next.
    by rewrite with_without_ceasing. }
  assert (forall h, h <> cur -> h <> next -> events_view c2 h = events_view c h) as Hc2oth.
  { intros h H1 H2. rewrite (proj1 (Hoi3 h H1)), (proj1 (Hod3 h H2)), (proj1 (Hsame3 h)).
    by apply Hc1oth. }
  assert (int32 (next - withdrawalEpochLength (creationData (sidechain e))) = cur) as Hprev.
  { rewrite Hnext, int32_sub_l.
    replace (cur + withdrawalEpochLength (creationData (sidechain e))
             - withdrawalEpochLength (creationData (sidechain e))) with cur by lia.
    rewrite Hcur. apply int32_idem. }
  exists c1, c2. split.
  { rewrite ScheduleSidechainEvent_cert_blocks. fold scId.
    rewrite (bind_eq _ _ _ _ _ Hacc0), Hslot. simpl. rewrite <- Hcur, <- Hnext.
    rewrite (bind_eq _ _ _ _ _ Hhave0).
    rewrite bool_decide_eq_true_2
      by (rewrite (proj1 (same_but_sidechains_events _ _ _ Hf0)), Hev; by eexists).
    unfold bind at 1. rewrite Hdel0. unfold bind at 1. by rewrite Hins0. }
  split; [done|]. split; [done|]. split.
  { unfold CancelSidechainEvent_cert. fold scId.
    rewrite (bind_eq _ _ _ _ _ Hacc3), Hslots1, Hslot. simpl. rewrite Hlinear, Hprev.
    rewrite (bind_eq _ _ _ _ _ Hhave3).
    rewrite bool_decide_eq_true_2
      by (rewrite (proj1 (same_but_sidechains_events _ _ _ Hf3)), Hc1next; by eexists).
    simpl. unfold bind at 1. rewrite Hdel3. unfold bind at 1. by rewrite Hins3. }
  split; [done|]. split; [done|]. split; [done|]. split.
  - intros id. rewrite !sidechain_view_slot_of.
    rewrite (proj2 (same_but_events_sidechains _ _ id Hf2)),
      (proj2 (same_but_events_sidechains _ _ id Hf3'')),
      (proj2 (same_but_events_sidechains _ _ id Hf3')), Hs3. by rewrite Hslots1.
  - intros Hin Hnin Hclean h.
    destruct (decide (h = cur)) as [->|H1]; [|destruct (decide (h = next)) as [->|H2]].
    + by rewrite Hc2cur, with_ceasing_id, Hev.
    + by rewrite Hc2next, without_ceasing_id.
    + by apply Hc2oth.
Qed.

(** ** Nullifying and restoring backward transfers *)

Lemma same_fields_refl (a : CCoins) : same_fields a a.
Proof. by repeat split. Qed.

Lemma same_fields_trans (a b c : CCoins) : same_fields a b -> same_fields b c -> same_fields a c.
Proof.
  unfold same_fields. intros (-> & -> & -> & -> & ->) (-> & -> & -> & -> & ->). done.
Qed.

Lemma same_fields_sym (a b : CCoins) : same_fields a b -> same_fields b a.
Proof. unfold same_fields. intros (-> & -> & -> & -> & ->). done. Qed.

Lemma undo_at_same_fields `{Externals} (a b : CCoins) (last_one : bool) (o : CTxOut) :
  same_fields a b -> undo_at a last_one o = undo_at b last_one o.
Proof. unfold same_fields, undo_at. intros (-> & -> & -> & -> & ->). done. Qed.

Lemma Cleanup_last_unspent (v : list CTxOut) (b : CTxOut) (n : nat) :
  last v = Some b -> CTxOut_IsNull b = false -> Cleanup_loop n v = v.
Proof.
  intros Hl Hb. rewrite <- (app_nil_r v) at 1.
  destruct n as [|n]; [by rewrite app_nil_r|]. simpl. rewrite app_nil_r, Hl, Hb. done.
Qed.

Lemma drop_S_rest {A : Type} (l : list A) (pos : nat) (o : A) (rest : list A) :
  drop pos l = o :: rest -> drop (S pos) l = rest.
Proof.
  intros Hd. assert (l !! pos = Some o) as Hl.
  { by rewrite <- (Nat.add_0_r pos), <- lookup_drop, Hd. }
  rewrite (drop_S _ _ _ Hl) in Hd. by injection Hd.
Qed.

Lemma small_size_t (x : Z) : 0 <= x < 2 ^ 31 -> size_t_of x = x.
Proof. intros Hx. unfold size_t_of. apply Z.mod_small. lia. Qed.

Lemma small_uint32 (x : Z) : 0 <= x < 2 ^ 31 -> uint32 x = x.
Proof. intros Hx. unfold uint32. apply Z.mod_small. lia. Qed.

Lemma small_int32 (x : Z) : 0 <= x < 2 ^ 31 -> int32 x = x.
Proof.
  intros Hx. unfold int32, wrap_signed. change (2 ^ (32 - 1)) with (2 ^ 31).
  rewrite Z.mod_small; lia.
Qed.

(** The loop of [NullifyBackwardTransfers] from position [pos], when the
    outputs from there on are [bs] and a last one [b] that is unspent: it
    records each of them, leaves none of them unspent, and records the
    fields of the coins with the last when nothing is left. *)
Lemma Nullify_loop_run `{Externals} (bs : list CTxOut) (b : CTxOut) :
  forall (fuel pos : nat) (ck : CCoins) (outs : list CTxInUndo),
    (length bs + 1 <= fuel)%nat ->
    drop pos (vout ck) = bs ++ [b] -> CTxOut_IsNull b = false ->
    Z.of_nat (length (vout ck)) < 2 ^ 31 ->
    exists cf,
      Nullify_loop fuel (Z.of_nat pos) ck outs
      = Some (cf, outs ++ (CTxInUndo_of <$> bs)
                        ++ [undo_at ck (bool_decide (vout cf = [])) b]) /\
      same_fields cf ck /\
      (forall p, unspent_at cf p = if decide (p < pos)%nat then unspent_at ck p else None) /\
      (exists c0, cf = Cleanup c0) /\
      (length (vout cf) <= length (vout ck))%nat.
Proof.
  induction bs as [|o bs IH]; intros fuel pos ck outs Hfuel Hdrop Hb Hlen.
  - destruct fuel as [|fuel]; [simpl in Hfuel; lia|].
    assert (length (vout ck) = S pos) as HL.
    { pose proof (f_equal length Hdrop) as Hl. rewrite length_drop in Hl. simpl in Hl. lia. }
    assert (vout ck !! pos = Some b) as Hlook.
    { rewrite <- (Nat.add_0_r pos), <- lookup_drop, Hdrop. done. }
    cbn [Nullify_loop]. rewrite small_size_t by lia. rewrite Nat2Z.id, Hlook.
    destruct (Z.ltb_spec (Z.of_nat pos) (Z.of_nat (length (vout ck)))) as [_|]; [|lia].
    rewrite small_uint32 by lia.
    pose proof (Spend_length (Z.of_nat pos) ck) as Hsl.
    pose proof (Spend_fields (Z.of_nat pos) ck) as Hsf.
    pose proof (unspent_at_Spend pos) as Hsu.
    pose proof (Spend_fst pos ck) as Hfst.
    assert (IsAvailable (Z.of_nat pos) ck = true) as Hav.
    { rewrite IsAvailable_unspent_at. apply bool_decide_eq_true_2.
      unfold unspent_at. rewrite Hlook, Hb. by eexists. }
    rewrite Hav in Hfst.
    destruct (Spend (Z.of_nat pos) ck) as [ok cf] eqn:Hsp. simpl in *. subst ok.
    destruct (Spend_cleaned _ _ _ Hsp) as (c0 & Hc0).
    exists cf.
    assert (Nullify_loop fuel (int32 (Z.of_nat pos + 1)) cf
              (outs ++ [undo_at ck (bool_decide (vout cf = [])) b])
            = Some (cf, outs ++ [undo_at ck (bool_decide (vout cf = [])) b])) as Hstop.
    { destruct fuel as [|fuel]; [done|]. cbn [Nullify_loop].
      rewrite small_int32 by lia. rewrite small_size_t by lia.
      destruct (Z.ltb_spec (Z.of_nat pos + 1) (Z.of_nat (length (vout cf)))); [lia|done]. }
    split.
    + rewrite <- Hstop. f_equal.
      destruct (decide (vout cf = [])) as [Hemp|Hne].
      * rewrite (bool_decide_eq_true_2 (length (vout cf) = 0%nat)) by (by rewrite Hemp).
        rewrite (bool_decide_eq_true_2 (vout cf = [])) by done.
        rewrite last_snoc, removelast_last. unfold undo_at. simpl.
        destruct Hsf as (-> & -> & -> & -> & ->). done.
      * rewrite (bool_decide_eq_false_2 (length (vout cf) = 0%nat))
          by (by destruct (vout cf)).
        by rewrite (bool_decide_eq_false_2 (vout cf = [])) by done.
    + split; [done|]. split; [|split; [by eexists|done]].
      intros p. specialize (Hsu p ck). rewrite Hsp in Hsu. simpl in Hsu. rewrite Hsu.
      destruct (decide (p = pos)) as [->|Hp]; destruct (decide (_ < _)%nat); try lia; try done.
      unfold unspent_at. rewrite lookup_ge_None_2; [done|lia].
  - destruct fuel as [|fuel]; [simpl in Hfuel; lia|].
    assert (S pos < length (vout ck))%nat as HL.
    { pose proof (f_equal length Hdrop) as Hl. rewrite length_drop in Hl. simpl in Hl.
      rewrite length_app in Hl. simpl in Hl. lia. }
    assert (vout ck !! pos = Some o) as Hlook.
    { rewrite <- (Nat.add_0_r pos), <- lookup_drop, Hdrop. done. }
    assert (last (vout ck) = Some b) as Hlast.
    { rewrite <- (take_drop pos (vout ck)), Hdrop.
      rewrite (app_assoc _ (o :: bs) [b]), last_snoc. done. }
    cbn [Nullify_loop]. rewrite small_size_t by lia. rewrite Nat2Z.id, Hlook.
    destruct (Z.ltb_spec (Z.of_nat pos) (Z.of_nat (length (vout ck)))) as [_|]; [|lia].
    rewrite small_uint32 by lia.
    set (ck' := snd (Spend (Z.of_nat pos) ck)).
    assert (drop (S pos) (vout ck') = bs ++ [b] /\ length (vout ck') = length (vout ck))
      as [Hdrop' HL'].
    { unfold ck', Spend. rewrite Nat2Z.id, Hlook.
      destruct (Z.geb_spec (Z.of_nat pos) (Z.of_nat (length (vout ck)))); [lia|]. simpl.
      destruct (CTxOut_IsNull o); simpl.
      - split; [|done]. by apply (drop_S_rest _ _ o).
      - unfold Cleanup. simpl. rewrite length_insert.
        rewrite (Cleanup_last_unspent _ b); [| |done].
        + rewrite length_insert. split; [|done].
          rewrite drop_insert_lt by lia. by apply (drop_S_rest _ _ o).
        + rewrite last_lookup, length_insert.
          rewrite list_lookup_insert_ne by lia. by rewrite <- last_lookup. }
    pose proof (Spend_fields (Z.of_nat pos) ck) as Hsf. fold ck' in Hsf.
    rewrite (bool_decide_eq_false_2 (length (vout ck') = 0%nat)) by lia.
    rewrite small_int32 by lia.
    replace (Z.of_nat pos + 1) with (Z.of_nat (S pos)) by lia.
    destruct (IH fuel (S pos) ck' (outs ++ [CTxInUndo_of o])) as (cf & Hrun & Hf & Hu & Hc & Hl);
      [simpl in Hfuel; lia|done|done|lia|].
    exists cf. split.
    + rewrite Hrun. rewrite <- app_assoc. simpl.
      by rewrite (undo_at_same_fields ck' ck).
    + split; [by eapply same_fields_trans|]. split; [|split; [done|lia]].
      intros p. rewrite Hu. pose proof (unspent_at_Spend pos p ck) as Hsu. fold ck' in Hsu.
      rewrite Hsu.
      destruct (decide (p = pos)) as [->|Hp]; repeat destruct (decide (_ < _)%nat);
        try lia; done.
Qed.

Lemma unspent_at_lookup (c : CCoins) (p : nat) : unspent_at c p = vout c !! p ≫= unspent.
Proof. unfold unspent_at, unspent. by destruct (vout c !! p). Qed.

Lemma IsPruned_false_kept (ck ck' : CCoins) (q : nat) :
  IsPruned ck = false -> unspent_at ck q = None ->
  (forall p, p <> q -> unspent_at ck' p = unspent_at ck p) ->
  IsPruned ck' = false.
Proof.
  intros Hnp Hq Hsame. destruct (IsPruned ck') eqn:Hp'; [|done].
  assert (IsPruned ck = true) as Hp; [|congruence].
  apply IsPruned_unspent_at. intros p. destruct (decide (p = q)) as [->|Hn]; [done|].
  rewrite <- Hsame by done. by apply IsPruned_unspent_at.
Qed.

(** One turn of the loop of [RestoreBackwardTransfers] at a position that
    holds no unspent output: the output of the undo is put there, the coins
    taking the fields of the undo when it carries them. *)
Lemma Restore_turn_run (idx first : nat) (undo : CTxInUndo) (ck : CCoins) :
  nFirstBwtPos (if negb (undo_nHeight undo =? 0)
                then mkCoins (undo_fCoinBase undo) (vout ck) (undo_nHeight undo)
                       (undo_nVersion undo) (undo_nFirstBwtPos undo)
                       (undo_nBwtMaturityHeight undo)
                else ck) = Z.of_nat first ->
  (undo_nHeight undo = 0 -> IsPruned ck = false) ->
  unspent_at ck (first + idx) = None ->
  Z.of_nat (first + idx) + 1 < 2 ^ 31 -> Z.of_nat (length (vout ck)) < 2 ^ 31 ->
  exists ck',
    Restore_turn idx undo (true, ck) = Some (true, ck') /\
    same_fields ck' (if negb (undo_nHeight undo =? 0)
                     then mkCoins (undo_fCoinBase undo) (vout ck) (undo_nHeight undo)
                            (undo_nVersion undo) (undo_nFirstBwtPos undo)
                            (undo_nBwtMaturityHeight undo)
                     else ck) /\
    (forall p, unspent_at ck' p
               = if decide (p = first + idx)%nat then unspent (undo_txout undo)
                 else unspent_at ck p) /\
    (length (vout ck') <= length (vout ck) `max` (first + idx + 1))%nat.
Proof.
  intros Hfirst Hpruned Hfree Hpos Hlen. unfold Restore_turn.
  set (ck1 := if negb (undo_nHeight undo =? 0) then _ else ck) in *.
  assert (vout ck1 = vout ck) as Hv by (unfold ck1; by destruct (negb _)).
  assert ((if negb (undo_nHeight undo =? 0)
           then (true, mkCoins (undo_fCoinBase undo) (vout ck) (undo_nHeight undo)
                         (undo_nVersion undo) (undo_nFirstBwtPos undo)
                         (undo_nBwtMaturityHeight undo))
           else (if IsPruned ck then false else true, ck)) = (true, ck1)) as ->.
  { unfold ck1. destruct (Z.eqb_spec (undo_nHeight undo) 0) as [Hz|_]; simpl; [|done].
    by rewrite (Hpruned Hz). }
  rewrite Hfirst.
  replace (Z.of_nat first + Z.of_nat idx) with (Z.of_nat (first + idx)) by lia.
  rewrite !small_size_t by lia. rewrite small_uint32 by lia. rewrite Nat2Z.id.
  assert (IsAvailable (Z.of_nat (first + idx)) ck1 = false) as ->.
  { rewrite IsAvailable_unspent_at. apply bool_decide_eq_false_2.
    rewrite unspent_at_lookup, Hv, <- unspent_at_lookup, Hfree. by intros [? ?]. }
  replace (Z.to_nat (Z.of_nat (first + idx) + 1)) with (first + idx + 1)%nat by lia.
  set (v' := vout (if Z.of_nat (length (vout ck1)) <? Z.of_nat (first + idx) + 1
                   then set_vout (resize (first + idx + 1) CTxOut_null (vout ck1)) ck1
                   else ck1)).
  assert ((first + idx < length v')%nat /\
          (length v' <= length (vout ck) `max` (first + idx + 1))%nat /\
          forall p, v' !! p ≫= unspent = vout ck !! p ≫= unspent) as (Hin & Hmax & Hsame).
  { unfold v'. rewrite Hv.
    destruct (Z.ltb_spec (Z.of_nat (length (vout ck))) (Z.of_nat (first + idx) + 1)) as [Hlt|Hge].
    - simpl. rewrite length_resize. split; [lia|]. split; [lia|]. intros p.
      destruct (decide (p < length (vout ck))%nat) as [Hp|Hp].
      + rewrite lookup_resize by lia. done.
      + rewrite (lookup_ge_None_2 (vout ck)) by lia.
        destruct (decide (p < first + idx + 1)%nat).
        * rewrite lookup_resize_new by lia. done.
        * rewrite lookup_resize_old by lia. done.
    - rewrite Hv. split; [lia|]. split; [lia|done]. }
  destruct (lookup_lt_is_Some_2 v' (first + idx) Hin) as [o' Ho'].
  rewrite Ho'. eexists. split; [reflexivity|]. split; [|split].
  - unfold same_fields. simpl.
    by destruct (Z.of_nat (length (vout ck1)) <? Z.of_nat (first + idx) + 1).
  - intros p. rewrite !unspent_at_lookup. simpl.
    destruct (decide (p = first + idx)%nat) as [->|Hp].
    + by rewrite list_lookup_insert_eq.
    + rewrite list_lookup_insert_ne by done. apply Hsame.
  - simpl. by rewrite length_insert.
Qed.

(** The turns of [RestoreBackwardTransfers] for undos without fields, on
    coins that are not pruned and hold no unspent output at the positions
    of the undos. *)
Lemma Restore_loop_run `{Externals} (bs : list CTxOut) (outs_tail : list CTxInUndo)
    (first : nat) :
  forall (k : nat) (ck : CCoins),
    (k <= length bs)%nat ->
    nFirstBwtPos ck = Z.of_nat first -> IsPruned ck = false ->
    (forall i, (i < k)%nat -> unspent_at ck (first + i) = None) ->
    Z.of_nat (first + k) < 2 ^ 31 -> Z.of_nat (length (vout ck)) < 2 ^ 31 ->
    exists cf,
      Restore_loop k ((CTxInUndo_of <$> bs) ++ outs_tail) (true, ck) = Some (true, cf) /\
      same_fields cf ck /\
      (forall p, unspent_at cf p
                 = if decide (first <= p < first + k)%nat then bs !! (p - first)%nat ≫= unspent
                   else unspent_at ck p) /\
      (length (vout cf) <= length (vout ck) `max` (first + k))%nat.
Proof.
  induction k as [|k IH]; intros ck Hk Hfirst Hnp Hfree Hpos Hlen.
  - exists ck. split; [done|]. split; [apply same_fields_refl|]. split; [|lia].
    intros p. destruct (decide _); [lia|done].
  - destruct (lookup_lt_is_Some_2 bs k) as [o Ho]; [lia|].
    cbn [Restore_loop]. rewrite lookup_app_l by (rewrite length_fmap; lia).
    rewrite list_lookup_fmap, Ho.
    replace (CTxInUndo_of <$> Some o) with (Some (CTxInUndo_of o)) by done.
    destruct (Restore_turn_run k first (CTxInUndo_of o) ck) as (ck' & Hturn & Hf & Hu & Hl);
      [done|done|by apply Hfree; lia|lia|done|].
    rewrite Hturn. simpl in Hf.
    destruct (IH ck') as (cf & Hrun & Hf' & Hu' & Hl').
    + lia.
    + destruct Hf as (_ & _ & _ & -> & _). done.
    + apply (IsPruned_false_kept ck ck' (first + k)); [done|apply Hfree; lia|].
      intros p Hp. rewrite Hu. by destruct (decide _).
    + intros i Hi. rewrite Hu. destruct (decide _); [lia|]. apply Hfree. lia.
    + lia.
    + lia.
    + exists cf. split; [done|]. split; [by eapply same_fields_trans|]. split; [|lia].
      intros p. rewrite Hu', Hu. simpl.
      destruct (decide (p = first + k)%nat) as [->|Hp];
        repeat destruct (decide (_ <= _ < _)%nat); try lia; try done.
      replace (first + k - first)%nat with k by lia. by rewrite Ho.
Qed.

(** The undos that [NullifyBackwardTransfers] has recorded, given back to
    the loop of [RestoreBackwardTransfers], on coins that hold what the
    nullifying left: every output is unspent again at its position, and the
    coins have the fields they had. *)
Lemma Restore_after_Nullify `{Externals} (co c0 : CCoins) (pre bs : list CTxOut) (b : CTxOut)
    (last_one : bool) :
  vout co = pre ++ bs ++ [b] -> nFirstBwtPos co = Z.of_nat (length pre) ->
  CTxOut_IsNull b = false -> Z.of_nat (length (vout co)) < 2 ^ 31 ->
  (forall p, unspent_at c0 p = if decide (p < length pre)%nat then unspent_at co p else None) ->
  (length (vout c0) <= length (vout co))%nat ->
  (last_one = false -> same_fields c0 co /\ IsPruned c0 = false) ->
  (last_one = true -> nHeight co <> 0) ->
  exists c1,
    Restore_loop (length ((CTxInUndo_of <$> bs) ++ [undo_at co last_one b]))
      ((CTxInUndo_of <$> bs) ++ [undo_at co last_one b]) (true, c0) = Some (true, c1) /\
    same_fields c1 co /\
    (forall p, unspent_at c1 p = unspent_at co p) /\
    (length (vout c1) <= length (vout co))%nat.
Proof.
  intros Hv Hfirst Hb Hlen Hc0 Hc0len Hplain Hmeta.
  assert (length (vout co) = length pre + length bs + 1)%nat as HL.
  { rewrite Hv, !length_app. simpl. lia. }
  rewrite length_app, length_fmap. simpl. rewrite Nat.add_1_r. cbn [Restore_loop].
  rewrite lookup_app_r by (rewrite length_fmap; lia).
  rewrite length_fmap, Nat.sub_diag.
  replace ([undo_at co last_one b] !! 0%nat) with (Some (undo_at co last_one b)) by done.
  destruct (Restore_turn_run (length bs) (length pre) (undo_at co last_one b) c0)
    as (ck & Hturn & Hf & Hu & Hl).
  { unfold undo_at. destruct last_one; simpl.
    - destruct (Z.eqb_spec (nHeight co) 0) as [Hz|_]; [by destruct (Hmeta eq_refl)|done].
    - destruct (Hplain eq_refl) as [(_ & _ & _ & -> & _) _]. done. }
  { unfold undo_at. destruct last_one; simpl; [by intros Hz; destruct (Hmeta eq_refl)|].
    intros _. by destruct (Hplain eq_refl). }
  { rewrite Hc0. destruct (decide _); [lia|done]. }
  { lia. }
  { lia. }
  rewrite Hturn.
  assert (same_fields ck co) as Hfck.
  { eapply same_fields_trans; [exact Hf|]. unfold undo_at. destruct last_one; simpl.
    - destruct (Z.eqb_spec (nHeight co) 0) as [Hz|_]; [by destruct (Hmeta eq_refl)|].
      simpl. by repeat split.
    - by destruct (Hplain eq_refl). }
  assert (undo_txout (undo_at co last_one b) = b) as Htx by (unfold undo_at; by destruct last_one).
  rewrite Htx in Hu.
  destruct (Restore_loop_run bs [undo_at co last_one b] (length pre) (length bs) ck)
    as (c1 & Hrun & Hf1 & Hu1 & Hl1).
  { done. }
  { destruct Hfck as (_ & _ & _ & -> & _). done. }
  { destruct (IsPruned ck) eqn:Hp; [|done].
    pose proof (proj1 (IsPruned_unspent_at ck) Hp (length pre + length bs)%nat) as Hnone.
    rewrite Hu in Hnone. destruct (decide _); [|done]. unfold unspent in Hnone.
    by rewrite Hb in Hnone. }
  { intros i Hi. rewrite Hu. destruct (decide _); [lia|]. rewrite Hc0.
    destruct (decide _); [lia|done]. }
  { lia. }
  { lia. }
  exists c1. split; [done|]. split; [by eapply same_fields_trans|]. split; [|lia].
  intros p. rewrite Hu1, Hu, Hc0, (unspent_at_lookup co), Hv.
  destruct (decide (length pre <= p < length pre + length bs)%nat) as [Hin|Hout].
  - rewrite lookup_app_r by lia. rewrite lookup_app_l by lia. done.
  - destruct (decide (p = length pre + length bs)%nat) as [->|Hp].
    + rewrite lookup_app_r by lia. rewrite lookup_app_r by lia.
      replace (length pre + length bs - length pre - length bs)%nat with 0%nat by lia. done.
    + destruct (decide (p < length pre)%nat) as [Hlt|Hge]; [done|].
      rewrite lookup_ge_None_2; [done|]. rewrite !length_app. simpl. lia.
Qed.

(** ** The modifier around a loop *)

Lemma ModifyCoins_run `{Externals} (txid : uint256) (c : CCoinsViewCache) :
  hasModifier c = false ->
  exists e,
    ModifyCoins txid c
    = Some (mkModifier txid,
            set_hasModifier true (set_cacheCoins (<[txid := e]> (cacheCoins c)) c)) /\
    coins e = default CCoins_default (coins_view c txid) /\
    (forall e0, cacheCoins c !! txid = Some e0 ->
       flags e = Z.lor (flags e0) CCoinsCacheEntry.DIRTY) /\
    (coins_view c txid = None ->
     flags e = Z.lor CCoinsCacheEntry.FRESH CCoinsCacheEntry.DIRTY).
Proof.
  intros Hm. unfold ModifyCoins, CCoinsModifier_ctor, coins_view. munfold. rewrite Hm. simpl.
  rewrite Hm. simpl. eexists. split; [reflexivity|].
  destruct (cacheCoins c !! txid) as [e0|].
  - simpl. split; [done|]. split; [by intros ? [= <-]|done].
  - destruct (base_GetCoins (base c) txid) as [co|]; simpl; by repeat split.
Qed.

Lemma modifier_finish {A : Type} (txid : uint256) (co : CCoins) (a : A) (c : CCoinsViewCache)
    (e : CCoinsCacheEntry) :
  hasModifier c = true -> cacheCoins c !! txid = Some e ->
  (Modifier_apply (mkModifier txid) (fun _ => co) ;;
   CCoinsModifier_dtor (mkModifier txid) ;;
   ret a) c
  = Some (a, set_hasModifier false
               (set_cacheCoins
                  (if has_flag (flags e) CCoinsCacheEntry.FRESH && IsPruned (Cleanup co)
                   then delete txid (cacheCoins c)
                   else <[txid := mkCoinsEntry (Cleanup co) (flags e)]> (cacheCoins c)) c)).
Proof.
  intros Hm He. unfold Modifier_apply, CCoinsModifier_dtor. munfold. simpl. rewrite He. simpl.
  rewrite Hm. simpl. rewrite lookup_insert_eq. simpl. rewrite lookup_insert_eq. simpl.
  destruct (has_flag (flags e) CCoinsCacheEntry.FRESH && IsPruned (Cleanup co)); simpl.
  - unfold set_hasModifier, set_cacheCoins. simpl. do 3 f_equal.
    by rewrite !delete_insert_eq.
  - unfold set_hasModifier, set_cacheCoins. simpl. do 3 f_equal.
    by rewrite !insert_insert_eq.
Qed.

Lemma Cleanup_same_fields (co : CCoins) : same_fields (Cleanup co) co.
Proof. by repeat split. Qed.

Lemma cleaned_pruned_empty (co c0 : CCoins) :
  co = Cleanup c0 -> IsPruned co = bool_decide (vout co = []).
Proof.
  intros ->. pose proof (Cleanup_pruned_iff_empty c0) as Hiff.
  destruct (IsPruned (Cleanup c0)) eqn:Hp.
  - symmetry. apply bool_decide_eq_true_2. by apply Hiff.
  - symmetry. apply bool_decide_eq_false_2. intros Hemp. apply Hiff in Hemp. congruence.
Qed.

Lemma split_last_output (v : list CTxOut) (first : nat) (b : CTxOut) :
  (first < length v)%nat -> last v = Some b ->
  exists bs, v = take first v ++ bs ++ [b].
Proof.
  intros Hf Hl. destruct (exists_last (l := drop first v)) as (bs & x & Hd).
  { intros Hnil. pose proof (f_equal length Hnil) as Hlen. rewrite length_drop in Hlen.
    simpl in Hlen. lia. }
  exists bs. rewrite <- (take_drop first v) in Hl. rewrite Hd in Hl.
  rewrite app_assoc, last_snoc in Hl. injection Hl as ->.
  by rewrite <- Hd, take_drop.
Qed.

(** X27.  The backward transfers of a certificate, nullified and restored.
    For coins of the cache that have backward transfers (outputs from
    [nFirstBwtPos] on, the last of them unspent), a maturity height and a
    height that are not 0, and fewer than 2^31 outputs,
    [NullifyBackwardTransfers] returns with one undo for each output from
    [nFirstBwtPos] on and leaves none of these outputs unspent;
    [RestoreBackwardTransfers] with these undos then returns true, and the
    coins hold again every unspent output at its position and the fields they
    had, also when the nullifying had left them pruned and their FRESH slot
    had been erased.  The coins of other transactions are not touched. *)
Theorem RestoreBackwardTransfers_undoes_Nullify `{Externals} (certHash : uint256)
    (c : CCoinsViewCache) (e : CCoinsCacheEntry) (b : CTxOut) :
  hasModifier c = false ->
  uint256_IsNull certHash = false ->
  cacheCoins c !! certHash = Some e ->
  (has_flag (flags e) CCoinsCacheEntry.FRESH = true -> base_GetCoins (base c) certHash = None) ->
  nBwtMaturityHeight (coins e) <> 0 -> nHeight (coins e) <> 0 ->
  0 <= nFirstBwtPos (coins e) < Z.of_nat (length (vout (coins e))) ->
  Z.of_nat (length (vout (coins e))) < 2 ^ 31 ->
  last (vout (coins e)) = Some b -> CTxOut_IsNull b = false ->
  exists outs c1 c2 co2,
    NullifyBackwardTransfers certHash [] c = Some (outs, c1) /\
    Z.of_nat (length outs) = Z.of_nat (length (vout (coins e))) - nFirstBwtPos (coins e) /\
    (forall p : nat, nFirstBwtPos (coins e) <= Z.of_nat p ->
       coins_view c1 certHash ≫= (fun co => unspent_at co p) = None) /\
    RestoreBackwardTransfers certHash outs c1 = Some (true, c2) /\
    coins_view c2 certHash = Some co2 /\
    same_fields co2 (coins e) /\
    (forall p, unspent_at co2 p = unspent_at (coins e) p) /\
    (forall txid, txid <> certHash -> coins_view c2 txid = coins_view c txid) /\
    hasModifier c2 = false.
Proof.
  intros Hm Hnull He Hfresh Hmat Hheight [Hf0 Hf1] Hlen Hlast Hb.
  set (co := coins e) in *. set (first := Z.to_nat (nFirstBwtPos co)).
  destruct (split_last_output (vout co) first b) as (bs & Hv); [lia|done|].
  remember (take first (vout co)) as pre eqn:Hpredef.
  assert (length pre = first) as Hpre by (rewrite Hpredef, length_take; lia).
  clear Hpredef.
  assert (nFirstBwtPos co = Z.of_nat (length pre)) as Hfirst by lia.
  (* the nullifying *)
  destruct (Nullify_loop_run bs b (length (vout co)) first co [])
    as (cf & Hloop & Hff & Hfu & (cc & Hfc) & Hfl).
  { rewrite Hv, !length_app. simpl. lia. }
  { rewrite Hv. by rewrite drop_app_length'. }
  { done. }
  { done. }
  replace (Z.of_nat first) with (nFirstBwtPos co) in Hloop by lia.
  set (last_one := bool_decide (vout cf = [])) in *.
  set (outs := (CTxInUndo_of <$> bs) ++ [undo_at co last_one b]) in *.
  assert (HaveCoins certHash c = Some (true, c)) as Hhave.
  { unfold HaveCoins, FetchCoins. munfold. rewrite He. simpl.
    rewrite bool_decide_eq_false_2; [done|]. fold co. rewrite Hv. by destruct pre, bs. }
  destruct (ModifyCoins_run certHash c Hm) as (em & Hmod & Hemc & Hemf & _).
  specialize (Hemf e He). unfold coins_view in Hemc. rewrite He in Hemc. simpl in Hemc.
  set (cm := set_hasModifier true (set_cacheCoins (<[certHash := em]> (cacheCoins c)) c)) in *.
  assert (cacheCoins cm !! certHash = Some em) as Hcm by (simpl; by rewrite lookup_insert_eq).
  set (c1 := set_hasModifier false
               (set_cacheCoins
                  (if has_flag (flags em) CCoinsCacheEntry.FRESH && IsPruned (Cleanup cf)
                   then delete certHash (cacheCoins cm)
                   else <[certHash := mkCoinsEntry (Cleanup cf) (flags em)]> (cacheCoins cm))
                  cm)).
  assert (NullifyBackwardTransfers certHash [] c = Some (outs, c1)) as Hnullify.
  { unfold NullifyBackwardTransfers. rewrite Hnull.
    rewrite (bind_eq _ _ _ _ _ Hhave). cbn [negb]. rewrite (bind_eq _ _ _ _ _ Hmod).
    cbn [it]. unfold deref_coins at 1. unfold bind at 1. rewrite Hcm.
    rewrite Hemc. fold co. unfold cpp_assert at 1. unfold bind at 1.
    destruct (Z.eqb_spec (nBwtMaturityHeight co) 0) as [|_]; [done|]. cbn [negb].
    rewrite Hloop. apply (modifier_finish certHash cf outs cm em); [done|exact Hcm]. }
  assert (Cleanup cf = cf) as Hclean by (rewrite Hfc; apply Cleanup_idempotent).
  assert (IsPruned cf = last_one) as Hpruned by (by apply (cleaned_pruned_empty cf cc)).
  assert (has_flag (flags em) CCoinsCacheEntry.FRESH = has_flag (flags e) CCoinsCacheEntry.FRESH)
    as Hfr by (rewrite Hemf; apply has_flag_lor_DIRTY_FRESH).
  (* the coins that the restoring finds *)
  assert (hasModifier c1 = false) as Hm1 by done.
  destruct (ModifyCoins_run certHash c1 Hm1) as (er & Hmodr & Herc & _ & _).
  set (c0 := coins er).
  assert ((forall p, unspent_at c0 p
                     = if decide (p < length pre)%nat then unspent_at co p else None) /\
          (length (vout c0) <= length (vout co))%nat /\
          (last_one = false -> same_fields c0 co /\ IsPruned c0 = false) /\
          coins_view c1 certHash = (if has_flag (flags e) CCoinsCacheEntry.FRESH && last_one
                                    then None else Some cf)) as (Hc0u & Hc0l & Hc0f & Hview1).
  { unfold c0. rewrite Herc. unfold coins_view, c1. simpl.
    rewrite Hclean, Hpruned, Hfr.
    destruct (has_flag (flags e) CCoinsCacheEntry.FRESH) eqn:Hfre; destruct last_one eqn:Hlo;
      simpl; rewrite ?lookup_delete_eq, ?lookup_insert_eq; simpl.
    - rewrite (Hfresh eq_refl). simpl. split; [|split; [lia|split; [done|done]]].
      intros p. destruct (decide _); [|done].
      pose proof (proj1 (IsPruned_unspent_at cf) Hpruned p) as Hnone.
      rewrite Hfu in Hnone. destruct (decide (p < first)%nat); [|lia]. by rewrite Hnone.
    - split; [by rewrite Hpre|]. split; [done|]. split; [|done]. by intros _.
    - split; [by rewrite Hpre|]. split; [done|]. split; [done|done].
    - split; [by rewrite Hpre|]. split; [done|]. split; [|done]. by intros _. }
  destruct (Restore_after_Nullify co c0 pre bs b last_one) as (cr & Hrest & Hrf & Hru & Hrl);
    [done|done|done|done|done|done|done|by intros _|].
  fold outs in Hrest.
  set (cmr := set_hasModifier true (set_cacheCoins (<[certHash := er]> (cacheCoins c1)) c1)) in *.
  assert (cacheCoins cmr !! certHash = Some er) as Hcmr by (simpl; by rewrite lookup_insert_eq).
  assert (IsPruned (Cleanup cr) = false) as Hrp.
  { destruct (IsPruned (Cleanup cr)) eqn:Hp; [|done].
    pose proof (proj1 (IsPruned_unspent_at _) Hp (Init.Nat.pred (length (vout co)))) as Hnone.
    rewrite unspent_at_Cleanup, Hru, unspent_at_lookup, <- last_lookup in Hnone.
    rewrite Hlast in Hnone. simpl in Hnone. unfold unspent in Hnone. by rewrite Hb in Hnone. }
  exists outs, c1.
  eexists (set_hasModifier false
             (set_cacheCoins (<[certHash := mkCoinsEntry (Cleanup cr) (flags er)]>
                                (cacheCoins cmr)) cmr)), (Cleanup cr).
  split; [exact Hnullify|]. split.
  { unfold outs. rewrite length_app, length_fmap. simpl.
    pose proof (f_equal length Hv) as HL. rewrite !length_app in HL. simpl in HL. lia. }
  split.
  { intros p Hp. rewrite Hview1.
    destruct (has_flag (flags e) CCoinsCacheEntry.FRESH && last_one); [done|]. simpl.
    rewrite Hfu.
    destruct (decide _); [lia|done]. }
  split.
  { unfold RestoreBackwardTransfers. rewrite (bind_eq _ _ _ _ _ Hmodr). cbn [it].
    unfold deref_coins at 1. unfold bind at 1. rewrite Hcmr. fold c0. rewrite Hrest.
    rewrite (modifier_finish certHash cr true cmr er); [|done|exact Hcmr].
    by rewrite Hrp, andb_false_r. }
  split; [unfold coins_view; simpl; by rewrite lookup_insert_eq|].
  split; [eapply same_fields_trans; [apply Cleanup_same_fields|done]|].
  split; [intros p; by rewrite unspent_at_Cleanup|].
  split; [|done].
  intros txid Hne. unfold coins_view. simpl.
  rewrite !(lookup_insert_ne _ certHash txid) by done.
  destruct (_ && _).
  - rewrite lookup_delete_ne by done. by rewrite lookup_insert_ne.
  - by rewrite !(lookup_insert_ne _ certHash txid).
Qed.

(** ** The events of a height, handled and reverted *)

Lemma unmatured_matured (height : Z) (amount : CAmount) (sc : CSidechain) :
  mImmatureAmounts sc !! height = Some amount ->
  in_int64 (balance sc + amount) -> in_int64 amount -> in_int64 (balance sc) ->
  unmatured height amount (matured height amount sc) = sc.
Proof.
  intros Himm Hsum Ha Hb.
  destruct sc as [cbh cbH cth ep hsh q bw dh pdh bal cd imm st].
  unfold unmatured, matured, add_immature, set_balance, set_mImmatureAmounts. simpl in *.
  rewrite lookup_delete_eq. simpl. rewrite Z.add_0_l, (int64_in_range amount) by done.
  rewrite insert_delete_eq, insert_id by done.
  rewrite (int64_in_range (bal + amount)) by done. f_equal.
  replace (bal + amount - amount) with bal by lia. by apply int64_in_range.
Qed.

Lemma has_flag_land (f bit : Z) : has_flag f bit = negb (Z.land f bit =? 0).
Proof. done. Qed.

Lemma has_flag_lor_other (f a b : Z) :
  Z.land a b = 0 -> has_flag (Z.lor f a) b = has_flag f b.
Proof.
  intros Hab. unfold has_flag. rewrite Z.land_lor_distr_l, Hab. by rewrite Z.lor_0_r.
Qed.

Lemma RevertSidechainEvents_maturing_skip `{Externals} (height : Z) (scId : uint256)
    (d : CSidechainUndoData) (recreated : CSidechainEvents) (c : CCoinsViewCache) :
  has_flag (contentBitMask d) MATURED_AMOUNTS = false ->
  RevertSidechainEvents_maturing height scId d recreated c = Some (Some recreated, c).
Proof.
  unfold RevertSidechainEvents_maturing, has_flag. intros Hf%negb_false_iff. by rewrite Hf.
Qed.

Lemma RevertSidechainEvents_maturing_gives_back `{Externals} (height : Z) (scId : uint256)
    (d : CSidechainUndoData) (recreated : CSidechainEvents) (c : CCoinsViewCache)
    (sc : CSidechain) :
  has_flag (contentBitMask d) MATURED_AMOUNTS = true ->
  sidechain_view c scId = Some sc ->
  0 < appliedMaturedAmount d <= balance sc ->
  exists c',
    RevertSidechainEvents_maturing height scId d recreated c
    = Some (Some (with_maturing scId recreated), c') /\
    same_but_sidechains c c' /\
    sidechain_view c' scId = Some (unmatured height (appliedMaturedAmount d) sc) /\
    forall id, id <> scId -> sidechain_view c' id = sidechain_view c id.
Proof.
  intros Hbit Hview [Hpos Hle].
  destruct (GetSidechain_view scId c) as (c0 & _ & Hhave & Hsame & Hviews & Hslot).
  destruct (Hslot sc Hview) as (e & He & Hsc).
  unfold RevertSidechainEvents_maturing, has_flag in *.
  apply negb_true_iff in Hbit. rewrite Hbit. munfold.
  rewrite Hhave, Hview. simpl. rewrite (ModifySidechain_present _ _ _ He), Hsc.
  destruct (Z.gtb_spec (appliedMaturedAmount d) 0) as [_|]; [|lia].
  destruct (Z.ltb_spec (balance sc) (appliedMaturedAmount d)) as [|_]; [lia|]. simpl.
  eexists. split; [done|]. split; [|split].
  - unfold same_but_sidechains in *. simpl. tauto.
  - unfold sidechain_view. simpl. by rewrite lookup_insert_eq.
  - intros id Hne. rewrite <- Hviews. unfold sidechain_view. simpl.
    by rewrite lookup_insert_ne.
Qed.

(** The first loop of [RevertSidechainEvents] over entries that either
    record no matured amount or record a positive one that the balance of
    their sidechain covers. *)
Lemma RevertSidechainEvents_maturing_loop_spec `{Externals} (height : Z)
    (l : list (uint256 * CSidechainUndoData)) :
  forall (recreated : CSidechainEvents) (c : CCoinsViewCache),
    NoDup l.*1 ->
    (forall id d, (id, d) ∈ l -> has_flag (contentBitMask d) MATURED_AMOUNTS = true ->
       exists sc, sidechain_view c id = Some sc /\ 0 < appliedMaturedAmount d <= balance sc) ->
    exists recreated' c',
      RevertSidechainEvents_maturing_loop height l recreated c = Some (Some recreated', c') /\
      same_but_sidechains c c' /\
      ceasingScs recreated' = ceasingScs recreated /\
      (forall id, id ∈ maturingScs recreated' <->
         id ∈ maturingScs recreated \/
         exists d, (id, d) ∈ l /\ has_flag (contentBitMask d) MATURED_AMOUNTS = true) /\
      (forall id d, (id, d) ∈ l -> has_flag (contentBitMask d) MATURED_AMOUNTS = true ->
         sidechain_view c' id = unmatured height (appliedMaturedAmount d) <$> sidechain_view c id) /\
      (forall id, (forall d, (id, d) ∈ l -> has_flag (contentBitMask d) MATURED_AMOUNTS = false) ->
         sidechain_view c' id = sidechain_view c id).
Proof.
  induction l as [|[id d] l IH]; intros recreated c Hnd Hpre.
  - exists recreated, c. split; [done|]. split; [apply same_but_sidechains_refl|].
    split; [done|]. split; [|split].
    + intros id. split; [by left|]. intros [?|(d & Hin & _)]; [done|].
      by apply elem_of_nil in Hin.
    + intros id d Hin. by apply elem_of_nil in Hin.
    + done.
  - rewrite fmap_cons in Hnd. apply NoDup_cons in Hnd as [Hni Hnd]. simpl in Hni.
    assert (forall d', (id, d') ∉ l) as Hnotin.
    { intros d' Hin. apply Hni. apply list_elem_of_fmap. by exists (id, d'). }
    cbn [RevertSidechainEvents_maturing_loop].
    destruct (has_flag (contentBitMask d) MATURED_AMOUNTS) eqn:Hbit.
    + destruct (Hpre id d (list_elem_of_here _ _) Hbit) as (sc & Hview & Hamount).
      destruct (RevertSidechainEvents_maturing_gives_back height id d recreated c sc Hbit
                  Hview Hamount) as (c1 & Hstep & Hsame1 & Hv1 & Hoth1).
      destruct (IH (with_maturing id recreated) c1 Hnd)
        as (rec' & c' & Hloop & Hsame' & Hceas & Hmat & Hin' & Hout').
      { intros id' d' Hin Hb'. assert (id' <> id) as Hne.
        { intros ->. by apply (Hnotin d'). }
        rewrite Hoth1 by done. apply (Hpre id' d'); [by apply list_elem_of_further|done]. }
      exists rec', c'. rewrite (bind_eq _ _ _ _ _ Hstep).
      split; [done|]. split; [by eapply same_but_sidechains_trans|]. split; [done|].
      split; [|split].
      * intros id'. rewrite Hmat. unfold with_maturing. simpl. split.
        -- intros [Hin|(d' & Hin & Hb')].
           ++ apply elem_of_union in Hin as [->%elem_of_singleton|Hin]; [|by left].
              right. exists d. split; [apply list_elem_of_here|done].
           ++ right. exists d'. split; [by apply list_elem_of_further|done].
        -- intros [Hin|(d' & Hin & Hb')].
           ++ left. set_solver.
           ++ apply elem_of_cons in Hin as [[= -> ->]|Hin]; [left; set_solver|].
              right. by exists d'.
      * intros id' d' Hin Hb'. apply elem_of_cons in Hin as [[= -> ->]|Hin].
        -- rewrite Hout'; [by rewrite Hv1, Hview|].
           intros d'' Hin''. by destruct (Hnotin d'').
        -- assert (id' <> id) as Hne by (intros ->; by apply (Hnotin d')).
           rewrite (Hin' id' d' Hin Hb'). by rewrite Hoth1.
      * intros id' Hall. assert (id' <> id) as Hne.
        { intros ->. specialize (Hall d (list_elem_of_here _ _)). congruence. }
        rewrite Hout'; [by apply Hoth1|].
        intros d' Hin. apply Hall. by apply list_elem_of_further.
    + rewrite (bind_eq _ _ _ _ _
                 (RevertSidechainEvents_maturing_skip height id d recreated c Hbit)).
      destruct (IH recreated c Hnd) as (rec' & c' & Hloop & Hsame' & Hceas & Hmat & Hin' & Hout').
      { intros id' d' Hin Hb'. apply (Hpre id' d'); [by apply list_elem_of_further|done]. }
      exists rec', c'. split; [done|]. split; [done|]. split; [done|]. split; [|split].
      * intros id'. rewrite Hmat. split.
        -- intros [Hin|(d' & Hin & Hb')]; [by left|].
           right. exists d'. split; [by apply list_elem_of_further|done].
        -- intros [Hin|(d' & Hin & Hb')]; [by left|].
           apply elem_of_cons in Hin as [[= -> ->]|Hin]; [congruence|].
           right. by exists d'.
      * intros id' d' Hin Hb'. apply elem_of_cons in Hin as [[= -> ->]|Hin]; [congruence|].
        by apply (Hin' id' d').
      * intros id' Hall. apply Hout'. intros d' Hin. apply Hall.
        by apply list_elem_of_further.
Qed.

Lemma RevertSidechainEvents_ceasing_loop_skip `{Externals}
    (l : list (uint256 * CSidechainUndoData))
    (st : CSidechainEvents * option (list CScCertificateStatusUpdateInfo))
    (c : CCoinsViewCache) :
  (forall id d, (id, d) ∈ l -> has_flag (contentBitMask d) CEASED_CERT_DATA = false) ->
  RevertSidechainEvents_ceasing_loop l st c = Some ((true, st), c).
Proof.
  induction l as [|[id d] l IH]; intros Hall; [done|].
  cbn [RevertSidechainEvents_ceasing_loop].
  assert (RevertSidechainEvents_ceasing id d st c = Some ((true, st), c)) as Hstep.
  { unfold RevertSidechainEvents_ceasing. destruct st as [recreated info].
    pose proof (Hall id d (list_elem_of_here _ _)) as Hbit. unfold has_flag in Hbit.
    apply negb_false_iff in Hbit. by rewrite Hbit. }
  rewrite (bind_eq _ _ _ _ _ Hstep). simpl. apply IH.
  intros id' d' Hin. apply (Hall id' d'). by apply list_elem_of_further.
Qed.

Lemma GetSidechainEvents_view (height : Z) (c : CCoinsViewCache) :
  exists c0,
    GetSidechainEvents height c = Some (events_view c height, c0) /\
    same_but_events c c0 /\
    forall h, events_view c0 h = events_view c h /\ events_at c0 h = events_at c h.
Proof.
  unfold GetSidechainEvents, FetchSidechainEvents, events_view, events_at. munfold.
  destruct (cacheSidechainEvents c !! height) as [e|] eqn:He.
  - exists c. split; [by case_bool_decide|]. split; [apply same_but_events_refl|done].
  - destruct (base_GetSidechainEvents (base c) height) as [tmp|] eqn:Hb.
    + eexists. split; [done|]. split; [by repeat split|]. intros h. simpl.
      destruct (decide (h = height)) as [->|Hn].
      * by rewrite lookup_insert_eq, He, Hb.
      * by rewrite lookup_insert_ne.
    + exists c. split; [done|]. split; [apply same_but_events_refl|done].
Qed.

Lemma scUndo_at_lookup `{Externals} (u : CBlockUndo) (id : uint256) (d : CSidechainUndoData) :
  scUndoDatabyScId u !! id = Some d -> scUndo_at id u = d.
Proof. unfold scUndo_at. by intros ->. Qed.

Lemma scUndo_at_flagged `{Externals} (u : CBlockUndo) (id : uint256) (bit : Z) :
  has_flag (contentBitMask (scUndo_at id u)) bit = true ->
  scUndoDatabyScId u !! id = Some (scUndo_at id u).
Proof.
  unfold scUndo_at. destruct (scUndoDatabyScId u !! id) as [d|]; [done|]. simpl.
  by rewrite has_flag_0.
Qed.

(** X28.  The amounts that mature at a height, matured and given back.
    At a height whose events hold maturing sidechains only, each with a
    positive immature amount for the height, a balance that is not negative
    and a sum below 2^63, and with undo data that record no matured amount
    and no ceasing yet: [HandleSidechainEvents] returns true and a reader
    finds no events at the height afterwards; [RevertSidechainEvents] with
    the undo data it has written then returns true, and every sidechain and
    the events of every height read as before the two calls. *)
Theorem RevertSidechainEvents_undoes_maturing `{Externals} (height : Z)
    (blockUndo : CBlockUndo) (pCertsStateInfo : option (list CScCertificateStatusUpdateInfo))
    (c : CCoinsViewCache) (ev : CSidechainEvents) :
  events_view c height = Some ev ->
  ceasingScs ev = ∅ -> maturingScs ev <> ∅ ->
  Z.land MATURED_AMOUNTS CEASED_CERT_DATA = 0 ->
  (forall id,
     has_flag (contentBitMask (scUndo_at id blockUndo)) MATURED_AMOUNTS = false /\
     has_flag (contentBitMask (scUndo_at id blockUndo)) CEASED_CERT_DATA = false) ->
  (forall id, id ∈ maturingScs ev ->
     exists sc amount,
       sidechain_view c id = Some sc /\ mImmatureAmounts sc !! height = Some amount /\
       0 < amount /\ 0 <= balance sc /\ balance sc + amount < 2 ^ 63) ->
  exists blockUndo' c' c'',
    HandleSidechainEvents height blockUndo pCertsStateInfo c
    = Some ((true, blockUndo', pCertsStateInfo), c') /\
    events_view c' height = None /\
    RevertSidechainEvents blockUndo' height pCertsStateInfo c'
    = Some ((true, pCertsStateInfo), c'') /\
    (forall id, sidechain_view c'' id = sidechain_view c id) /\
    (forall h, events_view c'' h = events_view c h).
Proof.
  intros Hev Hceas Hmat_ne Hbits Hclean Hpre.
  destruct (GetSidechainEvents_view height c) as (c0 & Hget & _ & Hevs0).
  rewrite Hev in Hget.
  destruct (GetSidechainEvents_slot _ _ _ _ Hget)
    as (Hhave & Hget0 & (e0 & He0 & Hev0) & Hb0 & Hm0 & Hc0 & Hs0).
  assert (forall id, sidechain_view c0 id = sidechain_view c id) as Hv0.
  { intros id. unfold sidechain_view. by rewrite Hs0, Hb0. }
  destruct (HandleSidechainEvents_maturing_loop_spec height (elements (maturingScs ev))
              blockUndo c0) as (u1 & c1 & Hloop1 & Hsame1 & Hin1 & Hout1).
  { apply NoDup_elements. }
  { intros id Hin. rewrite Hv0. apply elem_of_elements in Hin.
    destruct (Hpre id Hin) as (sc & amount & ? & ? & _). by exists sc, amount. }
  pose proof Hsame1 as (Hb1 & Hm1 & Hc1 & He1).
  set (c' := set_cacheSidechainEvents
               (<[height := mkEvEntry (scEvents e0) ERASED]> (cacheSidechainEvents c1)) c1).
  assert (HandleSidechainEvents height blockUndo pCertsStateInfo c
          = Some ((true, u1, pCertsStateInfo), c')) as Hhandle.
  { unfold HandleSidechainEvents. munfold. rewrite Hhave. simpl. rewrite Hget0. simpl.
    rewrite Hloop1, Hceas, elements_empty. simpl.
    unfold ModifySidechainEvents. by rewrite He1, He0. }
  assert (forall id, sidechain_view c' id = sidechain_view c1 id) as Hv'.
  { intros id. done. }
  (* what the undo data hold *)
  assert (forall id d, scUndoDatabyScId u1 !! id = Some d ->
            has_flag (contentBitMask d) CEASED_CERT_DATA = false /\
            (has_flag (contentBitMask d) MATURED_AMOUNTS = true ->
             id ∈ maturingScs ev /\
             exists sc amount,
               sidechain_view c id = Some sc /\ mImmatureAmounts sc !! height = Some amount /\
               0 < amount /\ 0 <= balance sc /\ balance sc + amount < 2 ^ 63 /\
               appliedMaturedAmount d = amount /\
               sidechain_view c' id = Some (matured height amount sc))) as Hentries.
  { intros id d Hd. apply scUndo_at_lookup in Hd.
    destruct (decide (id ∈ maturingScs ev)) as [Hin|Hnin].
    - destruct (Hpre id Hin) as (sc & amount & Hview & Himm & Ha & Hbal & Hsum).
      destruct (Hin1 id sc amount) as [Hv1 Hu1];
        [by apply elem_of_elements|by rewrite Hv0|done|].
      rewrite Hd in Hu1. clear Hd. subst d. split.
      + unfold matured_undo, set_contentBitMask. cbn [contentBitMask].
        rewrite has_flag_lor_other by done. apply Hclean.
      + intros _. split; [done|]. exists sc, amount. by rewrite Hv'.
    - destruct (Hout1 id) as [_ Hu1]; [by rewrite elem_of_elements|].
      rewrite Hd in Hu1. clear Hd. subst d. destruct (Hclean id) as [Hnm Hnc].
      split; [done|]. congruence. }
  assert (forall id, id ∈ maturingScs ev ->
            exists d, scUndoDatabyScId u1 !! id = Some d /\
                      has_flag (contentBitMask d) MATURED_AMOUNTS = true) as Hrecorded.
  { intros id Hin. destruct (Hpre id Hin) as (sc & amount & Hview & Himm & _).
    destruct (Hin1 id sc amount) as [_ Hu1];
      [by apply elem_of_elements|by rewrite Hv0|done|].
    assert (has_flag (contentBitMask (scUndo_at id u1)) MATURED_AMOUNTS = true) as Hbit.
    { rewrite Hu1. simpl. by apply has_flag_lor_same. }
    exists (scUndo_at id u1). split; [by eapply scUndo_at_flagged|done]. }
  (* the reverting *)
  assert (HaveSidechainEvents height c' = Some (false, c')) as Hhave'.
  { unfold HaveSidechainEvents, FetchSidechainEvents. munfold. simpl.
    by rewrite lookup_insert_eq. }
  destruct (RevertSidechainEvents_maturing_loop_spec height (map_to_list (scUndoDatabyScId u1))
              CSidechainEvents_default c')
    as (rec' & c2 & Hloop2 & Hsame2 & Hrceas & Hrmat & Hrin & Hrout).
  { apply NoDup_fst_map_to_list. }
  { intros id d Hin Hbit. apply elem_of_map_to_list in Hin.
    destruct (Hentries id d Hin) as [_ Hm]. destruct (Hm Hbit)
      as (_ & sc & amount & _ & _ & Ha & Hbal & Hsum & -> & Hview').
    exists (matured height amount sc). split; [done|]. simpl.
    rewrite int64_in_range by (unfold in_int64; lia). lia. }
  assert (rec' = ev) as ->.
  { destruct rec' as [m1 c1']. destruct ev as [m2 c2']. simpl in *. f_equal; [|congruence].
    apply set_eq. intros id. rewrite Hrmat. split.
    - intros [Hin|(d & Hin & Hbit)]; [set_solver|]. apply elem_of_map_to_list in Hin.
      destruct (Hentries id d Hin) as [_ Hm]. by destruct (Hm Hbit).
    - intros Hin. right. destruct (Hrecorded id Hin) as (d & Hd & Hbit).
      exists d. split; [by apply elem_of_map_to_list|done]. }
  assert (RevertSidechainEvents_ceasing_loop (map_to_list (scUndoDatabyScId u1))
            (ev, pCertsStateInfo) c2 = Some ((true, (ev, pCertsStateInfo)), c2)) as Hloop3.
  { apply RevertSidechainEvents_ceasing_loop_skip. intros id d Hin.
    apply elem_of_map_to_list in Hin. by destruct (Hentries id d Hin). }
  pose proof Hsame2 as (Hb2 & Hm2 & Hc2 & He2).
  set (c'' := set_cacheSidechainEvents
                (<[height := mkEvEntry ev FRESH]> (cacheSidechainEvents c2)) c2).
  exists u1, c', c''. split; [exact Hhandle|]. split.
  { unfold events_view. simpl. by rewrite lookup_insert_eq. }
  split.
  { unfold RevertSidechainEvents. rewrite (bind_eq _ _ _ _ _ Hhave'). cbn [negb].
    rewrite (bind_eq _ _ _ _ _ Hloop2). rewrite (bind_eq _ _ _ _ _ Hloop3). cbn [negb].
    assert (CSidechainEvents_IsNull ev = false) as ->.
    { unfold CSidechainEvents_IsNull. by rewrite bool_decide_eq_false_2. }
    cbn [negb]. unfold ModifySidechainEvents. munfold. rewrite He2. simpl.
    by rewrite lookup_insert_eq. }
  split.
  - intros id. change (sidechain_view c'' id) with (sidechain_view c2 id).
    destruct (decide (id ∈ maturingScs ev)) as [Hin|Hnin].
    + destruct (Hrecorded id Hin) as (d & Hd & Hbit).
      destruct (Hentries id d Hd) as [_ Hm]. destruct (Hm Hbit)
        as (_ & sc & amount & Hview & Himm & Ha & Hbal & Hsum & Happ & Hview').
      rewrite (Hrin id d) by (by try apply elem_of_map_to_list).
      rewrite Hview', Hview, Happ. simpl. f_equal.
      apply unmatured_matured; unfold in_int64; try done; lia.
    + rewrite Hrout.
      * rewrite Hv'. destruct (Hout1 id) as [-> _]; [by rewrite elem_of_elements|]. apply Hv0.
      * intros d Hin. apply elem_of_map_to_list in Hin.
        destruct (Hentries id d Hin) as [_ Hm].
        destruct (has_flag (contentBitMask d) MATURED_AMOUNTS); [|done].
        by destruct (Hm eq_refl).
  - intros h. unfold events_view at 1. simpl. rewrite He2. simpl.
    destruct (decide (h = height)) as [->|Hne].
    + by rewrite lookup_insert_eq.
    + rewrite !lookup_insert_ne by done. rewrite He1.
      transitivity (events_view c0 h); [|apply Hevs0].
      unfold events_view. rewrite Hb2. simpl. by rewrite Hb1.
Qed.

(** ** Inputs *)

Lemma AccessCoins_view (txid : uint256) (c : CCoinsViewCache) :
  exists c1, AccessCoins txid c = Some (coins_view c txid, c1) /\
    forall k, coins_view c1 k = coins_view c k.
Proof.
  unfold AccessCoins. munfold. rewrite FetchCoins_eq. unfold coins_view.
  destruct (cacheCoins c !! txid) as [e|] eqn:He.
  - exists c. split; [done|done].
  - destruct (base_GetCoins (base c) txid) as [co|] eqn:Hb.
    + eexists. split; [done|]. intros k. simpl.
      destruct (decide (k = txid)) as [->|Hne].
      * by rewrite lookup_insert_eq, He, Hb.
      * by rewrite lookup_insert_ne.
    + by exists c.
Qed.

Lemma IsAvailable_N (n : N) (co : CCoins) :
  IsAvailable (Z.of_N n) co = bool_decide (is_Some (unspent_at co (N.to_nat n))).
Proof. rewrite <- IsAvailable_unspent_at. by rewrite N_nat_Z. Qed.

Lemma output_for_same (c c1 : CCoinsViewCache) (input : CTxIn) :
  (forall k, coins_view c1 k = coins_view c k) -> output_for c1 input = output_for c input.
Proof. intros Hv. unfold output_for. by rewrite Hv. Qed.

Lemma outputs_for_same (c c1 : CCoinsViewCache) (vin : list CTxIn) :
  (forall k, coins_view c1 k = coins_view c k) ->
  mapM (output_for c1) vin = mapM (output_for c) vin.
Proof.
  intros Hv. induction vin as [|input vin IH]; [done|]. simpl.
  by rewrite (output_for_same c c1), IH.
Qed.

Lemma available_output_for (c : CCoinsViewCache) (input : CTxIn) :
  match coins_view c (prevout_hash input) with
  | Some co => IsAvailable (Z.of_N (prevout_n input)) co
  | None => false
  end = bool_decide (is_Some (output_for c input)).
Proof.
  unfold output_for. destruct (coins_view c (prevout_hash input)) as [co|]; simpl.
  - apply IsAvailable_N.
  - done.
Qed.

Lemma HaveInputs_loop (vin : list CTxIn) :
  forall c : CCoinsViewCache,
    exists c1,
      all_ok (fun input =>
                coins <- AccessCoins (prevout_hash input) ;;
                ret (match coins with
                     | Some co => IsAvailable (Z.of_N (prevout_n input)) co
                     | None => false
                     end)) vin c
      = Some (bool_decide (is_Some (mapM (output_for c) vin)), c1) /\
      forall k, coins_view c1 k = coins_view c k.
Proof.
  induction vin as [|input vin IH]; intros c.
  - exists c. by split.
  - destruct (AccessCoins_view (prevout_hash input) c) as (c1 & Hacc & Hv1).
    cbn [all_ok]. unfold bind at 1. unfold bind at 1. rewrite Hacc. unfold ret at 1.
    rewrite available_output_for.
    destruct (output_for c input) as [o|] eqn:Hout.
    + rewrite bool_decide_eq_true_2 by eauto.
      destruct (IH c1) as (c2 & Hrun & Hv2). exists c2. split.
      * rewrite Hrun. do 2 f_equal. rewrite (outputs_for_same c c1) by done.
        cbn [mapM]. rewrite Hout. simpl.
        by destruct (mapM (output_for c) vin) as [outs|].
      * intros k. by rewrite Hv2.
    + rewrite bool_decide_eq_false_2 by (by intros [? ?]).
      exists c1. split; [|done]. unfold ret. do 2 f_equal. symmetry.
      apply bool_decide_eq_false_2. cbn [mapM]. rewrite Hout. simpl. by intros [? ?].
Qed.

Lemma GetOutputFor_view (input : CTxIn) (c : CCoinsViewCache) :
  match output_for c input with
  | Some o =>
      exists c1, GetOutputFor input c = Some (o, c1) /\
        forall k, coins_view c1 k = coins_view c k
  | None => GetOutputFor input c = None
  end.
Proof.
  destruct (AccessCoins_view (prevout_hash input) c) as (c1 & Hacc & Hv1).
  unfold GetOutputFor. rewrite (bind_eq _ _ _ _ _ Hacc).
  rewrite available_output_for. unfold output_for.
  destruct (coins_view c (prevout_hash input)) as [co|]; simpl; [|done].
  unfold unspent_at. destruct (vout co !! N.to_nat (prevout_n input)) as [o|] eqn:Ho; simpl.
  - destruct (CTxOut_IsNull o); [done|]. exists c1. by split.
  - done.
Qed.

Lemma GetValueIn_loop_view (vin : list CTxIn) :
  forall (c : CCoinsViewCache) (nResult : CAmount),
    int64 nResult = nResult ->
    match mapM (output_for c) vin with
    | Some outs =>
        exists c1,
          GetValueIn_loop vin nResult c
          = Some (int64 (nResult + sum_values (nValue <$> outs)), c1) /\
          forall k, coins_view c1 k = coins_view c k
    | None => GetValueIn_loop vin nResult c = None
    end.
Proof.
  induction vin as [|input vin IH]; intros c nResult Hres.
  - simpl. exists c. split; [|done]. unfold ret. by rewrite Z.add_0_r, Hres.
  - cbn [mapM GetValueIn_loop]. pose proof (GetOutputFor_view input c) as Hout.
    destruct (output_for c input) as [o|]; simpl.
    + destruct Hout as (c1 & Hrun & Hv1). rewrite (bind_eq _ _ _ _ _ Hrun).
      specialize (IH c1 (int64 (nResult + nValue o))
                    (int64_in_range _ (int64_range _))).
      rewrite (outputs_for_same c c1) in IH by done.
      destruct (mapM (output_for c) vin) as [outs|]; simpl; [|done].
      destruct IH as (c2 & Hloop & Hv2). exists c2. split.
      * rewrite Hloop, int64_add_l. by rewrite Z.add_assoc.
      * intros k. by rewrite Hv2.
    + unfold bind. by rewrite Hout.
Qed.

(** X29. [HaveInputs] answers whether the transaction is a coinbase or every
    one of its inputs refers to an unspent output of the coins that the
    cache reaches, and leaves these coins as they are.  When it answers
    true, [GetValueIn] afterwards returns the sum, in 64 bits, of the values
    of these outputs and of the joinsplits (nothing for a coinbase); when
    it answers false, [GetValueIn] fails its assertion, before and after. *)
Theorem HaveInputs_then_GetValueIn (txBase : CTransactionBase) (c : CCoinsViewCache) :
  exists b c1,
    HaveInputs txBase c = Some (b, c1) /\
    b = txb_IsCoinBase txBase
        || bool_decide (is_Some (mapM (output_for c) (GetVin txBase))) /\
    (forall k, coins_view c1 k = coins_view c k) /\
    (b = false -> GetValueIn txBase c = None /\ GetValueIn txBase c1 = None) /\
    (b = true ->
     exists c2, GetValueIn txBase c1 = Some (value_in c txBase, c2) /\
       forall k, coins_view c2 k = coins_view c k).
Proof.
  unfold HaveInputs, GetValueIn, value_in.
  destruct (txb_IsCoinBase txBase); cbn [negb orb].
  - exists true, c. split; [done|]. split; [done|]. split; [done|].
    split; [done|]. intros _. by exists c.
  - destruct (HaveInputs_loop (GetVin txBase) c) as (c1 & Hrun & Hv1).
    eexists _, c1. split; [exact Hrun|]. split; [done|]. split; [done|].
    pose proof (GetValueIn_loop_view (GetVin txBase) c 0 eq_refl) as H0.
    pose proof (GetValueIn_loop_view (GetVin txBase) c1 0 eq_refl) as H1.
    rewrite (outputs_for_same c c1) in H1 by done.
    destruct (mapM (output_for c) (GetVin txBase)) as [outs|]; simpl.
    + split; [done|]. intros _. destruct H1 as (c2 & Hloop & Hv2).
      exists c2. split.
      * rewrite (bind_eq _ _ _ _ _ Hloop). unfold ret. by rewrite int64_add_l.
      * intros k. by rewrite Hv2.
    + split; [|done]. intros _. unfold bind. by rewrite H0, H1.
Qed.

(** ** The format of CTxInUndo *)

Lemma nCode_height (h : Z) (b : bool) :
  0 <= h < 2 ^ 31 ->
  uint32 (h * 2 + (if b then 1 else 0)) / 2 = h.
Proof.
  intros Hh. unfold uint32. rewrite Z.mod_small by (destruct b; lia).
  destruct b; Z.div_mod_to_equations; lia.
Qed.

Lemma nCode_coinbase (h : Z) (b : bool) :
  0 <= h < 2 ^ 31 ->
  negb (Z.land (uint32 (h * 2 + (if b then 1 else 0))) 1 =? 0) = b.
Proof.
  intros Hh. unfold uint32. rewrite Z.mod_small by (destruct b; lia).
  change 1 with (Z.ones 1) at 2. rewrite Z.land_ones by lia.
  change (2 ^ 1) with 2.
  destruct b.
  - replace ((h * 2 + 1) mod 2) with 1 by (Z.div_mod_to_equations; lia). done.
  - replace ((h * 2 + 0) mod 2) with 0 by (Z.div_mod_to_equations; lia). done.
Qed.

(** X30. Reading, into any [CTxInUndo], what [Serialize] wrote for an undo
    with a height below 2^31 gives back its output, its coinbase flag and
    its height.  The version is the one [VARINT] reads back when the height
    is positive, and stays that of the object read into otherwise;
    [nFirstBwtPos] and [nBwtMaturityHeight] are those of the undo when its
    height is positive and its version has the low seven bits of
    [SC_CERT_VERSION], and stay those of the object read into otherwise.
    The rest of the stream is left. *)
Theorem CTxInUndo_Unserialize_Serialize `{ChainParams} `{CompressorLib}
    (u into : CTxInUndo) (nVersion' : Z) (rest : Stream) :
  0 <= undo_nHeight u < 2 ^ 31 ->
  let nCode := uint32 (undo_nHeight u * 2 + (if undo_fCoinBase u then 1 else 0)) in
  reads_back Serialize_VARINT_uint Unserialize_VARINT_uint nCode nCode ->
  reads_back Serialize_VARINT_int Unserialize_VARINT_int (undo_nVersion u) nVersion' ->
  Z.land nVersion' 0x7f = Z.land (undo_nVersion u) 0x7f ->
  reads_back Serialize_CTxOutCompressor (Unserialize_CTxOutCompressor (undo_txout into))
    (undo_txout u) (undo_txout u) ->
  reads_back Serialize_int Unserialize_int (undo_nFirstBwtPos u) (undo_nFirstBwtPos u) ->
  reads_back Serialize_int Unserialize_int
    (undo_nBwtMaturityHeight u) (undo_nBwtMaturityHeight u) ->
  CTxInUndo_Unserialize into (CTxInUndo_Serialize u ++ rest)
  = Some (read_back u into nVersion', rest).
Proof.
  intros Hh nCode Hcode Hver Hland Hout Hfirst Hmat.
  unfold CTxInUndo_Unserialize, CTxInUndo_Serialize, read_back, with_cert_fields.
  fold nCode. rewrite <- !app_assoc, Hcode.
  unfold nCode. rewrite nCode_height, nCode_coinbase by done.
  destruct (0 <? undo_nHeight u) eqn:Hpos; cbn [andb].
  - rewrite Hver, Hout, Hland.
    destruct (Z.land (undo_nVersion u) 127 =? Z.land SC_CERT_VERSION 127).
    + by rewrite <- app_assoc, Hfirst, Hmat.
    + done.
  - by rewrite app_nil_l, Hout.
Qed.

(** ** The scenarios, run *)

Local Existing Instance scenario_Externals.

(** The round trip of C1 on the certificate of S2: the update leaves the
    balance 70, the restore brings the sidechain of height 204 back. *)
Lemma cert_undo_round_trip_S2 :
  exists blockUndo1 c1 c2 e2,
    UpdateSidechain cert_S2 blockUndo_new cache_S1_204 = Some ((true, blockUndo1), c1) /\
    RestoreSidechain cert_S2 (scUndo_at scenario_S blockUndo1) c1 = Some (true, c2) /\
    cacheSidechains c2 !! scenario_S = Some e2 /\
    sidechain e2 = sidechain_S1_204.
Proof.
  assert (exists c0, GetSidechain scenario_S cache_S1_204 = Some (Some sidechain_S1_204, c0))
    as [c0 Hget] by (eexists; vm_compute; reflexivity).
  assert (exists blockUndo1 c1,
            UpdateSidechain cert_S2 blockUndo_new cache_S1_204 = Some ((true, blockUndo1), c1))
    as (blockUndo1 & c1 & Hupd) by (eexists _, _; vm_compute; reflexivity).
  destruct (cert_undo_round_trip cert_S2 blockUndo_new blockUndo1 cache_S1_204 c0 c1
              sidechain_S1_204) as (c2 & e2 & Hres & Hslot & Hsc).
  - simpl. lia.
  - simpl. lia.
  - unfold in_int64. simpl. lia.
  - exact Hget.
  - exact Hupd.
  - exists blockUndo1, c1, c2, e2. done.
Defined.

(** C3 on the certificate of S2: the balance 100 becomes 70; a certificate
    with backward transfers of 130 is refused. *)
Lemma UpdateSidechain_subtracts_bwt_S2 :
  (exists u' c' e',
     UpdateSidechain cert_S2 blockUndo_new cache_S1_204 = Some ((true, u'), c') /\
     cacheSidechains c' !! scenario_S = Some e' /\ balance (sidechain e') = 70) /\
  (exists u' c', UpdateSidechain cert_S2_over blockUndo_new cache_S1_204 = Some ((false, u'), c')).
Proof.
  assert (exists c0, GetSidechain scenario_S cache_S1_204 = Some (Some sidechain_S1_204, c0))
    as [c0 Hget] by (eexists; vm_compute; reflexivity).
  split.
  - destruct (UpdateSidechain_subtracts_bwt cert_S2 blockUndo_new cache_S1_204 c0
                sidechain_S1_204 100) as [_ Hok].
    + vm_compute; reflexivity.
    + exact Hget.
    + left. split; vm_compute; reflexivity.
    + destruct Hok as (u' & c' & e' & Hupd & Hslot & _ & Hbal); [simpl; lia|].
      exists u', c', e'. split; [done|]. split; [done|]. apply Hbal.
      unfold in_int64. simpl. lia.
  - destruct (UpdateSidechain_subtracts_bwt cert_S2_over blockUndo_new cache_S1_204 c0
                sidechain_S1_204 100) as [Hfail _].
    + vm_compute; reflexivity.
    + exact Hget.
    + left. split; vm_compute; reflexivity.
    + apply Hfail. simpl. lia.
Defined.

(** C4 on S1: at height 204 the amount 100 matures. *)
Lemma HandleSidechainEvents_matures_S1 :
  exists blockUndo' pCertsStateInfo' c' sc',
    HandleSidechainEvents 204 blockUndo_new None cache_S1
    = Some ((true, blockUndo', pCertsStateInfo'), c') /\
    sidechain_view c' scenario_S = Some sc' /\
    balance sc' = 100 /\ mImmatureAmounts sc' !! 204 = None /\
    appliedMaturedAmount (scUndo_at scenario_S blockUndo') = 100 /\
    HaveSidechainEvents 204 c' = Some (false, c').
Proof.
  assert (exists c0, GetSidechainEvents 204 cache_S1
                     = Some (Some (mkEvents {[scenario_S]} ∅), c0))
    as [c0 Hget] by (eexists; vm_compute; reflexivity).
  destruct (HandleSidechainEvents_matures 204 blockUndo_new None cache_S1 c0
              (mkEvents {[scenario_S]} ∅)) as (u' & info' & c' & Hrun & Hmat & _ & Hhave).
  - reflexivity.
  - exact Hget.
  - simpl. intros id ->%elem_of_singleton. exists sidechain_S1, 100.
    split; vm_compute; reflexivity.
  - simpl. intros id Hin. by apply elem_of_empty in Hin.
  - destruct (Hmat scenario_S sidechain_S1 100) as (sc' & Hv & Hb & _ & Hi & Ha & _).
    + simpl. by apply elem_of_singleton.
    + vm_compute; reflexivity.
    + vm_compute; reflexivity.
    + exists u', info', c', sc'. rewrite Hb. done.
Defined.

(** C5 on S2 and S3: the certificate of S2 moves the ceasing of [S] from 215
    to 225, where a FRESH slot holds it alone; scheduling the certificate of
    S3, of the same epoch, returns true with nothing at 215 and the event at
    225 in place. *)
Lemma ScheduleSidechainEvent_cert_S2_S3 :
  (exists c',
     ScheduleSidechainEvent_cert cert_S2 cache_S1_204 = Some (true, c') /\
     cacheSidechainEvents c' !! 215 = Some (mkEvEntry (mkEvents ∅ ∅) ERASED) /\
     cacheSidechainEvents c' !! 225 = Some (mkEvEntry (mkEvents ∅ {[scenario_S]}) FRESH)) /\
  ScheduleSidechainEvent_cert cert_S3 cache_S2 = Some (true, cache_S2).
Proof.
  split.
  - assert (exists c0, AccessSidechain scenario_S cache_S1_204 = Some (Some sidechain_S1_204, c0))
      as [c0 Hacc] by (eexists; vm_compute; reflexivity).
    destruct (ScheduleSidechainEvent_cert_moves_ceasing cert_S2 cache_S1_204 c0
                sidechain_S1_204 215 225 Hacc) as [Hmove _].
    + vm_compute; reflexivity.
    + vm_compute; reflexivity.
    + assert (cacheSidechainEvents c0 = cacheSidechainEvents cache_S1_204 /\
              base c0 = base cache_S1_204) as [Hev Hb]
        by (by apply (AccessSidechain_events _ _ _ _ Hacc)).
      destruct (Hmove (mkEvents ∅ {[scenario_S]}) c0) as (c' & Hrun & Hcur & Hnext & _).
      * unfold GetSidechainEvents, FetchSidechainEvents. munfold. rewrite Hev.
        vm_compute; reflexivity.
      * lia.
      * exists c'. split; [done|]. split.
        -- rewrite Hcur. vm_compute. reflexivity.
        -- rewrite Hnext. unfold events_at. rewrite Hev, Hb. vm_compute. reflexivity.
  - destruct (ScheduleSidechainEvent_cert_moves_ceasing cert_S3 cache_S2 cache_S2
                sidechain_S2 215 225) as [_ Hsame].
    + vm_compute; reflexivity.
    + vm_compute; reflexivity.
    + vm_compute; reflexivity.
    + apply (Hsame cache_S2 cache_S2); vm_compute; reflexivity.
Defined.

(** C7 on a FRESH entry with one output: spending the output through a
    modifier leaves no slot for the key. *)
Lemma FRESH_pruned_slot_erased_on_drop_spend :
  exists c',
    (m <- ModifyCoins 0x7a%N ;;
     Modifier_apply m (fun co => snd (Spend 0 co)) ;;
     CCoinsModifier_dtor m) cache_one_coin = Some (tt, c') /\
    cacheCoins c' !! 0x7a%N = None /\ hasModifier c' = false.
Proof.
  apply (FRESH_pruned_slot_erased_on_drop 0x7a%N cache_one_coin
           (mkCoinsEntry (mkCoins false [mkTxOut 50 []] 120 1 (-1) 0) CCoinsCacheEntry.FRESH)
           (fun co => snd (Spend 0 co))).
  - reflexivity.
  - vm_compute; reflexivity.
  - vm_compute; reflexivity.
  - vm_compute; reflexivity.
Defined.

(** C10 on the same entry: it is as [Cleanup] leaves it, it is not pruned,
    and [HaveCoins] answers true. *)
Lemma HaveCoins_iff_reachable_unpruned_one_coin :
  exists c', HaveCoins 0x7a%N cache_one_coin = Some (true, c') /\
    coins_view c' 0x7a%N = Some (mkCoins false [mkTxOut 50 []] 120 1 (-1) 0).
Proof.
  destruct (proj1 (proj2 (HaveCoins_iff_reachable_unpruned 0x7a%N cache_one_coin
              ltac:(intros co Hco; vm_compute in Hco; injection Hco as <-;
                    exists (mkCoins false [mkTxOut 50 []] 120 1 (-1) 0);
                    vm_compute; reflexivity))))
    as (b & c' & Hrun & Hb & Hview).
  assert (b = true) as ->.
  { apply Hb. exists (mkCoins false [mkTxOut 50 []] 120 1 (-1) 0).
    split; vm_compute; reflexivity. }
  exists c'. split; [exact Hrun|]. rewrite Hview. vm_compute. reflexivity.
Defined.

(** C2 on S5: the child's [tx1], with output 0 spent, overwrites the parent's
    and is DIRTY; the child's [tx2] is installed DIRTY|FRESH. *)
Lemma BatchWrite_coins_cases_S5 :
  exists c' e1,
    BatchWrite_mapCoins mapCoins_S5_child cache_S5_parent = Some (∅, c') /\
    cacheCoins c' !! 1%N = Some e1 /\
    vout (coins e1) = [CTxOut_null; mkTxOut 20 []] /\
    has_flag (flags e1) CCoinsCacheEntry.DIRTY = true /\
    cacheCoins c' !! 2%N
    = Some (mkCoinsEntry (mkCoins false [mkTxOut 5 []] 101 1 (-1) 0)
              (Z.lor CCoinsCacheEntry.DIRTY CCoinsCacheEntry.FRESH)).
Proof.
  destruct (BatchWrite_coins_cases mapCoins_S5_child cache_S5_parent) as [Hret Hcases].
  destruct (proj1 Hret) as (r & c' & Hrun).
  { split; [reflexivity|]. intros txid child Hin. unfold BatchWrite_coin_pre. intros _ Hnone _.
    unfold mapCoins_S5_child in Hin.
    apply lookup_insert_Some in Hin as [[<- <-]|[_ Hin]]; [vm_compute in Hnone; discriminate|].
    apply lookup_singleton_Some in Hin as [<- <-]. vm_compute; reflexivity. }
  destruct (Hcases r c' Hrun) as [-> Hall].
  pose proof (Hall 1%N _ eq_refl eq_refl) as H1.
  pose proof (Hall 2%N _ eq_refl eq_refl) as H2.
  destruct H1 as (e1 & He1 & Hc1 & Hd1 & _). destruct H2 as [_ H2].
  exists c', e1. split; [exact Hrun|]. split; [exact He1|]. split; [by rewrite Hc1|].
  split; [exact Hd1|exact H2].
Defined.

(** C6 on a cache whose best anchor is the root of the pushed tree. *)
Lemma anchor_no_op_same_root :
  PushAnchor [5%N; 6%N] cache_anchor = Some (tt, cache_anchor) /\
  PopAnchor 2%N cache_anchor = Some (tt, cache_anchor).
Proof.
  destruct (anchor_no_op [5%N; 6%N] cache_anchor) as [Hpush Hpop].
  split.
  - destruct Hpush as (c' & Hrun & _ & _ & _ & Hid); [reflexivity|].
    rewrite Hrun, Hid; reflexivity.
  - destruct Hpop as (c' & Hrun & _ & _ & _ & Hid).
    change (best_anchor cache_anchor) with 2%N in Hrun. rewrite Hrun, Hid; reflexivity.
Defined.

(** C9 on a cache that has erased the sidechain [S] and the events of
    height 215, both of which its base still has. *)
Lemma ERASED_slots_read_as_absent_over_base :
  scenario_S ∈ base_GetScIds (base cache_erased_S) /\
  HaveSidechain scenario_S cache_erased_S = Some (false, cache_erased_S) /\
  GetSidechain scenario_S cache_erased_S = Some (None, cache_erased_S) /\
  (exists ids, GetScIds cache_erased_S = Some (ids, cache_erased_S) /\ scenario_S ∉ ids) /\
  HaveSidechainEvents 215 cache_erased_S = Some (false, cache_erased_S) /\
  GetSidechainEvents 215 cache_erased_S = Some (None, cache_erased_S).
Proof.
  destruct (ERASED_slots_read_as_absent cache_erased_S scenario_S 215) as [Hsc Hev].
  destruct (Hsc (mkScEntry sidechain_S1_204 ERASED)) as (H1 & H2 & H3);
    [vm_compute; reflexivity|reflexivity|].
  destruct (Hev (mkEvEntry (mkEvents ∅ ∅) ERASED)) as (H4 & H5);
    [vm_compute; reflexivity|reflexivity|].
  split; [simpl; by apply elem_of_singleton|]. done.
Defined.

Local Existing Instance scenario_SerializeLib.

(** C8 on a block undo of two transactions: written in the new format it
    starts with the three bytes of the marker and is read back whole; a
    stream that starts with the count 2 is read as two entries in the old
    format. *)
Lemma CBlockUndo_marker_dispatch_two_tx :
  (forall rest,
     CBlockUndo_Unserialize blockUndo_new (CBlockUndo_Serialize blockUndo_two_tx ++ rest)
     = Some (blockUndo_two_tx, rest)) /\
  (forall u' s',
     CBlockUndo_Unserialize blockUndo_new [Byte.x02; Byte.x00; Byte.x00; Byte.x07]
     = Some (u', s') ->
     includesSidechainAttributes u' = false /\ length (vtxundo u') = 2%nat).
Proof.
  split.
  - intros rest.
    apply (proj2 (proj2 (proj2 (CBlockUndo_marker_dispatch blockUndo_two_tx blockUndo_new rest)))).
    + intros s. reflexivity.
    + intros s. reflexivity.
    + intros x s Hx. simpl in Hx.
      apply elem_of_cons in Hx as [->|Hx]; [reflexivity|].
      apply list_elem_of_singleton in Hx as ->. reflexivity.
    + intros s. reflexivity.
    + intros s. reflexivity.
    + reflexivity.
  - intros u' s' Hrun.
    destruct (proj1 (proj2 (proj2 (CBlockUndo_marker_dispatch blockUndo_two_tx blockUndo_new [])))
                [Byte.x02; Byte.x00; Byte.x00; Byte.x07] 2
                [Byte.x00; Byte.x00; Byte.x07] u' s') as (Hflag & Hlen & _).
    + reflexivity.
    + vm_compute. discriminate.
    + exact Hrun.
    + split; [exact Hflag|exact Hlen].
Defined.

Local Existing Instance scenario_ChainParams.

Lemma From_cert_drops_low_quality_bwts_two_bwts :
  unspent_at (From_cert cert_two_bwts 210 225 false) 0 = Some (mkTxOut 7 []) /\
  unspent_at (From_cert cert_two_bwts 210 225 false) 1 = None /\
  unspent_at (From_cert cert_two_bwts 210 225 false) 2 = None /\
  unspent_at (From_cert cert_two_bwts 210 225 true) 1 = Some (mkTxOut 30 []).
Proof.
  assert (Z.of_nat (length (cert_GetVout cert_two_bwts)) < 2 ^ 32) as Hlen
    by (vm_compute; reflexivity).
  destruct (From_cert_drops_low_quality_bwts cert_two_bwts 210 225 false Hlen) as [Hlow _].
  destruct (From_cert_drops_low_quality_bwts cert_two_bwts 210 225 true Hlen) as [Htop _].
  rewrite (Hlow 0%nat), (Hlow 1%nat), (Hlow 2%nat), (Htop 1%nat). vm_compute. tauto.
Defined.

Lemma PopAnchor_removes_current_entered :
  PopAnchor 9%N cache_anchor = None /\
  exists c', PopAnchor 9%N cache_anchor_entered = Some (tt, c') /\
    anchor_view c' 2%N = None /\ hashAnchor c' = 9%N.
Proof.
  assert (9%N <> best_anchor cache_anchor) as H1 by (vm_compute; discriminate).
  assert (9%N <> best_anchor cache_anchor_entered) as H2 by (vm_compute; discriminate).
  destruct (PopAnchor_removes_current 9%N cache_anchor H1) as [Hnone _].
  destruct (PopAnchor_removes_current 9%N cache_anchor_entered H2) as [_ Hsome].
  split; [apply Hnone; vm_compute; reflexivity|].
  destruct (Hsome [5%N; 6%N]) as (c' & Hrun & _ & Hv & Hh & _); [vm_compute; reflexivity|].
  exists c'. split; [exact Hrun|]. split; [exact Hv|exact Hh].
Defined.

Lemma PushAnchor_PopAnchor_three :
  exists c1 c2,
    PushAnchor [5%N; 6%N; 7%N] cache_anchor_entered = Some (tt, c1) /\
    anchor_view c1 3%N = Some [5%N; 6%N; 7%N] /\
    PopAnchor 2%N c1 = Some (tt, c2) /\
    best_anchor c2 = 2%N /\ anchor_view c2 3%N = None /\
    anchor_view c2 2%N = Some [5%N; 6%N].
Proof.
  destruct (PushAnchor_PopAnchor [5%N; 6%N; 7%N] cache_anchor_entered)
    as (c1 & c2 & Hpush & _ & Hv1 & Hpop & Hb2 & Hv2 & Hrest);
    [vm_compute; discriminate|vm_compute; reflexivity|].
  exists c1, c2. split; [exact Hpush|]. split; [exact Hv1|]. split; [exact Hpop|].
  split; [exact Hb2|]. split; [exact Hv2|].
  destruct (Hrest 2%N) as [_ ->]; [vm_compute; discriminate|]. vm_compute; reflexivity.
Defined.

Lemma BatchWrite_coins_view_S5 :
  exists c', BatchWrite_mapCoins mapCoins_S5_child cache_S5_parent = Some (∅, c') /\
    same_coins (coins_view c' 1%N)
      (Some (mkCoins false [CTxOut_null; mkTxOut 20 []] 100 1 (-1) 0)) /\
    same_coins (coins_view c' 2%N) (Some (mkCoins false [mkTxOut 5 []] 101 1 (-1) 0)) /\
    same_coins (coins_view c' 3%N) None.
Proof.
  destruct (BatchWrite_coins_view mapCoins_S5_child cache_S5_parent)
    as (c' & Hrun & Hview & _).
  - reflexivity.
  - intros txid e He Hf. unfold cache_S5_parent in He. simpl in He.
    apply lookup_singleton_Some in He as [<- <-]. vm_compute in Hf. discriminate.
  - intros txid child Hin. unfold mapCoins_S5_child in Hin.
    apply lookup_insert_Some in Hin as [[<- <-]|[_ Hin]].
    + split; [intros Hd; vm_compute in Hd; discriminate|].
      intros _ Hn. vm_compute in Hn. discriminate.
    + apply lookup_singleton_Some in Hin as [<- <-].
      split; [intros Hd; vm_compute in Hd; discriminate|]. intros _ _. exact I.
  - intros txid child Hin. unfold BatchWrite_coin_pre. intros _ Hnone _.
    unfold mapCoins_S5_child in Hin.
    apply lookup_insert_Some in Hin as [[<- <-]|[_ Hin]]; [vm_compute in Hnone; discriminate|].
    apply lookup_singleton_Some in Hin as [<- <-]. vm_compute; reflexivity.
  - exists c'. split; [exact Hrun|]. split; [exact (Hview 1%N)|].
    split; [exact (Hview 2%N)|exact (Hview 3%N)].
Defined.

Lemma Modifier_write_view_spend :
  exists c',
    (m <- ModifyCoins 0x7a%N ;;
     Modifier_apply m (fun co => snd (Spend 0 co)) ;;
     CCoinsModifier_dtor m) cache_one_coin = Some (tt, c') /\
    same_coins (coins_view c' 0x7a%N) (Some (mkCoins false [] 120 1 (-1) 0)) /\
    fresh_ok c'.
Proof.
  destruct (Modifier_write_view 0x7a%N (fun co => snd (Spend 0 co)) cache_one_coin)
    as (c' & Hrun & Hview & _ & Hfresh & _).
  - reflexivity.
  - intros txid e He Hf. exact I.
  - exists c'. split; [exact Hrun|]. split; [exact Hview|exact Hfresh].
Defined.

Lemma RevertTxOutputs_undoes_UpdateSidechain_S1 :
  exists c' c'',
    UpdateSidechain_tx scenario_tx_cc 0xb10d%N 210 cache_S1_204 = Some (true, c') /\
    is_Some (sidechain_view c' 0x5d%N) /\
    RevertTxOutputs scenario_tx_cc 210 c' = Some (true, c'') /\
    sidechain_view c'' scenario_S = Some sidechain_S1_204 /\
    sidechain_view c'' 0x5d%N = None.
Proof.
  assert (exists c', UpdateSidechain_tx scenario_tx_cc 0xb10d%N 210 cache_S1_204
                     = Some (true, c') /\ is_Some (sidechain_view c' 0x5d%N))
    as (c' & Hupd & Hnew) by (vm_compute; eexists; split; [reflexivity|by eexists]).
  destruct (RevertTxOutputs_undoes_UpdateSidechain scenario_tx_cc 0xb10d%N 210
              cache_S1_204 c' Hupd) as (c'' & Hrev & _ & Hview).
  - constructor; [|constructor]. vm_compute. repeat split; discriminate.
  - repeat constructor.
  - repeat constructor.
  - intros id sc Hsc. unfold sidechain_view, cache_S1_204 in Hsc. simpl in Hsc.
    destruct (decide (id = scenario_S)) as [->|Hn].
    + vm_compute in Hsc. injection Hsc as <-.
      split; [vm_compute; reflexivity|]. intros a Ha. vm_compute in Ha. discriminate.
    + rewrite lookup_singleton_ne in Hsc by done. discriminate.
  - exists c', c''. split; [exact Hupd|]. split; [exact Hnew|]. split; [exact Hrev|].
    rewrite !Hview. vm_compute. split; reflexivity.
Defined.

Lemma DecrementImmatureAmount_cases_S1 :
  exists c' e',
    DecrementImmatureAmount scenario_S 100 204 cache_S1 = Some (true, c') /\
    cacheSidechains c' !! scenario_S = Some e' /\
    mImmatureAmounts (sidechain e') !! 204 = None.
Proof.
  destruct (DecrementImmatureAmount_cases scenario_S 100 204 cache_S1
              (mkScEntry sidechain_S1 FRESH))
    as (b & c' & Hrun & Hiff & _ & Htrue); [vm_compute; reflexivity|].
  assert (b = true) as ->.
  { apply Hiff. exists 100. split; [vm_compute; reflexivity|lia]. }
  destruct (Htrue eq_refl) as (e' & He' & _ & _ & Hamt & _).
  exists c', e'. split; [exact Hrun|]. split; [exact He'|].
  rewrite (Hamt 100); [reflexivity|vm_compute; reflexivity|unfold in_int64; lia].
Defined.

Lemma CheckQuality_around_UpdateSidechain_S2 :
  exists u' c',
    UpdateSidechain cert_S2 blockUndo_new cache_S1_204 = Some ((true, u'), c') /\
    (exists c2, CheckQuality cert_S2_over c' = Some (false, c2)) /\
    (exists c2, CheckQuality cert_S3 c' = Some (true, c2)).
Proof.
  assert (exists u' c', UpdateSidechain cert_S2 blockUndo_new cache_S1_204
                        = Some ((true, u'), c'))
    as (u' & c' & Hupd) by (vm_compute; eexists _, _; reflexivity).
  destruct (CheckQuality_around_UpdateSidechain cert_S2 blockUndo_new u' cache_S1_204 c' Hupd)
    as [_ Hafter].
  exists u', c'. split; [exact Hupd|]. split.
  - destruct (Hafter cert_S2_over) as (b & c2 & Hrun & Hsame & _).
    assert (b = false) as ->.
    { apply Hsame; [reflexivity|]. vm_compute. repeat split; discriminate. }
    by exists c2.
  - destruct (Hafter cert_S3) as (b & c2 & Hrun & Hsame & _).
    destruct b; [by exists c2|].
    destruct (proj1 (Hsame eq_refl) eq_refl) as (_ & _ & Hq). vm_compute in Hq.
    by destruct Hq.
Defined.

Lemma Schedule_Cancel_fwd_S1 :
  exists c1 c2,
    ScheduleSidechainEvent_fwd scenario_fwd 210 cache_S1_204 = Some (true, c1) /\
    CancelSidechainEvent_fwd scenario_fwd 210 c1 = Some (true, c2) /\
    events_view c2 214 = None /\
    forall h, events_view c2 h = events_view cache_S1_204 h.
Proof.
  destruct (Schedule_Cancel_fwd scenario_fwd 210 cache_S1_204)
    as (c1 & c2 & Hrun1 & Hrun2 & _ & Hview & Hclean); [vm_compute; by eexists|].
  exists c1, c2. split; [exact Hrun1|]. split; [exact Hrun2|].
  split; [rewrite Hview; vm_compute; reflexivity|].
  apply Hclean; [by vm_compute|vm_compute; reflexivity].
Defined.

Lemma Schedule_Cancel_creation_S :
  exists c1 c2,
    ScheduleSidechainEvent_creation scenario_creation 200 cache_S_created = Some (true, c1) /\
    is_Some (events_view c1 204) /\ is_Some (events_view c1 215) /\
    CancelSidechainEvent_creation scenario_creation 200 c1 = Some (true, c2) /\
    forall h, events_view c2 h = events_view cache_S_created h.
Proof.
  destruct (Schedule_Cancel_creation scenario_creation 200 cache_S_created
              (mkScEntry sidechain_S1 FRESH) 204 215)
    as (c1 & c2 & Hrun1 & (ev1 & Hmat & _) & (ev2 & Hceas & _) & _ & Hrun2 & _ & _ & Hclean);
    [vm_compute; reflexivity..|].
  exists c1, c2. split; [exact Hrun1|]. split; [by exists ev1|]. split; [by exists ev2|].
  split; [exact Hrun2|].
  apply Hclean; [by vm_compute|by vm_compute|vm_compute; reflexivity..].
Defined.

Lemma Schedule_Cancel_cert_S2 :
  exists c1 c2,
    ScheduleSidechainEvent_cert cert_S2 cache_S1_204 = Some (true, c1) /\
    events_view c1 215 = None /\
    events_view c1 225 = Some (mkEvents ∅ {[scenario_S]}) /\
    CancelSidechainEvent_cert cert_S2 c1 = Some (true, c2) /\
    forall h, events_view c2 h = events_view cache_S1_204 h.
Proof.
  destruct (Schedule_Cancel_cert cert_S2 cache_S1_204 (mkScEntry sidechain_S1_204 DIRTY)
              (mkEvents ∅ {[scenario_S]}) 215 225)
    as (c1 & c2 & Hrun1 & Hcur & Hnext & Hrun2 & _ & _ & _ & _ & Hclean);
    [vm_compute; reflexivity..|by vm_compute|vm_compute; reflexivity|].
  exists c1, c2. split; [exact Hrun1|].
  split; [rewrite Hcur; vm_compute; reflexivity|].
  split; [rewrite Hnext; vm_compute; reflexivity|].
  split; [exact Hrun2|].
  apply Hclean; [by vm_compute|by vm_compute|vm_compute; reflexivity].
Defined.

Lemma RestoreBackwardTransfers_undoes_Nullify_fresh :
  exists outs c1 c2 co2,
    NullifyBackwardTransfers 0xce52%N [] cache_cert_fresh = Some (outs, c1) /\
    length outs = 2%nat /\
    coins_view c1 0xce52%N ≫= (fun co => unspent_at co 0) = None /\
    coins_view c1 0xce52%N ≫= (fun co => unspent_at co 1) = None /\
    RestoreBackwardTransfers 0xce52%N outs c1 = Some (true, c2) /\
    coins_view c2 0xce52%N = Some co2 /\
    unspent_at co2 0 = Some (mkTxOut 30 []) /\
    unspent_at co2 1 = Some (mkTxOut 20 []) /\
    nHeight co2 = 210.
Proof.
  destruct (RestoreBackwardTransfers_undoes_Nullify 0xce52%N cache_cert_fresh
              (mkCoinsEntry coins_cert_no_change
                 (Z.lor CCoinsCacheEntry.DIRTY CCoinsCacheEntry.FRESH))
              (mkTxOut 20 []))
    as (outs & c1 & c2 & co2 & Hnull & Hlen & Hgone & Hrest & Hview & Hfields & Hout & _).
  - reflexivity.
  - reflexivity.
  - vm_compute. reflexivity.
  - intros _. reflexivity.
  - simpl. lia.
  - simpl. lia.
  - simpl. lia.
  - simpl. lia.
  - reflexivity.
  - reflexivity.
  - exists outs, c1, c2, co2. split; [exact Hnull|].
    split; [simpl in Hlen; lia|].
    split; [apply Hgone; simpl; lia|]. split; [apply Hgone; simpl; lia|].
    split; [exact Hrest|]. split; [exact Hview|].
    rewrite !Hout. destruct Hfields as (_ & Hh & _). rewrite Hh. by vm_compute.
Defined.

Lemma RevertSidechainEvents_undoes_maturing_S1 :
  exists blockUndo' c' c'',
    HandleSidechainEvents 204 blockUndo_new None cache_S1 = Some ((true, blockUndo', None), c') /\
    events_view c' 204 = None /\
    RevertSidechainEvents blockUndo' 204 None c' = Some ((true, None), c'') /\
    sidechain_view c'' scenario_S = Some sidechain_S1 /\
    events_view c'' 204 = Some (mkEvents {[scenario_S]} ∅).
Proof.
  destruct (RevertSidechainEvents_undoes_maturing 204 blockUndo_new None cache_S1
              (mkEvents {[scenario_S]} ∅))
    as (u' & c' & c'' & Hhandle & Hgone & Hrevert & Hsc & Hev).
  - vm_compute. reflexivity.
  - reflexivity.
  - by vm_compute.
  - reflexivity.
  - intros id. unfold scUndo_at, blockUndo_new. simpl. rewrite lookup_empty. simpl.
    split; reflexivity.
  - intros id Hin. simpl in Hin. apply elem_of_singleton in Hin. subst id.
    exists sidechain_S1, 100. split; [vm_compute; reflexivity|].
    split; [vm_compute; reflexivity|]. simpl. lia.
  - exists u', c', c''. split; [exact Hhandle|]. split; [exact Hgone|].
    split; [exact Hrevert|]. rewrite Hsc, Hev. split; vm_compute; reflexivity.
Defined.

Local Existing Instance scenario_CompressorLib.

Lemma CTxInUndo_Unserialize_Serialize_cert :
  CTxInUndo_Unserialize undo_plain (CTxInUndo_Serialize undo_cert_last ++ [Byte.xff])
  = Some (mkTxInUndo (mkTxOut 20 []) false 210 123 1 214, [Byte.xff]).
Proof.
  rewrite (CTxInUndo_Unserialize_Serialize undo_cert_last undo_plain 123 [Byte.xff]).
  - reflexivity.
  - simpl. lia.
  - intros s. reflexivity.
  - intros s. reflexivity.
  - reflexivity.
  - intros s. reflexivity.
  - intros s. reflexivity.
  - intros s. reflexivity.
Defined.
